(* ===== verification/_CoqProject ===== *)
-Q . S2P
Prelude.v
Lists.v
GoStrings.v
Utf8.v
GoNet.v
GoJson.v
JsonPrint.v
Logfmt.v
GoFlag.v
GoTime.v
GoUrl.v
GoCodec.v
Redact.v
Logging.v
GoDecode.v
Api.v
Invite.v
Session.v
PeerMTU.v
EchoPayload.v
TunnelMTU.v
Candidates.v
Sockets.v
Nomination.v
Stun.v
Ice.v
Negotiate.v
Client.v
Endpoints.v
StunBind.v
Keys.v
Responses.v
Requests.v
Recovery.v
Switch.v
Device.v
UdpEcho.v
Supervisor.v
Workers.v
Dns.v
Dial.v
Socks.v
Cli.v
CommandLine.v
Conns.v
Tunnel.v
Attempt.v
Program.v
