(* ===== verification/Prelude.v ===== *)
(** * Teleport client: verification development

    The program is a userspace VPN client in Go: it pairs with a console through
    a cloud API, exchanges connection candidates, lets the console nominate one
    of the paths by STUN, runs WireGuard over it in a userspace network stack,
    and offers that stack as a SOCKS5 proxy. This library models the parts of it
    that decide something, and proves what makes them correct.

    ** The parts and their files

    What the client uses of Go's standard library:
    - [Prelude]: results, 64-bit integers, notations, tactics;
    - [Lists]: the loops with a [seen] map, stable sorting, subsequences;
    - [GoStrings], [GoNet], [GoJson], [GoTime], [GoUrl], [GoCodec]: strings and
      numbers, addresses, JSON, times, URLs, base64 and hexadecimal, as far as
      they are called;
    - [Utf8], [JsonPrint]: runes; [json.Marshal] of any value, and what a parser
      makes of its text;
    - [GoDecode]: [json.Unmarshal] into Go types: the class [Decode] of types, the
      class [Struct] of records given by their tagged fields, slices with the
      array behind them;
    - [Logfmt]: [strconv.Quote], [slog.TextHandler] and a reader of its lines;
    - [GoFlag]: package [flag], and the grammar of the command lines it reads.

    Getting and keeping a session:
    - [Cli] and [CommandLine] ([main.go]): the flags and what sets them, the checks
      on their values, and the exit status;
    - [Redact] ([logging.go], [api.go]): which log keys are sensitive, the
      replacement of known secrets, the debug entry of an error response;
    - [Logging] ([logging.go], [api.go]): the logger, wireguard-go's logger, and
      the line written for that entry;
    - [Api] ([api.go]): the end of a request, transient errors, the poll loop;
    - [Responses] ([api.go], [nomination.go]): the structs of the API with their
      tags, encoded and decoded;
    - [Requests] ([api.go], [main.go]): the requests from the values sent to the
      values read, the polls, the exchanges and the pairing built from them;
    - [Invite] ([api.go]): reading an invite, identifiers, the device token, the
      URL and header of a request;
    - [Session] ([session.go]): the session file on a disk that can fail;
    - [Client] ([main.go]): [establishSession], [runConnectionAttempt] as a trace
      of its actions, the reconnect loop of [runClient].

    Finding a path:
    - [Candidates] ([nomination.go], [main.go], [wireguard.go]): local and peer
      candidates, ranking, the fan-out probe, the retry queue;
    - [Sockets] ([wireguard.go], [nomination.go]): the outer UDP sockets, the
      probes sent through them, and the stopper, a step relation over its readers;
    - [Nomination] ([nomination.go]): the tracker of the console's countdown;
    - [Stun] ([stun.go], [nomination.go], [session.go]): the responder and the
      early listener, which feeds the tracker and keeps the packet log;
    - [Ice] ([stun.go], [main.go]): the ICE URLs, server-reflexive candidates,
      what TURN-only mode needs, and the two exchanges with the API;
    - [Negotiate] ([main.go]): [negotiateEndpoint], over the three before.

    Keeping the tunnel:
    - [Keys] ([wireguard.go], [api.go]): key pairs, their texts, [buildConfig];
    - [StunBind] ([wireguard.go]): the [conn.Bind] between the outer sockets and
      wireguard-go;
    - [PeerMTU] ([peermtu.go]): the path MTU search; [EchoPayload] ([peermtu.go],
      [udpecho.go]): its packets; [TunnelMTU] ([wireguard.go]): its ceiling;
    - [UdpEcho] ([udpecho.go]): health, statistics, waiting for an answer, and the
      pinger, which drives the prober and, by the [SetMTU] of [Device], the MTUs of
      the stack;
    - [Endpoints] and [Recovery] ([tunnel.go]): statistics of the peer, the retry
      of queued endpoints, the recovery rounds; [Switch] ([tunnel.go]): what each
      of their switches sends and hands to the device;
    - [Supervisor] ([tunnel.go]): the loop that reacts to the pinger's health
      events, starts and stops recoveries and ends the tunnel;
    - [Workers] ([tunnel.go], [udpecho.go]): the goroutines of a tunnel side by
      side, with their contexts and channels, as a step relation;
    - [Tunnel] ([tunnel.go]): [runTunnel] as a whole, over [Keys], [TunnelMTU],
      [PeerMTU], [Device] and [Supervisor], with its deferred calls.

    Inside the tunnel:
    - [Dns] and [Dial] ([internal/tunnet/tun.go]): the resolver and [DialContext];
    - [Socks] ([socks5.go]): where the proxy may listen and what it dials;
    - [Device] ([internal/tunnet]): creating the stack, its packets and its MTU;
    - [Conns] ([internal/tunnet/tun.go]): its TCP, UDP and ping sockets.

    All of it together:
    - [Attempt] ([main.go]): one connection attempt from the command line to the
      device of the tunnel: the protocol of [Client], with each of its calls
      answered by the component that models the function called;
    - [Program] ([main.go]): [main] and [runClient]: pairing, attempts and waits
      over the bytes the API answers with. It is executable: a run with a pairing,
      one attempt and its tunnel is evaluated at the end of the file.

    ** How the code is modelled

    A Go function is a definition of the same name (a helper of its own stands
    for a loop or a branch); a method takes and returns the record of its
    receiver. [(T, error)] is [result E T], a panic or a wait that has not ended
    is [None]. [int] and [time.Duration] are [Z] wrapped to 64 bits where the code
    adds and multiplies; strings and bytes are Rocq's 8-bit strings.

    Methods under a mutex are atomic, so concurrent use is a sequence of calls:
    the tracker's histories ([tracked]), the prober's reachable states, packets in
    the order they are read. Where the goroutines themselves are the point, as in
    the read stopper, they are the rules of a step relation. A [select] loop is a
    function of the list of events that wake it; the clock, the sockets, the
    operating system and the random source are inputs. A property holds for every
    such input.

    Code that is not in the repository is an interface: [PionStun] for the
    STUN library, [DnsMessage] with [DnsLaws] for dnsmessage, [Curve] with
    [CurveLaws] for X25519, [Kdf] with [KdfLaws] for scrypt and SHA-512, [Gvisor]
    for the network stack, [NoiseKeys] with [NoiseKeysLaws] for wireguard-go's
    reading of a key. [UnicodeTables], [PrintTable], [TimeText], [Floats] (the
    range of [ParseFloat]) and [MapOrder] (the order in which Go ranges over a map)
    are the parts of Go left abstract, with the texts of the errors of [url.Parse]
    and [json.Unmarshal]. Each is instantiated for the concrete runs.

    ** What is proved

    - The program as a whole. With --turn it uses nothing but relays that an
      answer to its own CONNECT named, over all attempts and whatever the network
      sends ([program_turn_only]); the console is told, byte for byte, what the
      tunnel then runs with ([program_agreement]); no socket, listener or tunnel
      outlives its attempt ([program_leaves_nothing]); its reconnect loop refines
      that of the abstract client, turn by turn, and waits what the backoff calls
      for after tunnels that lasted as long as its own did
      ([program_refines_client]); the order of resources and deletions of an
      attempt is as described ([attempt_protocol]); and its exit status says how it
      ended ([exit_status]).
    - The path. The tracker has an endpoint exactly when it is activated and some
      tuple has counted down ([nomination_spec]), and never panics; the listener
      acts on the authenticated requests alone ([early_listener_spec]); the
      negotiation takes nominated tuples first, logged ones next, the probe last
      ([negotiate_spec]). The probe, the ranking, the filter and the queue meet
      their descriptions ([probeCandidates_decides]); a stopped reader leaves
      nothing behind and stopping comes to an end ([stop_is_final],
      [stop_terminates]); a reflexive address is only taken from the server asked
      ([reflexive_spec]).
    - The API. A request body says what the client holds, whatever its texts; what
      is not UTF-8 in them arrives as U+FFFD ([connect_request_round_trip]);
      an answer is what a poll of that request decodes to ([answer_provenance]).
      The structs of the responses are compared with a wire format given apart from
      them, by its literal names: a response of any text decodes by it field by
      field or fails for a reason ([response_decoding]), and one written by it is
      read back, in any order of its members ([response_round_trip]). Transient
      errors are bounded ([poll_spec]).
    - The log. Its text reads back as the calls that were made, so that nothing in
      a value forges a line ([log_reads_back]); credentials of a request do not
      reach the entry of an error response, for credentials and responses as
      stated there ([error_log_hides_credentials] for the values,
      [error_entry_text] for the line written).
    - The tunnel. The MTU search refines a climb over the milestones
      ([search_refines_climb]); between requests the device has the MTU of the
      prober as long as the stack takes the MTUs it is given, and the bounds of the
      search hold even when it does not ([pinger_locks_mtu]; [tunnel_mtu_agrees]
      for the start; [failed_probe_keeps_device_mtu] is a refusal); retries and
      recoveries are
      disciplined and end ([retry_discipline], [retry_stops], [recovery_rounds])
      and tell the device the endpoints they try and nothing else
      ([retry_on_the_wire], [recovery_on_the_wire]);
      at most one recovery runs and it is stopped at the end
      ([supervision_spec], [tunnel_workers] for any interleaving of the
      goroutines), and waiting for the goroutines comes to an end
      ([teardown_terminates]). Every tunnel goes through its stages in order, no
      worker before the device is configured and up, and is taken down completely
      ([tunnel_lifecycle]); its device is given what was negotiated, as long as the
      zone of the endpoint has no line break ([device_configuration],
      [zone_adds_a_line]), and the bind passes on all that is not STUN
      ([receive_routing], [bind_lifecycle]).
    - The session. A save is atomic and private under crashes and power failures
      ([save_is_atomic]), what was saved is loaded ([session_round_trip]); invites
      are read as they were meant ([invite_spec]); a command line means what the
      list of the options, their kinds and their defaults says
      ([command_line_spec]), can ask for everything
      ([command_line_round_trip]), and lets no ill-formed configuration through
      ([flags_well_formed]).
    - The stack. It is created whole or not at all ([create_spec]). Names are
      checked label by label, the servers are tried in order until one answers or
      denies the name, and nothing else ends the search ([tryOneName_spec]), a
      lookup that succeeds has an address; a dial tries all addresses until one
      answers or its time is over, and shares its deadline among them
      ([dial_spec]); the proxy resolves to IPv4 inside the tunnel ([resolve_spec]).

    ** Fuel

    The JSON parser has fuel for twice the length of its input and the printers
    for the digits of a word; a log is read with fuel for its length, which its
    lines do not exceed; the answers of a DNS message are bounded by [remaining],
    which [DnsLaws] makes decrease, so [skip_loop] and [collect] do not run out;
    every other loop is over the list of its events.

    ** Not modelled

    What leaves the program: how [client.Do] exchanges a request (what it comes to
    is an input, and of the headers only those a property needs are there), what
    the writer does with a log line, the files of the CPU profile, the usage text;
    the SOCKS5 protocol (a library). The log lines of the components are not part
    of their traces: the logger is modelled by itself, for any calls. [Workers]
    interleaves the goroutines of a tunnel at their sends, reads, waits and ends;
    what each does in between is its own component's, taken as one step. Deployment
    files and scripts are no program code. *)

From stdpp Require Export base gmap list sorting strings.
From Stdlib Require Export ZArith Lia.

#[global] Open Scope Z_scope.

(** stdpp keeps [String.append] folded; the string lemmas here compute with it. *)
#[global] Arguments String.append : simpl nomatch.

(** ** Results of fallible operations

    A Go function returning [(T, error)] is modelled as [result E T]; the error
    type of each component lists the error values its code can return. *)

Inductive result (E A : Type) : Type :=
| Ok (a : A)
| Err (e : E).
Arguments Ok {E A} a.
Arguments Err {E A} e.

Definition is_ok {E A} (r : result E A) : bool :=
  match r with Ok _ => true | Err _ => false end.

Definition to_option {E A} (r : result E A) : option A :=
  match r with Ok a => Some a | Err _ => None end.

Definition result_bind {E A B} (r : result E A) (k : A -> result E B) : result E B :=
  match r with Ok a => k a | Err e => Err e end.

Declare Scope teleport_scope.
Delimit Scope teleport_scope with teleport.
#[global] Open Scope teleport_scope.

(** [x <-- e ;; k] is the code's [x, err := e; if err != nil { return err }]. *)
Notation "x <-- e ;; k" := (result_bind e (fun x => k))
  (at level 100, e at next level, right associativity) : teleport_scope.

(** ** Machine integers

    Go's [int], [int64] and [time.Duration] are 64-bit two's complement. *)

Definition int64_min : Z := - 2 ^ 63.
Definition int64_max : Z := 2 ^ 63 - 1.
Definition wrap64 (x : Z) : Z := (x + 2 ^ 63) mod 2 ^ 64 - 2 ^ 63.
Definition in_int64 (x : Z) : Prop := int64_min <= x <= int64_max.

Notation "a +i b" := (wrap64 (a + b)) (at level 50, left associativity) : teleport_scope.
Notation "a -i b" := (wrap64 (a - b)) (at level 50, left associativity) : teleport_scope.
Notation "a *i b" := (wrap64 (a * b)) (at level 40, left associativity) : teleport_scope.

Lemma wrap64_id (x : Z) : in_int64 x -> wrap64 x = x.
Proof.
  unfold in_int64, int64_min, int64_max, wrap64. intros H.
  rewrite Z.mod_small; lia.
Qed.

Lemma wrap64_bounds (x : Z) : in_int64 (wrap64 x).
Proof.
  unfold in_int64, int64_min, int64_max, wrap64.
  pose proof (Z.mod_pos_bound (x + 2 ^ 63) (2 ^ 64) ltac:(lia)). lia.
Qed.

(** Rewrites every [wrap64 e] whose argument [lia] shows to be in range. *)
Ltac int64 :=
  unfold in_int64, int64_min, int64_max in *;
  repeat match goal with
  | |- context [wrap64 ?e] =>
      rewrite (wrap64_id e) by (unfold in_int64, int64_min, int64_max; lia)
  | H : context [wrap64 ?e] |- _ =>
      rewrite (wrap64_id e) in H by (unfold in_int64, int64_min, int64_max; lia)
  end.

(** Big-endian assembly: [lor] of a shifted word and a smaller one is their sum. *)
Lemma lor_shiftl_add (a b k : Z) : 0 <= k -> 0 <= b < 2 ^ k -> Z.lor (Z.shiftl a k) b = a * 2 ^ k + b.
Proof.
  intros Hk Hb. assert (Z.land (Z.shiftl a k) b = 0) as Hd.
  { apply Z.bits_inj'. intros n Hn. rewrite Z.land_spec, Z.bits_0.
    destruct (Z.lt_ge_cases n k); [by rewrite Z.shiftl_spec_low|].
    rewrite <- (Z.mod_small b (2 ^ k)) by done.
    by rewrite Z.mod_pow2_bits_high, andb_false_r by lia. }
  rewrite <- Z.lxor_lor, <- Z.add_nocarry_lxor by done. by rewrite Z.shiftl_mul_pow2.
Qed.

(** ** Automation *)

(** Case analysis on every boolean comparison of integers in sight. *)
Ltac zbool :=
  repeat match goal with
  | |- context [?a <? ?b] => destruct (Z.ltb_spec a b)
  | |- context [?a <=? ?b] => destruct (Z.leb_spec a b)
  | |- context [?a =? ?b] => destruct (Z.eqb_spec a b)
  | H : context [?a <? ?b] |- _ => destruct (Z.ltb_spec a b)
  | H : context [?a <=? ?b] |- _ => destruct (Z.leb_spec a b)
  | H : context [?a =? ?b] |- _ => destruct (Z.eqb_spec a b)
  end.

(** One [match]/[if] of the goal or of a hypothesis at a time. *)
Ltac split_match :=
  match goal with
  | |- context [match ?x with _ => _ end] => destruct x eqn:?
  | H : context [match ?x with _ => _ end] |- _ => destruct x eqn:?
  end; simplify_eq/=.

Ltac split_matches := repeat split_match.

(** ** Lists *)

Lemma filter_all {A} (P : A -> Prop) `{forall x, Decision (P x)} (l : list A) :
  Forall P l -> filter P l = l.
Proof.
  induction 1 as [|x l Hx Hl IH]; [done|]. rewrite filter_cons, decide_True by done. by rewrite IH.
Qed.

Lemma filter_none {A} (P : A -> Prop) `{forall x, Decision (P x)} (l : list A) :
  Forall (fun x => ~ P x) l -> filter P l = [].
Proof. induction 1 as [|x l Hx Hl IH]; [done|]. by rewrite filter_cons, decide_False. Qed.

Lemma StronglySorted_filter {A} (R : A -> A -> Prop) (P : A -> Prop) `{forall x, Decision (P x)} l :
  StronglySorted R l -> StronglySorted R (filter P l).
Proof.
  induction 1 as [|x l Hs IH Hx]; [constructor|]. rewrite filter_cons.
  case_decide; [|done]. constructor; [done|].
  rewrite Forall_forall in *. intros y [_ Hy]%list_elem_of_filter. auto.
Qed.

Lemma StronglySorted_weaken {A} (R S : A -> A -> Prop) l :
  (forall x y, R x y -> S x y) -> StronglySorted R l -> StronglySorted S l.
Proof.
  intros HRS. induction 1 as [|x l Hs IH Hx]; constructor; [done|].
  eapply Forall_impl; [exact Hx|]. auto.
Qed.

Create HintDb teleport discriminated.
#[export] Hint Constants Opaque : teleport.
#[export] Hint Resolve wrap64_bounds : teleport.
