(* ===== verification/Lists.v ===== *)
(** List algorithms the client's components share: the "seen map plus append"
    loop that builds a list without duplicates, and the stable sort that
    [sort.SliceStable] performs for a comparison by an integer score. *)

From S2P Require Import Prelude.

(** ** Appending what has not been seen

    [buildEndpointRecoveryOrder], [buildCandidateRetryQueue],
    [resolveNominatedEndpoint] and [localCandidates] all keep a map [seen] and
    a slice [out], and append an element the map does not hold. *)

Section unseen.
Context {A : Type} `{Countable A}.

Definition push_unseen (skip : A -> bool) (st : gset A * list A) (x : A) : gset A * list A :=
  if skip x || bool_decide (x ∈ st.1) then st
  else ({[x]} ∪ st.1, st.2 ++ [x]).

Definition push_all (skip : A -> bool) (st : gset A * list A) (xs : list A) : gset A * list A :=
  foldl (push_unseen skip) st xs.

(** The first occurrences of the elements of [xs] that are neither skipped nor
    in [seen]: the specification of the loop. *)
Fixpoint fresh_of (skip : A -> bool) (seen : gset A) (xs : list A) : list A :=
  match xs with
  | [] => []
  | x :: xs' =>
      if skip x || bool_decide (x ∈ seen) then fresh_of skip seen xs'
      else x :: fresh_of skip ({[x]} ∪ seen) xs'
  end.

Lemma push_all_fresh skip seen out xs :
  push_all skip (seen, out) xs
  = (seen ∪ list_to_set (fresh_of skip seen xs), out ++ fresh_of skip seen xs).
Proof.
  revert seen out. induction xs as [|x xs IH]; intros seen out; simpl.
  - rewrite app_nil_r. f_equal. set_solver.
  - unfold push_unseen at 1; simpl.
    destruct (skip x || bool_decide (x ∈ seen)) eqn:E.
    + apply IH.
    + fold (push_all skip ({[x]} ∪ seen, out ++ [x]) xs). rewrite IH. simpl.
      rewrite <- app_assoc. f_equal. set_solver.
Qed.

Lemma elem_of_fresh_of skip seen xs x :
  x ∈ fresh_of skip seen xs <-> x ∈ xs /\ skip x = false /\ x ∉ seen.
Proof.
  revert seen. induction xs as [|y xs IH]; intros seen; simpl.
  { split; [intros []%not_elem_of_nil|by intros []]. }
  destruct (skip y) eqn:Ey; simpl.
  { rewrite IH, elem_of_cons. split; [tauto|]. intros ([->|?]&?&?); [congruence|done]. }
  case_bool_decide as Hy; rewrite ?elem_of_cons, IH.
  - split; [intros (?&?&?); auto|]. intros ([->|?]&?&?); done.
  - rewrite not_elem_of_union, not_elem_of_singleton. split.
    + intros [->|(?&?&?&?)]; auto.
    + intros ([->|?]&?&?); [by left|]. destruct (decide (x = y)); auto.
Qed.

Lemma NoDup_fresh_of skip seen xs : NoDup (fresh_of skip seen xs).
Proof.
  revert seen. induction xs as [|y xs IH]; intros seen; simpl; [constructor|].
  destruct (skip y || bool_decide (y ∈ seen)); [apply IH|].
  constructor; [|apply IH]. rewrite elem_of_fresh_of. set_solver.
Qed.

Lemma fresh_of_sublist skip seen xs : fresh_of skip seen xs `sublist_of` xs.
Proof.
  revert seen. induction xs as [|y xs IH]; intros seen; simpl; [constructor|].
  destruct (skip y || bool_decide (y ∈ seen)); by constructor.
Qed.

End unseen.

(** ** Stable sorting by an integer score *)

Section stable_sort.
Context {A : Type} (key : A -> Z).

Fixpoint insert_by (x : A) (l : list A) : list A :=
  match l with
  | [] => [x]
  | y :: l' => if key x <=? key y then x :: l else y :: insert_by x l'
  end.

Definition stable_sort (l : list A) : list A := foldr insert_by [] l.

Definition key_le (x y : A) : Prop := key x <= key y.

#[global] Instance key_le_trans : Transitive key_le.
Proof. intros x y z. unfold key_le. lia. Qed.

Lemma insert_by_Permutation x l : insert_by x l ≡ₚ x :: l.
Proof.
  induction l as [|y l IH]; simpl; [done|].
  destruct (key x <=? key y); [done|]. rewrite IH. apply Permutation_swap.
Qed.

Lemma stable_sort_Permutation l : stable_sort l ≡ₚ l.
Proof.
  induction l as [|x l IH]; simpl; [done|]. by rewrite insert_by_Permutation, IH.
Qed.

Lemma insert_by_Sorted x l : StronglySorted key_le l -> StronglySorted key_le (insert_by x l).
Proof.
  induction 1 as [|y l Hs IH Hall]; simpl; [repeat constructor|].
  destruct (Z.leb_spec (key x) (key y)) as [Hle|Hlt].
  - repeat constructor; try done. eapply Forall_impl; [exact Hall|].
    intros z. unfold key_le in *. lia.
  - constructor; [done|]. rewrite insert_by_Permutation. constructor; [|done].
    unfold key_le. lia.
Qed.

Lemma stable_sort_Sorted l : StronglySorted key_le (stable_sort l).
Proof. induction l as [|x l IH]; simpl; [constructor|]. by apply insert_by_Sorted. Qed.

(** Elements of equal score keep their order. *)
Lemma insert_by_stable k x l :
  StronglySorted key_le l ->
  filter (fun y => key y = k) (insert_by x l) = filter (fun y => key y = k) (x :: l).
Proof.
  induction 1 as [|y l Hs IH Hall]; simpl; [done|].
  destruct (Z.leb_spec (key x) (key y)) as [Hle|Hlt]; [done|].
  rewrite filter_cons, IH, !filter_cons.
  repeat case_decide; try done. lia.
Qed.

Lemma stable_sort_stable k l :
  filter (fun y => key y = k) (stable_sort l) = filter (fun y => key y = k) l.
Proof.
  induction l as [|x l IH]; simpl; [done|].
  rewrite insert_by_stable by apply stable_sort_Sorted.
  rewrite !filter_cons, IH. done.
Qed.

End stable_sort.

(** ** Matching a pattern greedily

    A cursor over [pat] that advances when the next element seen is the one it
    stands on; [advance] returns what is left of the pattern. *)

Section greedy.
Context {A : Type} `{EqDecision A}.

Fixpoint advance (pat xs : list A) : list A :=
  match xs with
  | [] => pat
  | x :: xs' =>
      match pat with
      | [] => []
      | p :: pat' => advance (if decide (x = p) then pat' else pat) xs'
      end
  end.

Lemma advance_nil xs : advance [] xs = [].
Proof. by destruct xs. Qed.

Lemma advance_app pat xs ys : advance pat (xs ++ ys) = advance (advance pat xs) ys.
Proof.
  revert pat. induction xs as [|x xs IH]; intros pat; [done|].
  destruct pat as [|p pat]; simpl; [by rewrite advance_nil|]. apply IH.
Qed.

(** The cursor reaches the end exactly when the pattern is a subsequence. *)
Lemma advance_sublist pat xs : advance pat xs = [] <-> pat `sublist_of` xs.
Proof.
  revert pat. induction xs as [|x xs IH]; intros [|p pat]; simpl.
  - split; [constructor|done].
  - split; [done|]. intros H. inversion H.
  - split; [intros _; apply sublist_nil_l|done].
  - destruct (decide (x = p)) as [->|Hne]; rewrite IH.
    + split; [by apply sublist_skip|]. rewrite sublist_cons_r.
      intros [Hs|(l & [= <-] & Hs)]; [|done]. transitivity (p :: pat); [by apply sublist_cons|done].
    + split; [by apply sublist_cons|]. rewrite sublist_cons_r.
      intros [Hs|(l & [= ->] & Hs)]; done.
Qed.

End greedy.

(** ** The last elements of a list *)

Definition last_n {A} (n : nat) (l : list A) : list A := drop (length l - n) l.

Lemma last_n_all {A} n (l : list A) : (length l <= n)%nat -> last_n n l = l.
Proof. intros H. unfold last_n. by replace (length l - n)%nat with 0%nat by lia. Qed.

Lemma last_n_length {A} n (l : list A) : (length (last_n n l) <= n)%nat.
Proof. unfold last_n. rewrite length_drop. lia. Qed.

Lemma last_n_app {A} n (l k : list A) : last_n n (last_n n l ++ k) = last_n n (l ++ k).
Proof.
  unfold last_n. rewrite !length_app, length_drop, !drop_app, length_drop, drop_drop. f_equal; f_equal; lia.
Qed.

(** Dropping the head of a full window, then appending, slides it. *)
Lemma last_n_snoc {A} n (l : list A) x :
  (0 < n)%nat ->
  last_n n (l ++ [x])
  = (if (n <=? length (last_n n l))%nat then drop 1 (last_n n l) else last_n n l) ++ [x].
Proof.
  intros Hn. unfold last_n at 1. rewrite length_app. simpl.
  unfold last_n. rewrite length_drop.
  destruct (Nat.leb_spec n (length l - (length l - n))).
  - rewrite drop_drop, drop_app_le by lia. do 2 f_equal. lia.
  - replace (length l + 1 - n)%nat with 0%nat by lia.
    by replace (length l - n)%nat with 0%nat by lia.
Qed.

#[export] Hint Resolve NoDup_fresh_of fresh_of_sublist stable_sort_Permutation
  stable_sort_Sorted : teleport.

(** ** The first element taken *)

(** The first of a list that a test takes. *)
Definition first_taken {A B} (f : A -> option B) (l : list A) (b : B) : Prop :=
  exists pre a post, l = pre ++ a :: post /\ Forall (fun x => f x = None) pre /\ f a = Some b.

Lemma head_omap_Some {A B} (f : A -> option B) l b : head (omap f l) = Some b <-> first_taken f l b.
Proof.
  unfold first_taken. induction l as [|x l IH]; cbn [omap list_omap].
  { split; [done|]. by intros ([|] & ? & ? & ? & _). }
  destruct (f x) as [b'|] eqn:E; cbn [head].
  - split.
    + intros [= ->]. exists [], x, l. split_and!; [done|constructor|done].
    + intros ([|y pre] & z & post & Heq & Hpre & Hz); cbn in Heq; injection Heq as -> ->; [congruence|].
      apply Forall_cons in Hpre as [? _]. congruence.
  - rewrite IH. split; intros (pre & z & post & Heq & Hpre & Hz).
    + exists (x :: pre), z, post. split_and!; [by rewrite Heq|by constructor|done].
    + destruct pre as [|y pre]; cbn in Heq; injection Heq as -> ->; [congruence|].
      apply Forall_cons in Hpre as [_ ?]. by exists pre, z, post.
Qed.

(** Finding a member of a computed list. *)
Lemma picked {A B} (f : A -> option B) (g : B -> A) l b :
  (forall a b, f a = Some b -> a = g b) -> head (omap f l) = Some b -> g b ∈ l.
Proof.
  intros Hf (pre & a & post & -> & _ & Ha)%head_omap_Some. apply Hf in Ha as ->. rewrite elem_of_app. right. by left.
Qed.

Lemma head_omap_None {A B} (f : A -> option B) l : head (omap f l) = None <-> Forall (fun x => f x = None) l.
Proof.
  induction l as [|x l IH]; [done|]. cbn [omap list_omap]. rewrite Forall_cons.
  destruct (f x); [by split; [|intros []]|]. rewrite IH. tauto.
Qed.
