(* ===== verification/GoStrings.v ===== *)
(** The part of Go's [strings], [unicode/utf8] and [strconv] packages the client
    calls. A Go string is a sequence of bytes, here a [string] of 8-bit
    [ascii]; a rune is its code point in [Z]. *)

From S2P Require Import Prelude.
From Stdlib Require Import Ascii.
Open Scope Z_scope.

(** ** Bytes *)

Definition byte_of (c : ascii) : Z := Z.of_N (N_of_ascii c).
Definition of_byte (b : Z) : ascii := ascii_of_N (Z.to_N b).
Definition chr (c : ascii) : string := String c EmptyString.

Definition is_digit (c : ascii) : bool := (48 <=? byte_of c) && (byte_of c <=? 57).
Definition is_lower (c : ascii) : bool := (97 <=? byte_of c) && (byte_of c <=? 122).
Definition is_upper (c : ascii) : bool := (65 <=? byte_of c) && (byte_of c <=? 90).

Lemma byte_of_range c : 0 <= byte_of c < 256.
Proof. unfold byte_of. pose proof (N_ascii_bounded c). lia. Qed.

Lemma byte_of_of_byte b : 0 <= b < 256 -> byte_of (of_byte b) = b.
Proof. intros H. unfold byte_of, of_byte. rewrite N_ascii_embedding; lia. Qed.

Lemma of_byte_byte_of c : of_byte (byte_of c) = c.
Proof. unfold byte_of, of_byte. rewrite N2Z.id. apply ascii_N_embedding. Qed.

(** ** Length, slicing and searching *)

Definition strlen (s : string) : Z := Z.of_nat (String.length s).

Fixpoint str_take (n : nat) (s : string) : string :=
  match n, s with
  | S n', String c s' => String c (str_take n' s')
  | _, _ => EmptyString
  end.

Fixpoint str_drop (n : nat) (s : string) : string :=
  match n, s with
  | O, _ => s
  | S n', String _ s' => str_drop n' s'
  | S _, EmptyString => EmptyString
  end.

Fixpoint has_prefix (p s : string) : bool :=
  match p, s with
  | EmptyString, _ => true
  | String a p', String b s' => Ascii.eqb a b && has_prefix p' s'
  | String _ _, EmptyString => false
  end.

(** [strings.Contains]. *)
Fixpoint contains (s sub : string) : bool :=
  has_prefix sub s ||
  match s with EmptyString => false | String _ s' => contains s' sub end.

(** [strings.IndexByte]; [None] is -1. *)
Fixpoint index_byte (c : ascii) (s : string) : option nat :=
  match s with
  | EmptyString => None
  | String a s' => if Ascii.eqb a c then Some O else S <$> index_byte c s'
  end.

Fixpoint last_index_byte (c : ascii) (s : string) : option nat :=
  match s with
  | EmptyString => None
  | String a s' =>
      match last_index_byte c s' with
      | Some i => Some (S i)
      | None => if Ascii.eqb a c then Some O else None
      end
  end.

Definition has_byte (c : ascii) (s : string) : bool := bool_decide (is_Some (index_byte c s)).

(** [strings.Split] on a one-byte separator. *)
Fixpoint split_byte (c : ascii) (s : string) : list string :=
  match s with
  | EmptyString => [EmptyString]
  | String a s' =>
      if Ascii.eqb a c then EmptyString :: split_byte c s'
      else match split_byte c s' with
           | [] => [chr a]
           | w :: ws => String a w :: ws
           end
  end.

(** [strings.Cut] on a one-byte separator. *)
Definition cut_byte (c : ascii) (s : string) : option (string * string) :=
  match index_byte c s with
  | Some i => Some (str_take i s, str_drop (S i) s)
  | None => None
  end.

Definition all_bytes (p : ascii -> bool) (s : string) : bool := forallb p (String.list_ascii_of_string s).

Fixpoint index_sub (sub s : string) : option nat :=
  if has_prefix sub s then Some O
  else match s with EmptyString => None | String _ s' => S <$> index_sub sub s' end.

(** [strings.Cut] with its two results when the separator is missing. *)
Definition cut_or_all (c : ascii) (s : string) : string * string :=
  default (s, EmptyString) (cut_byte c s).

Definition count_byte (c : ascii) (s : string) : nat := length (filter (fun a => a = c) (String.list_ascii_of_string s)).

(** [strings.ReplaceAll] for a non-empty [old]: the leftmost occurrences that do
    not overlap; [skip] counts the bytes of the current match still to drop. *)
Fixpoint replace_from (old new : string) (skip : nat) (s : string) : string :=
  match s with
  | EmptyString => EmptyString
  | String c s' =>
      match skip with
      | S k => replace_from old new k s'
      | O =>
          if has_prefix old s
          then (new ++ replace_from old new (String.length old - 1) s')%string
          else String c (replace_from old new 0 s')
      end
  end.

Definition replace_all (s old new : string) : string :=
  match old with
  | EmptyString => s
  | String _ _ => replace_from old new 0 s
  end.

(** ** UTF-8 (unicode/utf8) *)

Definition rune_error : Z := 65533.

Definition in_range (lo hi b : Z) : bool := (lo <=? b) && (b <=? hi).

(** The accepted range of the second byte after lead byte [b0]: the
    [acceptRanges] table. *)
Definition second_range (b0 : Z) : Z * Z :=
  if b0 =? 224 then (160, 191)
  else if b0 =? 237 then (128, 159)
  else if b0 =? 240 then (144, 191)
  else if b0 =? 244 then (128, 143)
  else (128, 191).

(** [utf8.DecodeRuneInString] on a non-empty string: the rune and its width;
    an encoding that is not valid gives [(RuneError, 1)]. *)
Definition decode_rune (s : string) : Z * nat :=
  match s with
  | EmptyString => (rune_error, O)
  | String c0 s1 =>
      let b0 := byte_of c0 in
      if b0 <? 128 then (b0, 1%nat)
      else if (b0 <? 194) || (244 <? b0) then (rune_error, 1%nat)
      else match s1 with
      | EmptyString => (rune_error, 1%nat)
      | String c1 s2 =>
          let b1 := byte_of c1 in
          let '(lo, hi) := second_range b0 in
          if negb (in_range lo hi b1) then (rune_error, 1%nat)
          else if b0 <? 224 then ((b0 - 192) * 64 + (b1 - 128), 2%nat)
          else match s2 with
          | EmptyString => (rune_error, 1%nat)
          | String c2 s3 =>
              let b2 := byte_of c2 in
              if negb (in_range 128 191 b2) then (rune_error, 1%nat)
              else if b0 <? 240 then
                ((b0 - 224) * 4096 + (b1 - 128) * 64 + (b2 - 128), 3%nat)
              else match s3 with
              | EmptyString => (rune_error, 1%nat)
              | String c3 _ =>
                  let b3 := byte_of c3 in
                  if negb (in_range 128 191 b3) then (rune_error, 1%nat)
                  else ((b0 - 240) * 262144 + (b1 - 128) * 4096
                        + (b2 - 128) * 64 + (b3 - 128), 4%nat)
              end
          end
      end
  end.

(** [range s]: each rune with the bytes it came from. *)
Fixpoint runes_from (skip : nat) (s : string) : list (Z * string) :=
  match s with
  | EmptyString => []
  | String _ s' =>
      match skip with
      | S k => runes_from k s'
      | O =>
          let '(r, w) := decode_rune s in
          (r, str_take w s) :: runes_from (w - 1) s'
      end
  end.

Definition runes (s : string) : list (Z * string) := runes_from 0 s.

(** [utf8.EncodeRune]. *)
Definition encode_rune (r : Z) : string :=
  let r := if (r <? 0) || (1114111 <? r) || in_range 55296 57343 r then rune_error else r in
  if r <? 128 then chr (of_byte r)
  else if r <? 2048 then
    String (of_byte (192 + r / 64)) (chr (of_byte (128 + r mod 64)))
  else if r <? 65536 then
    String (of_byte (224 + r / 4096))
      (String (of_byte (128 + (r / 64) mod 64)) (chr (of_byte (128 + r mod 64))))
  else
    String (of_byte (240 + r / 262144))
      (String (of_byte (128 + (r / 4096) mod 64))
         (String (of_byte (128 + (r / 64) mod 64)) (chr (of_byte (128 + r mod 64))))).

(** [unicode.IsSpace]. *)
Definition is_space (r : Z) : bool :=
  in_range 9 13 r || (r =? 32) || (r =? 133) || (r =? 160) || (r =? 5760)
  || in_range 8192 8202 r || (r =? 8232) || (r =? 8233) || (r =? 8239)
  || (r =? 8287) || (r =? 12288).

Definition concat_bytes (ps : list (Z * string)) : string :=
  String.concat EmptyString (ps.*2).

Fixpoint drop_while {A} (p : A -> bool) (l : list A) : list A :=
  match l with
  | [] => []
  | x :: l' => if p x then drop_while p l' else l
  end.

(** [strings.TrimSpace]. *)
Definition trim_space (s : string) : string :=
  let sp := fun p : Z * string => is_space p.1 in
  concat_bytes (reverse (drop_while sp (reverse (drop_while sp (runes s))))).

(** [strings.Fields]: maximal runs of runes that are not white space. *)
Fixpoint fields_from (acc : string) (ps : list (Z * string)) : list string :=
  match ps with
  | [] => match acc with EmptyString => [] | _ => [acc] end
  | (r, w) :: ps' =>
      if is_space r
      then match acc with
           | EmptyString => fields_from EmptyString ps'
           | _ => acc :: fields_from EmptyString ps'
           end
      else fields_from (acc ++ w)%string ps'
  end.

Definition fields (s : string) : list string := fields_from EmptyString (runes s).

(** [strings.Trim] with a cutset of ASCII bytes. *)
Definition trim_bytes (cut : list ascii) (s : string) : string :=
  let p := fun c => bool_decide (c ∈ cut) in
  String.string_of_list_ascii
    (reverse (drop_while p (reverse (drop_while p (String.list_ascii_of_string s))))).

(** [strings.TrimSuffix] for a one-byte suffix. *)
Definition trim_suffix_byte (c : ascii) (s : string) : string :=
  match last_index_byte c s with
  | Some i => if (S i =? String.length s)%nat then str_take i s else s
  | None => s
  end.

(** ** Case mapping

    [strings.ToLower] lowers ASCII letters in place; on other runes it uses the
    Unicode tables, which are the parameter [lower_table] here. *)

Class UnicodeTables := { lower_table : Z -> Z }.

Definition lower_ascii_byte (c : ascii) : ascii :=
  if is_upper c then of_byte (byte_of c + 32) else c.

Definition all_ascii (s : string) : bool :=
  forallb (fun c => byte_of c <? 128) (String.list_ascii_of_string s).

Definition map_bytes (f : ascii -> ascii) (s : string) : string :=
  String.string_of_list_ascii (f <$> String.list_ascii_of_string s).

Definition lower_rune `{UnicodeTables} (r : Z) : Z :=
  if r <? 128 then (if in_range 65 90 r then r + 32 else r) else lower_table r.

Definition to_lower `{UnicodeTables} (s : string) : string :=
  if all_ascii s then map_bytes lower_ascii_byte s
  else String.concat EmptyString ((fun p => encode_rune (lower_rune p.1)) <$> runes s).

(** [strings.EqualFold] against a string [t] of ASCII bytes. Simple folding
    takes only two runes outside ASCII into it: U+212A to k and U+017F to s. *)
Definition fold_eq_rune (r b : Z) : bool :=
  let low := fun x => if in_range 65 90 x then x + 32 else x in
  if r <? 128 then low r =? low b
  else ((r =? 8490) && (low b =? 107)) || ((r =? 383) && (low b =? 115)).

Definition equal_fold_ascii (s t : string) : bool :=
  let rs := (runes s).*1 in
  let bs := byte_of <$> String.list_ascii_of_string t in
  (length rs =? length bs)%nat && forallb (fun p => fold_eq_rune p.1 p.2) (zip rs bs).

(** ** Numbers (strconv) *)

Definition digit_val (c : ascii) : Z := byte_of c - 48.

Fixpoint parse_digits (acc : Z) (s : string) : option Z :=
  match s with
  | EmptyString => Some acc
  | String c s' => if is_digit c then parse_digits (10 * acc + digit_val c) s' else None
  end.

(** The value of a non-empty string of decimal digits. *)
Definition parse_nat (s : string) : option Z :=
  match s with EmptyString => None | _ => parse_digits 0 s end.

(** [strconv.ParseUint(s, 10, bits)]. *)
Definition parse_uint (bits : Z) (s : string) : option Z :=
  match parse_nat s with
  | Some v => if v <? 2 ^ bits then Some v else None
  | None => None
  end.

(** [strconv.Atoi] and [strconv.ParseInt(s, 10, 64)]. *)
Definition atoi (s : string) : option Z :=
  let check := fun v => if (int64_min <=? v) && (v <=? int64_max) then Some v else None in
  match s with
  | EmptyString => None
  | String c s' =>
      if Ascii.eqb c "-" then parse_nat s' ≫= fun v => check (- v)
      else if Ascii.eqb c "+" then parse_nat s' ≫= check
      else parse_nat s ≫= check
  end.

Definition digit_char (d : Z) : ascii := of_byte (48 + d).

Fixpoint itoa_nat (fuel : nat) (n : Z) (acc : string) : string :=
  match fuel with
  | O => acc
  | S f =>
      if n <? 10 then String (digit_char n) acc
      else itoa_nat f (n / 10) (String (digit_char (n mod 10)) acc)
  end.

(** [fmt.Sprint] and [%d] of an [int]: at most 20 digits. *)
Definition itoa (n : Z) : string :=
  if n <? 0 then String "-" (itoa_nat 20 (- n) EmptyString) else itoa_nat 20 n EmptyString.

(** ** Facts *)

Lemma strlen_nonneg s : 0 <= strlen s.
Proof. unfold strlen. lia. Qed.

Lemma length_append s t : String.length (s ++ t)%string = (String.length s + String.length t)%nat.
Proof. induction s as [|c s IH]; simpl; [done|]. by rewrite IH. Qed.

Lemma strlen_append s t : strlen (s ++ t)%string = strlen s + strlen t.
Proof. unfold strlen. rewrite length_append. lia. Qed.

Lemma append_assoc (s t u : string) : ((s ++ t) ++ u)%string = (s ++ (t ++ u))%string.
Proof. induction s as [|c s IH]; simpl; [done|]. by rewrite IH. Qed.

Lemma append_empty_r (s : string) : (s ++ EmptyString)%string = s.
Proof. induction s as [|c s IH]; simpl; [done|]. by rewrite IH. Qed.

Lemma has_prefix_spec p s : has_prefix p s = true <-> exists t, s = (p ++ t)%string.
Proof.
  revert s. induction p as [|a p IH]; intros s; simpl.
  - split; [by exists s|done].
  - destruct s as [|b s]; [split; [done|by intros [? ?]]|].
    rewrite andb_true_iff, Ascii.eqb_eq, IH. split.
    + intros [-> [t ->]]. by exists t.
    + intros [t [= -> ->]]. split; [done|]. by exists t.
Qed.

Lemma contains_spec s sub : contains s sub = true <-> exists l r, s = (l ++ sub ++ r)%string.
Proof.
  induction s as [|c s IH]; simpl; rewrite orb_true_iff, has_prefix_spec.
  - split.
    + intros [[t Ht]|?]; [|done]. by exists EmptyString, t.
    + intros (l & r & E). left. destruct l; [|done]. by exists r.
  - rewrite IH. split.
    + intros [[t Ht]|(l & r & ->)]; [by exists EmptyString, t|by exists (String c l), r].
    + intros ([|d l] & r & E); simpl in E.
      * left. by exists r.
      * right. injection E as -> ->. by exists l, r.
Qed.

Lemma index_byte_None c s :
  index_byte c s = None <-> c ∉ String.list_ascii_of_string s.
Proof.
  induction s as [|a s IH]; simpl; [split; [intros _; apply not_elem_of_nil|done]|].
  rewrite not_elem_of_cons. destruct (Ascii.eqb_spec a c) as [->|Hne].
  - split; [done|by intros [? ?]].
  - destruct (index_byte c s); simpl.
    + split; [done|]. by intros [_ Hn%IH].
    + split; [|done]. intros _. split; [congruence|]. by apply IH.
Qed.

Lemma index_byte_Some c s i :
  index_byte c s = Some i ->
  exists l r, s = (l ++ String c r)%string /\ String.length l = i
              /\ c ∉ String.list_ascii_of_string l.
Proof.
  revert i. induction s as [|a s IH]; intros i; simpl; [done|].
  destruct (Ascii.eqb_spec a c) as [->|Hne].
  - intros [= <-]. exists EmptyString, s. split_and!; [done|done|apply not_elem_of_nil].
  - destruct (index_byte c s) as [j|]; [|done]. intros [= <-].
    destruct (IH j eq_refl) as (l & r & -> & <- & Hl).
    exists (String a l), r. simpl. split_and!; [done|done|].
    apply not_elem_of_cons. split; [congruence|done].
Qed.

Lemma index_byte_append_skip c l s :
  c ∉ String.list_ascii_of_string l ->
  index_byte c (l ++ s)%string = (fun i => (String.length l + i)%nat) <$> index_byte c s.
Proof.
  induction l as [|a l IH]; simpl.
  - intros _. by destruct (index_byte c s).
  - rewrite not_elem_of_cons. intros [Ha Hl].
    destruct (Ascii.eqb_spec a c) as [->|_]; [done|]. rewrite IH by done.
    by destruct (index_byte c s).
Qed.

Lemma last_index_byte_append c l s :
  last_index_byte c (l ++ s)%string
  = match last_index_byte c s with
    | Some i => Some (String.length l + i)%nat
    | None => last_index_byte c l
    end.
Proof.
  induction l as [|a l IH]; simpl.
  - by destruct (last_index_byte c s).
  - rewrite IH. destruct (last_index_byte c s); [done|]. done.
Qed.

Lemma last_index_byte_None c s :
  last_index_byte c s = None <-> c ∉ String.list_ascii_of_string s.
Proof.
  induction s as [|a s IH]; simpl; [split; [intros _; apply not_elem_of_nil|done]|].
  rewrite not_elem_of_cons. destruct (last_index_byte c s) as [i|].
  - split; [done|]. intros [_ Hn%IH]. done.
  - destruct (Ascii.eqb_spec a c) as [->|Hne].
    + split; [done|by intros [? ?]].
    + split; [|done]. intros _. split; [congruence|]. by apply IH.
Qed.

Lemma str_take_append l r : str_take (String.length l) (l ++ r)%string = l.
Proof. induction l as [|c l IH]; simpl; [done|]. by rewrite IH. Qed.

Lemma str_drop_append l r : str_drop (String.length l) (l ++ r)%string = r.
Proof. induction l as [|c l IH]; simpl; done. Qed.

Lemma cut_byte_append c l r :
  c ∉ String.list_ascii_of_string l -> cut_byte c (l ++ String c r)%string = Some (l, r).
Proof.
  intros Hl. unfold cut_byte. rewrite index_byte_append_skip by done. simpl.
  rewrite Ascii.eqb_refl. simpl. rewrite Nat.add_0_r, str_take_append. do 2 f_equal.
  clear Hl. induction l as [|a l IH]; simpl; done.
Qed.

Lemma list_ascii_append s t :
  String.list_ascii_of_string (s ++ t)%string
  = String.list_ascii_of_string s ++ String.list_ascii_of_string t.
Proof. induction s as [|c s IH]; simpl; [done|]. by rewrite IH. Qed.

Lemma all_bytes_append p s t : all_bytes p (s ++ t) = all_bytes p s && all_bytes p t.
Proof. unfold all_bytes. by rewrite list_ascii_append, forallb_app. Qed.

(** *** Decimal numbers *)

Lemma is_digit_spec c : is_digit c = true <-> 0 <= digit_val c <= 9.
Proof. unfold is_digit, digit_val. rewrite andb_true_iff, !Z.leb_le. lia. Qed.

Lemma digit_char_digit d : 0 <= d <= 9 -> is_digit (digit_char d) = true /\ digit_val (digit_char d) = d.
Proof.
  intros H. unfold digit_char, is_digit, digit_val. rewrite byte_of_of_byte by lia.
  rewrite andb_true_iff, !Z.leb_le. lia.
Qed.

Lemma parse_digits_is_digit acc s v c :
  parse_digits acc s = Some v -> c ∈ String.list_ascii_of_string s -> is_digit c = true.
Proof.
  revert acc. induction s as [|a s IH]; intros acc; simpl.
  - intros _ []%not_elem_of_nil.
  - destruct (is_digit a) eqn:Ha; [|done]. intros Hv [->|Hc]%elem_of_cons; eauto.
Qed.

Lemma atoi_bounds s v : atoi s = Some v -> in_int64 v.
Proof.
  unfold atoi, in_int64. destruct s as [|c s]; [done|].
  assert (forall r, (if (int64_min <=? r) && (r <=? int64_max) then Some r else None) = Some v
                    -> int64_min <= v <= int64_max) as Hc.
  { intros r. destruct (_ && _) eqn:E; [|done]. intros [= <-].
    apply andb_true_iff in E. rewrite !Z.leb_le in E. done. }
  repeat case_match; simpl; intros H'; apply bind_Some in H' as (r & _ & Hr); eauto.
Qed.

(** Twenty digits are enough for every 64-bit integer. *)
Lemma itoa_nat_parse fuel n acc v :
  0 <= n < 10 ^ Z.of_nat fuel -> (0 < fuel)%nat ->
  (forall k, parse_digits k acc = Some (v k)) ->
  forall k0, k0 = 0 ->
  parse_digits k0 (itoa_nat fuel n acc) = Some (v n).
Proof.
  revert n acc v. induction fuel as [|f IH]; intros n acc v Hn Hf Hacc k0 ->; [lia|].
  simpl itoa_nat. destruct (Z.ltb_spec n 10) as [Hlt|Hge].
  - simpl. destruct (digit_char_digit n ltac:(lia)) as [-> ->]. simpl. rewrite Hacc. done.
  - rewrite Nat2Z.inj_succ, Z.pow_succ_r in Hn by lia.
    pose proof (Z.mod_pos_bound n 10 ltac:(lia)) as Hm.
    assert (n / 10 < 10 ^ Z.of_nat f) by (apply Z.div_lt_upper_bound; lia).
    assert (0 < n / 10) by (apply Z.div_str_pos; lia).
    rewrite (IH (n / 10) _ (fun k => v (10 * k + n mod 10))); [|lia| |intros k|done].
    + do 2 f_equal. pose proof (Z.div_mod n 10). lia.
    + destruct f; [change (10 ^ Z.of_nat 0) with 1 in *; lia|lia].
    + simpl. destruct (digit_char_digit (n mod 10) ltac:(lia)) as [-> ->]. apply Hacc.
Qed.

Lemma itoa_nat_cons fuel n acc : (0 < fuel)%nat -> 0 <= n ->
  exists d s, itoa_nat fuel n acc = String (digit_char d) s /\ 0 <= d <= 9.
Proof.
  revert n acc. induction fuel as [|f IH]; intros n acc Hf Hn; [lia|]. simpl.
  destruct (Z.ltb_spec n 10); [by exists n, acc; split; [done|lia]|].
  destruct f as [|f].
  - simpl. exists (n mod 10), acc. split; [done|]. pose proof (Z.mod_pos_bound n 10); lia.
  - apply IH; [lia|]. apply Z.div_pos; lia.
Qed.

Lemma digit_char_not_sign d : 0 <= d <= 9 ->
  Ascii.eqb (digit_char d) "-" = false /\ Ascii.eqb (digit_char d) "+" = false.
Proof.
  intros H. destruct (digit_char_digit d H) as [_ Hd].
  split; destruct (Ascii.eqb_spec (digit_char d) "-"), (Ascii.eqb_spec (digit_char d) "+");
    try done; match goal with E : digit_char d = _ |- _ => rewrite E in Hd end;
    vm_compute in Hd; lia.
Qed.

Lemma parse_nat_itoa n : 0 <= n < 10 ^ 20 -> parse_nat (itoa_nat 20 n EmptyString) = Some n.
Proof.
  intros Hn. destruct (itoa_nat_cons 20 n EmptyString ltac:(lia) ltac:(lia)) as (d & s & E & _).
  unfold parse_nat. rewrite E, <- E.
  by apply (itoa_nat_parse 20 n EmptyString (fun k => k)); [lia|lia|done|].
Qed.

Lemma atoi_itoa n : in_int64 n -> atoi (itoa n) = Some n.
Proof.
  unfold in_int64, int64_min, int64_max. intros Hn. unfold itoa.
  destruct (Z.ltb_spec n 0).
  - cbn [atoi]. rewrite Ascii.eqb_refl, parse_nat_itoa by lia. simpl.
    rewrite Z.opp_involutive. unfold int64_min, int64_max.
    destruct (Z.leb_spec (- 2 ^ 63) n), (Z.leb_spec n (2 ^ 63 - 1)); simpl; (done || lia).
  - pose proof (parse_nat_itoa n ltac:(lia)) as Hp.
    destruct (itoa_nat_cons 20 n EmptyString ltac:(lia) ltac:(lia)) as (d & s & E & Hd).
    unfold atoi. rewrite E in *. destruct (digit_char_not_sign d Hd) as [-> ->].
    rewrite Hp. simpl. unfold int64_min, int64_max.
    destruct (Z.leb_spec (- 2 ^ 63) n), (Z.leb_spec n (2 ^ 63 - 1)); simpl; (done || lia).
Qed.

Lemma itoa_inj n m : in_int64 n -> in_int64 m -> itoa n = itoa m -> n = m.
Proof.
  intros Hn Hm E. apply (f_equal atoi) in E. rewrite !atoi_itoa in E by done. by injection E.
Qed.

Lemma itoa_nat_bytes fuel n acc c :
  0 <= n -> c ∈ String.list_ascii_of_string (itoa_nat fuel n acc) ->
  is_digit c = true \/ c ∈ String.list_ascii_of_string acc.
Proof.
  revert n acc. induction fuel as [|f IH]; intros n acc Hn; simpl; [auto|].
  destruct (Z.ltb_spec n 10); simpl.
  - intros [->|?]%elem_of_cons; [left|by right]. by apply digit_char_digit; lia.
  - intros [?|Hc]%IH; [by left| |by apply Z.div_pos; lia]. simpl in Hc.
    apply elem_of_cons in Hc as [->|?]; [left|by right].
    pose proof (Z.mod_pos_bound n 10). by apply digit_char_digit; lia.
Qed.

(** A printed integer is made of digits and a leading minus sign. *)
Lemma itoa_bytes n c :
  c ∈ String.list_ascii_of_string (itoa n) -> is_digit c = true \/ c = "-"%char.
Proof.
  unfold itoa. destruct (Z.ltb_spec n 0).
  - cbn [String.list_ascii_of_string]. intros [->|Hc]%elem_of_cons; [by right|].
    apply itoa_nat_bytes in Hc as [?|[]%not_elem_of_nil]; [by left|lia].
  - intros Hc. apply itoa_nat_bytes in Hc as [?|[]%not_elem_of_nil]; [by left|lia].
Qed.

(** *** Bytes of a string *)

Lemma has_byte_false c s : has_byte c s = false <-> c ∉ String.list_ascii_of_string s.
Proof.
  unfold has_byte. rewrite bool_decide_eq_false, <- index_byte_None.
  destruct (index_byte c s); [|by split; [|intros _ [? ?]]].
  split; [|done]. intros Hn. exfalso. apply Hn. by eexists.
Qed.

Lemma has_byte_mid c (l r : string) : has_byte c (l ++ String c r) = true.
Proof.
  unfold has_byte. apply bool_decide_eq_true. destruct (index_byte c (l ++ String c r)) eqn:E; [done|].
  apply index_byte_None in E. rewrite list_ascii_append in E. cbn [String.list_ascii_of_string] in E.
  exfalso. apply E, elem_of_app. right. by left.
Qed.

Lemma has_byte_append c s t : has_byte c (s ++ t)%string = has_byte c s || has_byte c t.
Proof.
  unfold has_byte. induction s as [|a s IH]; [done|]. cbn [String.append index_byte].
  destruct (Ascii.eqb a c); [done|].
  assert (forall o : option nat, bool_decide (is_Some (S <$> o)) = bool_decide (is_Some o)) as Hs.
  { intros [n|]; [by rewrite !bool_decide_true|rewrite !bool_decide_false; [done| |]; by intros [? ?]]. }
  rewrite !Hs. apply IH.
Qed.

Lemma has_byte_concat c sep (xs : list string) :
  has_byte c (String.concat sep xs) = true ->
  has_byte c sep = true \/ exists x, x ∈ xs /\ has_byte c x = true.
Proof.
  induction xs as [|x [|y xs] IH]; [done|right; exists x; split; [by left|done]|].
  change (String.concat sep (x :: y :: xs)) with (x ++ sep ++ String.concat sep (y :: xs))%string.
  rewrite !has_byte_append, !orb_true_iff. intros [Hx|[Hs|Hc]].
  - right. exists x. split; [by left|done].
  - by left.
  - destruct (IH Hc) as [?|(z & ? & ?)]; [by left|]. right. exists z. split; [by right|done].
Qed.

Lemma itoa_no_byte c n : is_digit c = false -> c <> "-"%char -> has_byte c (itoa n) = false.
Proof. intros Hd Hm. apply has_byte_false. intros [?|?]%itoa_bytes; congruence. Qed.

(** Splitting at a separator that stands where it is expected. *)
Lemma split_byte_none c s : has_byte c s = false -> split_byte c s = [s].
Proof.
  intros H%has_byte_false. induction s as [|a s IH]; [done|]. cbn [String.list_ascii_of_string] in H.
  apply not_elem_of_cons in H as [Hne H]. cbn [split_byte]. rewrite (proj2 (Ascii.eqb_neq a c)) by congruence.
  by rewrite IH.
Qed.

Lemma split_byte_mid c l r : has_byte c l = false -> split_byte c (l ++ String c r) = l :: split_byte c r.
Proof.
  intros H%has_byte_false. induction l as [|a l IH]; cbn [String.append split_byte].
  { by rewrite Ascii.eqb_refl. }
  cbn [String.list_ascii_of_string] in H. apply not_elem_of_cons in H as [Hne H].
  rewrite (proj2 (Ascii.eqb_neq a c)) by congruence. by rewrite IH.
Qed.

Lemma runes_cons_ascii c s : byte_of c < 128 -> runes (String c s) = (byte_of c, chr c) :: runes s.
Proof.
  intros Hc. unfold runes. cbn [runes_from decode_rune].
  rewrite (proj2 (Z.ltb_lt _ _)) by lia. simpl. by destruct s.
Qed.

Lemma concat_empty_cons x xs :
  String.concat EmptyString (x :: xs) = (x ++ String.concat EmptyString xs)%string.
Proof. destruct xs; simpl; [by rewrite append_empty_r|done]. Qed.

(** A byte from 128 on is part of a rune from 128 on. *)
Lemma decode_rune_high c s : 128 <= byte_of c -> 128 <= (decode_rune (String c s)).1.
Proof.
  intros Hc. unfold decode_rune, second_range, in_range, rune_error. pose proof (byte_of_range c).
  rewrite (proj2 (Z.ltb_ge _ _)) by lia.
  destruct (Z.ltb_spec (byte_of c) 194), (Z.ltb_spec 244 (byte_of c)); cbn [orb]; [cbn [fst]; lia..|].
  destruct s as [|c1 s]; [cbn [fst]; lia|]. pose proof (byte_of_range c1).
  destruct (Z.eqb_spec (byte_of c) 224); [|destruct (Z.eqb_spec (byte_of c) 237);
    [|destruct (Z.eqb_spec (byte_of c) 240); [|destruct (Z.eqb_spec (byte_of c) 244)]]];
    (destruct (_ && _) eqn:E1; cbn [negb]; [apply andb_true_iff in E1 as [?%Z.leb_le ?%Z.leb_le]|cbn [fst]; lia]);
    (destruct (Z.ltb_spec (byte_of c) 224); [cbn [fst]; lia|]);
    (destruct s as [|c2 s]; [cbn [fst]; lia|]);
    (destruct ((128 <=? byte_of c2) && (byte_of c2 <=? 191)) eqn:E2; cbn [negb];
      [apply andb_true_iff in E2 as [?%Z.leb_le ?%Z.leb_le]|cbn [fst]; lia]);
    (destruct (Z.ltb_spec (byte_of c) 240); [cbn [fst]; lia|]);
    (destruct s as [|c3 s]; [cbn [fst]; lia|]);
    (destruct ((128 <=? byte_of c3) && (byte_of c3 <=? 191)) eqn:E3; cbn [negb];
      [apply andb_true_iff in E3 as [?%Z.leb_le ?%Z.leb_le]|]; cbn [fst]; lia).
Qed.
