(* ===== verification/Utf8.v ===== *)
(** UTF-8 as [unicode/utf8] encodes and decodes it: the two are inverse on runes
    that are valid, and ranging over a string takes it apart without a loss. *)

From S2P Require Import Prelude GoStrings.
From Stdlib Require Import Ascii.
Open Scope Z_scope.

(** [utf8.ValidRune]. *)
Definition valid_rune (r : Z) : Prop := 0 <= r <= 1114111 /\ ~ 55296 <= r <= 57343.

Definition encode_runes (rs : list Z) : string := String.concat EmptyString (encode_rune <$> rs).

Lemma of_byte_eq b c : b = byte_of c -> of_byte b = c.
Proof. intros ->. apply of_byte_byte_of. Qed.

#[local] Ltac Zify.zify_post_hook ::= Z.to_euclidean_division_equations.

(** Decides by [lia] the comparisons that hold or fail outright. *)
Ltac decide_cmp :=
  repeat match goal with
  | |- context [?a =? ?b] => first [rewrite (proj2 (Z.eqb_eq a b)) by lia|rewrite (proj2 (Z.eqb_neq a b)) by lia]
  | |- context [?a <=? ?b] => first [rewrite (proj2 (Z.leb_le a b)) by lia|rewrite (proj2 (Z.leb_gt a b)) by lia]
  | |- context [?a <? ?b] => first [rewrite (proj2 (Z.ltb_lt a b)) by lia|rewrite (proj2 (Z.ltb_ge a b)) by lia]
  end; cbn [orb andb negb].

(** ** Encoding *)

Lemma encode_rune_valid r : valid_rune r ->
  encode_rune r =
    if r <? 128 then chr (of_byte r)
    else if r <? 2048 then String (of_byte (192 + r / 64)) (chr (of_byte (128 + r mod 64)))
    else if r <? 65536 then
      String (of_byte (224 + r / 4096)) (String (of_byte (128 + (r / 64) mod 64)) (chr (of_byte (128 + r mod 64))))
    else String (of_byte (240 + r / 262144))
      (String (of_byte (128 + (r / 4096) mod 64))
         (String (of_byte (128 + (r / 64) mod 64)) (chr (of_byte (128 + r mod 64))))).
Proof.
  intros [Hr Hs]. unfold encode_rune, in_range.
  rewrite (proj2 (Z.ltb_ge r 0)), (proj2 (Z.ltb_ge 1114111 r)) by lia. cbn [orb].
  destruct (Z.leb_spec 55296 r), (Z.leb_spec r 57343); cbn [andb]; (done || lia).
Qed.

(** What follows an encoded rune is not looked at. *)
Lemma decode_encode r s : valid_rune r ->
  decode_rune (encode_rune r ++ s) = (r, String.length (encode_rune r)).
Proof.
  intros Hv. rewrite encode_rune_valid by done. destruct Hv as [Hr Hs].
  destruct (Z.ltb_spec r 128); [|destruct (Z.ltb_spec r 2048); [|destruct (Z.ltb_spec r 65536)]];
    cbn [String.append chr String.length decode_rune]; rewrite !byte_of_of_byte by lia; unfold second_range, in_range.
  - by decide_cmp.
  - decide_cmp. f_equal. lia.
  - destruct (Z.eqb_spec (224 + r / 4096) 224), (Z.eqb_spec (224 + r / 4096) 237); try lia; decide_cmp; f_equal; lia.
  - destruct (Z.eqb_spec (240 + r / 262144) 240), (Z.eqb_spec (240 + r / 262144) 244); try lia;
      decide_cmp; f_equal; lia.
Qed.

Lemma encode_rune_high r : valid_rune r -> 128 <= r ->
  Forall (fun c => 128 <= byte_of c) (String.list_ascii_of_string (encode_rune r))
  /\ String.length (encode_rune r) <> 1%nat.
Proof.
  intros Hv Hr. rewrite encode_rune_valid by done. destruct Hv as [Hv _]. rewrite (proj2 (Z.ltb_ge r 128)) by done.
  unfold chr. destruct (Z.ltb_spec r 2048); [|destruct (Z.ltb_spec r 65536)];
    (split; [|done]); cbn [String.list_ascii_of_string];
    repeat (constructor; [rewrite byte_of_of_byte by lia; lia|]); constructor.
Qed.

Lemma encode_rune_width r : exists n, String.length (encode_rune r) = S n.
Proof. unfold encode_rune. repeat destruct (_ <? _); by eexists. Qed.

Lemma runes_from_skip k s t : String.length s = k -> runes_from k (s ++ t) = runes t.
Proof. revert s. induction k as [|k IH]; intros [|c s] Hk; try done. cbn [String.append runes_from]. apply IH. by injection Hk. Qed.

(** Ranging over a string that starts with an encoded rune. *)
Lemma runes_encode_cons r s : valid_rune r ->
  runes (encode_rune r ++ s) = (r, encode_rune r) :: runes s.
Proof.
  intros Hv. pose proof (decode_encode r s Hv) as Hd. destruct (encode_rune_width r) as [n Hn].
  destruct (encode_rune r) as [|c w]; [done|]. injection Hn as Hn. unfold runes.
  cbn [String.append runes_from] in *. rewrite Hd. f_equal; [f_equal|].
  - exact (str_take_append (String c w) s).
  - rewrite runes_from_skip; [done|]. cbn [String.length]. lia.
Qed.

Lemma runes_encode rs : Forall valid_rune rs -> runes (encode_runes rs) = (fun r => (r, encode_rune r)) <$> rs.
Proof.
  unfold encode_runes. induction 1 as [|r rs Hr Hrs IH]; [done|].
  rewrite !fmap_cons, concat_empty_cons, runes_encode_cons by done. by rewrite IH.
Qed.

Lemma encode_runes_cons r rs : encode_runes (r :: rs) = (encode_rune r ++ encode_runes rs)%string.
Proof. unfold encode_runes. rewrite fmap_cons. apply concat_empty_cons. Qed.

Lemma encode_runes_app rs1 rs2 : encode_runes (rs1 ++ rs2) = (encode_runes rs1 ++ encode_runes rs2)%string.
Proof. induction rs1 as [|r rs1 IH]; [done|]. cbn [app]. by rewrite !encode_runes_cons, IH, append_assoc. Qed.

(** ** Decoding *)

(** A rune put together from bytes in range is valid and encodes to them. *)
Ltac decoded :=
  match goal with |- valid_rune ?r /\ _ => assert (valid_rune r) by (split; lia) end;
  split; [done|left]; rewrite encode_rune_valid by done; decide_cmp; cbn [str_take]; symmetry; unfold chr.

(** What decoding the first rune gives: a rune and its encoding, or U+FFFD for one
    byte that starts no encoding. *)
Lemma decode_rune_spec c s :
  let '(r, w) := decode_rune (String c s) in
  valid_rune r /\ (str_take w (String c s) = encode_rune r \/ r = rune_error /\ w = 1%nat).
Proof.
  unfold decode_rune, second_range, in_range. pose proof (byte_of_range c).
  destruct (Z.ltb_spec (byte_of c) 128) as [|H0].
  { assert (valid_rune (byte_of c)) by (split; lia). split; [done|left]. rewrite encode_rune_valid by done.
    decide_cmp. cbn [str_take]. rewrite of_byte_byte_of. by destruct s. }
  assert (valid_rune rune_error /\ forall (P : Prop), P \/ rune_error = rune_error /\ 1%nat = 1%nat) as [He Her]
    by (split; [unfold valid_rune, rune_error; lia|by right]).
  destruct (Z.ltb_spec (byte_of c) 194), (Z.ltb_spec 244 (byte_of c)); cbn [orb]; try (by split; [|apply Her]).
  destruct s as [|c1 s]; [by split; [|apply Her]|]. pose proof (byte_of_range c1).
  set (two := if byte_of c =? 224 then _ else _).
  assert (exists lo hi, two = (lo, hi) /\ 128 <= lo /\ hi <= 191 /\ (byte_of c = 224 -> lo = 160)
          /\ (byte_of c = 237 -> hi = 159) /\ (byte_of c = 240 -> lo = 144) /\ (byte_of c = 244 -> hi = 143))
    as (lo & hi & -> & Hlo & Hhi & ? & ? & ? & ?).
  { unfold two. destruct (Z.eqb_spec (byte_of c) 224), (Z.eqb_spec (byte_of c) 237), (Z.eqb_spec (byte_of c) 240),
      (Z.eqb_spec (byte_of c) 244); eexists _, _; (split; [reflexivity|lia]). }
  destruct (_ && _) eqn:E1; cbn [negb]; [|by split; [|apply Her]].
  apply andb_true_iff in E1 as [?%Z.leb_le ?%Z.leb_le].
  destruct (Z.ltb_spec (byte_of c) 224).
  { decoded; by rewrite (of_byte_eq _ c), (of_byte_eq _ c1) by lia; destruct s. }
  destruct s as [|c2 s]; [by split; [|apply Her]|]. pose proof (byte_of_range c2).
  destruct (_ && _) eqn:E2; cbn [negb]; [|by split; [|apply Her]].
  apply andb_true_iff in E2 as [?%Z.leb_le ?%Z.leb_le].
  destruct (Z.ltb_spec (byte_of c) 240).
  { decoded; by rewrite (of_byte_eq _ c), (of_byte_eq _ c1), (of_byte_eq _ c2) by lia; destruct s. }
  destruct s as [|c3 s]; [by split; [|apply Her]|]. pose proof (byte_of_range c3).
  destruct (_ && _) eqn:E3; cbn [negb]; [|by split; [|apply Her]].
  apply andb_true_iff in E3 as [?%Z.leb_le ?%Z.leb_le].
  decoded; by rewrite (of_byte_eq _ c), (of_byte_eq _ c1), (of_byte_eq _ c2), (of_byte_eq _ c3) by lia; destruct s.
Qed.

(** The runes of a string: each is valid, and comes with its encoding or is the
    U+FFFD that stands for one stray byte. *)
Definition stray (p : Z * string) : Prop :=
  p.1 = rune_error /\ exists c, p.2 = chr c /\ 128 <= byte_of c.

Definition rune_read (p : Z * string) : Prop := valid_rune p.1 /\ (p.2 = encode_rune p.1 \/ stray p).

Lemma runes_from_read s k : Forall rune_read (runes_from k s).
Proof.
  revert k. induction s as [|c s IH]; intros [|k]; [constructor..| |apply IH].
  cbn [runes_from]. pose proof (decode_rune_spec c s) as Hd. destruct (decode_rune (String c s)) as [r w] eqn:E.
  constructor; [|apply IH]. destruct Hd as [Hv [Hw|[-> ->]]]; (split; [done|]); [by left|right].
  split; [done|]. exists c. split; [by destruct s|]. destruct (Z.ltb_spec (byte_of c) 128) as [Hc|]; [|done].
  cbn [decode_rune] in E. rewrite (proj2 (Z.ltb_lt _ _)) in E by done. injection E as E.
  unfold rune_error in E. lia.
Qed.

Lemma runes_read s : Forall rune_read (runes s).
Proof. apply runes_from_read. Qed.

Lemma rune_read_ascii p : rune_read p -> p.1 < 128 -> p.2 = chr (of_byte p.1).
Proof.
  intros [Hv [Hw|[He _]]] Hr; [|unfold rune_error in He; lia]. rewrite Hw, encode_rune_valid by done.
  by rewrite (proj2 (Z.ltb_lt _ _)).
Qed.

Lemma rune_read_high p : rune_read p -> 128 <= p.1 ->
  Forall (fun c => 128 <= byte_of c) (String.list_ascii_of_string p.2).
Proof.
  intros [Hv [->|(_ & c & -> & Hc)]] Hr; [by apply encode_rune_high|]. by repeat constructor.
Qed.

Lemma str_take_drop n s : (str_take n s ++ str_drop n s)%string = s.
Proof. revert s. induction n as [|n IH]; intros [|c s]; try done. cbn [str_take str_drop String.append]. by rewrite IH. Qed.

Lemma concat_runes_from k s : concat_bytes (runes_from k s) = str_drop k s.
Proof.
  unfold concat_bytes. revert k. induction s as [|c s IH]; intros [|k]; try done; [|by apply IH].
  cbn [runes_from]. pose proof (decode_rune_spec c s) as Hd. destruct (decode_rune (String c s)) as [r w] eqn:E.
  rewrite fmap_cons, concat_empty_cons, IH. cbn [snd].
  assert (exists n, w = S n) as [n ->].
  { destruct Hd as [_ [Hw|[_ ->]]]; [|by eexists]. destruct w as [|n]; [|by eexists].
    destruct (encode_rune_width r) as [n Hn]. by rewrite <- Hw in Hn. }
  cbn [str_take String.append str_drop]. by rewrite Nat.sub_succ, Nat.sub_0_r, str_take_drop.
Qed.

(** Ranging over a string loses nothing. *)
Lemma concat_runes s : concat_bytes (runes s) = s.
Proof. apply (concat_runes_from 0). Qed.

(** A string of ASCII bytes is its bytes. *)
Lemma runes_ascii s : all_ascii s = true -> runes s = (fun c => (byte_of c, chr c)) <$> String.list_ascii_of_string s.
Proof.
  induction s as [|c s IH]; [done|]. intros [Hc%Z.ltb_lt Hs]%andb_true_iff.
  rewrite runes_cons_ascii by done. cbn [String.list_ascii_of_string]. by rewrite fmap_cons, <- IH.
Qed.
