(* ===== verification/GoNet.v ===== *)
(** The part of Go's [net] and [net/netip] packages the client calls: host:port
    strings, parsing and printing of IP addresses, and the address classes. A
    [net.IP] is its list of bytes (4 or 16 of them for an address, [[]] for
    nil). *)

From S2P Require Import Prelude GoStrings.
From Stdlib Require Import Ascii.
Open Scope Z_scope.

(** ** host:port (net.SplitHostPort, net.JoinHostPort) *)

Definition char_at (s : string) (i : nat) : option ascii := String.get i s.

Definition split_host_port (hostport : string) : option (string * string) :=
  match last_index_byte ":" hostport with
  | None => None
  | Some i =>
      let port := str_drop (S i) hostport in
      let finish := fun (host : string) (j k : nat) =>
        if has_byte "[" (str_drop j hostport) then None
        else if has_byte "]" (str_drop k hostport) then None
        else Some (host, port) in
      if bool_decide (char_at hostport 0 = Some "["%char) then
        match index_byte "]" hostport with
        | None => None
        | Some e =>
            if (S e =? i)%nat
            then finish (str_take (e - 1) (str_drop 1 hostport)) 1%nat (S e)
            else None
        end
      else
        let host := str_take i hostport in
        if has_byte ":" host then None else finish host 0%nat 0%nat
  end.

Definition join_host_port (host port : string) : string :=
  if has_byte ":" host then ("[" ++ host ++ "]:" ++ port)%string
  else (host ++ ":" ++ port)%string.

(** ** Addresses (net/netip) *)

Inductive addr : Type :=
| AddrZero
| Addr4 (bytes : list Z)
| Addr6 (bytes : list Z) (zone : string).

#[export] Instance addr_eq_dec : EqDecision addr.
Proof. solve_decision. Defined.

Definition addr_is4 (a : addr) : bool := match a with Addr4 _ => true | _ => false end.
Definition addr_is6 (a : addr) : bool := match a with Addr6 _ _ => true | _ => false end.

(** [parseIPv4Fields]: [first] is [i == 0], [dot] is [s[i-1] == '.']. *)
Fixpoint v4_fields (s : string) (first dot : bool) (val diglen : Z) (acc : list Z) : option (list Z) :=
  match s with
  | EmptyString => if (length acc <? 3)%nat then None else Some (acc ++ [val])
  | String c s' =>
      if is_digit c then
        if (diglen =? 1) && (val =? 0) then None
        else
          let val' := val * 10 + digit_val c in
          if 255 <? val' then None else v4_fields s' false false val' (diglen + 1) acc
      else if Ascii.eqb c "." then
        if first || bool_decide (s' = EmptyString) || dot then None
        else if (length acc =? 3)%nat then None
        else v4_fields s' false true 0 0 (acc ++ [val])
      else None
  end.

Definition parse_v4 (s : string) : option (list Z) := v4_fields s true false 0 0 [].

Definition hex_val (c : ascii) : option Z :=
  let b := byte_of c in
  if in_range 48 57 b then Some (b - 48)
  else if in_range 97 102 b then Some (b - 87)
  else if in_range 65 70 b then Some (b - 55)
  else None.

(** One group of hexadecimal digits: its value, its width and the rest. *)
Fixpoint hex_group (s : string) (off acc : Z) : option (Z * Z * string) :=
  match s with
  | EmptyString => Some (acc, off, s)
  | String c s' =>
      match hex_val c with
      | None => Some (acc, off, s)
      | Some d =>
          let acc' := acc * 16 + d in
          if 3 <? off then None
          else if 65535 <? acc' then None
          else hex_group s' (off + 1) acc'
      end
  end.

(** The loop of [parseIPv6]: [bytes] holds the [i] bytes written so far, and
    [fuel] counts the two-byte groups that still fit. *)
Fixpoint v6_groups (fuel : nat) (bytes : list Z) (ellipsis : option nat) (s : string)
  : option (list Z * option nat * string) :=
  match fuel with
  | O => Some (bytes, ellipsis, s)
  | S f =>
      match hex_group s 0 0 with
      | None => None
      | Some (acc, off, rest) =>
          if off =? 0 then None
          else
            let next := bytes ++ [acc / 256; acc mod 256] in
            match rest with
            | EmptyString => Some (next, ellipsis, rest)
            | String c rest1 =>
                if Ascii.eqb c "." then
                  if bool_decide (ellipsis = None) && negb (length bytes =? 12)%nat then None
                  else if (16 <? length bytes + 4)%nat then None
                  else match parse_v4 s with
                       | None => None
                       | Some four => Some (bytes ++ four, ellipsis, EmptyString)
                       end
                else if negb (Ascii.eqb c ":") then None
                else match rest1 with
                | EmptyString => None
                | String c1 rest2 =>
                    if Ascii.eqb c1 ":" then
                      if bool_decide (ellipsis = None) then
                        let ell := Some (length next) in
                        match rest2 with
                        | EmptyString => Some (next, ell, rest2)
                        | _ => v6_groups f next ell rest2
                        end
                      else None
                    else v6_groups f next ellipsis rest1
                end
            end
      end
  end.

Definition parse_v6_bytes (s : string) : option (list Z) :=
  let '(ell0, s0) := if has_prefix "::" s then (Some O, str_drop 2 s) else (None, s) in
  if bool_decide (ell0 = Some O) && bool_decide (s0 = EmptyString) then Some (replicate 16 0)
  else match v6_groups 8 [] ell0 s0 with
  | None => None
  | Some (bytes, ell, rest) =>
      if negb (bool_decide (rest = EmptyString)) then None
      else if (length bytes <? 16)%nat then
        match ell with
        | None => None
        | Some e => Some (take e bytes ++ replicate (16 - length bytes) 0 ++ drop e bytes)
        end
      else match ell with
      | None => Some bytes
      | Some _ => None
      end
  end.

Definition parse_v6 (inp : string) : option addr :=
  match index_byte "%" inp with
  | None => (fun b => Addr6 b EmptyString) <$> parse_v6_bytes inp
  | Some i =>
      let zone := str_drop (S i) inp in
      match zone with
      | EmptyString => None
      | _ => (fun b => Addr6 b zone) <$> parse_v6_bytes (str_take i inp)
      end
  end.

(** [netip.ParseAddr]: the first of '.', ':' and '%' decides the family. *)
Fixpoint parse_addr_scan (inp s : string) : option addr :=
  match s with
  | EmptyString => None
  | String c s' =>
      if Ascii.eqb c "." then Addr4 <$> parse_v4 inp
      else if Ascii.eqb c ":" then parse_v6 inp
      else if Ascii.eqb c "%" then None
      else parse_addr_scan inp s'
  end.

Definition parse_addr (s : string) : option addr := parse_addr_scan s s.

Definition v4_mapped_prefix : list Z := replicate 10 0 ++ [255; 255].

(** [Addr.As16], [Addr.AsSlice]. *)
Definition as16 (a : addr) : list Z :=
  match a with
  | AddrZero => replicate 16 0
  | Addr4 b => v4_mapped_prefix ++ b
  | Addr6 b _ => b
  end.

(** [net.ParseIP]; a zone is refused. *)
Definition parse_ip (s : string) : option (list Z) :=
  match parse_addr s with
  | Some (Addr6 _ (String _ _)) => None
  | Some a => Some (as16 a)
  | None => None
  end.

(** [netip.ParseAddrPort] returns an [AddrPort] beside its error, and one caller
    uses it whatever the error: the pair is (address, port, error is nil). *)
Definition split_addr_port (s : string) : option (string * string * bool) :=
  match last_index_byte ":" s with
  | None => None
  | Some i =>
      let ip := str_take i s in
      let port := str_drop (S i) s in
      if bool_decide (ip = EmptyString) || bool_decide (port = EmptyString) then None
      else if bool_decide (char_at ip 0 = Some "["%char) then
        let n := String.length ip in
        if (n <? 2)%nat || negb (bool_decide (char_at ip (n - 1) = Some "]"%char)) then None
        else Some (str_take (n - 2) (str_drop 1 ip), port, true)
      else Some (ip, port, false)
  end.

Definition parse_addr_port (s : string) : addr * Z * bool :=
  match split_addr_port s with
  | None => (AddrZero, 0, false)
  | Some (ip, port, v6) =>
      match parse_uint 16 port with
      | None => (AddrZero, 0, false)
      | Some p =>
          match parse_addr ip with
          | None => (AddrZero, 0, false)
          | Some a => (a, p, negb ((v6 && addr_is4 a) || (negb v6 && addr_is6 a)))
          end
      end
  end.

(** ** Classes of net.IP *)

Definition to4 (ip : list Z) : option (list Z) :=
  if (length ip =? 4)%nat then Some ip
  else if (length ip =? 16)%nat && bool_decide (take 12 ip = v4_mapped_prefix)
  then Some (drop 12 ip) else None.

Definition byte_at (ip : list Z) (i : nat) : Z := default 0 (ip !! i).

Definition is_v4 (ip : list Z) : bool := bool_decide (is_Some (to4 ip)).

(** [IP.Equal] with its 4-byte/16-byte case. *)
Definition ip_equal (a b : list Z) : bool :=
  if (length a =? length b)%nat then bool_decide (a = b)
  else if (length a =? 4)%nat && (length b =? 16)%nat then bool_decide (v4_mapped_prefix ++ a = b)
  else if (length a =? 16)%nat && (length b =? 4)%nat then bool_decide (a = v4_mapped_prefix ++ b)
  else false.

Definition v4_16 (a b c d : Z) : list Z := v4_mapped_prefix ++ [a; b; c; d].
Definition ipv6_unspecified : list Z := replicate 16 0.
Definition ipv6_loopback : list Z := replicate 15 0 ++ [1].

Definition is_unspecified (ip : list Z) : bool :=
  ip_equal ip (v4_16 0 0 0 0) || ip_equal ip ipv6_unspecified.

Definition is_loopback (ip : list Z) : bool :=
  match to4 ip with
  | Some b => byte_at b 0 =? 127
  | None => ip_equal ip ipv6_loopback
  end.

Definition is_private (ip : list Z) : bool :=
  match to4 ip with
  | Some b =>
      (byte_at b 0 =? 10)
      || ((byte_at b 0 =? 172) && (Z.land (byte_at b 1) 240 =? 16))
      || ((byte_at b 0 =? 192) && (byte_at b 1 =? 168))
  | None => (length ip =? 16)%nat && (Z.land (byte_at ip 0) 254 =? 252)
  end.

Definition is_multicast (ip : list Z) : bool :=
  match to4 ip with
  | Some b => Z.land (byte_at b 0) 240 =? 224
  | None => (length ip =? 16)%nat && (byte_at ip 0 =? 255)
  end.

Definition is_link_local_unicast (ip : list Z) : bool :=
  match to4 ip with
  | Some b => (byte_at b 0 =? 169) && (byte_at b 1 =? 254)
  | None => (length ip =? 16)%nat && (byte_at ip 0 =? 254) && (Z.land (byte_at ip 1) 192 =? 128)
  end.

Definition is_global_unicast (ip : list Z) : bool :=
  ((length ip =? 4)%nat || (length ip =? 16)%nat)
  && negb (ip_equal ip (v4_16 255 255 255 255))
  && negb (is_unspecified ip)
  && negb (is_loopback ip)
  && negb (is_multicast ip)
  && negb (is_link_local_unicast ip).

(** ** Printing *)

Definition v4_string (b : list Z) : string :=
  String.concat "." (itoa <$> b).

Definition hex_digit (d : Z) : ascii := if d <? 10 then of_byte (48 + d) else of_byte (87 + d).

(** [appendHex] without leading zeros. *)
Definition hex16 (x : Z) : string :=
  let d := fun k => chr (hex_digit ((x / k) mod 16)) in
  if 4096 <=? x then (d 4096 ++ d 256 ++ d 16 ++ d 1)%string
  else if 256 <=? x then (d 256 ++ d 16 ++ d 1)%string
  else if 16 <=? x then (d 16 ++ d 1)%string
  else d 1.

Fixpoint group_values (b : list Z) : list Z :=
  match b with
  | x :: y :: b' => x * 256 + y :: group_values b'
  | _ => []
  end.

Fixpoint zero_run (g : list Z) : nat :=
  match g with
  | x :: g' => if x =? 0 then S (zero_run g') else O
  | [] => O
  end.

(** The first longest run of two or more zero groups, as (start, length). *)
Fixpoint longest_zeros (i : nat) (g : list Z) (best : nat * nat) : nat * nat :=
  match g with
  | [] => best
  | _ :: g' =>
      let l := zero_run g in
      longest_zeros (S i) g' (if (2 <=? l)%nat && (snd best <? l)%nat then (i, l) else best)
  end.

Definition colon_hex (g : list Z) : string := String.concat ":" (hex16 <$> g).

Definition v6_string (b : list Z) : string :=
  let g := group_values b in
  let '(st, l) := longest_zeros 0 g (O, O) in
  if (l =? 0)%nat then colon_hex g
  else (colon_hex (take st g) ++ "::" ++ colon_hex (drop (st + l) g))%string.

(** [net.IP.String] of a 4- or 16-byte address. *)
Definition ip_string (ip : list Z) : string :=
  match to4 ip with Some b => v4_string b | None => v6_string ip end.

(** [netip.Addr.String] and
    [netip.AddrPort.String]. *)
Definition addr_string (a : addr) : string :=
  match a with
  | AddrZero => "invalid IP"
  | Addr4 b => v4_string b
  | Addr6 b zone =>
      let base := match to4 b with
                  | Some four => ("::ffff:" ++ v4_string four)%string
                  | None => v6_string b
                  end in
      match zone with EmptyString => base | _ => (base ++ "%" ++ zone)%string end
  end.

Definition addr_port_string (a : addr) (port : Z) : string :=
  match a with
  | AddrZero => "invalid AddrPort"
  | Addr4 _ => (addr_string a ++ ":" ++ itoa port)%string
  | Addr6 _ _ => ("[" ++ addr_string a ++ "]:" ++ itoa port)%string
  end.

(** [net.UDPAddr.String]. *)
Definition udp_addr_string (ip : list Z) (zone : string) (port : Z) : string :=
  let host := match ip with [] => EmptyString | _ => ip_string ip end in
  match zone with
  | EmptyString => join_host_port host (itoa port)
  | _ => join_host_port (host ++ "%" ++ zone)%string (itoa port)
  end.

(** ** net.UDPAddr and interface addresses *)

Record UDPAddr := { IP : list Z; Port : Z; Zone : string }.

(** The dynamic types of [net.Addr] the code distinguishes. *)
Inductive netAddr : Type :=
| IPNet (ip : list Z)
| IPAddr (ip : list Z)
| OtherAddr.

(** ** Printed IPv4 addresses parse back *)

Lemma v4_string_no_byte c b :
  is_digit c = false -> c <> "-"%char -> c <> "."%char -> has_byte c (v4_string b) = false.
Proof.
  intros Hd Hm Hp. apply not_true_iff_false. unfold v4_string. intros [Hc|(x & Hx & Hc)]%has_byte_concat.
  - assert (has_byte c "." = false) as Hf by (apply has_byte_false; by intros ?%list_elem_of_singleton). congruence.
  - apply list_elem_of_fmap in Hx as (n & -> & _). by rewrite itoa_no_byte in Hc.
Qed.

Lemma v4_string_no_colon b : has_byte ":" (v4_string b) = false.
Proof. by apply v4_string_no_byte. Qed.

(** A host and a port without colons and brackets are what a join is split into. *)
Lemma split_join host port :
  has_byte ":" host = false -> has_byte "[" host = false -> has_byte "]" host = false ->
  has_byte ":" port = false -> has_byte "[" port = false -> has_byte "]" port = false ->
  split_host_port (join_host_port host port) = Some (host, port).
Proof.
  intros Hc Hl Hr Pc Pl Pr. unfold join_host_port. rewrite Hc. unfold split_host_port.
  rewrite last_index_byte_append. cbn [String.append last_index_byte].
  rewrite (proj2 (last_index_byte_None ":" port)) by by apply has_byte_false. rewrite Ascii.eqb_refl.
  assert (forall c, has_byte c (host ++ String ":" port) = has_byte c host || (has_byte c (chr ":") || has_byte c port)) as Hb.
  { intros c. change (String ":" port) with (chr ":" ++ port)%string. by rewrite !has_byte_append. }
  assert (char_at (host ++ String ":" port) 0 <> Some "["%char) as H0.
  { destruct host as [|x host]; [done|]. intros [= ->]. apply has_byte_false in Hl. apply Hl. by left. }
  rewrite bool_decide_false by done. rewrite Nat.add_0_r, str_take_append, Hc.
  change (str_drop 0 ?s) with s. rewrite !Hb, Hl, Hr, Pl, Pr.
  change (has_byte "[" (chr ":")) with false. change (has_byte "]" (chr ":")) with false. cbn [orb].
  replace (S (String.length host)) with (String.length (host ++ chr ":")) by (rewrite length_append; cbn; lia).
  replace (host ++ String ":" port)%string with ((host ++ chr ":") ++ port)%string by by rewrite append_assoc.
  by rewrite str_drop_append.
Qed.

Definition is_byte (n : Z) : Prop := 0 <= n < 256.

Lemma v4_field_itoa :
  Forall (fun n => forall rest first dot acc, exists k,
    v4_fields (itoa n ++ rest) first dot 0 0 acc = v4_fields rest false false n k acc) (seqZ 0 256).
Proof.
  let l := eval vm_compute in (seqZ 0 256) in change (seqZ 0 256) with l.
  repeat (apply Forall_cons_2; [intros; eexists; reflexivity|]). apply Forall_nil_2.
Qed.

Lemma v4_field n rest first dot acc :
  is_byte n -> exists k, v4_fields (itoa n ++ rest) first dot 0 0 acc = v4_fields rest false false n k acc.
Proof.
  intros Hn. pose proof v4_field_itoa as HF. rewrite Forall_forall in HF. apply HF, elem_of_seqZ.
  unfold is_byte in Hn. lia.
Qed.

Lemma v4_dot s val k acc :
  s <> EmptyString -> (length acc <> 3)%nat ->
  v4_fields (String "." s) false false val k acc = v4_fields s false true 0 0 (acc ++ [val]).
Proof.
  intros Hs Ha. cbn [v4_fields]. change (is_digit ".") with false. cbn iota. rewrite Ascii.eqb_refl.
  rewrite bool_decide_false by done. cbn [orb]. by rewrite (proj2 (Nat.eqb_neq _ _) Ha).
Qed.

Lemma itoa_nonempty n rest : is_byte n -> (itoa n ++ rest)%string <> EmptyString.
Proof.
  intros Hn. assert (Forall (fun n => itoa n <> EmptyString) (seqZ 0 256)) as HF
    by (let l := eval vm_compute in (seqZ 0 256) in change (seqZ 0 256) with l; by repeat constructor).
  rewrite Forall_forall in HF. specialize (HF n). destruct (itoa n) eqn:E; [|done].
  exfalso. apply HF; [|done]. apply elem_of_seqZ. unfold is_byte in Hn. lia.
Qed.

Lemma parse_v4_string b :
  length b = 4%nat -> Forall is_byte b -> parse_v4 (v4_string b) = Some b.
Proof.
  intros Hl Hb. destruct b as [|a [|c [|d [|e [|]]]]]; try done.
  apply Forall_cons in Hb as [Ha Hb]. apply Forall_cons in Hb as [Hc Hb].
  apply Forall_cons in Hb as [Hd Hb]. apply Forall_cons in Hb as [He _].
  unfold parse_v4, v4_string. cbn [fmap list_fmap String.concat].
  change (itoa a ++ "." ++ itoa c ++ "." ++ itoa d ++ "." ++ itoa e)%string
    with (itoa a ++ String "." (itoa c ++ String "." (itoa d ++ String "." (itoa e))))%string.
  destruct (v4_field a (String "." (itoa c ++ String "." (itoa d ++ String "." (itoa e)))) true false [] Ha) as [k1 ->].
  rewrite v4_dot by (done || by apply itoa_nonempty).
  destruct (v4_field c (String "." (itoa d ++ String "." (itoa e))) false true ([] ++ [a]) Hc) as [k2 ->].
  rewrite v4_dot by (done || by apply itoa_nonempty).
  destruct (v4_field d (String "." (itoa e)) false true (([] ++ [a]) ++ [c]) Hd) as [k3 ->].
  rewrite v4_dot by (try done; rewrite <- (append_empty_r (itoa e)); by apply itoa_nonempty).
  rewrite <- (append_empty_r (itoa e)).
  by destruct (v4_field e EmptyString false true ((([] ++ [a]) ++ [c]) ++ [d]) He) as [k4 ->].
Qed.

(** The scan for the first separator meets a dot. *)
Lemma parse_addr_scan_itoa :
  Forall (fun n => forall inp rest, parse_addr_scan inp (itoa n ++ rest) = parse_addr_scan inp rest) (seqZ 0 256).
Proof.
  let l := eval vm_compute in (seqZ 0 256) in change (seqZ 0 256) with l.
  repeat (apply Forall_cons_2; [intros; reflexivity|]). apply Forall_nil_2.
Qed.

Lemma parse_addr_v4_string b :
  length b = 4%nat -> Forall is_byte b -> parse_addr (v4_string b) = Some (Addr4 b).
Proof.
  intros Hl Hb. unfold parse_addr.
  assert (exists rest, v4_string b = (itoa (byte_at b 0) ++ String "." rest)%string) as [rest Hr].
  { destruct b as [|a [|c r]]; [done..|]. by eexists. }
  rewrite Hr at 2. pose proof parse_addr_scan_itoa as HF. rewrite Forall_forall in HF.
  rewrite HF.
  - cbn [parse_addr_scan]. rewrite Ascii.eqb_refl. by rewrite parse_v4_string.
  - destruct b as [|a b]; [done|]. apply Forall_cons in Hb as [Ha _]. apply elem_of_seqZ.
    unfold byte_at, is_byte in *. cbn. lia.
Qed.

Lemma parse_ip_v4_string b :
  length b = 4%nat -> Forall is_byte b -> parse_ip (v4_string b) = Some (v4_mapped_prefix ++ b).
Proof. intros Hl Hb. unfold parse_ip. by rewrite parse_addr_v4_string. Qed.
