(* ===== verification/GoJson.v ===== *)
(** The part of Go's [encoding/json] the client uses: [Marshal] of strings, ints
    and structs, and [Unmarshal] through a parser into a tree of values. Object
    members keep their order and their duplicates, numbers their literal. *)

From S2P Require Import Prelude GoStrings.
From Stdlib Require Import Ascii.
Open Scope Z_scope.

(** ** Marshal *)

(** A double quote, written out since it delimits Rocq's strings. *)
Definition dquote : ascii := of_byte 34.
Definition backslash : ascii := of_byte 92.

Definition hex_lower (d : Z) : ascii := if d <? 10 then of_byte (48 + d) else of_byte (87 + d).

(** [appendString] with HTML escaping, one rune at a time. *)
Definition json_escape_byte (b : Z) : string :=
  if (b =? 92) || (b =? 34) then String backslash (chr (of_byte b))
  else if b =? 8 then String backslash "b"
  else if b =? 12 then String backslash "f"
  else if b =? 10 then String backslash "n"
  else if b =? 13 then String backslash "r"
  else if b =? 9 then String backslash "t"
  else if (b <? 32) || (b =? 60) || (b =? 62) || (b =? 38) then
    String backslash ("u00" ++ String (hex_lower (b / 16)) (chr (hex_lower (b mod 16))))%string
  else chr (of_byte b).

Definition json_escape_rune (p : Z * string) : string :=
  let '(r, w) := p in
  if (r <? 128) then json_escape_byte r
  else if (String.length w =? 1)%nat then String backslash "ufffd"
  else if r =? 8232 then String backslash "u2028"
  else if r =? 8233 then String backslash "u2029"
  else w.

Definition json_string_body (s : string) : string :=
  String.concat EmptyString (json_escape_rune <$> runes s).

Definition json_string (s : string) : string :=
  String dquote (json_string_body s ++ chr dquote)%string.

Definition json_field (kv : string * string) : string :=
  (json_string kv.1 ++ ":" ++ kv.2)%string.

(** An object from its fields, each with its encoded value. *)
Definition json_object (fields : list (string * string)) : string :=
  ("{" ++ String.concat "," (json_field <$> fields) ++ "}")%string.

(** ** Values *)

Inductive json : Type :=
| JNull
| JBool (b : bool)
| JNum (lit : string)
| JStr (s : string)
| JArr (vs : list json)
| JObj (members : list (string * json)).

(** ** Unmarshal: scanning *)

Definition is_json_space (c : ascii) : bool :=
  let b := byte_of c in (b =? 32) || (b =? 9) || (b =? 13) || (b =? 10).

Fixpoint skip_space (s : string) : string :=
  match s with
  | String c s' => if is_json_space c then skip_space s' else s
  | EmptyString => s
  end.

(** The body of a string literal as units: bytes as they stand, and UTF-16 code
    units from escapes. *)
Inductive str_unit : Type := URaw (c : ascii) | UEsc (u : Z).

Definition hex_digit_val (c : ascii) : option Z :=
  let b := byte_of c in
  if in_range 48 57 b then Some (b - 48)
  else if in_range 97 102 b then Some (b - 87)
  else if in_range 65 70 b then Some (b - 55)
  else None.

Definition hex4 (a b c d : ascii) : option Z :=
  match hex_digit_val a, hex_digit_val b, hex_digit_val c, hex_digit_val d with
  | Some x, Some y, Some z, Some w => Some (((x * 16 + y) * 16 + z) * 16 + w)
  | _, _, _, _ => None
  end.

Definition simple_escape (c : ascii) : option Z :=
  let b := byte_of c in
  if (b =? 34) || (b =? 92) || (b =? 47) then Some b
  else if b =? 98 then Some 8
  else if b =? 102 then Some 12
  else if b =? 110 then Some 10
  else if b =? 114 then Some 13
  else if b =? 116 then Some 9
  else None.

(** After the opening quote: the units, and what follows the closing quote. *)
Fixpoint scan_string (s : string) : option (list str_unit * string) :=
  match s with
  | EmptyString => None
  | String c s1 =>
      if Ascii.eqb c dquote then Some ([], s1)
      else if byte_of c <? 32 then None
      else if Ascii.eqb c backslash then
        match s1 with
        | EmptyString => None
        | String e s2 =>
            if Ascii.eqb e "u" then
              match s2 with
              | String h1 (String h2 (String h3 (String h4 s3))) =>
                  match hex4 h1 h2 h3 h4 with
                  | Some u => (fun p => (UEsc u :: p.1, p.2)) <$> scan_string s3
                  | None => None
                  end
              | _ => None
              end
            else match simple_escape e with
                 | Some b => (fun p => (URaw (of_byte b) :: p.1, p.2)) <$> scan_string s2
                 | None => None
                 end
        end
      else (fun p => (URaw c :: p.1, p.2)) <$> scan_string s1
  end.

(** Bytes as they stand are decoded and encoded again, so that bytes that are
    not UTF-8 become U+FFFD. *)
Definition sanitize (s : string) : string :=
  String.concat EmptyString ((fun p => encode_rune p.1) <$> runes s).

Fixpoint unquote_units (raw : string) (us : list str_unit) : string :=
  match us with
  | [] => sanitize raw
  | URaw c :: us' => unquote_units (raw ++ chr c)%string us'
  | UEsc u :: us' =>
      let plain := (sanitize raw ++ encode_rune u ++ unquote_units EmptyString us')%string in
      if in_range 55296 57343 u then
        match us' with
        | UEsc v :: us'' =>
            if in_range 55296 56319 u && in_range 56320 57343 v
            then (sanitize raw ++ encode_rune (65536 + (u - 55296) * 1024 + (v - 56320))
                  ++ unquote_units EmptyString us'')%string
            else plain
        | _ => plain
        end
      else plain
  end.

Fixpoint take_digits (s : string) : string * string :=
  match s with
  | String c s' => if is_digit c then let '(d, r) := take_digits s' in (String c d, r)
                   else (EmptyString, s)
  | EmptyString => (EmptyString, EmptyString)
  end.

(** A number literal: -? int frac? exp?. *)
Definition scan_frac (s : string) : option (string * string) :=
  match s with
  | String c s' =>
      if Ascii.eqb c "." then
        match take_digits s' with
        | (EmptyString, _) => None
        | (d, r) => Some (String c d, r)
        end
      else Some (EmptyString, s)
  | EmptyString => Some (EmptyString, s)
  end.

Definition scan_exp (s : string) : option (string * string) :=
  match s with
  | String c s' =>
      if Ascii.eqb c "e" || Ascii.eqb c "E" then
        let '(sign, s2) :=
          match s' with
          | String g s2 => if Ascii.eqb g "+" || Ascii.eqb g "-" then (chr g, s2) else (EmptyString, s')
          | EmptyString => (EmptyString, s')
          end in
        match take_digits s2 with
        | (EmptyString, _) => None
        | (d, r) => Some (String c (sign ++ d)%string, r)
        end
      else Some (EmptyString, s)
  | EmptyString => Some (EmptyString, s)
  end.

Definition scan_int (s : string) : option (string * string) :=
  match s with
  | String c s' =>
      if Ascii.eqb c "0" then Some (chr c, s')
      else if is_digit c then let '(d, r) := take_digits s in Some (d, r)
      else None
  | EmptyString => None
  end.

Definition scan_number (s : string) : option (string * string) :=
  let '(sign, s1) :=
    match s with
    | String c s' => if Ascii.eqb c "-" then (chr c, s') else (EmptyString, s)
    | EmptyString => (EmptyString, s)
    end in
  match scan_int s1 with
  | None => None
  | Some (i, s2) =>
      match scan_frac s2 with
      | None => None
      | Some (f, s3) =>
          match scan_exp s3 with
          | None => None
          | Some (e, s4) => Some ((sign ++ i ++ f ++ e)%string, s4)
          end
      end
  end.

(** One value and what follows it. [fuel] bounds the number of values opened;
    the length of the input is enough. [depth] is the nesting still allowed
    (10000 in encoding/json). *)
Fixpoint parse_value (fuel : nat) (depth : Z) (s : string) : option (json * string) :=
  match fuel with
  | O => None
  | S f =>
      match skip_space s with
      | EmptyString => None
      | String c s1 as s0 =>
          if Ascii.eqb c "{" then
            if depth <=? 0 then None
            else match skip_space s1 with
                 | String c1 s2 as s1' =>
                     if Ascii.eqb c1 "}" then Some (JObj [], s2)
                     else (fun p => (JObj p.1, p.2)) <$> parse_members f (depth - 1) s1'
                 | EmptyString => None
                 end
          else if Ascii.eqb c "[" then
            if depth <=? 0 then None
            else match skip_space s1 with
                 | String c1 s2 as s1' =>
                     if Ascii.eqb c1 "]" then Some (JArr [], s2)
                     else (fun p => (JArr p.1, p.2)) <$> parse_elems f (depth - 1) s1'
                 | EmptyString => None
                 end
          else if Ascii.eqb c dquote then
            (fun p => (JStr (unquote_units EmptyString p.1), p.2)) <$> scan_string s1
          else if has_prefix "null" s0 then Some (JNull, str_drop 4 s0)
          else if has_prefix "true" s0 then Some (JBool true, str_drop 4 s0)
          else if has_prefix "false" s0 then Some (JBool false, str_drop 5 s0)
          else (fun p => (JNum p.1, p.2)) <$> scan_number s0
      end
  end
with parse_elems (fuel : nat) (depth : Z) (s : string) : option (list json * string) :=
  match fuel with
  | O => None
  | S f =>
      match parse_value f depth s with
      | None => None
      | Some (v, r) =>
          match skip_space r with
          | String c r' =>
              if Ascii.eqb c "]" then Some ([v], r')
              else if Ascii.eqb c "," then (fun p => (v :: p.1, p.2)) <$> parse_elems f depth r'
              else None
          | EmptyString => None
          end
      end
  end
with parse_members (fuel : nat) (depth : Z) (s : string) : option (list (string * json) * string) :=
  match fuel with
  | O => None
  | S f =>
      match skip_space s with
      | String c s1 =>
          if negb (Ascii.eqb c dquote) then None
          else match scan_string s1 with
          | None => None
          | Some (us, s2) =>
              match skip_space s2 with
              | String c2 s3 =>
                  if negb (Ascii.eqb c2 ":") then None
                  else match parse_value f depth s3 with
                  | None => None
                  | Some (v, r) =>
                      let m := (unquote_units EmptyString us, v) in
                      match skip_space r with
                      | String c3 r' =>
                          if Ascii.eqb c3 "}" then Some ([m], r')
                          else if Ascii.eqb c3 "," then
                            (fun p => (m :: p.1, p.2)) <$> parse_members f depth r'
                          else None
                      | EmptyString => None
                      end
                  end
              | EmptyString => None
              end
          end
      | EmptyString => None
      end
  end.

(** A whole document: one value, white space around it and nothing else. *)
Definition parse_json (s : string) : option json :=
  match parse_value (S (2 * String.length s)) 10000 s with
  | Some (v, r) => if bool_decide (skip_space r = EmptyString) then Some v else None
  | None => None
  end.

(** ** Unmarshal: into struct fields

    A key selects the field it equals up to case folding; a later key
    overrides an earlier one. [null] leaves an int or a string as it is, and a
    value of another kind is an error of the whole [Unmarshal]. *)

Definition field_values (name : string) (members : list (string * json)) : list json :=
  (filter (fun kv => equal_fold_ascii kv.1 name = true) members).*2.

Fixpoint store_int (cur : Z) (vs : list json) : option Z :=
  match vs with
  | [] => Some cur
  | JNull :: vs' => store_int cur vs'
  | JNum lit :: vs' => match atoi lit with Some n => store_int n vs' | None => None end
  | _ :: _ => None
  end.

Fixpoint store_string (cur : string) (vs : list json) : option string :=
  match vs with
  | [] => Some cur
  | JNull :: vs' => store_string cur vs'
  | JStr s :: vs' => store_string s vs'
  | _ :: _ => None
  end.

Definition as_members (v : json) : option (list (string * json)) :=
  match v with
  | JObj ms => Some ms
  | JNull => Some []
  | _ => None
  end.

(** ** Parsing what Marshal wrote

    For strings of plain bytes (printable ASCII that needs no escape) [Marshal]
    followed by the parser is the identity. *)

Definition plain_byte (c : ascii) : bool :=
  let b := byte_of c in
  in_range 32 126 b && negb ((b =? 34) || (b =? 38) || (b =? 60) || (b =? 62) || (b =? 92)).

Definition plain (s : string) : bool := forallb plain_byte (String.list_ascii_of_string s).

Lemma plain_cons c s : plain (String c s) = true <-> plain_byte c = true /\ plain s = true.
Proof. unfold plain. simpl. apply andb_true_iff. Qed.

Lemma plain_byte_range c :
  plain_byte c = true ->
  32 <= byte_of c <= 126 /\ byte_of c <> 34 /\ byte_of c <> 38 /\ byte_of c <> 60
  /\ byte_of c <> 62 /\ byte_of c <> 92.
Proof.
  unfold plain_byte, in_range. rewrite andb_true_iff, negb_true_iff, !orb_false_iff, andb_true_iff,
    !Z.leb_le, !Z.eqb_neq. lia.
Qed.

Lemma json_string_body_plain s : plain s = true -> json_string_body s = s.
Proof.
  induction s as [|c s IH]; [done|]. intros [Hc Hs]%plain_cons.
  pose proof (plain_byte_range c Hc) as Hr. unfold json_string_body in *.
  rewrite runes_cons_ascii, fmap_cons, concat_empty_cons, IH by (done || lia).
  unfold json_escape_rune, json_escape_byte.
  rewrite (proj2 (Z.ltb_lt (byte_of c) 128)) by lia.
  repeat match goal with
  | |- context [byte_of c =? ?k] => rewrite (proj2 (Z.eqb_neq (byte_of c) k)) by lia
  end.
  rewrite (proj2 (Z.ltb_ge (byte_of c) 32)) by lia. simpl. by rewrite of_byte_byte_of.
Qed.

Lemma sanitize_plain s : plain s = true -> sanitize s = s.
Proof.
  induction s as [|c s IH]; [done|]. intros [Hc Hs]%plain_cons.
  pose proof (plain_byte_range c Hc) as Hr. unfold sanitize in *.
  rewrite runes_cons_ascii, fmap_cons, concat_empty_cons, IH by (done || lia).
  unfold encode_rune, in_range. cbn [fst].
  rewrite (proj2 (Z.ltb_ge (byte_of c) 0)), (proj2 (Z.ltb_ge 1114111 (byte_of c))),
    (proj2 (Z.leb_gt 55296 (byte_of c))) by lia. simpl.
  rewrite (proj2 (Z.ltb_lt (byte_of c) 128)) by lia. simpl. by rewrite of_byte_byte_of.
Qed.

Lemma scan_string_plain s rest :
  plain s = true ->
  scan_string (s ++ String dquote rest)%string
  = Some (URaw <$> String.list_ascii_of_string s, rest).
Proof.
  induction s as [|c s IH]; intros Hs; [done|]. apply plain_cons in Hs as [Hc Hs].
  pose proof (plain_byte_range c Hc) as Hr. simpl.
  destruct (Ascii.eqb_spec c dquote) as [->|_]; [vm_compute in Hr; lia|].
  rewrite (proj2 (Z.ltb_ge (byte_of c) 32)) by lia.
  destruct (Ascii.eqb_spec c backslash) as [->|_]; [vm_compute in Hr; lia|].
  by rewrite IH.
Qed.

Lemma unquote_raw s raw :
  unquote_units raw (URaw <$> String.list_ascii_of_string s) = sanitize (raw ++ s)%string.
Proof.
  revert raw. induction s as [|c s IH]; intros raw; simpl; [by rewrite append_empty_r|].
  rewrite IH, append_assoc. done.
Qed.

Lemma unquote_plain s :
  plain s = true -> unquote_units EmptyString (URaw <$> String.list_ascii_of_string s) = s.
Proof. intros Hs. rewrite unquote_raw. by apply sanitize_plain. Qed.

(** [encodes v j]: the text [v] parses as [j] in front of a comma or a closing
    brace, with any fuel. *)
Definition value_end (rest : string) : Prop :=
  exists c r, rest = String c r /\ (c = ","%char \/ c = "}"%char).

Definition encodes (v : string) (j : json) : Prop :=
  forall fuel depth rest, value_end rest ->
    parse_value (S fuel) depth (v ++ rest)%string = Some (j, rest).

Lemma encodes_string s : plain s = true -> encodes (json_string s) (JStr s).
Proof.
  intros Hs fuel depth rest _. unfold json_string. rewrite json_string_body_plain by done.
  cbn [String.append]. rewrite append_assoc. cbn [String.append parse_value skip_space].
  change (is_json_space dquote) with false. cbn iota.
  change (Ascii.eqb dquote "{") with false. change (Ascii.eqb dquote "[") with false.
  rewrite Ascii.eqb_refl. cbn iota.
  change (chr dquote +:+ rest) with (String dquote rest).
  rewrite scan_string_plain by done. simpl. by rewrite unquote_plain.
Qed.

(** *** Numbers *)

Definition all_digits (s : string) : Prop :=
  Forall (fun c => is_digit c = true) (String.list_ascii_of_string s).

Lemma take_digits_all s rest :
  all_digits s -> value_end rest -> take_digits (s ++ rest) = (s, rest).
Proof.
  unfold all_digits. intros Hs (c & r & -> & Hc). induction s as [|d s IH]; cbn [String.append take_digits].
  - by destruct Hc as [-> | ->].
  - apply Forall_cons in Hs as [Hd Hs]. by rewrite Hd, IH.
Qed.

Lemma itoa_nat_digits fuel n : 0 <= n -> all_digits (itoa_nat fuel n EmptyString).
Proof.
  intros Hn. apply Forall_forall. intros c Hc. apply itoa_nat_bytes in Hc as [?|Hc]; [done| |done].
  by apply not_elem_of_nil in Hc.
Qed.

Lemma itoa_nat_head fuel n acc :
  0 < n < 10 ^ Z.of_nat fuel ->
  exists d s, itoa_nat fuel n acc = String (digit_char d) s /\ 1 <= d <= 9.
Proof.
  revert n acc. induction fuel as [|f IH]; intros n acc Hn.
  { change (10 ^ Z.of_nat 0) with 1 in Hn. lia. }
  cbn [itoa_nat]. destruct (Z.ltb_spec n 10); [exists n, acc; split; [done|lia]|].
  rewrite Nat2Z.inj_succ, Z.pow_succ_r in Hn by lia. apply IH.
  split; [apply Z.div_str_pos; lia|apply Z.div_lt_upper_bound; lia].
Qed.

Lemma digit_char_cases d : 1 <= d <= 9 -> digit_char d ∈ ["1"; "2"; "3"; "4"; "5"; "6"; "7"; "8"; "9"]%char.
Proof.
  intros Hd. assert (d = 1 \/ d = 2 \/ d = 3 \/ d = 4 \/ d = 5 \/ d = 6 \/ d = 7 \/ d = 8 \/ d = 9)
    as Hc by lia.
  apply list_elem_of_In. repeat destruct Hc as [-> |Hc]; [vm_compute; tauto..|].
  subst d. vm_compute. tauto.
Qed.

(** What follows the digits is neither a fraction nor an exponent. *)
Lemma scan_number_digits c s rest :
  c ∈ ["1"; "2"; "3"; "4"; "5"; "6"; "7"; "8"; "9"]%char -> all_digits s -> value_end rest ->
  scan_number (String c (s ++ rest)) = Some (String c s, rest).
Proof.
  intros Hc Hs Hr. pose proof (take_digits_all s rest Hs Hr) as Ht.
  assert (scan_frac rest = Some (EmptyString, rest) /\ scan_exp rest = Some (EmptyString, rest)) as [Hf He].
  { by destruct Hr as (r0 & r & -> & [-> | ->]). }
  assert (scan_int (String c (s ++ rest)) = Some (String c s, rest)) as Hi.
  { apply list_elem_of_In in Hc.
    repeat destruct Hc as [<-|Hc]; try destruct Hc; cbn [scan_int]; cbn -[take_digits String.append];
      cbn [take_digits]; by rewrite Ht. }
  assert (Ascii.eqb c "-" = false) as Hm.
  { apply list_elem_of_In in Hc. by repeat destruct Hc as [<-|Hc]. }
  unfold scan_number. rewrite Hm, Hi, Hf, He. cbn [String.append]. by rewrite !append_empty_r.
Qed.

Lemma parse_value_digit c t fuel depth :
  c ∈ ["1"; "2"; "3"; "4"; "5"; "6"; "7"; "8"; "9"]%char ->
  parse_value (S fuel) depth (String c t) = (fun p => (JNum p.1, p.2)) <$> scan_number (String c t).
Proof.
  intros Hc. rewrite !elem_of_cons, elem_of_nil in Hc. by destruct_or! Hc; subst.
Qed.

(** Every printed number that is not negative. *)
Lemma encodes_itoa n : 0 <= n -> in_int64 n -> encodes (itoa n) (JNum (itoa n)).
Proof.
  unfold in_int64, int64_max. intros Hn0 [_ Hn] fuel depth rest Hr.
  destruct (decide (n = 0)) as [->|Hnz].
  { destruct Hr as (c & r & -> & [-> | ->]); reflexivity. }
  unfold itoa. rewrite (proj2 (Z.ltb_ge n 0)) by lia.
  destruct (itoa_nat_head 20 n EmptyString) as (d & s & E & Hd); [lia|].
  pose proof (itoa_nat_digits 20 n Hn0) as Hall. rewrite E in *. apply Forall_cons in Hall as [_ Hs].
  apply digit_char_cases in Hd. pose proof (scan_number_digits _ s rest Hd Hs Hr) as Hscan.
  cbn [String.append]. by rewrite parse_value_digit, Hscan.
Qed.

Lemma parse_members_object kvs js fuel depth rest :
  Forall2 (fun (kv : string * string) (j : string * json) =>
             plain kv.1 = true /\ j.1 = kv.1 /\ encodes kv.2 j.2) kvs js ->
  kvs <> [] -> (length kvs < fuel)%nat ->
  parse_members fuel depth (String.concat "," (json_field <$> kvs) ++ String "}" rest)%string
  = Some (js, rest).
Proof.
  intros H. revert fuel. induction H as [|[k v] [k' j] kvs js (Hk & Hkj & Hv) Hrest IH];
    intros fuel Hne Hf; [done|]. simpl in Hk, Hkj, Hv. subst k'.
  destruct fuel as [|[|fuel]]; [simpl in Hf; lia..|]. rewrite fmap_cons.
  assert (forall tail, value_end tail ->
    parse_members (S (S fuel)) depth (json_field (k, v) ++ tail)%string
    = match skip_space tail with
      | String c3 r' =>
          if Ascii.eqb c3 "}" then Some ([(k, j)], r')
          else if Ascii.eqb c3 "," then
            (fun p => ((k, j) :: p.1, p.2)) <$> parse_members (S fuel) depth r'
          else None
      | EmptyString => None
      end) as Hone.
  { intros tail Htail. unfold json_field, json_string. cbn [fst snd].
    rewrite json_string_body_plain, !append_assoc by done.
    cbn [String.append parse_members skip_space].
    change (is_json_space dquote) with false. cbn iota. rewrite Ascii.eqb_refl. cbn [negb].
    rewrite !append_assoc. cbn [String.append].
    change (chr dquote +:+ ?x) with (String dquote x).
    rewrite scan_string_plain by done. cbn [skip_space].
    change (is_json_space ":") with false. cbn iota.
    change (negb (Ascii.eqb ":" ":")) with false. cbn iota.
    rewrite Hv by done. by rewrite unquote_plain. }
  destruct kvs as [|kv2 kvs'].
  - inversion Hrest; subst. rewrite fmap_nil.
    change (String.concat "," [json_field (k, v)]) with (json_field (k, v)).
    rewrite Hone; [done|]. by exists "}"%char, rest; auto.
  - change (String.concat "," (json_field (k, v) :: (json_field <$> kv2 :: kvs')))
      with (json_field (k, v) ++ String "," (String.concat "," (json_field <$> kv2 :: kvs')))%string.
    rewrite append_assoc, Hone by (by eexists _, _; split; [done|left]).
    cbn [String.append skip_space]. change (is_json_space ",") with false. cbn iota.
    change (Ascii.eqb "," "}") with false. rewrite Ascii.eqb_refl. cbn iota.
    rewrite IH by (done || (simpl in *; lia)). done.
Qed.

Lemma length_concat_fields (kvs : list (string * string)) :
  (length kvs <= String.length (String.concat "," (json_field <$> kvs)))%nat.
Proof.
  induction kvs as [|kv kvs IH]; [simpl; lia|]. rewrite fmap_cons.
  assert (1 <= String.length (json_field kv))%nat by (unfold json_field, json_string; simpl; lia).
  destruct kvs as [|kv2 kvs']; [simpl in *; lia|].
  change (String.concat "," (json_field kv :: (json_field <$> kv2 :: kvs')))
    with (json_field kv ++ String "," (String.concat "," (json_field <$> kv2 :: kvs')))%string.
  rewrite length_append. simpl in *. lia.
Qed.

(** Parsing the object [json_object] wrote gives back its members in order. *)
Lemma parse_json_object kvs js :
  Forall2 (fun (kv : string * string) (j : string * json) =>
             plain kv.1 = true /\ j.1 = kv.1 /\ encodes kv.2 j.2) kvs js ->
  kvs <> [] -> parse_json (json_object kvs) = Some (JObj js).
Proof.
  intros H Hne. unfold parse_json, json_object.
  pose proof (length_concat_fields kvs) as Hlen.
  set (body := String.concat "," (json_field <$> kvs)) in *.
  assert (exists x, body = String dquote x) as [x Hx].
  { unfold body. destruct kvs as [|kv [|kv2 kvs']]; [done|by eexists|by eexists]. }
  change (S (2 * String.length ("{" ++ body ++ "}")))
    with (S (S (String.length (body ++ "}") + S (String.length (body ++ "}") + 0)))).
  rewrite length_append.
  set (fuel := S (String.length body + _ + _)).
  cbn [String.append parse_value skip_space]. change (is_json_space "{") with false. cbn iota.
  rewrite Ascii.eqb_refl.
  assert (skip_space (body ++ "}") = (body ++ "}")%string) as -> by by rewrite Hx.
  rewrite Hx at 1. cbn [String.append]. change (10000 <=? 0) with false.
  change (Ascii.eqb dquote "}") with false. cbn iota.
  change (String dquote (x ++ "}"))%string with (String dquote x ++ "}")%string. rewrite <- Hx.
  change (10000 - 1) with 9999.
  unfold body. rewrite (parse_members_object kvs js fuel 9999 EmptyString H Hne);
    [done|unfold fuel; lia].
Qed.
