(* ===== verification/JsonPrint.v ===== *)
(** [json.Marshal] of any value, and the round trip with [json.Unmarshal]: the
    parser of [GoJson] reads back what [Marshal] wrote, with the bytes that are
    not UTF-8 replaced by U+FFFD, as [encoding/json] documents. *)

From S2P Require Import Prelude GoStrings Utf8 GoJson.
From Stdlib Require Import Ascii.
Open Scope Z_scope.

(** ** Marshal *)

(** A struct is the object of its fields, in their order; the members of a map
    are sorted by key ([marshal_map]). *)
Fixpoint json_print (v : json) : string :=
  match v with
  | JNull => "null"
  | JBool true => "true"
  | JBool false => "false"
  | JNum lit => lit
  | JStr s => json_string s
  | JArr vs => ("[" ++ String.concat "," (List.map json_print vs) ++ "]")%string
  | JObj ms => json_object (List.map (fun kv => (kv.1, json_print kv.2)) ms)
  end.

(** Byte order, as [slices.Sort] compares strings. *)
Fixpoint str_leb (s t : string) : bool :=
  match s, t with
  | EmptyString, _ => true
  | String _ _, EmptyString => false
  | String a s', String b t' => (byte_of a <? byte_of b) || (Ascii.eqb a b && str_leb s' t')
  end.

Fixpoint insert_member {A} (kv : string * A) (ms : list (string * A)) : list (string * A) :=
  match ms with
  | [] => [kv]
  | kv' :: ms' => if str_leb kv.1 kv'.1 then kv :: ms else kv' :: insert_member kv ms'
  end.

(** The value [Marshal] writes for a map literal. *)
Definition marshal_map (ms : list (string * json)) : json := JObj (foldr insert_member [] ms).

(** ** Values *)

Fixpoint json_ind' (P : json -> Prop) (Hnull : P JNull) (Hbool : forall b, P (JBool b))
    (Hnum : forall l, P (JNum l)) (Hstr : forall s, P (JStr s))
    (Harr : forall vs, Forall P vs -> P (JArr vs))
    (Hobj : forall ms, Forall (fun kv => P kv.2) ms -> P (JObj ms)) (v : json) : P v :=
  let rec := json_ind' P Hnull Hbool Hnum Hstr Harr Hobj in
  match v with
  | JNull => Hnull | JBool b => Hbool b | JNum l => Hnum l | JStr s => Hstr s
  | JArr vs => Harr vs ((fix go vs := match vs return Forall P vs with
                         | [] => Forall_nil_2 _ | v :: vs => Forall_cons_2 _ _ _ (rec v) (go vs) end) vs)
  | JObj ms => Hobj ms ((fix go ms := match ms return Forall (fun kv => P kv.2) ms with
                         | [] => Forall_nil_2 _ | kv :: ms => Forall_cons_2 _ _ _ (rec kv.2) (go ms) end) ms)
  end.

(** Every number of a value satisfies [p]. *)
Fixpoint numbers_fit (p : string -> bool) (v : json) : bool :=
  match v with
  | JNum lit => p lit
  | JArr vs => forallb (numbers_fit p) vs
  | JObj ms => forallb (fun kv => numbers_fit p kv.2) ms
  | _ => true
  end.

(** A number literal of the grammar. *)
Definition is_number (lit : string) : bool := bool_decide (scan_number lit = Some (lit, EmptyString)).

Fixpoint nesting (v : json) : Z :=
  match v with
  | JArr vs => 1 + foldr Z.max 0 (List.map nesting vs)
  | JObj ms => 1 + foldr Z.max 0 (List.map (fun kv => nesting kv.2) ms)
  | _ => 0
  end.

(** The value with its strings as they are read back. *)
Fixpoint clean (v : json) : json :=
  match v with
  | JStr s => JStr (sanitize s)
  | JArr vs => JArr (List.map clean vs)
  | JObj ms => JObj (List.map (fun kv => (sanitize kv.1, clean kv.2)) ms)
  | _ => v
  end.

(** ** Strings *)

(** Whether a rune is written as a [\u] escape. *)
Definition uses_u (p : Z * string) : bool :=
  let '(r, w) := p in
  if r <? 128 then ((r <? 32) && negb ((r =? 8) || (r =? 12) || (r =? 10) || (r =? 13) || (r =? 9)))
                   || (r =? 60) || (r =? 62) || (r =? 38)
  else (String.length w =? 1)%nat || (r =? 8232) || (r =? 8233).

Definition rune_units (p : Z * string) : list str_unit :=
  if uses_u p then [UEsc p.1] else URaw <$> String.list_ascii_of_string p.2.

Lemma scan_high w t :
  Forall (fun c => 128 <= byte_of c) (String.list_ascii_of_string w) ->
  scan_string (w ++ t) = (fun q => ((URaw <$> String.list_ascii_of_string w) ++ q.1, q.2)) <$> scan_string t.
Proof.
  induction w as [|c w IH]; cbn [String.list_ascii_of_string String.append].
  { intros _. by destruct (scan_string t) as [[? ?]|]. }
  intros [Hc Hw]%Forall_cons. cbn [scan_string]. rewrite IH by done.
  destruct (Ascii.eqb_spec c dquote) as [->|_]; [by vm_compute in Hc|].
  rewrite (proj2 (Z.ltb_ge _ _)) by lia.
  destruct (Ascii.eqb_spec c backslash) as [->|_]; [by vm_compute in Hc|].
  by destruct (scan_string t) as [[? ?]|].
Qed.

(** Scanning back what one rune was written as. *)
Lemma scan_rune p t : rune_read p ->
  scan_string (json_escape_rune p ++ t) = (fun q => (rune_units p ++ q.1, q.2)) <$> scan_string t.
Proof.
  intros Hp. destruct (Z.ltb_spec p.1 128) as [Hr|Hr].
  - pose proof (rune_read_ascii p Hp Hr) as Hw. destruct Hp as [[Hv _] _], p as [r w]. cbn [fst snd] in *. subst w.
    unfold json_escape_rune, rune_units, uses_u. cbn [fst snd]. rewrite (proj2 (Z.ltb_lt r 128)) by done.
    rewrite <- (byte_of_of_byte r) by lia. rewrite of_byte_byte_of. generalize (of_byte r) as c. clear.
    intros [[] [] [] [] [] [] [] []]; reflexivity.
  - destruct Hp as [Hv Hw], p as [r w]. cbn [fst snd] in *.
    unfold json_escape_rune, rune_units, uses_u. cbn [fst snd]. rewrite (proj2 (Z.ltb_ge r 128)) by done.
    destruct (Nat.eqb_spec (String.length w) 1) as [Hl|Hl]; cbn [orb].
    + destruct Hw as [->|[He _]]; [by destruct (encode_rune_high r Hv Hr)|]. cbn [fst] in He. subst r. reflexivity.
    + destruct Hw as [->|(_ & c & Hw & _)]; [|cbn [snd] in Hw; by subst].
      destruct (Z.eqb_spec r 8232) as [->|]; [reflexivity|].
      destruct (Z.eqb_spec r 8233) as [->|]; [reflexivity|]. cbn [orb].
      by apply scan_high, encode_rune_high.
Qed.

Lemma scan_runes ps rest : Forall rune_read ps ->
  scan_string (String.concat EmptyString (json_escape_rune <$> ps) ++ String dquote rest)
  = Some (concat (rune_units <$> ps), rest).
Proof.
  induction 1 as [|p ps Hp Hps IH]; [done|].
  rewrite fmap_cons, concat_empty_cons, append_assoc, scan_rune, IH by done. done.
Qed.

Lemma unquote_raw_app raw w us :
  unquote_units raw ((URaw <$> String.list_ascii_of_string w) ++ us) = unquote_units (raw ++ w)%string us.
Proof.
  revert raw. induction w as [|c w IH]; intros raw; cbn [String.list_ascii_of_string fmap list_fmap app].
  { by rewrite append_empty_r. }
  cbn [unquote_units]. by rewrite IH, append_assoc.
Qed.

Lemma sanitize_encode rs : Forall valid_rune rs -> sanitize (encode_runes rs) = encode_runes rs.
Proof.
  intros Hrs. unfold sanitize. rewrite runes_encode by done. unfold encode_runes. f_equal.
  rewrite <- list_fmap_compose. by apply list_fmap_ext.
Qed.

Lemma uses_u_no_surrogate (p : Z * string) : valid_rune p.1 -> in_range 55296 57343 p.1 = false.
Proof. intros [_ Hs]. unfold in_range. destruct (Z.leb_spec 55296 p.1), (Z.leb_spec p.1 57343); (done || lia). Qed.

Lemma unquote_runes ps acc : Forall rune_read ps -> Forall valid_rune acc ->
  unquote_units (encode_runes acc) (concat (rune_units <$> ps)) = encode_runes (acc ++ ps.*1).
Proof.
  intros Hps. revert acc. induction Hps as [|p ps Hp Hps IH]; intros acc Hacc.
  { cbn. rewrite app_nil_r. by apply sanitize_encode. }
  rewrite !fmap_cons. cbn [concat]. pose proof Hp as [Hv Hw]. unfold rune_units at 1. destruct (uses_u p) eqn:Hu.
  - cbn [app unquote_units]. rewrite uses_u_no_surrogate, sanitize_encode by done.
    change EmptyString with (encode_runes []) at 1. rewrite (IH []) by constructor.
    cbn [app]. by rewrite encode_runes_app, encode_runes_cons.
  - assert (p.2 = encode_rune p.1) as ->.
    { destruct Hw as [|(He & c & Hc & _)]; [done|]. revert Hu. destruct p as [r w]. cbn [fst snd] in *. by subst. }
    rewrite unquote_raw_app.
    assert (encode_runes acc ++ encode_rune p.1 = encode_runes (acc ++ [p.1]))%string as ->.
    { rewrite encode_runes_app, encode_runes_cons. by rewrite append_empty_r. }
    rewrite IH; [by rewrite <- app_assoc|]. apply Forall_app. by split; [|constructor].
Qed.

(** A string literal is read back as the string, made valid. *)
Lemma scan_json_string s rest :
  exists us, scan_string (json_string_body s ++ String dquote rest) = Some (us, rest)
    /\ unquote_units EmptyString us = sanitize s.
Proof.
  exists (concat (rune_units <$> runes s)). split; [by apply scan_runes, runes_read|].
  change EmptyString with (encode_runes []). rewrite (unquote_runes _ []) by (constructor || apply runes_read).
  unfold sanitize, encode_runes. cbn [app]. by rewrite <- list_fmap_compose.
Qed.

Lemma runes_valid s : Forall valid_rune (runes s).*1.
Proof. apply Forall_fmap. eapply Forall_impl; [apply runes_read|]. by intros p [? _]. Qed.

Lemma sanitize_is_encode s : sanitize s = encode_runes (runes s).*1.
Proof. unfold sanitize, encode_runes. by rewrite <- list_fmap_compose. Qed.

Lemma sanitize_idemp s : sanitize (sanitize s) = sanitize s.
Proof. rewrite !(sanitize_is_encode s). apply sanitize_encode, runes_valid. Qed.

(** ** Numbers *)

(** What may follow a value: nothing, or what ends it in an array or an object. *)
Definition stops (rest : string) : Prop :=
  rest = EmptyString \/ exists c r, rest = String c r /\ c ∈ [","; "}"; "]"]%char.

Ltac stop_cases H :=
  destruct H as [->|(? & ? & -> & H)]; [|rewrite !elem_of_cons, elem_of_nil in H; destruct_or! H; subst].

Lemma take_digits_ext s rest d r : stops rest ->
  take_digits s = (d, r) -> take_digits (s ++ rest) = (d, (r ++ rest)%string).
Proof.
  intros Hr. revert d r. induction s as [|c s IH]; intros d r; cbn [take_digits String.append].
  - intros [= <- <-]. by stop_cases Hr.
  - destruct (is_digit c); [|by intros [= <- <-]]. destruct (take_digits s) as [d' r'].
    intros [= <- <-]. by rewrite (IH d' r').
Qed.

Lemma scan_int_ext s rest i r : stops rest ->
  scan_int s = Some (i, r) -> scan_int (s ++ rest) = Some (i, (r ++ rest)%string).
Proof.
  intros Hr. destruct s as [|c s]; [done|]. unfold scan_int. cbn [String.append].
  destruct (Ascii.eqb c "0"); [by intros [= <- <-]|]. destruct (is_digit c); [|done].
  destruct (take_digits (String c s)) as [d r'] eqn:E. intros [= <- <-].
  change (String c (s ++ rest)) with (String c s ++ rest)%string. by rewrite (take_digits_ext _ _ _ _ Hr E).
Qed.

Lemma scan_frac_ext s rest f r : stops rest ->
  scan_frac s = Some (f, r) -> scan_frac (s ++ rest) = Some (f, (r ++ rest)%string).
Proof.
  intros Hr. destruct s as [|c s]; unfold scan_frac; cbn [String.append].
  - intros [= <- <-]. by stop_cases Hr.
  - destruct (Ascii.eqb c "."); [|by intros [= <- <-]].
    destruct (take_digits s) as [d r'] eqn:E. rewrite (take_digits_ext _ _ _ _ Hr E).
    destruct d; [done|]. by intros [= <- <-].
Qed.

Lemma scan_exp_ext s rest e r : stops rest ->
  scan_exp s = Some (e, r) -> scan_exp (s ++ rest) = Some (e, (r ++ rest)%string).
Proof.
  intros Hr. destruct s as [|c s]; unfold scan_exp; cbn [String.append].
  - intros [= <- <-]. by stop_cases Hr.
  - destruct (_ || _); [|by intros [= <- <-]]. destruct s as [|g s]; [done|]. cbn [String.append].
    destruct (Ascii.eqb g "+" || Ascii.eqb g "-"); cbn zeta iota.
    + destruct (take_digits s) as [d r'] eqn:E. rewrite (take_digits_ext _ _ _ _ Hr E).
      destruct d; [done|]. by intros [= <- <-].
    + destruct (take_digits (String g s)) as [d r'] eqn:E.
      change (String g (s ++ rest)) with (String g s ++ rest)%string. rewrite (take_digits_ext _ _ _ _ Hr E).
      destruct d; [done|]. by intros [= <- <-].
Qed.

Lemma scan_number_ext s rest n r : stops rest ->
  scan_number s = Some (n, r) -> scan_number (s ++ rest) = Some (n, (r ++ rest)%string).
Proof.
  intros Hr. unfold scan_number. destruct s as [|c s]; [done|]. cbn [String.append].
  set (u := if Ascii.eqb c "-" then (chr c, s) else (EmptyString, String c s)).
  assert ((if Ascii.eqb c "-" then (chr c, (s ++ rest)%string) else (EmptyString, String c (s ++ rest)))
          = (u.1, (u.2 ++ rest)%string)) as -> by (unfold u; by destruct (Ascii.eqb c "-")).
  destruct u as [sign s1]. cbn [fst snd].
  destruct (scan_int s1) as [[i s2]|] eqn:Ei; [|done]. rewrite (scan_int_ext _ _ _ _ Hr Ei).
  destruct (scan_frac s2) as [[f s3]|] eqn:Ef; [|done]. rewrite (scan_frac_ext _ _ _ _ Hr Ef).
  destruct (scan_exp s3) as [[e s4]|] eqn:Ee; [|done]. rewrite (scan_exp_ext _ _ _ _ Hr Ee).
  by intros [= <- <-].
Qed.

Lemma is_number_head lit : is_number lit = true ->
  exists c l, lit = String c l /\ (c = "-"%char \/ is_digit c = true).
Proof.
  unfold is_number. intros H%bool_decide_eq_true. destruct lit as [|c l]; [done|].
  exists c, l. split; [done|]. revert H. unfold scan_number.
  destruct (Ascii.eqb_spec c "-") as [->|_]; [by left|]. unfold scan_int at 1.
  destruct (Ascii.eqb_spec c "0") as [->|_]; [by right|]. destruct (is_digit c); [by right|done].
Qed.

Lemma scan_int_digits c s : c ∈ ["1"; "2"; "3"; "4"; "5"; "6"; "7"; "8"; "9"]%char -> all_digits s ->
  scan_int (String c s) = Some (String c s, EmptyString).
Proof.
  intros Hc Hs. assert (take_digits s = (s, EmptyString)) as Ht.
  { unfold all_digits in Hs. induction s as [|d s IH]; [done|]. apply Forall_cons in Hs as [Hd Hs].
    cbn [take_digits]. by rewrite Hd, IH. }
  unfold scan_int. cbn [take_digits]. rewrite Ht. rewrite !elem_of_cons, elem_of_nil in Hc. by destruct_or! Hc; subst.
Qed.

(** Every printed integer is a number literal. *)
Lemma itoa_is_number n : in_int64 n -> is_number (itoa n) = true.
Proof.
  unfold in_int64, int64_min, int64_max. intros Hn. unfold is_number. apply bool_decide_eq_true.
  destruct (decide (n = 0)) as [->|Hnz]; [done|].
  destruct (itoa_nat_head 20 (Z.abs n) EmptyString) as (d & s & E & Hd); [lia|].
  pose proof (itoa_nat_digits 20 (Z.abs n) ltac:(lia)) as Hall. rewrite E in Hall. apply Forall_cons in Hall as [_ Hs].
  apply digit_char_cases in Hd. pose proof (scan_int_digits _ s Hd Hs) as Hi. unfold itoa. destruct (Z.ltb_spec n 0).
  - replace (- n) with (Z.abs n) by lia. rewrite E. unfold scan_number. rewrite Ascii.eqb_refl, Hi. cbn.
    by rewrite append_empty_r.
  - replace (itoa_nat 20 n EmptyString) with (itoa_nat 20 (Z.abs n) EmptyString) by (f_equal; lia). rewrite E.
    unfold scan_number. assert (Ascii.eqb (digit_char d) "-" = false) as ->.
    { rewrite !elem_of_cons, elem_of_nil in Hd. by destruct_or! Hd; rewrite Hd. }
    rewrite Hi. cbn. by rewrite append_empty_r.
Qed.

(** ** The round trip *)

Lemma json_list_ind {A} (f : A -> string) (x : A) (xs : list A) :
  String.concat "," (List.map f (x :: xs))
  = match xs with [] => f x | _ => (f x ++ String "," (String.concat "," (List.map f xs)))%string end.
Proof. by destruct xs. Qed.

(** Each printed value starts with a byte that is neither space nor closing. *)
Definition starts (s : string) : Prop :=
  exists c t, s = String c t /\ is_json_space c = false /\ c <> "]"%char /\ c <> "}"%char.

Lemma json_print_starts v : numbers_fit is_number v = true -> starts (json_print v).
Proof.
  destruct v as [|[]|lit|s|vs|ms]; cbn [json_print numbers_fit];
    [by eexists _, _..| |by eexists _, _|by eexists _, _|by eexists _, _].
  intros (c & l & -> & Hc)%is_number_head. exists c, l. split; [done|].
  destruct Hc as [->|Hc]; [done|]. revert Hc. destruct c as [[] [] [] [] [] [] [] []]; by vm_compute.
Qed.

(** The printed value is read back in front of anything that ends a value. *)
Definition reads (v : json) : Prop :=
  forall fuel depth rest, (2 * String.length (json_print v) <= fuel)%nat -> nesting v <= depth -> stops rest ->
    parse_value fuel depth (json_print v ++ rest) = Some (clean v, rest).

Lemma stops_comma r : stops (String "," r).
Proof. right. eexists _, _. split; [done|]. by left. Qed.

Lemma stops_brace r : stops (String "}" r).
Proof. right. eexists _, _. split; [done|]. right. by left. Qed.

Lemma stops_bracket r : stops (String "]" r).
Proof. right. eexists _, _. split; [done|]. right. right. by left. Qed.

Lemma reads_elems vs fuel depth rest :
  vs <> [] -> Forall reads vs -> Forall (fun v => nesting v <= depth) vs ->
  (2 * String.length (String.concat "," (List.map json_print vs)) < fuel)%nat ->
  parse_elems fuel depth (String.concat "," (List.map json_print vs) ++ String "]" rest)
  = Some (List.map clean vs, rest).
Proof.
  intros Hne Hvs. revert fuel Hne. induction Hvs as [|v vs Hv Hvs IH]; intros fuel Hne Hd Hf; [done|].
  apply Forall_cons in Hd as [Hdv Hd]. rewrite json_list_ind in *. destruct fuel as [|fuel]; [lia|].
  cbn [parse_elems]. destruct vs as [|v2 vs].
  - rewrite Hv by (lia || done || apply stops_bracket). done.
  - rewrite length_append in Hf. cbn [String.length] in Hf. rewrite append_assoc. cbn [String.append].
    rewrite Hv by (lia || done || apply stops_comma). cbn [skip_space].
    change (is_json_space ",") with false. change (Ascii.eqb "," "]") with false. cbn iota. rewrite Ascii.eqb_refl. cbn iota.
    by rewrite IH by (done || lia).
Qed.

Lemma reads_members ms fuel depth rest :
  ms <> [] -> Forall (fun kv => reads kv.2) ms -> Forall (fun kv => nesting kv.2 <= depth) ms ->
  (2 * String.length (String.concat "," (json_field <$> List.map (fun kv => (kv.1, json_print kv.2)) ms)) < fuel)%nat ->
  parse_members fuel depth
    (String.concat "," (json_field <$> List.map (fun kv => (kv.1, json_print kv.2)) ms) ++ String "}" rest)
  = Some (List.map (fun kv => (sanitize kv.1, clean kv.2)) ms, rest).
Proof.
  intros Hne Hms. revert fuel Hne. induction Hms as [|[k v] ms Hv Hms IH]; intros fuel Hne Hd Hf; [done|].
  apply Forall_cons in Hd as [Hdv Hd]. cbn [fst snd] in *.
  assert (json_field <$> List.map (fun kv => (kv.1, json_print kv.2)) ms
          = List.map (fun kv => json_field (kv.1, json_print kv.2)) ms) as Hmap
    by (rewrite <- (List.map_map (fun kv => (kv.1, json_print kv.2)) json_field); done).
  cbn [List.map] in *. rewrite fmap_cons in *. cbn [fst snd] in *. rewrite Hmap in *.
  change (json_field (k, json_print v) :: List.map (fun kv => json_field (kv.1, json_print kv.2)) ms)
    with (List.map (fun kv => json_field (kv.1, json_print kv.2)) ((k, v) :: ms)) in *.
  rewrite json_list_ind in *. cbn [fst snd] in *. destruct fuel as [|fuel]; [lia|].
  assert (forall tail, stops tail -> (2 * String.length (json_print v) <= fuel)%nat ->
    parse_members (S fuel) depth (json_field (k, json_print v) ++ tail)
    = match skip_space tail with
      | String c3 r' =>
          if Ascii.eqb c3 "}" then Some ([(sanitize k, clean v)], r')
          else if Ascii.eqb c3 "," then (fun p => ((sanitize k, clean v) :: p.1, p.2)) <$> parse_members fuel depth r'
          else None
      | EmptyString => None
      end) as Hone.
  { intros tail Ht Hl. unfold json_field, json_string. cbn [fst snd String.append]. rewrite !append_assoc.
    cbn [String.append parse_members skip_space chr].
    change (is_json_space dquote) with false. cbn iota. rewrite Ascii.eqb_refl. cbn [negb].
    change (chr dquote ++ ?x)%string with (String dquote x).
    destruct (scan_json_string k (String ":" (json_print v ++ tail))) as (us & Hs & Hu). rewrite Hs.
    cbn [String.append skip_space]. change (is_json_space ":") with false. cbn iota.
    change (negb (Ascii.eqb ":" ":")) with false. cbn iota. by rewrite Hv, Hu. }
  assert (String.length (json_print v) < String.length (json_field (k, json_print v)))%nat as Hlen.
  { unfold json_field. cbn [fst snd]. rewrite !length_append. cbn. lia. }
  destruct ms as [|kv2 ms].
  - rewrite Hone by (apply stops_brace || lia). done.
  - rewrite length_append in Hf. cbn [String.length] in Hf. rewrite append_assoc. cbn [String.append].
    rewrite Hone by (apply stops_comma || lia). cbn [skip_space].
    change (is_json_space ",") with false. change (Ascii.eqb "," "}") with false. cbn iota. rewrite Ascii.eqb_refl. cbn iota.
    by rewrite IH by (done || lia).
Qed.

Lemma max_forall {A} (f : A -> Z) xs b : foldr Z.max 0 (List.map f xs) <= b -> Forall (fun x => f x <= b) xs.
Proof. induction xs as [|x xs IH]; cbn; [constructor|]. intros H. constructor; [lia|apply IH; lia]. Qed.

Lemma max_nonneg {A} (f : A -> Z) xs : 0 <= foldr Z.max 0 (List.map f xs).
Proof. induction xs as [|x xs IH]; cbn; lia. Qed.

(** One opening byte, the space after it, and the case of an empty container. *)
Lemma open_container fuel depth (c close : ascii) body rest :
  (c = "{" /\ close = "}" \/ c = "[" /\ close = "]")%char -> 0 < depth ->
  starts body ->
  parse_value (S fuel) depth (String c (body ++ rest))
  = if Ascii.eqb c "{" then (fun p => (JObj p.1, p.2)) <$> parse_members fuel (depth - 1) (body ++ rest)
    else (fun p => (JArr p.1, p.2)) <$> parse_elems fuel (depth - 1) (body ++ rest).
Proof.
  intros Hc Hd Hb. destruct Hb as (b & t & -> & Hs & Hb1 & Hb2). cbn [String.append].
  destruct Hc as [[-> ->]|[-> ->]]; cbn [parse_value skip_space].
  - change (is_json_space "{") with false. cbn iota. change (Ascii.eqb "{" "{") with true. cbn iota.
    rewrite (proj2 (Z.leb_gt depth 0)) by done. cbn [skip_space]. rewrite Hs. cbn iota. by rewrite (proj2 (Ascii.eqb_neq b "}")).
  - change (is_json_space "[") with false. cbn iota. change (Ascii.eqb "[" "{") with false.
    change (Ascii.eqb "[" "[") with true. cbn iota.
    rewrite (proj2 (Z.leb_gt depth 0)) by done. cbn [skip_space]. rewrite Hs. cbn iota. by rewrite (proj2 (Ascii.eqb_neq b "]")).
Qed.

Lemma starts_app s t : starts s -> starts (s ++ t).
Proof. intros (c & u & -> & H). by exists c, (u ++ t)%string. Qed.

Lemma read_all v : numbers_fit is_number v = true -> reads v.
Proof.
  induction v as [|b|lit|s|vs IH|ms IH] using json_ind'; intros Hn fuel depth rest Hf Hd Hr;
    (destruct fuel as [|fuel]; [cbn in Hf; try destruct b; cbn in Hf; try lia|]).
  - done.
  - by destruct b.
  - apply is_number_head in Hn as (c & l & -> & _). cbn in Hf. lia.
  - cbn [json_print numbers_fit] in *. pose proof Hn as Hn'. apply bool_decide_eq_true in Hn' as Hscan.
    apply (scan_number_ext _ rest _ _ Hr) in Hscan. apply is_number_head in Hn as (c & l & -> & Hc).
    cbn [String.append] in *.
    assert (parse_value (S fuel) depth (String c (l ++ rest))
            = (fun p => (JNum p.1, p.2)) <$> scan_number (String c (l ++ rest))) as ->; [|by rewrite Hscan].
    destruct Hc as [->|Hc]; [done|]. revert Hc. clear. by destruct c as [[] [] [] [] [] [] [] []].
  - cbn [json_print]. unfold json_string. cbn [String.append parse_value skip_space]. rewrite append_assoc.
    change (is_json_space dquote) with false. cbn iota.
    change (Ascii.eqb dquote "{") with false. change (Ascii.eqb dquote "[") with false.
    rewrite Ascii.eqb_refl. cbn iota. change (chr dquote ++ rest)%string with (String dquote rest).
    destruct (scan_json_string s rest) as (us & -> & Hu). cbn. by rewrite Hu.
  - cbn [json_print nesting numbers_fit clean] in *. rewrite forallb_forall in Hn.
    pose proof (max_nonneg nesting vs). destruct vs as [|v vs].
    { cbn. rewrite (proj2 (Z.leb_gt depth 0)) by (cbn in *; lia). done. }
    rewrite !length_append in Hf. cbn [String.length] in Hf. cbn [String.append]. rewrite append_assoc.
    change ("]" ++ rest)%string with (String "]" rest).
    rewrite (open_container fuel depth "[" "]") by
      (lia || (by right) || (rewrite json_list_ind;
        assert (starts (json_print v)) by (apply json_print_starts, Hn; by left); destruct vs; [done|by apply starts_app])).
    change (Ascii.eqb "[" "{") with false. cbn iota. rewrite reads_elems; [done|done| | |lia].
    + rewrite Forall_forall in IH |- *. intros x Hx. apply IH; [done|]. apply Hn. by apply list_elem_of_In.
    + apply max_forall. lia.
  - cbn [json_print nesting numbers_fit clean] in *. rewrite forallb_forall in Hn.
    pose proof (max_nonneg (fun kv : string * json => nesting kv.2) ms). unfold json_object in *. destruct ms as [|kv ms].
    { cbn. rewrite (proj2 (Z.leb_gt depth 0)) by (cbn in *; lia). done. }
    rewrite !length_append in Hf. cbn [String.length] in Hf. cbn [String.append]. rewrite append_assoc.
    change ("}" ++ rest)%string with (String "}" rest).
    rewrite (open_container fuel depth "{" "}"); [|by left|lia|].
    2:{ cbn [List.map]. rewrite fmap_cons. set (x := json_field _). set (xs := json_field <$> _).
        assert (starts x) as Hx by (unfold x, json_field; by eexists _, _). destruct xs; [done|by apply starts_app]. }
    change (Ascii.eqb "{" "{") with true. cbn iota. rewrite reads_members; [done|done| | |lia].
    + rewrite Forall_forall in IH |- *. intros x Hx. apply IH; [done|]. apply Hn. by apply list_elem_of_In.
    + apply max_forall. lia.
Qed.

(** Parsing the text [Marshal] wrote gives the value, its strings made valid. *)
Lemma parse_json_print v :
  numbers_fit is_number v = true -> nesting v <= 10000 -> parse_json (json_print v) = Some (clean v).
Proof.
  intros Hn Hd. unfold parse_json.
  pose proof (read_all v Hn (S (2 * String.length (json_print v))) 10000 EmptyString) as Hr.
  rewrite append_empty_r in Hr. rewrite Hr by (lia || by left). done.
Qed.

(** Marshalling values whose strings are UTF-8 loses nothing. *)
Definition utf8 (s : string) : Prop := sanitize s = s.

Lemma utf8_sanitize s : utf8 (sanitize s).
Proof. apply sanitize_idemp. Qed.

Lemma utf8_ascii s : all_ascii s = true -> utf8 s.
Proof.
  intros Hs. unfold utf8, sanitize. rewrite runes_ascii, <- list_fmap_compose by done.
  induction s as [|c s IH]; [done|]. apply andb_true_iff in Hs as [Hc%Z.ltb_lt Hs].
  cbn [String.list_ascii_of_string]. rewrite fmap_cons, concat_empty_cons, IH by done. cbn.
  pose proof (byte_of_range c). rewrite encode_rune_valid by (unfold valid_rune; lia).
  rewrite (proj2 (Z.ltb_lt _ _)) by done. cbn. by rewrite of_byte_byte_of.
Qed.

Inductive utf8_json : json -> Prop :=
| utf8_null : utf8_json JNull
| utf8_bool b : utf8_json (JBool b)
| utf8_num l : utf8_json (JNum l)
| utf8_str s : utf8 s -> utf8_json (JStr s)
| utf8_arr vs : Forall utf8_json vs -> utf8_json (JArr vs)
| utf8_obj ms : Forall (fun kv => utf8 kv.1 /\ utf8_json kv.2) ms -> utf8_json (JObj ms).

Lemma clean_utf8 v : utf8_json v -> clean v = v.
Proof.
  induction v as [|b|lit|s|vs IH|ms IH] using json_ind'; intros Hv; inversion Hv as [| | |? Hs|? Hvs|? Hms]; subst;
    cbn [clean]; f_equal; try done.
  - clear Hv. induction Hvs as [|v vs Hv Hvs IHv]; [done|]. apply Forall_cons in IH as [IH1 IH2]. cbn. f_equal; auto.
  - clear Hv. induction Hms as [|[k v] ms [Hk Hv] Hms IHm]; [done|]. apply Forall_cons in IH as [IH1 IH2].
    cbn in *. f_equal; [f_equal|]; auto.
Qed.

Lemma numbers_fit_clean p v : numbers_fit p (clean v) = numbers_fit p v.
Proof.
  induction v as [|b|lit|s|vs IH|ms IH] using json_ind'; try done; cbn [clean numbers_fit].
  - induction IH as [|v vs Hv _ IHv]; [done|]. cbn. by rewrite Hv, IHv.
  - induction IH as [|kv ms Hv _ IHv]; [done|]. cbn. by rewrite Hv, IHv.
Qed.

Lemma nesting_clean v : nesting (clean v) = nesting v.
Proof.
  induction v as [|b|lit|s|vs IH|ms IH] using json_ind'; try done; cbn [clean nesting]; f_equal.
  - induction IH as [|v vs Hv _ IHv]; [done|]. cbn. by rewrite Hv, IHv.
  - induction IH as [|kv ms Hv _ IHv]; [done|]. cbn. by rewrite Hv, IHv.
Qed.

(** ** Decoded values written again

    [Marshal] of what [Unmarshal] put into an [any]: maps are sorted by key at
    every level, and numbers printed from their float64 ([float_text], on the
    literal). *)
Fixpoint go_any (float_text : string -> string) (v : json) : json :=
  match v with
  | JNum lit => JNum (float_text lit)
  | JArr vs => JArr (List.map (go_any float_text) vs)
  | JObj ms => marshal_map (List.map (fun kv => (kv.1, go_any float_text kv.2)) ms)
  | _ => v
  end.

Lemma insert_member_permutation {A} (kv : string * A) ms : Permutation (insert_member kv ms) (kv :: ms).
Proof.
  induction ms as [|kv' ms IH]; [done|]. cbn [insert_member]. destruct (str_leb kv.1 kv'.1); [done|].
  rewrite IH. constructor.
Qed.

Lemma sort_members_permutation {A} (ms : list (string * A)) : Permutation (foldr insert_member [] ms) ms.
Proof. induction ms as [|kv ms IH]; [done|]. cbn [foldr]. by rewrite insert_member_permutation, IH. Qed.

(** Members in the order [Marshal] writes them. *)
Lemma numbers_fit_map p ms : numbers_fit p (marshal_map ms) = forallb (fun kv => numbers_fit p kv.2) ms.
Proof.
  unfold marshal_map. cbn [numbers_fit]. pose proof (sort_members_permutation ms) as Hp.
  apply eq_true_iff_eq. rewrite !forallb_forall. split; intros H kv Hin; apply H;
    rewrite <- list_elem_of_In in *; by rewrite Hp in *.
Qed.

Lemma foldr_max_permutation (xs ys : list Z) : Permutation xs ys -> foldr Z.max 0 xs = foldr Z.max 0 ys.
Proof. induction 1; cbn; lia. Qed.

Lemma nesting_map ms : nesting (marshal_map ms) = nesting (JObj ms).
Proof.
  unfold marshal_map. cbn [nesting]. f_equal. apply foldr_max_permutation.
  apply Permutation_map, sort_members_permutation.
Qed.

Lemma go_any_numbers text v : (forall l, is_number (text l) = true) -> numbers_fit is_number (go_any text v) = true.
Proof.
  intros Ht. induction v as [|b|lit|s|vs IH|ms IH] using json_ind'; cbn [go_any]; try done; [by apply Ht|..].
  - cbn [numbers_fit]. apply forallb_forall. intros x (y & <- & Hy%list_elem_of_In)%in_map_iff.
    rewrite Forall_forall in IH. by apply IH.
  - rewrite numbers_fit_map. apply forallb_forall. intros x (y & <- & Hy%list_elem_of_In)%in_map_iff.
    rewrite Forall_forall in IH. by apply (IH y).
Qed.

Lemma go_any_nesting text v : nesting (go_any text v) = nesting v.
Proof.
  induction v as [|b|lit|s|vs IH|ms IH] using json_ind'; cbn [go_any]; try done.
  - cbn [nesting]. rewrite List.map_map. do 2 f_equal. apply List.map_ext_in. intros x Hx%list_elem_of_In.
    rewrite Forall_forall in IH. by apply IH.
  - rewrite nesting_map. cbn [nesting]. rewrite List.map_map. do 2 f_equal. apply List.map_ext_in.
    intros x Hx%list_elem_of_In. rewrite Forall_forall in IH. by apply (IH x).
Qed.

Lemma max_bound {A} (f : A -> Z) xs b : 0 <= b -> Forall (fun x => f x <= b) xs -> foldr Z.max 0 (List.map f xs) <= b.
Proof. intros Hb. induction 1; cbn; lia. Qed.

(** *** What is parsed *)

Lemma utf8_encode rs : Forall valid_rune rs -> utf8 (encode_runes rs).
Proof. apply sanitize_encode. Qed.

Lemma utf8_spec s : utf8 s <-> exists rs, Forall valid_rune rs /\ s = encode_runes rs.
Proof.
  split; [|by intros (rs & Hrs & ->); apply utf8_encode]. intros Hs. exists (runes s).*1.
  split; [apply runes_valid|]. rewrite <- sanitize_is_encode. by symmetry.
Qed.

Lemma utf8_append s t : utf8 s -> utf8 t -> utf8 (s ++ t).
Proof.
  intros (rs1 & H1 & ->)%utf8_spec (rs2 & H2 & ->)%utf8_spec. rewrite <- encode_runes_app.
  apply utf8_encode, Forall_app. by split.
Qed.

Lemma utf8_encode_rune r : utf8 (encode_rune r).
Proof.
  assert (forall r, valid_rune r -> utf8 (encode_rune r)) as Hv.
  { intros r' Hr. apply utf8_spec. exists [r']. split; [by constructor|]. rewrite encode_runes_cons. by rewrite append_empty_r. }
  destruct (decide ((r <? 0) || (1114111 <? r) || in_range 55296 57343 r = true)) as [Hb|Hb].
  - assert (encode_rune r = encode_rune rune_error) as -> by (unfold encode_rune at 1; by rewrite Hb).
    apply Hv. unfold valid_rune, rune_error. lia.
  - apply Hv. apply not_true_is_false in Hb. rewrite !orb_false_iff, !Z.ltb_ge in Hb. destruct Hb as [[H0 H1] Hs].
    unfold in_range in Hs. apply andb_false_iff in Hs. rewrite !Z.leb_gt in Hs. unfold valid_rune. lia.
Qed.

Lemma utf8_unquote raw us : utf8 (unquote_units raw us).
Proof.
  remember (length us) as n eqn:Hn. revert raw us Hn. induction n as [n IH] using lt_wf_ind. intros raw us ->.
  destruct us as [|[c|u] us]; cbn [unquote_units]; [apply utf8_sanitize|by apply (IH (length us)); [cbn; lia|]|].
  assert (utf8 (sanitize raw ++ encode_rune u ++ unquote_units EmptyString us)) as Hplain.
  { apply utf8_append; [apply utf8_sanitize|]. apply utf8_append; [apply utf8_encode_rune|].
    by apply (IH (length us)); [cbn; lia|]. }
  destruct (in_range 55296 57343 u); [|done]. destruct us as [|[c|v] us]; [done|done|].
  destruct (_ && _); [|done]. apply utf8_append; [apply utf8_sanitize|].
  apply utf8_append; [apply utf8_encode_rune|]. by apply (IH (length us)); [cbn; lia|].
Qed.

(** No deeper than allowed, and all its strings UTF-8. *)
Definition parsed (depth : Z) (v : json) : Prop := nesting v <= depth /\ utf8_json v.

Lemma parsed_arr depth vs : 0 < depth -> Forall (parsed (depth - 1)) vs -> parsed depth (JArr vs).
Proof.
  intros Hd Hvs. apply Forall_and in Hvs as [Hn Hu]. split; [|by constructor]. cbn [nesting].
  apply Z.le_add_le_sub_l, max_bound; [lia|done].
Qed.

Lemma parsed_obj depth ms : 0 < depth -> Forall (fun kv => utf8 kv.1 /\ parsed (depth - 1) kv.2) ms -> parsed depth (JObj ms).
Proof.
  intros Hd Hms. split.
  - cbn [nesting]. apply Z.le_add_le_sub_l, max_bound; [lia|]. eapply Forall_impl; [exact Hms|]. by intros kv (_ & ? & _).
  - constructor. eapply Forall_impl; [exact Hms|]. by intros kv (? & _ & ?).
Qed.

Lemma parse_parsed fuel :
  (forall depth s v r, 0 <= depth -> parse_value fuel depth s = Some (v, r) -> parsed depth v)
  /\ (forall depth s vs r, 0 <= depth -> parse_elems fuel depth s = Some (vs, r) -> Forall (parsed depth) vs)
  /\ (forall depth s ms r, 0 <= depth -> parse_members fuel depth s = Some (ms, r) ->
        Forall (fun kv => utf8 kv.1 /\ parsed depth kv.2) ms).
Proof.
  induction fuel as [|fuel (IHv & IHe & IHm)]; [done|]. split_and!.
  - intros depth s v r Hd. cbn [parse_value]. destruct (skip_space s) as [|c s1]; [done|].
    destruct (Ascii.eqb c "{").
    { destruct (Z.leb_spec depth 0); [done|]. destruct (skip_space s1) as [|c1 s2]; [done|].
      destruct (Ascii.eqb c1 "}"); [intros [= <- <-]; by apply parsed_obj|].
      intros ([ms r'] & Hm & [= -> ->])%fmap_Some. apply IHm in Hm; [|lia]. by apply parsed_obj. }
    destruct (Ascii.eqb c "[").
    { destruct (Z.leb_spec depth 0); [done|]. destruct (skip_space s1) as [|c1 s2]; [done|].
      destruct (Ascii.eqb c1 "]"); [intros [= <- <-]; by apply parsed_arr|].
      intros ([vs r'] & Hm & [= -> ->])%fmap_Some. apply IHe in Hm; [|lia]. by apply parsed_arr. }
    destruct (Ascii.eqb c dquote).
    { intros (? & _ & [= -> ->])%fmap_Some. split; [done|]. constructor. apply utf8_unquote. }
    repeat (destruct (has_prefix _ _); [intros [= <- <-]; by split; [|constructor]|]).
    intros (? & _ & [= -> ->])%fmap_Some. by split; [|constructor].
  - intros depth s vs r Hd. cbn [parse_elems]. destruct (parse_value fuel depth s) as [[v r1]|] eqn:E; [|done].
    apply IHv in E; [|done]. destruct (skip_space r1) as [|c r']; [done|].
    destruct (Ascii.eqb c "]"); [intros [= <- <-]; by apply Forall_singleton|]. destruct (Ascii.eqb c ","); [|done].
    intros ([vs' r2] & Hm & [= -> ->])%fmap_Some. constructor; [done|]. by eapply IHe.
  - intros depth s ms r Hd. cbn [parse_members]. destruct (skip_space s) as [|c s1]; [done|].
    destruct (negb _); [done|]. destruct (scan_string s1) as [[us s2]|]; [|done].
    destruct (skip_space s2) as [|c2 s3]; [done|]. destruct (negb _); [done|].
    destruct (parse_value fuel depth s3) as [[v r1]|] eqn:E; [|done]. apply IHv in E; [|done].
    destruct (skip_space r1) as [|c3 r']; [done|].
    assert (utf8 (unquote_units EmptyString us) /\ parsed depth v) as Hm by (split; [apply utf8_unquote|done]).
    destruct (Ascii.eqb c3 "}"); [intros [= <- <-]; by apply Forall_singleton|]. destruct (Ascii.eqb c3 ","); [|done].
    intros ([ms' r2] & Hms & [= -> ->])%fmap_Some. constructor; [done|]. by eapply IHm.
Qed.

Lemma parse_json_parsed s v : parse_json s = Some v -> parsed 10000 v.
Proof.
  unfold parse_json. destruct (parse_value _ _ _) as [[w r]|] eqn:E; [|done].
  case_bool_decide; [|done]. intros [= <-]. by eapply parse_parsed.
Qed.

