(* ===== verification/Logfmt.v ===== *)
(** What the log handler uses of Go's [log/slog] and [strconv]: [strconv.Quote],
    the text of an attribute, and the line [TextHandler] writes for a record. A
    reader of such lines is defined beside it, and gets every key and every value
    back. *)

From S2P Require Import Prelude GoStrings Utf8 GoJson.
From Stdlib Require Import Ascii.
Open Scope Z_scope.

(** [unicode.IsPrint] beyond ASCII. *)
Class PrintTable := { print_table : Z -> bool }.

(** ** strconv.Quote *)

Section quote.
Context `{PrintTable}.

Definition is_print (r : Z) : bool := if r <? 128 then in_range 32 126 r else print_table r.

Definition hex_byte (b : Z) : string := String (hex_lower (b / 16)) (chr (hex_lower (b mod 16))).

Definition hex_16 (r : Z) : string := (hex_byte (r / 256) ++ hex_byte (r mod 256))%string.

(** [appendEscapedRune], and the stray bytes [appendQuotedWith] treats itself. *)
Definition quote_rune (p : Z * string) : string :=
  let '(r, w) := p in
  match w with
  | String c EmptyString =>
      if r =? rune_error then String backslash (String "x" (hex_byte (byte_of c)))
      else if (r =? 34) || (r =? 92) then String backslash w
      else if is_print r then w
      else if r =? 7 then String backslash "a"
      else if r =? 8 then String backslash "b"
      else if r =? 12 then String backslash "f"
      else if r =? 10 then String backslash "n"
      else if r =? 13 then String backslash "r"
      else if r =? 9 then String backslash "t"
      else if r =? 11 then String backslash "v"
      else String backslash (String "x" (hex_byte r))
  | _ =>
      if is_print r then w
      else if r <? 65536 then String backslash (String "u" (hex_16 r))
      else String backslash (String "U" (hex_16 (r / 65536) ++ hex_16 (r mod 65536)))
  end.

Definition quote_body (s : string) : string := String.concat EmptyString (quote_rune <$> runes s).

Definition quote (s : string) : string := String dquote (quote_body s ++ chr dquote).

(** ** TextHandler *)

(** The rune by which [needsQuoting] asks for quotes: white space, an equals sign,
    a double quote, and what does not print. A backslash alone does not; DEL is
    let through, as the table of safe bytes has it. *)
Definition unsafe_rune (p : Z * string) : bool :=
  let '(r, w) := p in
  if r <? 128 then (r <? 32) || (r =? 32) || (r =? 61) || (r =? 34)
  else (r =? rune_error) || is_space r || negb (print_table r).

Definition needs_quoting (s : string) : bool :=
  match s with EmptyString => true | _ => existsb unsafe_rune (runes s) end.

(** [appendString] of the text format. *)
Definition append_string (s : string) : string := if needs_quoting s then quote s else s.

End quote.

(** [slog.Level]. *)
Inductive level : Type := LevelDebug | LevelInfo | LevelWarn | LevelError.

Definition level_value (l : level) : Z :=
  match l with LevelDebug => -4 | LevelInfo => 0 | LevelWarn => 4 | LevelError => 8 end.

Definition level_String (l : level) : string :=
  match l with LevelDebug => "DEBUG" | LevelInfo => "INFO" | LevelWarn => "WARN" | LevelError => "ERROR" end.

(** The value of an attribute: text ([string], [error] and whatever is formatted
    by [fmt]), or a number, a boolean, a duration or a time, which are written as
    they print. *)
Inductive attr_value : Type :=
| AText (s : string)
| AInt (n : Z)
| ABool (b : bool)
| ARaw (printed : string).

Definition attr : Type := string * attr_value.

Definition value_text (v : attr_value) : string :=
  match v with
  | AText s => s
  | AInt n => itoa n
  | ABool b => if b then "true" else "false"
  | ARaw t => t
  end.

(** A record: its time as it is printed (RFC 3339 with milliseconds), its level,
    its message and its attributes. *)
Record record := { r_time : string; r_level : level; r_message : string; r_attrs : list attr }.

Section handler.
Context `{PrintTable}.

Definition append_value (v : attr_value) : string :=
  match v with AText s => append_string s | _ => value_text v end.

Definition append_attr (a : attr) : string := (append_string a.1 ++ "=" ++ append_value a.2)%string.

(** The attributes of a line, the built-in ones first: each goes through
    [ReplaceAttr]. The time is written raw. *)
Definition line_attrs (replace : attr -> attr) (r : record) : list attr :=
  replace <$> [("time", ARaw (r_time r)); ("level", AText (level_String (r_level r)));
               ("msg", AText (r_message r))]%string ++ r_attrs r.

Definition newline : string := chr (of_byte 10).

Definition handle (replace : attr -> attr) (r : record) : string :=
  (String.concat " " (append_attr <$> line_attrs replace r) ++ newline)%string.

End handler.

(** ** Reading a line *)

Definition escape_val (c : ascii) : option Z :=
  let b := byte_of c in
  if (b =? 34) || (b =? 92) then Some b
  else if b =? 97 then Some 7 else if b =? 98 then Some 8 else if b =? 102 then Some 12
  else if b =? 110 then Some 10 else if b =? 114 then Some 13 else if b =? 116 then Some 9
  else if b =? 118 then Some 11 else None.

Definition byte_hex (a b : ascii) : option Z :=
  match hex_digit_val a, hex_digit_val b with Some x, Some y => Some (x * 16 + y) | _, _ => None end.

(** After the opening quote ([strconv.Unquote]): the string, and what follows the
    closing one. *)
Fixpoint unquote (s : string) : option (string * string) :=
  match s with
  | EmptyString => None
  | String c s1 =>
      if Ascii.eqb c dquote then Some (EmptyString, s1)
      else if byte_of c =? 10 then None
      else if Ascii.eqb c backslash then
        match s1 with
        | String e s2 =>
            if Ascii.eqb e "x" then
              match s2 with
              | String h1 (String h2 s3) =>
                  match byte_hex h1 h2 with
                  | Some b => (fun p => (String (of_byte b) p.1, p.2)) <$> unquote s3
                  | None => None
                  end
              | _ => None
              end
            else if Ascii.eqb e "u" then
              match s2 with
              | String h1 (String h2 (String h3 (String h4 s3))) =>
                  match hex4 h1 h2 h3 h4 with
                  | Some r => (fun p => ((encode_rune r ++ p.1)%string, p.2)) <$> unquote s3
                  | None => None
                  end
              | _ => None
              end
            else if Ascii.eqb e "U" then
              match s2 with
              | String g1 (String g2 (String g3 (String g4 (String h1 (String h2 (String h3 (String h4 s3))))))) =>
                  match hex4 g1 g2 g3 g4, hex4 h1 h2 h3 h4 with
                  | Some r1, Some r2 => (fun p => ((encode_rune (r1 * 65536 + r2) ++ p.1)%string, p.2)) <$> unquote s3
                  | _, _ => None
                  end
              | _ => None
              end
            else match escape_val e with
                 | Some b => (fun p => (String (of_byte b) p.1, p.2)) <$> unquote s2
                 | None => None
                 end
        | EmptyString => None
        end
      else (fun p => (String c p.1, p.2)) <$> unquote s1
  end.

(** Up to a space, an equals sign or the end of the line. *)
Fixpoint read_bare (s : string) : string * string :=
  match s with
  | String c s' =>
      if (byte_of c =? 32) || (byte_of c =? 61) || (byte_of c =? 10) then (EmptyString, s)
      else let '(t, r) := read_bare s' in (String c t, r)
  | EmptyString => (EmptyString, EmptyString)
  end.

Definition read_token (s : string) : option (string * string) :=
  match s with
  | String c s' => if Ascii.eqb c dquote then unquote s' else Some (read_bare s)
  | EmptyString => None
  end.

(** The keys and values of a line; the rest is the next line. *)
Fixpoint read_line (fuel : nat) (s : string) : option (list (string * string) * string) :=
  match fuel with
  | O => None
  | S f =>
      match read_token s with
      | Some (k, String e s1) =>
          if Ascii.eqb e "=" then
            match read_token s1 with
            | Some (v, String c s2) =>
                if byte_of c =? 10 then Some ([(k, v)], s2)
                else if Ascii.eqb c " " then (fun p => ((k, v) :: p.1, p.2)) <$> read_line f s2
                else None
            | _ => None
            end
          else None
      | _ => None
      end
  end.

(** ** Quoting is read back *)

#[local] Ltac Zify.zify_post_hook ::= Z.to_euclidean_division_equations.

Lemma hex_lower_val d : 0 <= d < 16 -> hex_digit_val (hex_lower d) = Some d.
Proof.
  intros Hd. assert (exists n, (n < 16)%nat /\ d = Z.of_nat n) as (n & Hn & ->) by (exists (Z.to_nat d); lia).
  do 16 (destruct n as [|n]; [done|]). lia.
Qed.

Lemma hex_16_read r t : 0 <= r < 65536 ->
  exists a b c d, (hex_16 r ++ t)%string = String a (String b (String c (String d t))) /\ hex4 a b c d = Some r.
Proof.
  intros Hr. eexists _, _, _, _. split; [reflexivity|]. unfold hex4. rewrite !hex_lower_val by lia. f_equal. lia.
Qed.

Lemma unquote_high w t :
  Forall (fun c => 128 <= byte_of c) (String.list_ascii_of_string w) ->
  unquote (w ++ t) = (fun q => ((w ++ q.1)%string, q.2)) <$> unquote t.
Proof.
  induction w as [|c w IH]; cbn [String.list_ascii_of_string String.append].
  { intros _. by destruct (unquote t) as [[? ?]|]. }
  intros [Hc Hw]%Forall_cons. cbn [unquote]. rewrite IH by done.
  destruct (Ascii.eqb_spec c dquote) as [->|_]; [by vm_compute in Hc|].
  rewrite (proj2 (Z.eqb_neq _ _)) by lia.
  destruct (Ascii.eqb_spec c backslash) as [->|_]; [by vm_compute in Hc|].
  by destruct (unquote t) as [[? ?]|].
Qed.

Section read.
Context `{PrintTable}.

Lemma unquote_rune p t : rune_read p ->
  unquote (quote_rune p ++ t) = (fun q => ((p.2 ++ q.1)%string, q.2)) <$> unquote t.
Proof.
  intros Hp. destruct (Z.ltb_spec p.1 128) as [Hr|Hr].
  - pose proof (rune_read_ascii p Hp Hr) as Hw. destruct Hp as [[Hv _] _], p as [r w]. cbn [fst snd] in *. subst w.
    unfold quote_rune, is_print, chr. cbn [fst snd]. rewrite (proj2 (Z.ltb_lt r 128)) by done.
    rewrite <- (byte_of_of_byte r) by lia. rewrite of_byte_byte_of. generalize (of_byte r) as c. clear.
    intros [[] [] [] [] [] [] [] []]; reflexivity.
  - destruct Hp as [Hv Hw], p as [r w]. cbn [fst snd] in *. destruct Hw as [->|(He & c & Hc & _)].
    2:{ cbn [fst snd] in He, Hc. subst r w. unfold quote_rune, chr. change (rune_error =? rune_error) with true. cbn iota.
        clear. destruct c as [[] [] [] [] [] [] [] []]; reflexivity. }
    pose proof (encode_rune_high r Hv Hr) as [Hhigh Hlen]. destruct (encode_rune_width r) as [n Hn].
    assert (quote_rune (r, encode_rune r)
      = if is_print r then encode_rune r
        else if r <? 65536 then String backslash (String "u" (hex_16 r))
        else String backslash (String "U" (hex_16 (r / 65536) ++ hex_16 (r mod 65536)))) as ->.
    { unfold quote_rune. destruct (encode_rune r) as [|a [|b w]]; done. }
    destruct (is_print r); [by apply unquote_high|]. destruct Hv as [Hv Hs]. destruct (Z.ltb_spec r 65536).
    + destruct (hex_16_read r t) as (a & b & c & d & Ht & Hh); [lia|]. cbn [String.append]. rewrite Ht.
      change (match hex4 a b c d with Some r => (fun p => ((encode_rune r ++ p.1)%string, p.2)) <$> unquote t | None => None end
              = (fun q => ((encode_rune r ++ q.1)%string, q.2)) <$> unquote t). by rewrite Hh.
    + destruct (hex_16_read (r mod 65536) t) as (a & b & c & d & Ht & Hh); [lia|].
      destruct (hex_16_read (r / 65536) (hex_16 (r mod 65536) ++ t)) as (a' & b' & c' & d' & Ht' & Hh'); [lia|].
      cbn [String.append]. rewrite append_assoc, Ht', Ht.
      change (match hex4 a' b' c' d', hex4 a b c d with
              | Some r1, Some r2 => (fun p => ((encode_rune (r1 * 65536 + r2) ++ p.1)%string, p.2)) <$> unquote t
              | _, _ => None end = (fun q => ((encode_rune r ++ q.1)%string, q.2)) <$> unquote t).
      rewrite Hh, Hh'. by replace (r / 65536 * 65536 + r mod 65536) with r by lia.
Qed.

(** [strconv.Unquote] inverts [strconv.Quote], for any bytes. *)
Lemma unquote_quote s rest : unquote (quote_body s ++ String dquote rest) = Some (s, rest).
Proof.
  rewrite <- (concat_runes s) at 2. unfold quote_body, concat_bytes. pose proof (runes_read s) as Hps.
  induction Hps as [|p ps Hp Hps IH]; [done|].
  rewrite !fmap_cons, !concat_empty_cons, append_assoc, unquote_rune, IH by done. done.
Qed.

(** ** Tokens *)

(** A byte at which a bare token does not stop. *)
Definition bare_byte (c : ascii) : bool := negb ((byte_of c =? 32) || (byte_of c =? 61) || (byte_of c =? 10)).

(** Text that may stand unquoted. *)
Definition bare (s : string) : Prop :=
  all_bytes bare_byte s = true /\ exists c t, s = String c t /\ c <> dquote.

(** What follows a token. *)
Definition token_end (rest : string) : Prop := exists c t, rest = String c t /\ bare_byte c = false.

Lemma read_bare_spec s rest : all_bytes bare_byte s = true -> token_end rest -> read_bare (s ++ rest) = (s, rest).
Proof.
  intros Hs (c & t & -> & Hc). induction s as [|a s IH]; cbn [String.append read_bare].
  - unfold bare_byte in Hc. apply negb_false_iff in Hc. by rewrite Hc.
  - apply andb_true_iff in Hs as [Ha Hs]. unfold bare_byte in Ha. apply negb_true_iff in Ha. by rewrite Ha, IH.
Qed.

Lemma read_bare_token s rest : bare s -> token_end rest -> read_token (s ++ rest) = Some (s, rest).
Proof.
  intros [Hs (c & t & -> & Hc)] Hr. unfold read_token. cbn [String.append].
  rewrite (proj2 (Ascii.eqb_neq c dquote)) by done.
  change (String c (t ++ rest)) with (String c t ++ rest)%string. by rewrite read_bare_spec.
Qed.

Lemma safe_rune_bare p : rune_read p -> unsafe_rune p = false ->
  all_bytes bare_byte p.2 = true /\ has_byte dquote p.2 = false.
Proof.
  intros Hp Hu. destruct (Z.ltb_spec p.1 128) as [Hr|Hr].
  - pose proof (rune_read_ascii p Hp Hr) as Hw. destruct Hp as [[Hv _] _], p as [r w]. cbn [fst snd] in *. subst w.
    revert Hu. unfold unsafe_rune. rewrite (proj2 (Z.ltb_lt r 128)) by done.
    rewrite <- (byte_of_of_byte r) by lia. rewrite of_byte_byte_of. generalize (of_byte r) as c. clear.
    intros [[] [] [] [] [] [] [] []]; vm_compute; (done || by intros).
  - pose proof (rune_read_high p Hp Hr) as Hh. split.
    + unfold all_bytes. apply forallb_forall. intros c Hc%list_elem_of_In. rewrite Forall_forall in Hh.
      specialize (Hh c Hc). unfold bare_byte. by rewrite !(proj2 (Z.eqb_neq _ _)) by lia.
    + apply has_byte_false. intros Hc. rewrite Forall_forall in Hh. by specialize (Hh _ Hc).
Qed.

Lemma needs_no_quoting s : needs_quoting s = false -> bare s.
Proof.
  intros Hn. destruct s as [|c s]; [done|]. unfold needs_quoting in Hn.
  assert (all_bytes bare_byte (String c s) = true /\ has_byte dquote (String c s) = false) as [Hb Hq].
  { rewrite <- (concat_runes (String c s)). pose proof (runes_read (String c s)) as Hps. revert Hn Hps.
    unfold concat_bytes. generalize (runes (String c s)) as ps. clear. intros ps Hn Hps.
    induction Hps as [|p ps Hp Hps IH]; [done|]. cbn [existsb] in Hn. apply orb_false_iff in Hn as [Hu Hn].
    destruct (safe_rune_bare p Hp Hu) as [H1 H2]. destruct (IH Hn) as [H3 H4].
    rewrite fmap_cons, concat_empty_cons, all_bytes_append, has_byte_append, H1, H2, H3, H4. done. }
  split; [done|]. exists c, s. split; [done|]. intros ->. revert Hq. by vm_compute.
Qed.

Lemma read_string s rest : token_end rest -> read_token (append_string s ++ rest) = Some (s, rest).
Proof.
  intros Hr. unfold append_string. destruct (needs_quoting s) eqn:Hn; [|by apply read_bare_token, Hr; apply needs_no_quoting].
  unfold quote. cbn [String.append read_token]. rewrite Ascii.eqb_refl, append_assoc. apply unquote_quote.
Qed.

(** ** Lines *)

(** What is written raw must be a token by itself: numbers and booleans are, the
    text of a duration or a time has to be. *)
Definition token_value (v : attr_value) : Prop := match v with ARaw t => bare t | _ => True end.

Lemma itoa_bare n : bare (itoa n).
Proof.
  assert (forall c, is_digit c = true \/ c = "-"%char -> bare_byte c = true /\ c <> dquote) as Hc.
  { intros c [Hd| ->]; [|done]. revert Hd. by destruct c as [[] [] [] [] [] [] [] []]; vm_compute. }
  split.
  - unfold all_bytes. apply forallb_forall. intros c Hin%list_elem_of_In. by apply Hc, (itoa_bytes n).
  - assert (exists c t, itoa n = String c t) as (c & t & E).
    { unfold itoa. destruct (Z.ltb_spec n 0); [by eexists _, _|].
      destruct (itoa_nat_cons 20 n EmptyString) as (d & s & -> & _); [lia|done|]. by eexists _, _. }
    exists c, t. split; [done|]. apply Hc, (itoa_bytes n). rewrite E. by left.
Qed.

Lemma read_value v rest : token_value v -> token_end rest -> read_token (append_value v ++ rest) = Some (value_text v, rest).
Proof.
  intros Hv Hr. destruct v as [s|n|b|t]; cbn [append_value value_text].
  - by apply read_string.
  - apply read_bare_token; [apply itoa_bare|done].
  - apply read_bare_token; [|done]. destruct b; (split; [done|by eexists _, _]).
  - by apply read_bare_token.
Qed.

(** What a reader should see of an attribute. *)
Definition seen (a : attr) : string * string := (a.1, value_text a.2).

Lemma token_end_byte c t : bare_byte c = false -> token_end (String c t).
Proof. intros Hc. by exists c, t. Qed.

Lemma read_attr a c rest f : token_value a.2 -> bare_byte c = false ->
  read_line (S f) (append_attr a ++ String c rest)
  = (if byte_of c =? 10 then Some ([seen a], rest)
     else if Ascii.eqb c " " then (fun p => (seen a :: p.1, p.2)) <$> read_line f rest else None).
Proof.
  intros Hv Hc. unfold append_attr. rewrite append_assoc. cbn [read_line].
  rewrite read_string by by apply token_end_byte. cbn [String.append]. rewrite Ascii.eqb_refl.
  by rewrite read_value by (done || by apply token_end_byte).
Qed.

(** The lines of a log are read back: every record is one line, and its keys and
    values are the ones it was given, whatever bytes they hold. *)
Lemma read_line_attrs attrs rest f :
  attrs <> [] -> Forall (fun a => token_value a.2) attrs -> (length attrs <= f)%nat ->
  read_line f (String.concat " " (append_attr <$> attrs) ++ newline ++ rest) = Some (seen <$> attrs, rest).
Proof.
  intros Hne Hv. revert f Hne. induction Hv as [|a attrs Ha Hattrs IH]; intros f Hne Hf; [done|].
  destruct f as [|f]; [cbn in Hf; lia|]. destruct attrs as [|a2 attrs].
  - change (newline ++ rest)%string with (String (of_byte 10) rest). cbn [fmap list_fmap String.concat].
    by rewrite read_attr.
  - change (String.concat " " (append_attr <$> a :: a2 :: attrs))
      with (append_attr a ++ String " " (String.concat " " (append_attr <$> a2 :: attrs)))%string.
    rewrite append_assoc. cbn [String.append]. rewrite read_attr by done.
    change (byte_of " " =? 10) with false. rewrite Ascii.eqb_refl. cbn iota.
    rewrite IH by (done || (cbn in Hf |- *; lia)). done.
Qed.

Lemma read_handled replace r rest f :
  Forall (fun a => token_value a.2) (line_attrs replace r) -> (length (r_attrs r) + 3 <= f)%nat ->
  read_line f (handle replace r ++ rest) = Some (seen <$> line_attrs replace r, rest).
Proof.
  intros Hv Hf. unfold handle. rewrite append_assoc. apply read_line_attrs; [done|done|].
  unfold line_attrs. rewrite (length_fmap replace). cbn. lia.
Qed.

End read.
