(* ===== verification/GoFlag.v ===== *)
(** Package [flag] of Go's standard library: reading a command line into a value,
    with the [strconv] functions it sets booleans and integers by; and the
    command lines it reads, as a grammar. *)

From S2P Require Import Prelude GoStrings Utf8 GoJson JsonPrint.
From Stdlib Require Import Ascii.
Open Scope Z_scope.

(** ** strconv *)

Definition ParseBool (s : string) : option bool :=
  if bool_decide (s ∈ ["1"; "t"; "T"; "TRUE"; "true"; "True"]%string) then Some true
  else if bool_decide (s ∈ ["0"; "f"; "F"; "FALSE"; "false"; "False"]%string) then Some false
  else None.

Definition lower (c : ascii) : Z := Z.lor (byte_of c) 32.

Definition base_of (c : ascii) : option Z :=
  if lower c =? 98 then Some 2 else if lower c =? 111 then Some 8 else if lower c =? 120 then Some 16 else None.

Definition digit_of (c : ascii) : option Z :=
  if is_digit c then Some (digit_val c)
  else if in_range 97 122 (lower c) then Some (lower c - 97 + 10) else None.

(** The loop of [ParseUint] for base 0: underscores are skipped. *)
Fixpoint base_digits (base acc : Z) (s : string) : option Z :=
  match s with
  | EmptyString => Some acc
  | String c s' =>
      if Ascii.eqb c "_" then base_digits base acc s'
      else
        d ← digit_of c;
        if base <=? d then None else base_digits base (base * acc + d) s'
  end.

(** [underscoreOK]: what its loop saw last. *)
Inductive saw : Type := SawStart | SawDigit | SawUnderscore | SawOther.

Fixpoint underscores (hex : bool) (last : saw) (s : string) : bool :=
  match s with
  | EmptyString => match last with SawUnderscore => false | _ => true end
  | String c s' =>
      if is_digit c || (hex && in_range 97 102 (lower c)) then underscores hex SawDigit s'
      else if Ascii.eqb c "_" then match last with SawDigit => underscores hex SawUnderscore s' | _ => false end
      else match last with SawUnderscore => false | _ => underscores hex SawOther s' end
  end.

Definition underscoreOK (s : string) : bool :=
  match s with
  | String z (String c s') =>
      match (if Ascii.eqb z "0" then base_of c else None) with
      | Some b => underscores (b =? 16) SawDigit s'
      | None => underscores false SawStart s
      end
  | _ => underscores false SawStart s
  end.

(** [ParseUint] with base 0, without its bound. *)
Definition parse_uint0 (s : string) : option Z :=
  match s with
  | EmptyString => None
  | String z rest =>
      let '(base, digits) :=
        if Ascii.eqb z "0" then
          match rest with
          | String c (String _ _ as more) => match base_of c with Some b => (b, more) | None => (8, rest) end
          | _ => (8, rest)
          end
        else (10, s) in
      n ← base_digits base 0 digits;
      if has_byte "_" digits && negb (underscoreOK s) then None else Some n
  end.

(** [ParseInt(s, 0, 64)]. *)
Definition ParseInt (s : string) : option Z :=
  let check := fun v => if (int64_min <=? v) && (v <=? int64_max) then Some v else None in
  match s with
  | EmptyString => None
  | String c s' =>
      if Ascii.eqb c "-" then parse_uint0 s' ≫= fun v => check (- v)
      else if Ascii.eqb c "+" then parse_uint0 s' ≫= check
      else parse_uint0 s ≫= check
  end.

Lemma base_digits_decimal acc s v : parse_digits acc s = Some v -> base_digits 10 acc s = Some v.
Proof.
  revert acc. induction s as [|c s IH]; intros acc; [done|]. cbn [parse_digits base_digits].
  destruct (is_digit c) eqn:Hc; [|done]. intros Hv. destruct (Ascii.eqb_spec c "_") as [->|_]; [done|].
  unfold digit_of. rewrite Hc. cbn. apply is_digit_spec in Hc. destruct (Z.leb_spec 10 (digit_val c)); [lia|]. by apply IH.
Qed.

Lemma parse_uint0_itoa n : 0 <= n < 10 ^ 20 -> parse_uint0 (itoa_nat 20 n EmptyString) = Some n.
Proof.
  intros Hn. destruct (decide (n = 0)) as [->|Hnz]; [done|].
  pose proof (parse_nat_itoa n Hn) as Hp. destruct (itoa_nat_head 20 n EmptyString) as (d & s & E & Hd); [lia|].
  rewrite E in *. unfold parse_nat in Hp. apply digit_char_cases in Hd. unfold parse_uint0.
  assert (Ascii.eqb (digit_char d) "0" = false) as ->.
  { rewrite !elem_of_cons, elem_of_nil in Hd. by destruct_or! Hd; rewrite Hd. }
  rewrite (base_digits_decimal _ _ _ Hp). cbn.
  assert (has_byte "_" (String (digit_char d) s) = false) as ->; [|done].
  apply has_byte_false. intros Hin. pose proof (parse_digits_is_digit _ _ _ _ Hp Hin). done.
Qed.

(** What [itoa] prints, [ParseInt] reads. *)
Lemma ParseInt_itoa n : in_int64 n -> ParseInt (itoa n) = Some n.
Proof.
  unfold in_int64, int64_min, int64_max. intros Hn. unfold itoa.
  assert ((int64_min <=? n) && (n <=? int64_max) = true) as Hr
    by (rewrite andb_true_iff, !Z.leb_le; unfold int64_min, int64_max; lia).
  destruct (Z.ltb_spec n 0).
  - unfold ParseInt. rewrite Ascii.eqb_refl, parse_uint0_itoa by lia. cbn [mbind option_bind].
    by rewrite Z.opp_involutive, Hr.
  - pose proof (parse_uint0_itoa n ltac:(lia)) as Hp.
    destruct (itoa_nat_cons 20 n EmptyString ltac:(lia) ltac:(lia)) as (d & s & E & Hd).
    unfold ParseInt. rewrite E in *. destruct (digit_char_not_sign d Hd) as [-> ->].
    rewrite Hp. cbn [mbind option_bind]. by rewrite Hr.
Qed.

Example integers :
  ParseInt "0x5_0" = Some 80 /\ ParseInt "0b11" = Some 3 /\ ParseInt "-017" = Some (-15) /\ ParseInt "+1_400" = Some 1400
  /\ ParseInt "08" = None /\ ParseInt "1__4" = None /\ ParseInt "_1" = None /\ ParseInt "0_7" = Some 7 /\ ParseInt "0x" = None
  /\ ParseInt "9223372036854775808" = None /\ ParseInt "-9223372036854775808" = Some int64_min.
Proof. by vm_compute. Qed.

(** ** Flags *)

(** A flag, and what setting it does; [None] is the error of its value. *)
Record flag (A : Type) := { flag_name : string; is_bool : bool; set : string -> A -> option A }.
Arguments flag_name {A} _.
Arguments is_bool {A} _.
Arguments set {A} _ _ _.

Inductive flag_err : Type :=
| BadSyntax (arg : string)
| NotDefined (name : string)
| BadBoolean (value name : string)
| NeedsArgument (name : string)
| BadValue (value name : string)
| ErrHelp.

(** One argument, as [parseOne] looks at it. *)
Inductive word : Type :=
| NotAFlag
| Terminator
| Malformed
| Named (name : string) (value : option string).

Definition named (s : string) : word :=
  match s with
  | EmptyString => Malformed
  | String c _ =>
      if Ascii.eqb c "-" || Ascii.eqb c "=" then Malformed
      else match cut_byte "=" s with
      | Some (name, value) => Named name (Some value)
      | None => Named s None
      end
  end.

Definition read_word (s : string) : word :=
  match s with
  | String c1 (String c2 r as t) =>
      if negb (Ascii.eqb c1 "-") then NotAFlag
      else if Ascii.eqb c2 "-" then if bool_decide (r = EmptyString) then Terminator else named r
      else named t
  | _ => NotAFlag
  end.

Section parse.
Context {A : Type} (formal : list (flag A)).

Definition lookup_flag (name : string) : option (flag A) := List.find (fun f => bool_decide (flag_name f = name)) formal.

(** [FlagSet.Parse]: the value with its flags set, and the other arguments. *)
Fixpoint parse (a : A) (args : list string) : result flag_err (A * list string) :=
  match args with
  | [] => Ok (a, [])
  | s :: args' =>
      match read_word s with
      | NotAFlag => Ok (a, args)
      | Terminator => Ok (a, args')
      | Malformed => Err (BadSyntax s)
      | Named name value =>
          match lookup_flag name with
          | None =>
              if bool_decide (name = "help"%string) || bool_decide (name = "h"%string) then Err ErrHelp
              else Err (NotDefined name)
          | Some f =>
              if is_bool f then
                match set f (default "true"%string value) a with
                | None => Err (BadBoolean (default "true"%string value) name)
                | Some a' => parse a' args'
                end
              else match value, args' with
              | Some v, _ => match set f v a with None => Err (BadValue v name) | Some a' => parse a' args' end
              | None, v :: args'' => match set f v a with None => Err (BadValue v name) | Some a' => parse a' args'' end
              | None, [] => Err (NeedsArgument name)
              end
          end
      end
  end.

(** ** The grammar of command lines *)

Definition dashes (d : string) : Prop := d = "-"%string \/ d = "--"%string.

(** Names the package can find again. *)
Definition plain (name : string) : Prop :=
  exists c r, name = String c r /\ c <> "-"%char /\ has_byte "=" name = false.

Definition well_defined : Prop := Forall (fun f => plain (flag_name f)) formal /\ NoDup (flag_name <$> formal).

(** The flags end at the first argument that is none, or after [--]. *)
Definition ends (args rest : list string) : Prop :=
  (args = [] /\ rest = []) \/ args = "--"%string :: rest
  \/ args = rest /\ exists s args', args = s :: args' /\ ((String.length s < 2)%nat \/ has_prefix "-" s = false).

(** [spells args sets rest]: the arguments set these flags to these values, in
    this order, and leave [rest]. *)
Inductive spells : list string -> list (flag A * string) -> list string -> Prop :=
| spells_end args rest : ends args rest -> spells args [] rest
| spells_joined d f v args sets rest : dashes d -> f ∈ formal -> spells args sets rest ->
    spells ((d ++ flag_name f ++ "=" ++ v)%string :: args) ((f, v) :: sets) rest
| spells_switch d f args sets rest : dashes d -> f ∈ formal -> is_bool f = true -> spells args sets rest ->
    spells ((d ++ flag_name f)%string :: args) ((f, "true"%string) :: sets) rest
| spells_separate d f v args sets rest : dashes d -> f ∈ formal -> is_bool f = false -> spells args sets rest ->
    spells ((d ++ flag_name f)%string :: v :: args) ((f, v) :: sets) rest.

Fixpoint set_all (sets : list (flag A * string)) (a : A) : option A :=
  match sets with
  | [] => Some a
  | (f, v) :: sets' => set f v a ≫= set_all sets'
  end.

End parse.

Lemma cut_byte_inv c s l r : cut_byte c s = Some (l, r) -> s = (l ++ String c r)%string.
Proof.
  unfold cut_byte. destruct (index_byte c s) as [i|] eqn:E; [|done]. intros [= <- <-].
  apply index_byte_Some in E as (l & r & -> & <- & _).
  rewrite str_take_append. do 2 f_equal. by induction l.
Qed.

Section grammar.
Context {A : Type} (formal : list (flag A)).

Lemma named_joined name v : plain name -> named (name ++ "=" ++ v) = Named name (Some v).
Proof.
  intros (c & r & -> & Hc & He). unfold named. cbn [String.append].
  assert (Ascii.eqb c "=" = false) as Hc'.
  { destruct (Ascii.eqb_spec c "=") as [->|]; [|done]. apply has_byte_false in He. exfalso. apply He. by left. }
  destruct (Ascii.eqb_spec c "-"); [done|]. rewrite Hc'. cbn [orb].
  change (String c (r ++ String "=" v)) with (String c r ++ String "=" v)%string.
  rewrite cut_byte_append; [done|]. by apply has_byte_false.
Qed.

Lemma named_alone name : plain name -> named name = Named name None.
Proof.
  intros (c & r & -> & Hc & He). unfold named.
  assert (Ascii.eqb c "=" = false) as Hc'.
  { destruct (Ascii.eqb_spec c "=") as [->|]; [|done]. apply has_byte_false in He. exfalso. apply He. by left. }
  destruct (Ascii.eqb_spec c "-"); [done|]. rewrite Hc'. cbn [orb]. unfold cut_byte.
  destruct (index_byte "=" (String c r)) as [i|] eqn:E; [|done].
  unfold has_byte in He. by rewrite E in He.
Qed.

Lemma read_word_named d s name v : dashes d -> named s = Named name v -> read_word (d ++ s) = Named name v.
Proof.
  intros [-> | ->] Hn; cbn [String.append read_word].
  - destruct s as [|c r]; [done|]. change (Ascii.eqb "-" "-") with true. cbn [negb].
    destruct (Ascii.eqb c "-") eqn:E; [|done]. unfold named in Hn. by rewrite E in Hn.
  - change (Ascii.eqb "-" "-") with true. cbn [negb]. rewrite bool_decide_false; [done|]. by intros ->.
Qed.

Lemma named_inv s name v : named s = Named name v ->
  s = match v with Some v => (name ++ "=" ++ v)%string | None => name end.
Proof.
  unfold named. destruct s as [|c r]; [done|]. destruct (_ || _); [done|].
  destruct (cut_byte "=" (String c r)) as [[n w]|] eqn:E; intros [= <- <-]; [|done].
  by apply cut_byte_inv in E.
Qed.

Lemma read_word_inv s name v : read_word s = Named name v ->
  exists d, dashes d /\ s = (d ++ match v with Some v => name ++ "=" ++ v | None => name end)%string.
Proof.
  destruct s as [|c1 [|c2 r]]; [done..|]. cbn [read_word]. destruct (Ascii.eqb_spec c1 "-") as [->|]; [|done]. cbn [negb].
  destruct (Ascii.eqb_spec c2 "-") as [->|].
  - destruct (bool_decide _); [done|]. intros ->%named_inv. exists "--"%string. split; [by right|done].
  - intros Hn%named_inv. rewrite Hn. exists "-"%string. split; [by left|done].
Qed.

Lemma lookup_flag_spec name f : well_defined formal ->
  lookup_flag formal name = Some f <-> f ∈ formal /\ flag_name f = name.
Proof.
  intros [_ Hnd]. unfold lookup_flag. split.
  - intros [Hin Hn]%List.find_some. apply list_elem_of_In in Hin. by apply bool_decide_eq_true in Hn.
  - intros [Hin <-]. induction formal as [|g fs IH]; [by apply not_elem_of_nil in Hin|].
    rewrite fmap_cons in Hnd. apply NoDup_cons in Hnd as [Hg Hnd]. cbn [List.find].
    apply elem_of_cons in Hin as [->|Hin]; [by rewrite bool_decide_true|].
    rewrite bool_decide_false; [by apply IH|]. intros Hn. apply Hg. rewrite Hn. by apply list_elem_of_fmap_2.
Qed.

Lemma read_word_ends s args rest : ends (s :: args) rest ->
  (read_word s = NotAFlag /\ rest = s :: args) \/ (read_word s = Terminator /\ rest = args).
Proof.
  intros [[? _]|[[= -> ->]|[<- (s' & args' & [= <- <-] & Hs)]]]; [done|by right|left]. split; [|done].
  destruct s as [|c1 [|c2 r]]; [done..|]. destruct Hs as [Hs|Hs]; [cbn in Hs; lia|].
  cbn [read_word has_prefix] in *. rewrite andb_true_r in Hs. rewrite Ascii.eqb_sym. by rewrite Hs.
Qed.

Lemma ends_read_word s args : 
  (read_word s = NotAFlag -> ends (s :: args) (s :: args)) /\ (read_word s = Terminator -> ends (s :: args) args).
Proof.
  split; intros Hw.
  - right. right. split; [done|]. exists s, args. split; [done|]. destruct s as [|c1 [|c2 r]]; [left; cbn; lia..|]. right.
    cbn [read_word] in Hw. cbn [has_prefix]. destruct (Ascii.eqb_spec c1 "-") as [->|Hne]; cbn [negb] in Hw.
    + destruct (Ascii.eqb c2 "-"); [destruct (bool_decide _); [done|]|]; unfold named in Hw;
        repeat case_match; done.
    + destruct (Ascii.eqb_spec "-" c1); [congruence|done].
  - right. left. destruct s as [|c1 [|c2 r]]; [done..|]. cbn [read_word] in Hw.
    destruct (Ascii.eqb_spec c1 "-") as [->|]; [|done]. cbn [negb] in Hw. destruct (Ascii.eqb_spec c2 "-") as [->|].
    + case_bool_decide as Hr; [by rewrite Hr|]. unfold named in Hw. repeat case_match; done.
    + unfold named in Hw. repeat case_match; done.
Qed.

Lemma parse_complete args sets rest a a' : well_defined formal ->
  spells formal args sets rest -> set_all sets a = Some a' -> parse formal a args = Ok (a', rest).
Proof.
  intros Hwd Hsp. revert a. induction Hsp as
    [args rest He|d f v args sets rest Hd Hf Hsp IH|d f args sets rest Hd Hf Hb Hsp IH|d f v args sets rest Hd Hf Hb Hsp IH];
    intros a Hs; cbn [set_all] in Hs.
  1: { injection Hs as <-. destruct args as [|s args].
       - destruct He as [[_ ->]|[?|[<- _]]]; done.
       - cbn [parse]. by destruct (read_word_ends s args rest He) as [[-> ->]|[-> ->]]. }
  all: assert (plain (flag_name f)) as Hp by (destruct Hwd as [Hpl _]; rewrite Forall_forall in Hpl; by apply Hpl);
    assert (lookup_flag formal (flag_name f) = Some f) as Hl by (by apply lookup_flag_spec);
    apply bind_Some in Hs as (a1 & Hset & Hs); cbn [parse].
  - rewrite (read_word_named d _ _ _ Hd (named_joined _ v Hp)), Hl. cbn [default id]. rewrite Hset.
    destruct (is_bool f); by apply IH.
  - rewrite (read_word_named d _ _ _ Hd (named_alone _ Hp)), Hl, Hb. cbn [default id]. rewrite Hset. by apply IH.
  - rewrite (read_word_named d _ _ _ Hd (named_alone _ Hp)), Hl, Hb, Hset. by apply IH.
Qed.

Lemma parse_sound n args a a' rest : well_defined formal -> (length args <= n)%nat ->
  parse formal a args = Ok (a', rest) -> exists sets, spells formal args sets rest /\ set_all sets a = Some a'.
Proof.
  intros Hwd. revert args a. induction n as [|n IH]; intros [|s args] a Hn; cbn [length] in Hn; try lia.
  1, 2: by (intros [= <- <-]; exists []; split; [constructor; by left|]).
  cbn [parse]. destruct (read_word s) as [| | |name value] eqn:Hw; [| |done|].
  - intros [= <- <-]. exists []. split; [constructor; by apply ends_read_word|done].
  - intros [= <- <-]. exists []. split; [constructor; by apply ends_read_word|done].
  - destruct (lookup_flag formal name) as [f|] eqn:Hl; [|by destruct (_ || _)].
    apply lookup_flag_spec in Hl as [Hf <-]; [|done]. apply read_word_inv in Hw as (d & Hd & ->).
    destruct (is_bool f) eqn:Hb.
    + destruct (set f _ a) as [a1|] eqn:Hset; [|done]. intros (sets & Hsp & Hs)%IH; [|lia].
      exists ((f, default "true"%string value) :: sets). split; [|cbn [set_all]; by rewrite Hset].
      destruct value as [v|]; by constructor.
    + destruct value as [v|].
      * destruct (set f v a) as [a1|] eqn:Hset; [|done]. intros (sets & Hsp & Hs)%IH; [|lia].
        exists ((f, v) :: sets). split; [by constructor|cbn [set_all]; by rewrite Hset].
      * destruct args as [|v args]; [done|]. cbn [length] in Hn.
        destruct (set f v a) as [a1|] eqn:Hset; [|done]. intros (sets & Hsp & Hs)%IH; [|lia].
        exists ((f, v) :: sets). split; [by constructor|cbn [set_all]; by rewrite Hset].
Qed.

End grammar.
