(* ===== verification/GoTime.v ===== *)
(** Time values as the client uses them: wall-clock instants ([time.Time]
    without a monotonic reading) and durations in nanoseconds. *)

From S2P Require Import Prelude.
Open Scope Z_scope.

Definition Second : Z := 10 ^ 9.
Definition Minute : Z := 60 * Second.

(** Seconds since year 1 as the signed 64-bit word the representation keeps, and
    nanoseconds within the second. *)
Record time := { sec : Z; nsec : Z }.

#[export] Instance time_eq_dec : EqDecision time.
Proof. solve_decision. Defined.

Definition time_zero : time := {| sec := 0; nsec := 0 |}.

(** Seconds from year 1 to 1970. *)
Definition unixToInternal : Z := 62135596800.

(** [time.Unix(seconds, 0)]. *)
Definition time_unix (seconds : Z) : time := {| sec := seconds +i unixToInternal; nsec := 0 |}.

Definition is_zero (t : time) : bool := (sec t =? 0) && (nsec t =? 0).

Definition after (t u : time) : bool :=
  (sec u <? sec t) || ((sec t =? sec u) && (nsec u <? nsec t)).

(** Nanoseconds since year 1. *)
Definition instant (t : time) : Z := sec t * Second + nsec t.

(** [t.Sub(u)]: the difference, clamped to what a [Duration] holds. *)
Definition time_sub (t u : time) : Z :=
  Z.max int64_min (Z.min int64_max (instant t - instant u)).

(** A time parsed from a positive Unix second is never the zero time. *)
Lemma time_unix_not_zero s : 0 < s -> in_int64 s -> is_zero (time_unix s) = false.
Proof.
  unfold is_zero, time_unix, in_int64, int64_max, unixToInternal, wrap64. simpl. intros H1 [_ H2].
  rewrite andb_true_r. apply Z.eqb_neq. intros E.
  pose proof (Z.div_mod (s + 62135596800 + 2 ^ 63) (2 ^ 64)) as Hd.
  assert ((s + 62135596800 + 2 ^ 63) / 2 ^ 64 < 2) by (apply Z.div_lt_upper_bound; lia).
  assert (0 <= (s + 62135596800 + 2 ^ 63) / 2 ^ 64) by (apply Z.div_pos; lia).
  lia.
Qed.

(** [t.Add(d)]. *)
Definition time_add (t : time) (d : Z) : time :=
  {| sec := (instant t + d) / Second; nsec := (instant t + d) mod Second |}.

Lemma instant_add t d : instant (time_add t d) = instant t + d.
Proof.
  unfold time_add, instant, Second. cbn [sec nsec].
  pose proof (Z.div_mod (sec t * 10 ^ 9 + nsec t + d) (10 ^ 9)). lia.
Qed.

(** [t.Before(u)]. *)
Definition before (t u : time) : bool := after u t.

Definition normal (t : time) : Prop := 0 <= nsec t < Second.

