(* ===== verification/GoUrl.v ===== *)
(** The part of Go's [net/url] package the client calls: parsing of URLs, their
    host, port and path, and query strings. The client is built with Go 1.26:
    brackets hold an IPv6 address, and a host without them has one colon at most.
    (The exception of later releases for the schemes of PostgreSQL is left out:
    no URL of such a scheme is used.) *)

From S2P Require Import Prelude GoStrings GoNet.
From Stdlib Require Import Ascii.
Open Scope Z_scope.

(** ** Percent encoding *)

Inductive encoding : Type :=
| encodePath
| encodeHost
| encodeZone
| encodeUserPassword
| encodeQueryComponent
| encodeFragment.

Definition is_alnum (c : ascii) : bool := is_lower c || is_upper c || is_digit c.
Definition is_hex (c : ascii) : bool :=
  is_digit c || in_range 97 102 (byte_of c) || in_range 65 70 (byte_of c).
Definition unhex (c : ascii) : Z :=
  if is_digit c then byte_of c - 48
  else if in_range 97 102 (byte_of c) then byte_of c - 97 + 10
  else byte_of c - 65 + 10.
Definition hex_upper (d : Z) : ascii := if d <? 10 then of_byte (48 + d) else of_byte (55 + d).

Definition shouldEscape (c : ascii) (mode : encoding) : bool :=
  if is_alnum c then false
  else if match mode with encodeHost | encodeZone => has_byte c "!$&'()*+,;=:[]<>" || (byte_of c =? 34) | _ => false end
  then false
  else if has_byte c "-_.~" then false
  else if has_byte c "$&+,/:;=?@" then
    match mode with
    | encodePath => has_byte c "?"
    | encodeUserPassword => has_byte c "@/?:"
    | encodeQueryComponent => true
    | encodeFragment => false
    | encodeHost | encodeZone => true
    end
  else match mode with encodeFragment => negb (has_byte c "!()*") | _ => true end.

(** An escape the part of the URL does not allow: [h] is its first digit, [v] its value. *)
Definition escape_refused (mode : encoding) (h : ascii) (v : Z) : bool :=
  match mode with
  | encodeHost => (unhex h <? 8) && negb (v =? 37)
  | encodeZone => negb (v =? 37) && negb (v =? 32) && shouldEscape (of_byte v) encodeHost
  | _ => false
  end.

Fixpoint unescape (mode : encoding) (s : string) : option string :=
  match s with
  | EmptyString => Some EmptyString
  | String c s1 =>
      if Ascii.eqb c "%" then
        match s1 with
        | String h (String l s2) =>
            if is_hex h && is_hex l then
              let v := 16 * unhex h + unhex l in
              if escape_refused mode h v then None else String (of_byte v) <$> unescape mode s2
            else None
        | _ => None
        end
      else if Ascii.eqb c "+" then
        String (match mode with encodeQueryComponent => " "%char | _ => "+"%char end) <$> unescape mode s1
      else if match mode with encodeHost | encodeZone => (byte_of c <? 128) && shouldEscape c mode | _ => false end
      then None
      else String c <$> unescape mode s1
  end.

Definition escape_byte (mode : encoding) (c : ascii) : string :=
  if shouldEscape c mode then
    if Ascii.eqb c " " && match mode with encodeQueryComponent => true | _ => false end then chr "+"
    else String "%" (String (hex_upper (byte_of c / 16)) (chr (hex_upper (byte_of c mod 16))))
  else chr c.

Definition escape (mode : encoding) (s : string) : string :=
  String.concat EmptyString (escape_byte mode <$> String.list_ascii_of_string s).

(** [url.QueryEscape]. *)
Definition query_escape_byte : ascii -> string := escape_byte encodeQueryComponent.
Definition query_escape : string -> string := escape encodeQueryComponent.

(** ** URLs *)

Record url := {
  scheme : string;
  opaque : string;
  host : string;
  path : string;
  raw_path : string;
  raw_query : string;
  fragment : string;
}.

(** [getScheme]: the scheme, empty when there is none, and the rest. *)
Fixpoint scheme_from (whole : string) (first : bool) (acc s : string) : option (string * string) :=
  match s with
  | EmptyString => Some (EmptyString, whole)
  | String c s' =>
      if is_lower c || is_upper c then scheme_from whole false (acc ++ chr c)%string s'
      else if is_digit c || has_byte c "+-." then
        if first then Some (EmptyString, whole) else scheme_from whole false (acc ++ chr c)%string s'
      else if Ascii.eqb c ":" then
        if first then None else Some (acc, s')
      else Some (EmptyString, whole)
  end.

Definition get_scheme (raw : string) : option (string * string) := scheme_from raw true EmptyString raw.

Definition valid_optional_port (port : string) : bool :=
  match port with
  | EmptyString => true
  | String c digits => Ascii.eqb c ":" && all_bytes is_digit digits
  end.

Definition valid_userinfo (s : string) : bool :=
  all_bytes (fun c => is_alnum c || has_byte c "-._:~!$&'()*+,;=%@") s.

(** A bracketed host: [literal] is what stands between the brackets. *)
Definition parse_literal (literal colonPort : string) : option string :=
  port ← unescape encodeHost colonPort;
  name ← match index_sub "%25" literal with
         | Some i =>
             h ← unescape encodeHost (str_take i literal);
             z ← unescape encodeZone (str_drop i literal);
             Some (h ++ z)%string
         | None => unescape encodeHost literal
         end;
  a ← parse_addr name;
  if addr_is4 a then None else Some ("[" ++ name ++ "]" ++ port)%string.

Definition parse_host (h : string) : option string :=
  match last_index_byte "[" h with
  | Some (S _) => None
  | Some O =>
      match last_index_byte "]" h with
      | None => None
      | Some e =>
          let colonPort := str_drop (S e) h in
          if valid_optional_port colonPort then parse_literal (str_take (e - 1) (str_drop 1 h)) colonPort
          else None
      end
  | None =>
      match index_byte ":" h with
      | Some i => if valid_optional_port (str_drop i h) then unescape encodeHost h else None
      | None => unescape encodeHost h
      end
  end.

(** [parseAuthority]: the host; user names are only checked. *)
Definition parse_authority (authority : string) : option string :=
  match last_index_byte "@" authority with
  | None => parse_host authority
  | Some i =>
      h ← parse_host (str_drop (S i) authority);
      let userinfo := str_take i authority in
      if negb (valid_userinfo userinfo) then None
      else match cut_byte ":" userinfo with
           | None => _ ← unescape encodeUserPassword userinfo; Some h
           | Some (username, password) =>
               _ ← unescape encodeUserPassword username; _ ← unescape encodeUserPassword password; Some h
           end
  end.

Definition has_control_byte (s : string) : bool :=
  negb (all_bytes (fun c => (32 <=? byte_of c) && negb (byte_of c =? 127)) s).

Definition has_suffix_byte (c : ascii) (s : string) : bool :=
  bool_decide (last (String.list_ascii_of_string s) = Some c).

(** [ForceQuery] is of no interest: a final [?] leaves an empty query. *)
Definition split_query (rest : string) : string * string :=
  if has_suffix_byte "?" rest && (count_byte "?" rest =? 1)%nat
  then (str_take (String.length rest - 1) rest, EmptyString)
  else cut_or_all "?" rest.

Definition split_authority (rest : string) : string * string :=
  match index_byte "/" rest with
  | Some i => (str_take i rest, str_drop i rest)
  | None => (rest, EmptyString)
  end.

(** [url.parse], of what comes before the fragment. *)
Definition parse_no_fragment (raw : string) : option url :=
  if has_control_byte raw then None
  else if bool_decide (raw = "*") then
    Some {| scheme := EmptyString; opaque := EmptyString; host := EmptyString; path := "*"; raw_path := EmptyString;
            raw_query := EmptyString; fragment := EmptyString |}
  else
    '(sch, rest) ← get_scheme raw;
    let sch := map_bytes lower_ascii_byte sch in
    let '(rest, query) := split_query rest in
    let absent := bool_decide (sch = EmptyString) in
    if negb (has_prefix "/" rest) && negb absent then
      Some {| scheme := sch; opaque := rest; host := EmptyString; path := EmptyString; raw_path := EmptyString;
              raw_query := query; fragment := EmptyString |}
    else if negb (has_prefix "/" rest) && has_byte ":" (cut_or_all "/" rest).1 then None
    else
      '(h, rest) ← (if (negb absent || negb (has_prefix "///" rest)) && has_prefix "//" rest then
                      let '(authority, rest) := split_authority (str_drop 2 rest) in
                      h ← parse_authority authority; Some (h, rest)
                    else Some (EmptyString, rest));
      p ← unescape encodePath rest;
      Some {| scheme := sch; opaque := EmptyString; host := h; path := p;
              raw_path := if bool_decide (rest = escape encodePath p) then EmptyString else rest;
              raw_query := query; fragment := EmptyString |}.

Definition with_fragment (u : url) (f : string) : url :=
  {| scheme := scheme u; opaque := opaque u; host := host u; path := path u; raw_path := raw_path u;
     raw_query := raw_query u; fragment := f |}.

Definition parse_url (raw : string) : option url :=
  let '(before, frag) := cut_or_all "#" raw in
  u ← parse_no_fragment before;
  if bool_decide (frag = EmptyString) then Some u
  else with_fragment u <$> unescape encodeFragment frag.

(** [URL.Hostname] and [URL.Port]. *)
Definition strip_brackets (h : string) : string :=
  if has_prefix "[" h && has_suffix_byte "]" h
  then str_take (String.length h - 2) (str_drop 1 h) else h.

Definition split_url_host (h : string) : string * string :=
  match last_index_byte ":" h with
  | Some i => if valid_optional_port (str_drop i h) then (strip_brackets (str_take i h), str_drop (S i) h)
              else (strip_brackets h, EmptyString)
  | None => (strip_brackets h, EmptyString)
  end.

Definition hostname (u : url) : string := (split_url_host (host u)).1.
Definition port (u : url) : string := (split_url_host (host u)).2.

(** [URL.EscapedPath]. *)
Definition valid_encoded_path (s : string) : bool :=
  all_bytes (fun c => has_byte c "!$&'()*+,;=:@[]%" || negb (shouldEscape c encodePath)) s.

Definition escaped_path (u : url) : string :=
  if negb (bool_decide (raw_path u = EmptyString)) && valid_encoded_path (raw_path u)
     && bool_decide (unescape encodePath (raw_path u) = Some (path u))
  then raw_path u
  else if bool_decide (path u = "*") then "*"
  else escape encodePath (path u).

(** [URL.Query], as the list of its pairs: malformed ones are skipped, and more
    than ten thousand are refused. *)
Definition query_pair (kv : string) : option (string * string) :=
  if has_byte ";" kv then None
  else if bool_decide (kv = EmptyString) then None
  else
    let '(k, v) := cut_or_all "=" kv in
    k ← unescape encodeQueryComponent k; v ← unescape encodeQueryComponent v; Some (k, v).

Definition query (u : url) : list (string * string) :=
  if (10000 <? S (count_byte "&" (raw_query u)))%nat then []
  else omap query_pair (split_byte "&" (raw_query u)).

(** [Values.Get]: the first value of a key. *)
Definition query_get (q : list (string * string)) (key : string) : string :=
  match list_find (fun kv => kv.1 = key) q with
  | Some (_, kv) => kv.2
  | None => EmptyString
  end.
(** ** Escaping *)

Definition unreserved (c : ascii) : bool := is_alnum c || has_byte c "-_.~".

(** A test that holds of every byte, by cases. *)
Ltac all_ascii_cases c := destruct c as [[] [] [] [] [] [] [] []]; by vm_compute.

Lemma query_escape_byte_eq c :
  query_escape_byte c = if unreserved c then chr c
    else if Ascii.eqb c " " then chr "+"
    else String "%" (String (hex_upper (byte_of c / 16)) (chr (hex_upper (byte_of c mod 16)))).
Proof. all_ascii_cases c. Qed.

Lemma escape_cons mode c s : escape mode (String c s) = (escape_byte mode c ++ escape mode s)%string.
Proof. unfold escape. cbn [String.list_ascii_of_string]. rewrite fmap_cons. apply concat_empty_cons. Qed.

(** Decoding undoes encoding, in paths and in queries. *)
Lemma unescape_escape_byte mode c s :
  mode = encodePath \/ mode = encodeQueryComponent ->
  unescape mode (escape_byte mode c ++ s)%string = String c <$> unescape mode s.
Proof. intros [-> | ->]; destruct c as [[] [] [] [] [] [] [] []]; reflexivity. Qed.

Theorem unescape_escape mode s :
  mode = encodePath \/ mode = encodeQueryComponent -> unescape mode (escape mode s) = Some s.
Proof.
  intros Hm. induction s as [|c s IH]; [done|]. by rewrite escape_cons, unescape_escape_byte, IH.
Qed.

(** ** URLs of plain parts *)

Lemma all_bytes_cons p c s : all_bytes p (String c s) = p c && all_bytes p s.
Proof. done. Qed.

Lemma all_bytes_weaken (p q : ascii -> bool) s :
  (forall c, p c = true -> q c = true) -> all_bytes p s = true -> all_bytes q s = true.
Proof. unfold all_bytes. rewrite !List.forallb_forall. auto. Qed.

Lemma no_byte_of p c s : all_bytes p s = true -> p c = false -> has_byte c s = false.
Proof.
  unfold all_bytes. rewrite List.forallb_forall. intros Hall Hc. apply has_byte_false.
  intros Hin%list_elem_of_In%Hall. congruence.
Qed.

Lemma cut_or_all_none c s : has_byte c s = false -> cut_or_all c s = (s, EmptyString).
Proof.
  intros H. unfold cut_or_all, cut_byte. destruct (index_byte c s) eqn:E; [|done].
  unfold has_byte in H. rewrite E in H. apply bool_decide_eq_false in H. by destruct H.
Qed.

Lemma cut_or_all_mid c l r : has_byte c l = false -> cut_or_all c (l ++ String c r) = (l, r).
Proof. intros H%has_byte_false. unfold cut_or_all. by rewrite cut_byte_append. Qed.

Definition path_byte (c : ascii) : bool := unreserved c || Ascii.eqb c "/".
(** A byte of a query that neither ends it nor is a control character. *)
Definition query_byte (c : ascii) : bool :=
  (32 <=? byte_of c) && negb (byte_of c =? 127) && negb (has_byte c "#?").

Lemma unreserved_path c : unreserved c = true -> path_byte c = true.
Proof. unfold path_byte. by intros ->. Qed.

Lemma path_byte_visible c : path_byte c = true -> query_byte c = true.
Proof. all_ascii_cases c. Qed.

Lemma unescape_cons_plain mode c s : path_byte c = true ->
  (mode = encodePath \/ mode = encodeQueryComponent \/ (mode = encodeHost /\ unreserved c = true)) ->
  unescape mode (String c s) = String c <$> unescape mode s.
Proof.
  intros H Hm. cbn [unescape].
  assert (Ascii.eqb c "%" = false /\ Ascii.eqb c "+" = false) as [-> ->]
    by (revert H; clear; destruct c as [[] [] [] [] [] [] [] []]; vm_compute; done).
  destruct Hm as [-> |[-> |[-> Hu]]]; [done..|].
  assert (shouldEscape c encodeHost = false) as ->; [|by rewrite andb_false_r].
  revert Hu. clear. destruct c as [[] [] [] [] [] [] [] []]; vm_compute; done.
Qed.

Lemma unescape_path s : all_bytes path_byte s = true -> unescape encodePath s = Some s.
Proof.
  induction s as [|c s IH]; [done|]. rewrite all_bytes_cons. intros [Hc Hs]%andb_true_iff.
  rewrite unescape_cons_plain by auto. by rewrite IH.
Qed.

Lemma unescape_host s : all_bytes unreserved s = true -> unescape encodeHost s = Some s.
Proof.
  induction s as [|c s IH]; [done|]. rewrite all_bytes_cons. intros [Hc Hs]%andb_true_iff.
  rewrite unescape_cons_plain by auto using unreserved_path. by rewrite IH.
Qed.

Lemma escape_path s : all_bytes path_byte s = true -> escape encodePath s = s.
Proof.
  induction s as [|c s IH]; [done|]. rewrite all_bytes_cons. intros [Hc Hs]%andb_true_iff.
  rewrite escape_cons, IH by done.
  assert (escape_byte encodePath c = chr c) as ->; [|done].
  revert Hc. clear. destruct c as [[] [] [] [] [] [] [] []]; vm_compute; done.
Qed.

Lemma index_byte_has c s : has_byte c s = false -> index_byte c s = None.
Proof. unfold has_byte. intros H%bool_decide_eq_false. destruct (index_byte c s); [|done]. by destruct H. Qed.

Lemma last_index_byte_has c s : has_byte c s = false -> last_index_byte c s = None.
Proof. intros H. apply last_index_byte_None. by apply has_byte_false. Qed.

Lemma parse_authority_plain h : all_bytes unreserved h = true -> parse_authority h = Some h.
Proof.
  intros H. unfold parse_authority, parse_host.
  rewrite !last_index_byte_has, index_byte_has by by apply (no_byte_of unreserved). by apply unescape_host.
Qed.

Lemma split_authority_plain h p : all_bytes unreserved h = true -> split_authority (h ++ String "/" p) = (h, String "/" p).
Proof.
  intros H. unfold split_authority.
  rewrite index_byte_append_skip by (apply has_byte_false; by apply (no_byte_of unreserved)).
  cbn [index_byte Ascii.eqb Bool.eqb fmap option_fmap option_map]. rewrite Nat.add_0_r.
  by rewrite str_take_append, str_drop_append.
Qed.

Lemma split_query_none s : has_byte "?" s = false -> split_query s = (s, EmptyString).
Proof.
  intros H. unfold split_query. rewrite cut_or_all_none by done. rewrite has_byte_false in H.
  assert (count_byte "?" s = 0%nat) as ->; [|by rewrite andb_false_r].
  unfold count_byte. apply length_zero_iff_nil. destruct (filter _ _) as [|c l] eqn:E; [done|]. exfalso.
  apply H. assert (c ∈ filter (fun a => a = "?"%char) (String.list_ascii_of_string s)) as Hc by (rewrite E; by left).
  apply list_elem_of_filter in Hc as [-> Hc]. done.
Qed.

Lemma last_snoc_str l c r d : last (String.list_ascii_of_string (l ++ String c (String d r)))
  = last (String.list_ascii_of_string (String d r)).
Proof.
  rewrite list_ascii_append. cbn [String.list_ascii_of_string]. rewrite last_app, last_cons_cons.
  destruct (last (d :: _)) eqn:E; [done|]. by apply last_None in E.
Qed.

Lemma split_query_mid l q : has_byte "?" l = false -> all_bytes query_byte q = true -> q <> EmptyString ->
  split_query (l ++ String "?" q) = (l, q).
Proof.
  intros Hl Hq Hne. unfold split_query. rewrite cut_or_all_mid by done.
  assert (has_suffix_byte "?" (l ++ String "?" q) = false) as ->; [|done].
  apply bool_decide_eq_false. destruct q as [|c q]; [done|]. rewrite last_snoc_str. intros Hlast%last_Some_elem_of.
  apply (no_byte_of _ "?") in Hq; [|by vm_compute]. by apply has_byte_false in Hq.
Qed.

(** A query of a URL, empty or not: its text and what is parsed. *)
Inductive query_text : string -> string -> Prop :=
| no_query : query_text EmptyString EmptyString
| with_query q : q <> EmptyString -> all_bytes query_byte q = true -> query_text (String "?" q) q.

Definition plain_url (sch h p q : string) : url :=
  {| scheme := sch; opaque := EmptyString; host := h; path := String "/" p; raw_path := EmptyString;
     raw_query := q; fragment := EmptyString |}.

(** The parts of a URL made of plain parts are those parts. *)
Theorem parse_plain_url sch h p t q :
  sch = "http"%string \/ sch = "https"%string ->
  all_bytes unreserved h = true -> all_bytes path_byte p = true -> query_text t q ->
  parse_url (sch ++ ":" ++ "//" ++ h ++ String "/" (p ++ t)) = Some (plain_url sch h p q).
Proof.
  intros Hsch Hh Hp Ht. set (raw := (sch ++ ":" ++ "//" ++ h ++ String "/" (p ++ t))%string).
  assert (all_bytes (fun c => query_byte c || Ascii.eqb c "?") raw = true) as Hall.
  { assert (forall s, all_bytes path_byte s = true -> all_bytes (fun c => query_byte c || Ascii.eqb c "?") s = true) as Hw.
    { intros s. apply all_bytes_weaken. intros c ->%path_byte_visible. done. }
    assert (all_bytes (fun c => query_byte c || Ascii.eqb c "?") t = true) as HT.
    { destruct Ht as [|q _ Hq]; [done|]. rewrite all_bytes_cons. apply (all_bytes_weaken query_byte); [by intros ? ->|done]. }
    apply (all_bytes_weaken _ _ _ unreserved_path) in Hh.
    unfold raw. destruct Hsch as [-> | ->];
      by rewrite !all_bytes_append, (all_bytes_cons _ _ (p ++ t)%string), all_bytes_append, (Hw p), (Hw h), HT. }
  unfold parse_url. rewrite cut_or_all_none by (apply (no_byte_of _ _ _ Hall); by vm_compute).
  unfold parse_no_fragment.
  assert (has_control_byte raw = false) as ->.
  { unfold has_control_byte. apply negb_false_iff. eapply all_bytes_weaken, Hall. intros c. all_ascii_cases c. }
  assert (raw <> "*"%string) as Hstar by (subst raw; clear -Hsch; destruct Hsch as [-> | ->]; intros Heq; discriminate Heq).
  rewrite (bool_decide_false (raw = "*"%string)) by exact Hstar.
  assert (get_scheme raw = Some (sch, ("//" ++ h ++ String "/" (p ++ t))%string)) as ->
    by (unfold raw; by destruct Hsch as [-> | ->]).
  cbn [mbind option_bind].
  assert (split_query ("//" ++ h ++ String "/" (p ++ t)) = (("//" ++ h ++ String "/" p)%string, q)) as ->.
  { assert (has_byte "?" ("//" ++ h ++ String "/" p) = false) as Hno.
    { apply (no_byte_of path_byte); [|by vm_compute]. rewrite !all_bytes_append, (all_bytes_cons _ _ p), Hp.
      by rewrite (all_bytes_weaken _ _ h unreserved_path). }
    destruct Ht as [|q Hne Hq]; [by rewrite append_empty_r, split_query_none|].
    rewrite <- (split_query_mid _ q Hno Hq Hne). f_equal.
    change (String "/" (p ++ String "?" q)) with (String "/" p ++ String "?" q)%string. by rewrite !append_assoc. }
  assert (map_bytes lower_ascii_byte sch = sch) as -> by by destruct Hsch as [-> | ->].
  rewrite (bool_decide_false (sch = EmptyString)) by by destruct Hsch as [-> | ->].
  cbn [negb orb andb has_prefix String.append Ascii.eqb Bool.eqb str_drop].
  rewrite split_authority_plain by done. cbn [mbind option_bind]. rewrite parse_authority_plain by done.
  cbn [mbind option_bind]. assert (all_bytes path_byte (String "/" p) = true) as Hsp by done.
  rewrite unescape_path by done. cbn [mbind option_bind]. rewrite escape_path by done.
  rewrite !bool_decide_true by done. done.
Qed.

Lemma hostname_plain sch h p q : all_bytes unreserved h = true -> hostname (plain_url sch h p q) = h.
Proof.
  intros H. unfold hostname, split_url_host. cbn [host plain_url].
  rewrite last_index_byte_has by by apply (no_byte_of unreserved). cbn [fst]. unfold strip_brackets.
  destruct h as [|c h]; [done|]. cbn [has_prefix].
  assert (Ascii.eqb "[" c = false) as ->; [|done]. apply Ascii.eqb_neq. intros <-. done.
Qed.

Lemma escaped_path_plain sch h p q : all_bytes path_byte p = true -> escaped_path (plain_url sch h p q) = String "/" p.
Proof. intros H. unfold escaped_path. cbn [raw_path path plain_url]. rewrite bool_decide_true by done. by apply escape_path. Qed.

(** ** URLs of a host and a port alone *)

Definition host_byte (c : ascii) : bool := unreserved c || Ascii.eqb c ":".

Lemma unescape_host_port s : all_bytes host_byte s = true -> unescape encodeHost s = Some s.
Proof.
  induction s as [|c s IH]; [done|]. rewrite all_bytes_cons. intros [Hc Hs]%andb_true_iff.
  assert (Ascii.eqb c "%" = false /\ Ascii.eqb c "+" = false /\ shouldEscape c encodeHost = false) as (Hp & Hplus & Hesc)
    by (revert Hc; clear; destruct c as [[] [] [] [] [] [] [] []]; vm_compute; done).
  cbn [unescape]. by rewrite Hp, Hplus, Hesc, andb_false_r, IH.
Qed.

(** The port of a URL as it is written, and its digits. *)
Inductive port_text : string -> string -> Prop :=
| no_port : port_text EmptyString EmptyString
| with_port p : all_bytes is_digit p = true -> p <> EmptyString -> port_text (String ":" p) p.

Lemma digits_host p : all_bytes is_digit p = true -> all_bytes host_byte p = true.
Proof. apply all_bytes_weaken. intros c. all_ascii_cases c. Qed.

Lemma port_text_host t p : port_text t p -> all_bytes host_byte t = true /\ valid_optional_port t = true.
Proof.
  destruct 1 as [|p Hp Hne]; [done|]. rewrite all_bytes_cons, digits_host by done. by cbn [valid_optional_port].
Qed.

Lemma host_port_bytes h t p : all_bytes unreserved h = true -> port_text t p -> all_bytes host_byte (h ++ t) = true.
Proof.
  intros Hh [Ht _]%port_text_host. rewrite all_bytes_append, Ht, andb_true_r.
  eapply all_bytes_weaken, Hh. by intros c; unfold host_byte; intros ->.
Qed.

Lemma parse_authority_port h t p : all_bytes unreserved h = true -> port_text t p ->
  parse_authority (h ++ t) = Some (h ++ t)%string.
Proof.
  intros Hh Ht. pose proof (host_port_bytes h t p Hh Ht) as Hall. pose proof (port_text_host t p Ht) as [_ Hv].
  unfold parse_authority, parse_host. rewrite !last_index_byte_has by (by apply (no_byte_of host_byte)).
  rewrite unescape_host_port by done. destruct Ht as [|p Hp _].
  - by rewrite append_empty_r, index_byte_has by by apply (no_byte_of unreserved).
  - rewrite index_byte_append_skip by (apply has_byte_false; by apply (no_byte_of unreserved)).
    cbn [index_byte Ascii.eqb Bool.eqb fmap option_fmap option_map]. by rewrite Nat.add_0_r, str_drop_append, Hv.
Qed.

Definition host_url (sch h q : string) : url :=
  {| scheme := sch; opaque := EmptyString; host := h; path := EmptyString; raw_path := EmptyString;
     raw_query := q; fragment := EmptyString |}.

Theorem parse_host_url sch h pt p t q :
  sch ∈ ["stun"; "stuns"; "turn"; "turns"]%string ->
  all_bytes unreserved h = true -> port_text pt p -> query_text t q ->
  parse_url (sch ++ ":" ++ "//" ++ (h ++ pt) ++ t) = Some (host_url sch (h ++ pt) q).
Proof.
  intros Hsch Hh Hpt Ht. pose proof (host_port_bytes h pt p Hh Hpt) as Hhost.
  assert (forall r, get_scheme (sch ++ ":" ++ r) = Some (sch, r)) as Hscheme
    by (intros r; clear -Hsch; repeat (apply elem_of_cons in Hsch as [-> |Hsch]; [reflexivity|]); by apply not_elem_of_nil in Hsch).
  assert (all_bytes query_byte sch = true /\ map_bytes lower_ascii_byte sch = sch /\ sch <> EmptyString
    /\ forall r, (sch ++ ":" ++ r)%string <> "*"%string) as (Hsq & Hlow & Hne & Hstar)
    by (clear -Hsch; repeat (apply elem_of_cons in Hsch as [-> |Hsch]; [split_and!; [by vm_compute|by vm_compute|done|intros r Heq; discriminate Heq]|]);
        by apply not_elem_of_nil in Hsch).
  set (raw := (sch ++ ":" ++ "//" ++ (h ++ pt) ++ t)%string).
  assert (all_bytes query_byte (h ++ pt) = true) as Hhq by (eapply all_bytes_weaken, Hhost; intros c; all_ascii_cases c).
  assert (all_bytes (fun c => query_byte c || Ascii.eqb c "?") raw = true) as Hall.
  { assert (forall s, all_bytes query_byte s = true -> all_bytes (fun c => query_byte c || Ascii.eqb c "?") s = true) as Hw
      by (intros s; apply all_bytes_weaken; by intros c ->).
    assert (all_bytes (fun c => query_byte c || Ascii.eqb c "?") t = true) as HT.
    { destruct Ht as [|q _ Hq]; [done|]. rewrite all_bytes_cons. by apply Hw. }
    unfold raw. rewrite (all_bytes_append _ sch), (all_bytes_append _ ":"), (all_bytes_append _ "//"), (all_bytes_append _ (h ++ pt)).
    by rewrite (Hw _ Hsq), (Hw _ Hhq), HT. }
  unfold parse_url. rewrite cut_or_all_none by (apply (no_byte_of _ _ _ Hall); by vm_compute).
  unfold parse_no_fragment.
  assert (has_control_byte raw = false) as ->.
  { unfold has_control_byte. apply negb_false_iff. eapply all_bytes_weaken, Hall. intros c. all_ascii_cases c. }
  rewrite (bool_decide_false (raw = "*"%string)) by apply Hstar. unfold raw. rewrite Hscheme. cbn [mbind option_bind].
  assert (split_query ("//" ++ (h ++ pt) ++ t) = (("//" ++ (h ++ pt))%string, q)) as ->.
  { assert (has_byte "?" ("//" ++ (h ++ pt)) = false) as Hno.
    { rewrite has_byte_append. by rewrite (no_byte_of query_byte _ _ Hhq). }
    destruct Ht as [|q Hq0 Hq]; [by rewrite append_empty_r, split_query_none|].
    rewrite <- (split_query_mid _ q Hno Hq Hq0). by rewrite !append_assoc. }
  rewrite Hlow, (bool_decide_false (sch = EmptyString)) by done.
  cbn [negb orb andb has_prefix String.append Ascii.eqb Bool.eqb str_drop].
  assert (split_authority (h ++ pt) = ((h ++ pt)%string, EmptyString)) as ->.
  { unfold split_authority. by rewrite index_byte_has by by apply (no_byte_of host_byte). }
  cbn [mbind option_bind]. by rewrite (parse_authority_port h pt p).
Qed.

Lemma host_url_parts sch h pt p q : all_bytes unreserved h = true -> port_text pt p ->
  hostname (host_url sch (h ++ pt) q) = h /\ port (host_url sch (h ++ pt) q) = p.
Proof.
  intros Hh Ht. unfold hostname, port, split_url_host. cbn [host host_url].
  assert (strip_brackets h = h) as Hs.
  { unfold strip_brackets. destruct h as [|c h]; [done|]. cbn [has_prefix].
    assert (Ascii.eqb "[" c = false) as ->; [|done]. apply Ascii.eqb_neq. by intros <-. }
  destruct Ht as [|p Hp Hne].
  - by rewrite append_empty_r, last_index_byte_has by by apply (no_byte_of unreserved).
  - assert (last_index_byte ":" (String ":" p) = Some 0%nat) as Hl.
    { change (String ":" p) with ("" ++ String ":" p)%string. cbn [String.append last_index_byte].
      by rewrite last_index_byte_has by by apply (no_byte_of is_digit). }
    rewrite last_index_byte_append, Hl, Nat.add_0_r, str_drop_append, str_take_append.
    assert (valid_optional_port (String ":" p) = true) as -> by by cbn.
    cbn [fst snd]. split; [done|]. replace (S (String.length h)) with (String.length (h ++ ":")%string)
      by (rewrite length_append; cbn; lia).
    change (String ":" p) with (":" ++ p)%string. by rewrite <- append_assoc, str_drop_append.
Qed.
