(* ===== verification/GoCodec.v ===== *)
(** Go's [encoding/base64] and [encoding/hex], as far as they are called. Bytes
    are a list of integers, text is a string. *)

From S2P Require Import Prelude GoStrings GoNet.
From Stdlib Require Import Ascii.
Open Scope Z_scope.

(** [b[i] = f(b[i])], of a slice with an element at [i]. *)
Definition at_byte (i : nat) (f : Z -> Z) (bs : list Z) : list Z := alter f i bs.

(** ** Hexadecimal *)

Definition hex_digit (d : Z) : ascii := of_byte (if d <? 10 then 48 + d else 87 + d).

Fixpoint hex_encode (bs : list Z) : string :=
  match bs with
  | [] => EmptyString
  | b :: bs' => String (hex_digit (b / 16)) (String (hex_digit (b mod 16)) (hex_encode bs'))
  end.

(** ** Base64

    An encoding is its alphabet; both in use pad with [=]. *)

Record alphabet := { char_62 : ascii; char_63 : ascii }.

Definition StdEncoding : alphabet := {| char_62 := "+"; char_63 := "/" |}.
Definition URLEncoding : alphabet := {| char_62 := "-"; char_63 := "_" |}.

Definition b64_char (e : alphabet) (v : Z) : ascii :=
  if v <? 26 then of_byte (65 + v)
  else if v <? 52 then of_byte (97 + (v - 26))
  else if v <? 62 then of_byte (48 + (v - 52))
  else if v =? 62 then char_62 e else char_63 e.

Definition b64_value (e : alphabet) (c : ascii) : option Z :=
  let b := byte_of c in
  if in_range 65 90 b then Some (b - 65)
  else if in_range 97 122 b then Some (b - 97 + 26)
  else if in_range 48 57 b then Some (b - 48 + 52)
  else if Ascii.eqb c (char_62 e) then Some 62
  else if Ascii.eqb c (char_63 e) then Some 63
  else None.

(** [Encoding.EncodeToString]. *)
Fixpoint b64_encode (e : alphabet) (bs : list Z) : string :=
  match bs with
  | [] => EmptyString
  | [a] =>
      String (b64_char e (a / 4)) (String (b64_char e (a mod 4 * 16)) "==")
  | [a; b] =>
      String (b64_char e (a / 4)) (String (b64_char e (a mod 4 * 16 + b / 16))
        (String (b64_char e (b mod 16 * 4)) "="))
  | a :: b :: c :: rest =>
      String (b64_char e (a / 4)) (String (b64_char e (a mod 4 * 16 + b / 16))
        (String (b64_char e (b mod 16 * 4 + c / 64)) (String (b64_char e (c mod 64)) (b64_encode e rest))))
  end.

(** The quanta of the text; bits the last one has too many are ignored. *)
Fixpoint b64_quanta (e : alphabet) (s : list ascii) : option (list Z) :=
  match s with
  | [] => Some []
  | c1 :: c2 :: c3 :: c4 :: rest =>
      v1 ← b64_value e c1; v2 ← b64_value e c2;
      if Ascii.eqb c3 "=" then
        if Ascii.eqb c4 "=" && (length rest =? 0)%nat then Some [v1 * 4 + v2 / 16] else None
      else
        v3 ← b64_value e c3;
        if Ascii.eqb c4 "=" then
          if (length rest =? 0)%nat then Some [v1 * 4 + v2 / 16; v2 mod 16 * 16 + v3 / 4] else None
        else
          v4 ← b64_value e c4;
          more ← b64_quanta e rest;
          Some (v1 * 4 + v2 / 16 :: v2 mod 16 * 16 + v3 / 4 :: v3 mod 4 * 64 + v4 :: more)
  | _ => None
  end.

Definition is_newline (c : ascii) : bool := (byte_of c =? 10) || (byte_of c =? 13).

(** [Encoding.DecodeString]: line breaks are skipped wherever they stand. *)
Definition b64_decode (e : alphabet) (s : string) : option (list Z) :=
  b64_quanta e (filter (fun c => is_newline c = false) (String.list_ascii_of_string s)).

(** ** Hexadecimal text *)

Definition is_lower_hex (c : ascii) : bool := is_digit c || in_range 97 102 (byte_of c).

(** A test that holds of all 256 bytes holds of a byte. *)
Lemma byte_cases (p : Z -> bool) b : forallb p (seqZ 0 256) = true -> is_byte b -> p b = true.
Proof. intros Hall Hb. rewrite List.forallb_forall in Hall. apply Hall, list_elem_of_In, elem_of_seqZ. unfold is_byte in Hb. lia. Qed.

Lemma byte_split b : is_byte b -> 0 <= b / 16 < 16 /\ 0 <= b mod 16 < 16.
Proof. unfold is_byte. intros. split; [|apply Z.mod_pos_bound; lia]. split; [apply Z.div_pos|apply Z.div_lt_upper_bound]; lia. Qed.

Lemma byte_of_hex_digit d : 0 <= d < 16 -> byte_of (hex_digit d) = if d <? 10 then 48 + d else 87 + d.
Proof. intros. unfold hex_digit. apply byte_of_of_byte. zbool; lia. Qed.

Lemma hex_digit_lower d : 0 <= d < 16 -> is_lower_hex (hex_digit d) = true.
Proof.
  intros H. unfold is_lower_hex, is_digit, in_range. rewrite byte_of_hex_digit by done. zbool; cbn; try lia; done.
Qed.

Lemma hex_digit_inj d d' : 0 <= d < 16 -> 0 <= d' < 16 -> hex_digit d = hex_digit d' -> d = d'.
Proof.
  intros H H' Heq%(f_equal byte_of). rewrite !byte_of_hex_digit in Heq by done. revert Heq. zbool; lia.
Qed.

Lemma hex_encode_length bs : String.length (hex_encode bs) = (2 * length bs)%nat.
Proof. induction bs as [|b bs IH]; [done|]. cbn [hex_encode String.length length]. lia. Qed.

Lemma hex_encode_lower bs :
  Forall is_byte bs -> Forall (fun c => is_lower_hex c = true) (String.list_ascii_of_string (hex_encode bs)).
Proof.
  induction 1 as [|b bs Hb _ IH]; [constructor|]. cbn [hex_encode String.list_ascii_of_string].
  apply byte_split in Hb as [? ?]. by repeat constructor; [apply hex_digit_lower..|].
Qed.

Lemma hex_encode_inj bs bs' :
  Forall is_byte bs -> Forall is_byte bs' -> hex_encode bs = hex_encode bs' -> bs = bs'.
Proof.
  intros H. revert bs'. induction H as [|b bs Hb _ IH]; intros bs' H' Heq; destruct H' as [|b' bs' Hb' H']; [done..|].
  cbn [hex_encode] in Heq. injection Heq as Hhi Hlo Heq. apply byte_split in Hb as [? ?], Hb' as [? ?].
  apply hex_digit_inj in Hhi, Hlo; [|done..]. apply IH in Heq as <-; [|done]. f_equal.
  rewrite (Z.div_mod b 16), (Z.div_mod b' 16) by lia. congruence.
Qed.

(** ** Base64 text *)

Definition two_chars (e : alphabet) : Prop := e = StdEncoding \/ e = URLEncoding.

(** Every value, with the character that stands for it. *)
Lemma b64_char_cases e v : two_chars e -> 0 <= v < 64 ->
  b64_value e (b64_char e v) = Some v /\ Ascii.eqb (b64_char e v) "=" = false /\ is_newline (b64_char e v) = false.
Proof.
  intros He Hv.
  assert (forallb (fun v => bool_decide (b64_value e (b64_char e v) = Some v)
      && negb (Ascii.eqb (b64_char e v) "=") && negb (is_newline (b64_char e v))) (seqZ 0 64) = true) as Hall
    by by destruct He as [-> | ->]; vm_compute.
  rewrite List.forallb_forall in Hall.
  specialize (Hall v ltac:(apply list_elem_of_In, elem_of_seqZ; lia)).
  apply andb_true_iff in Hall as [[?%bool_decide_eq_true ?%negb_true_iff]%andb_true_iff ?%negb_true_iff]. done.
Qed.

(** Induction three bytes at a time. *)
Lemma three_ind (P : list Z -> Prop) :
  P [] -> (forall a, P [a]) -> (forall a b, P [a; b]) -> (forall a b c rest, P rest -> P (a :: b :: c :: rest)) ->
  forall bs, P bs.
Proof.
  intros H0 H1 H2 H3 bs. enough (P bs /\ (forall a, P (a :: bs)) /\ (forall a b, P (a :: b :: bs))) as [? _] by done.
  induction bs as [|c bs (IH & IH1 & IH2)]; [done|]. split_and!; [by apply IH1|by intros; apply IH2|by intros; apply H3].
Qed.

Ltac sextets := unfold is_byte in *; Z.to_euclidean_division_equations; lia.

(** The characters of the text are those of the alphabet and the padding. *)
Definition b64_text (e : alphabet) (c : ascii) : Prop := c = "="%char \/ exists v, 0 <= v < 64 /\ c = b64_char e v.

Lemma b64_encode_text e bs :
  Forall is_byte bs -> Forall (b64_text e) (String.list_ascii_of_string (b64_encode e bs)).
Proof.
  assert (forall v, 0 <= v < 64 -> b64_text e (b64_char e v)) as Hc by (intros v ?; right; by exists v).
  assert (b64_text e "="%char) as Hp by by left.
  induction bs as [|a|a b|a b c rest IH] using three_ind; intros Hbs;
    repeat (apply Forall_cons in Hbs as [? Hbs]); cbn [b64_encode String.list_ascii_of_string];
    repeat (apply Forall_cons; split; [first [exact Hp|apply Hc; sextets]|]); [constructor..|by apply IH].
Qed.

Lemma no_newline e bs : two_chars e -> Forall is_byte bs ->
  Forall (fun c => is_newline c = false) (String.list_ascii_of_string (b64_encode e bs)).
Proof.
  intros He Hbs. eapply Forall_impl; [by apply b64_encode_text|]. intros c [-> |(v & Hv & ->)]; [done|].
  by apply b64_char_cases.
Qed.

Lemma b64_quanta_encode e bs : two_chars e -> Forall is_byte bs ->
  b64_quanta e (String.list_ascii_of_string (b64_encode e bs)) = Some bs.
Proof.
  intros He. assert (forall v, 0 <= v < 64 -> b64_value e (b64_char e v) = Some v) as Hv by (intros; by apply b64_char_cases).
  assert (forall v, 0 <= v < 64 -> Ascii.eqb (b64_char e v) "=" = false) as Hp by (intros; by apply b64_char_cases).
  induction bs as [|a|a b|a b c rest IH] using three_ind; intros Hbs; [done|..];
    repeat (apply Forall_cons in Hbs as [? Hbs]); cbn [b64_encode String.list_ascii_of_string b64_quanta];
    rewrite !Hv by sextets; cbn [mbind option_bind]; rewrite ?Hp by sextets; cbn [Ascii.eqb Bool.eqb andb length Nat.eqb];
    rewrite ?Hv by sextets; cbn [mbind option_bind]; rewrite ?IH by done; cbn [mbind option_bind]; repeat f_equal; sextets.
Qed.

Theorem b64_decode_encode e bs : two_chars e -> Forall is_byte bs -> b64_decode e (b64_encode e bs) = Some bs.
Proof.
  intros. unfold b64_decode. rewrite filter_all by by apply no_newline. by apply b64_quanta_encode.
Qed.

Lemma b64_encode_inj e bs bs' : two_chars e -> Forall is_byte bs -> Forall is_byte bs' ->
  b64_encode e bs = b64_encode e bs' -> bs = bs'.
Proof. intros He H H' Heq%(f_equal (b64_decode e)). rewrite !b64_decode_encode in Heq by done. by injection Heq. Qed.

(** What is decoded is bytes. *)
Lemma b64_value_range e c v : b64_value e c = Some v -> 0 <= v < 64.
Proof.
  unfold b64_value, in_range. intros H.
  repeat match type of H with context [if ?b then _ else _] => destruct b eqn:? end; simplify_eq; try lia;
    repeat match goal with E : (_ <=? _) && (_ <=? _) = true |- _ => apply andb_true_iff in E as [?%Z.leb_le ?%Z.leb_le] end; lia.
Qed.

Lemma b64_quanta_bytes e s bs : b64_quanta e s = Some bs -> Forall is_byte bs.
Proof.
  revert bs. induction s as [s IH] using (induction_ltof1 _ (@length ascii)). unfold ltof in IH. intros bs.
  destruct s as [|c1 [|c2 [|c3 [|c4 rest]]]]; try done; [by intros [= <-]|]. cbn [b64_quanta].
  intros (v1 & H1%b64_value_range & H)%bind_Some. apply bind_Some in H as (v2 & H2%b64_value_range & H).
  destruct (Ascii.eqb c3 "=").
  { destruct (_ && _); [|done]. injection H as <-. repeat constructor; sextets. }
  apply bind_Some in H as (v3 & H3%b64_value_range & H). destruct (Ascii.eqb c4 "=").
  { destruct (_ =? _)%nat; [|done]. injection H as <-. repeat constructor; sextets. }
  apply bind_Some in H as (v4 & H4%b64_value_range & H). apply bind_Some in H as (more & Hm & [= <-]).
  apply IH in Hm; [|cbn; lia]. repeat constructor; [sextets..|done].
Qed.

(** The length of the text, padding included. *)
Lemma b64_encode_length e bs : strlen (b64_encode e bs) = 4 * ((Z.of_nat (length bs) + 2) / 3).
Proof.
  induction bs as [|a|a b|a b c rest IH] using three_ind; try done.
  unfold strlen in *. cbn [b64_encode String.length length]. rewrite !Nat2Z.inj_succ, IH.
  replace (Z.succ (Z.succ (Z.succ (Z.of_nat (length rest)))) + 2) with (Z.of_nat (length rest) + 2 + 1 * 3) by lia.
  rewrite Z.div_add by lia. lia.
Qed.
