(* ===== verification/Redact.v ===== *)
(** Keeping credentials out of the log ([logging.go], [api.go]): the sensitive
    keys, the replacement of known secrets, and what of an error response of the
    API reaches the debug log. *)

From S2P Require Import Prelude Lists GoStrings Utf8 GoJson JsonPrint GoUrl.
From Stdlib Require Import Ascii.
Open Scope Z_scope.

Module Redact.

Definition redactedLogValue : string := "[REDACTED]".

(** ** Known secrets in text *)

Definition redactAPIError (message token : string) : string :=
  if bool_decide (token = EmptyString) then message
  else replace_all (replace_all message token redactedLogValue) (query_escape token) redactedLogValue.

Definition redact_one (value secret : string) : string :=
  if bool_decide (secret = EmptyString) then value
  else replace_all (replace_all value secret redactedLogValue) (query_escape secret) redactedLogValue.

(** The longest secret first: the sort is stable. *)
Definition redactKnownSecrets (value : string) (knownSecrets : list string) : string :=
  foldl redact_one value (stable_sort (fun s => - strlen s) knownSecrets).

(** The order in which the members of a map are visited: any. *)
Class MapOrder := {
  in_order : list (string * json) -> forall {A}, list A -> list A;
  in_order_perm : forall ms A (l : list A), Permutation (in_order ms l) l;
}.

Section tables.
Context `{UnicodeTables} `{MapOrder}.

Definition sensitiveLogKey (key : string) : bool :=
  let key := to_lower (replace_all key "-" "_") in
  existsb (contains key) ["secret"; "token"; "credential"; "private_key"; "authorization"]%string.

(** ** Decoded values

    [json.Unmarshal] into an [any]: of the members of one name the last stays.
    A number that a float64 cannot hold is an error; [float_in_range] is what
    [strconv.ParseFloat] says of a literal. *)

Fixpoint set_member (k : string) (v : json) (ms : list (string * json)) : list (string * json) :=
  match ms with
  | [] => [(k, v)]
  | (k', v') :: ms' => if bool_decide (k' = k) then (k, v) :: ms' else (k', v') :: set_member k v ms'
  end.

Fixpoint last_members (v : json) : json :=
  match v with
  | JObj ms => JObj (foldl (fun acc kv => set_member kv.1 kv.2 acc) []
                       (List.map (fun kv => (kv.1, last_members kv.2)) ms))
  | JArr vs => JArr (List.map last_members vs)
  | _ => v
  end.

Context (float_in_range : string -> bool).

Definition unmarshal_any (data : string) : option json :=
  v ← parse_json data;
  if numbers_fit float_in_range v then Some (last_members v) else None.

(** Into a [map[string]any]. *)
Definition unmarshal_map (data : string) : option (list (string * json)) :=
  v ← unmarshal_any data; as_members v.

(** ** Secrets of a request *)

(** The visits: each string leaf, and whether it is under a sensitive key. *)
Fixpoint walkSensitiveValue (value : json) (sensitiveParent : bool) : list (string * bool) :=
  match value with
  | JObj ms =>
      List.concat (in_order ms (List.map (fun kv => walkSensitiveValue kv.2 (sensitiveParent || sensitiveLogKey kv.1)) ms))
  | JArr vs => List.concat (List.map (fun v => walkSensitiveValue v sensitiveParent) vs)
  | JStr s => [(s, sensitiveParent)]
  | _ => []
  end.

(** On the bytes of a request body; the empty body has none. *)
Definition collectSensitiveStrings (body : string) : list string :=
  if bool_decide (body = EmptyString) then []
  else match unmarshal_any body with
  | None => []
  | Some decoded =>
      fst <$> filter (fun v => v.2 = true /\ v.1 <> EmptyString) (walkSensitiveValue decoded false)
  end.

(** ** Error responses *)

Fixpoint redactAPIValue (value : json) (knownSecrets : list string) : json :=
  match value with
  | JObj ms =>
      JObj (List.map (fun kv => (kv.1, if sensitiveLogKey kv.1 then JStr redactedLogValue
                                       else redactAPIValue kv.2 knownSecrets)) ms)
  | JArr vs => JArr (List.map (fun v => redactAPIValue v knownSecrets) vs)
  | JStr s => JStr (redactKnownSecrets s knownSecrets)
  | _ => value
  end.

Definition diagnostic_keys : list string :=
  ["code"; "detail"; "error"; "message"; "status"; "status_code"; "title"; "type"]%string.

Definition member (k : string) (ms : list (string * json)) : option json :=
  snd <$> head (filter (fun kv => kv.1 = k) ms).

Inductive debug_entry : Type :=
| NotAnObject
| NoDiagnosticFields
| Diagnostic (detail : list (string * json)).

(** The entry before [Marshal] and the cut at 4096 runes. *)
Definition debugAPIErrorResponse (data : string) (knownSecrets : list string) : debug_entry :=
  match unmarshal_map data with
  | None => NotAnObject
  | Some response =>
      let diagnostic := omap (fun k => v ← member k response; Some (k, redactAPIValue v knownSecrets))
                          diagnostic_keys in
      match diagnostic with
      | [] => NoDiagnosticFields
      | _ => Diagnostic diagnostic
      end
  end.

(** What [apiRequestContext] logs of an error response to a request with the
    given token and body. *)
Definition error_log (token reqBody data : string) : debug_entry :=
  debugAPIErrorResponse data (token :: collectSensitiveStrings reqBody).

End tables.

(** ** Replacement removes *)

(** A secret that the marker cannot spell: it has no bracket, and is no part of
    the word between them. *)
Definition hideable (s : string) : Prop :=
  s <> EmptyString /\ has_byte "[" s = false /\ has_byte "]" s = false /\ contains "REDACTED" s = false.

Lemma append_eq_inv (a b c d : string) :
  (a ++ b)%string = (c ++ d)%string ->
  (exists k, c = (a ++ k)%string /\ b = (k ++ d)%string) \/ (exists k, a = (c ++ k)%string /\ d = (k ++ b)%string).
Proof.
  revert c. induction a as [|x a IH]; intros c; cbn [String.append].
  { intros ->. left. by exists c. }
  destruct c as [|y c]; cbn [String.append].
  { intros <-. right. by exists (String x a). }
  intros [= <- Heq]. destruct (IH c Heq) as [(k & -> & ->)|(k & -> & ->)]; [left|right]; by exists k.
Qed.

(** An occurrence of a string without [c] is on one side of a [c]. *)
Lemma contains_split (a b s : string) c :
  has_byte c s = false -> contains (a ++ String c b) s = true -> contains a s = true \/ contains b s = true.
Proof.
  intros Hc (l & r & Heq)%contains_spec. symmetry in Heq.
  apply append_eq_inv in Heq as [(k & -> & Hk)|(k & -> & Hk)].
  - apply append_eq_inv in Hk as [(k2 & -> & _)|(k2 & -> & Hk2)].
    + left. apply contains_spec. by eexists _, _.
    + destruct k2 as [|x k2]; cbn [String.append] in Hk2.
      * left. apply contains_spec. exists l, EmptyString. by rewrite !append_empty_r.
      * injection Hk2 as <- _. by rewrite has_byte_mid in Hc.
  - destruct k as [|x k]; cbn [String.append] in Hk.
    + destruct s as [|y s]; cbn [String.append] in Hk.
      * left. apply contains_spec. by exists EmptyString, a.
      * injection Hk as -> _. pose proof (has_byte_mid y EmptyString s). cbn [String.append] in *. congruence.
    + injection Hk as _ ->. right. apply contains_spec. by eexists _, _.
Qed.

Lemma contains_infix (a b c s : string) : contains b s = true -> contains (a ++ b ++ c) s = true.
Proof.
  rewrite !contains_spec. intros (l & r & ->). exists (a ++ l)%string, (r ++ c)%string.
  by rewrite !append_assoc.
Qed.

Lemma contains_marker a b s :
  hideable s -> contains (a ++ redactedLogValue ++ b) s = true -> contains a s = true \/ contains b s = true.
Proof.
  intros (_ & Hl & Hr & Hm).
  change (redactedLogValue ++ b)%string with (String "[" ("REDACTED" ++ String "]" b))%string.
  intros [?|[Hx|?]%contains_split]%contains_split; auto. congruence.
Qed.

Lemma replace_from_skip old new k s : replace_from old new k s = replace_from old new 0 (str_drop k s).
Proof.
  revert s. induction k as [|k IH]; intros s; [by destruct s|]. destruct s as [|c s]; [done|]. exact (IH s).
Qed.

(** The matching step in one piece. *)
Lemma replace_match old new r :
  old <> EmptyString -> replace_from old new 0 (old ++ r) = (new ++ replace_from old new 0 r)%string.
Proof.
  destruct old as [|c old]; [done|]. intros _. set (o := String c old).
  change (o ++ r)%string with (String c (old ++ r)). cbn [replace_from].
  assert (has_prefix o (String c (old ++ r)) = true) as -> by (apply has_prefix_spec; by exists r).
  rewrite replace_from_skip. unfold o. cbn [String.length]. rewrite Nat.sub_succ, Nat.sub_0_r.
  by rewrite str_drop_append.
Qed.

(** How [replace_from] proceeds: it is at the end, at a match, or past a byte. *)
Lemma replace_ind old (Hne : old <> EmptyString) (P : string -> Prop) :
  P EmptyString -> (forall r, P r -> P (old ++ r)%string) ->
  (forall c s, has_prefix old (String c s) = false -> P s -> P (String c s)) -> forall s, P s.
Proof.
  intros H0 Hm Hc s. remember (String.length s) as n eqn:Hn. revert s Hn.
  induction (lt_wf n) as [n _ IH]. intros s ->. destruct s as [|c s]; [done|].
  destruct (has_prefix old (String c s)) eqn:E.
  - apply has_prefix_spec in E as [r Hr]. rewrite Hr. apply Hm. refine (IH (String.length r) _ r eq_refl).
    rewrite Hr, length_append. destruct old; [done|]. cbn. lia.
  - apply Hc; [done|]. refine (IH (String.length s) _ s eq_refl). cbn. lia.
Qed.

Lemma replace_step old new c s :
  has_prefix old (String c s) = false -> replace_from old new 0 (String c s) = String c (replace_from old new 0 s).
Proof. intros E. cbn [replace_from]. by rewrite E. Qed.

Lemma append_snoc p c (s : string) : ((p ++ chr c) ++ s)%string = (p ++ String c s)%string.
Proof. by rewrite append_assoc. Qed.

(** What was absent stays absent. *)
Lemma replace_keeps_absent old v s :
  old <> EmptyString -> hideable s -> contains v s = false ->
  contains (replace_from old redactedLogValue 0 v) s = false.
Proof.
  intros Hne Hs.
  enough (forall p, contains (p ++ v) s = false -> contains (p ++ replace_from old redactedLogValue 0 v) s = false)
    as H by exact (H EmptyString).
  induction v as [|r IH|c v Hno IH] using (replace_ind old Hne).
  - done.
  - intros p Hp. rewrite replace_match by done. apply not_true_iff_false. intros Ht.
    apply not_true_iff_false in Hp. apply Hp. destruct (contains_marker _ _ _ Hs Ht) as [Hl|Hr].
    + change (p ++ old ++ r)%string with (EmptyString ++ p ++ (old ++ r))%string. by apply contains_infix.
    + exfalso. apply not_true_iff_false in Hr; [done|]. apply (IH EmptyString).
      apply not_true_iff_false. intros Hrs. apply Hp.
      rewrite <- (append_empty_r r), <- append_assoc. by apply contains_infix.
  - intros p Hp. rewrite replace_step, <- append_snoc by done. apply IH. by rewrite append_snoc.
Qed.

(** What is replaced is absent. *)
Lemma replace_removes old v :
  hideable old -> contains (replace_from old redactedLogValue 0 v) old = false.
Proof.
  intros Hh. assert (old <> EmptyString) as Hne by apply Hh.
  enough (forall p, (forall l r, (p ++ v)%string = (l ++ old ++ r)%string -> (String.length p <= String.length l)%nat) ->
    contains (p ++ replace_from old redactedLogValue 0 v) old = false) as H.
  { apply (H EmptyString). intros. cbn. lia. }
  induction v as [|r IH|c v Hno IH] using (replace_ind old Hne); intros p Hp; apply not_true_iff_false.
  - rewrite append_empty_r. intros (l & r & ->)%contains_spec.
    specialize (Hp l r (append_empty_r _)). rewrite !length_append in Hp. destruct old; [done|]. cbn in Hp. lia.
  - rewrite replace_match by done. intros [(l & x & ->)%contains_spec|Hr]%contains_marker; [..|done].
    + specialize (Hp l (x ++ old ++ r)%string). rewrite !append_assoc in Hp. specialize (Hp eq_refl).
      rewrite !length_append in Hp. destruct old; [done|]. cbn in Hp. lia.
    + assert (contains (replace_from old redactedLogValue 0 r) old = false) as Hf; [|congruence].
      apply (IH EmptyString). intros. cbn. lia.
  - rewrite replace_step, <- append_snoc by done. apply not_true_iff_false, IH. intros l x Heq.
    rewrite append_snoc in Heq. specialize (Hp l x Heq). rewrite length_append. cbn.
    destruct (Nat.eq_dec (String.length p) (String.length l)) as [He|?]; [exfalso|lia].
    apply append_eq_inv in Heq as [(k & -> & Hk)|(k & -> & Hk)]; rewrite length_append in He;
      (destruct k; [|cbn in He; lia]); cbn [String.append] in Hk.
    + rewrite Hk in Hno. apply not_true_iff_false in Hno. apply Hno, has_prefix_spec. by exists x.
    + rewrite <- Hk in Hno. apply not_true_iff_false in Hno. apply Hno, has_prefix_spec. by exists x.
Qed.

(** *** The escaped form *)

Lemma query_escape_cons c s : query_escape (String c s) = (query_escape_byte c ++ query_escape s)%string.
Proof. unfold query_escape, escape. cbn [String.list_ascii_of_string]. rewrite fmap_cons. apply concat_empty_cons. Qed.

Lemma hex_upper_unreserved d : 0 <= d < 16 -> unreserved (hex_upper d) = true.
Proof.
  intros Hd. assert (Forall (fun d => unreserved (hex_upper d) = true) (seqZ 0 16)) as HF by by repeat constructor.
  rewrite Forall_forall in HF. apply HF, elem_of_seqZ. lia.
Qed.

Lemma query_escape_byte_spec c :
  query_escape_byte c = chr c
  \/ exists e r, query_escape_byte c = String e r /\ (e = "+"%char \/ e = "%"%char)
     /\ forall b, b ∈ String.list_ascii_of_string (query_escape_byte c) ->
         unreserved b = true \/ b = "+"%char \/ b = "%"%char.
Proof.
  rewrite query_escape_byte_eq. destruct (unreserved c); [by left|]. right.
  destruct (Ascii.eqb c " "); eexists _, _; (split; [reflexivity|]); (split; [auto|]); cbn; intros b.
  - intros ->%list_elem_of_singleton. auto.
  - pose proof (byte_of_range c). rewrite !elem_of_cons. intros [?|[->|[->|[]%not_elem_of_nil]]]; [by auto| |];
      left; apply hex_upper_unreserved; [|apply Z.mod_pos_bound; lia].
    split; [apply Z.div_pos; lia|apply Z.div_lt_upper_bound; lia].
Qed.

Lemma query_escape_bytes s b :
  b ∈ String.list_ascii_of_string (query_escape s) -> unreserved b = true \/ b = "+"%char \/ b = "%"%char.
Proof.
  induction s as [|c s IH]; [by intros ?%not_elem_of_nil|]. rewrite query_escape_cons, list_ascii_append.
  intros [Hb|Hb]%elem_of_app; [|by apply IH].
  destruct (query_escape_byte_spec c) as [Hq|(e & r & _ & _ & H)]; [|by apply H].
  assert (unreserved c = true) as Hu; [|rewrite Hq in Hb; apply list_elem_of_singleton in Hb as ->; auto].
  revert Hq. rewrite query_escape_byte_eq. destruct (unreserved c); [done|].
  destruct (Ascii.eqb c " ") eqn:Ec; [|done]. apply Ascii.eqb_eq in Ec as ->. done.
Qed.

Lemma query_escape_id s :
  (forall b, b ∈ String.list_ascii_of_string (query_escape s) -> b <> "+"%char /\ b <> "%"%char) ->
  query_escape s = s.
Proof.
  induction s as [|c s IH]; [done|]. rewrite query_escape_cons, list_ascii_append. intros Hb.
  rewrite IH by (intros b Hin; apply Hb, elem_of_app; by right).
  destruct (query_escape_byte_spec c) as [->|(e & r & Hq & He & _)]; [done|]. exfalso.
  rewrite Hq in Hb. destruct (Hb e) as [? ?]; [apply elem_of_app; left; by left|]. by destruct He.
Qed.

Lemma query_escape_hideable s : hideable s -> hideable (query_escape s).
Proof.
  intros (Hne & Hl & Hr & Hm). split_and!.
  - destruct s as [|c s]; [done|]. rewrite query_escape_cons.
    destruct (query_escape_byte_spec c) as [->|(e & r & -> & _)]; done.
  - apply has_byte_false. by intros [?|[?|?]]%query_escape_bytes.
  - apply has_byte_false. by intros [?|[?|?]]%query_escape_bytes.
  - apply not_true_iff_false. intros Hc. rewrite query_escape_id in Hc; [congruence|].
    intros b Hb. apply contains_spec in Hc as (l & r & Heq).
    assert (b ∈ String.list_ascii_of_string "REDACTED") as Hin.
    { rewrite Heq, !list_ascii_append, !elem_of_app. auto. }
    clear -Hin. cbn in Hin. split; intros ->; repeat (apply elem_of_cons in Hin as [?|Hin]; [done|]);
      by apply not_elem_of_nil in Hin.
Qed.

(** ** Known secrets are hidden *)

Lemma replace_all_from v old : old <> EmptyString ->
  replace_all v old redactedLogValue = replace_from old redactedLogValue 0 v.
Proof. by destruct old. Qed.

Lemma query_escape_nonempty s : s <> EmptyString -> query_escape s <> EmptyString.
Proof.
  destruct s as [|c s]; [done|]. intros _. rewrite query_escape_cons.
  by destruct (query_escape_byte_spec c) as [->|(e & r & -> & _)].
Qed.

Definition hidden (s v : string) : Prop := contains v s = false /\ contains v (query_escape s) = false.

Lemma redact_one_keeps s v secret : hideable s -> hidden s v -> hidden s (redact_one v secret).
Proof.
  intros Hs [H1 H2]. unfold redact_one. case_bool_decide as Hne; [done|].
  pose proof (query_escape_nonempty _ Hne). pose proof (query_escape_hideable _ Hs).
  rewrite !replace_all_from by done. split; by repeat apply replace_keeps_absent.
Qed.

Lemma redact_one_hides s v : hideable s -> hidden s (redact_one v s).
Proof.
  intros Hs. unfold redact_one. assert (s <> EmptyString) as Hne by apply Hs. rewrite bool_decide_false by done.
  pose proof (query_escape_nonempty _ Hne). pose proof (query_escape_hideable _ Hs).
  rewrite !replace_all_from by done. split; [|by apply replace_removes].
  apply replace_keeps_absent; [done|done|]. by apply replace_removes.
Qed.

Lemma redactKnownSecrets_hides s v known : hideable s -> s ∈ known -> hidden s (redactKnownSecrets v known).
Proof.
  intros Hs Hin. unfold redactKnownSecrets.
  assert (s ∈ stable_sort (fun s => - strlen s) known) as Hk by by rewrite stable_sort_Permutation.
  clear Hin. revert Hk. generalize (stable_sort (fun s => - strlen s) known) as ks. intros ks.
  revert v. induction ks as [|k ks IH]; intros v; [by intros ?%not_elem_of_nil|]. cbn [foldl].
  intros [-> |Hin]%elem_of_cons; [|by apply IH].
  pose proof (redact_one_hides k v Hs) as Hh. revert Hh. generalize (redact_one v k) as w. clear IH.
  induction ks as [|k' ks IH]; intros w Hw; [done|]. cbn [foldl]. by apply IH, redact_one_keeps.
Qed.

Lemma replace_absent v old new : contains v old = false -> replace_from old new 0 v = v.
Proof.
  induction v as [|c v IH]; [done|]. intros Hc. cbn [contains] in Hc. apply orb_false_iff in Hc as [Hp Hc].
  rewrite replace_step by done. by rewrite IH.
Qed.

(** Text without the secrets is left alone. *)
Lemma redactKnownSecrets_id v known :
  (forall s, s ∈ known -> s <> EmptyString -> hidden s v) -> redactKnownSecrets v known = v.
Proof.
  unfold redactKnownSecrets. intros Hh.
  assert (forall s, s ∈ stable_sort (fun s => - strlen s) known -> s <> EmptyString -> hidden s v) as Hk.
  { intros s Hs. apply Hh. by rewrite stable_sort_Permutation in Hs. }
  clear Hh. revert Hk. generalize (stable_sort (fun s => - strlen s) known) as ks.
  induction ks as [|k ks IH]; intros Hk; [done|]. cbn [foldl].
  assert (redact_one v k = v) as ->; [|apply IH; intros s Hs; apply Hk; by right].
  unfold redact_one. case_bool_decide as Hne; [done|]. destruct (Hk k) as [H1 H2]; [by left|done|].
  rewrite !replace_all_from by auto using query_escape_nonempty.
  by rewrite !replace_absent by (rewrite ?replace_absent by done; done).
Qed.

(** ** Values *)

Section values.
Context `{UnicodeTables}.

(** [leaf v b s]: [s] is a string value within [v], and [b] says whether a
    member with a sensitive key leads to it. *)
Inductive leaf : json -> bool -> string -> Prop :=
| leaf_str s : leaf (JStr s) false s
| leaf_arr vs v b s : v ∈ vs -> leaf v b s -> leaf (JArr vs) b s
| leaf_obj ms k v b s : (k, v) ∈ ms -> leaf v b s -> leaf (JObj ms) (sensitiveLogKey k || b) s.

(** What the log may show of a value: every string hides the secret, and below a
    sensitive key there is the marker alone. *)
Inductive discreet (s : string) : json -> Prop :=
| discreet_null : discreet s JNull
| discreet_bool b : discreet s (JBool b)
| discreet_num l : discreet s (JNum l)
| discreet_str t : hidden s t -> discreet s (JStr t)
| discreet_arr vs : Forall (discreet s) vs -> discreet s (JArr vs)
| discreet_obj ms : Forall (fun kv => discreet s kv.2) ms ->
    Forall (fun kv => sensitiveLogKey kv.1 = true -> kv.2 = JStr redactedLogValue) ms -> discreet s (JObj ms).

Lemma marker_hidden s : hideable s -> hidden s redactedLogValue.
Proof.
  assert (forall t, hideable t -> contains redactedLogValue t = false) as Ht.
  { intros t Ht. apply not_true_iff_false. intros Hc.
    change redactedLogValue with (EmptyString ++ redactedLogValue ++ EmptyString)%string in Hc.
    apply contains_marker in Hc as [Hc|Hc]; [..|done]; destruct t; try discriminate; by destruct Ht. }
  intros Hs. split; apply Ht; [done|by apply query_escape_hideable].
Qed.

Lemma redactAPIValue_discreet s v known : hideable s -> s ∈ known -> discreet s (redactAPIValue v known).
Proof.
  intros Hs Hk. induction v as [| | | |vs IH|ms IH] using json_ind'; cbn [redactAPIValue]; try constructor.
  - by apply redactKnownSecrets_hides.
  - by apply Forall_map.
  - apply Forall_map. eapply Forall_impl; [exact IH|]. intros [k v] Hv. cbn [fst snd] in *.
    destruct (sensitiveLogKey k); [constructor; by apply marker_hidden|done].
  - apply Forall_map, Forall_forall. intros [k v] _ Hkey. cbn [fst snd] in *. by rewrite Hkey.
Qed.

Context `{MapOrder}.

Lemma elem_of_visits {A} ms (ls : list (list A)) x : x ∈ List.concat (in_order ms ls) <-> x ∈ List.concat ls.
Proof.
  rewrite !list_elem_of_In, !in_concat. split; intros (l & Hl & Hx); exists l; (split; [|done]); eapply Permutation_in;
    [apply in_order_perm|done|symmetry; apply in_order_perm|done].
Qed.

Lemma walk_spec v b0 s b :
  (s, b) ∈ walkSensitiveValue v b0 <-> exists b', leaf v b' s /\ b = b0 || b'.
Proof.
  revert b0. induction v as [|x|x|t|vs IH|ms IH] using json_ind'; intros b0; cbn [walkSensitiveValue];
    try (split; [by intros ?%not_elem_of_nil|by intros (b' & Hl & _); inversion Hl]).
  - rewrite list_elem_of_singleton. split.
    + intros [= -> ->]. exists false. split; [constructor|by rewrite orb_false_r].
    + intros (b' & Hl & ->). inversion Hl; subst. by rewrite orb_false_r.
  - rewrite list_elem_of_In, in_concat. rewrite Forall_forall in IH. split.
    + intros (l & Hl & Hin). apply in_map_iff in Hl as (v & <- & Hv%list_elem_of_In).
      apply list_elem_of_In in Hin. apply (IH v Hv) in Hin as (b' & Hl & ->).
      exists b'. split; [by econstructor|done].
    + intros (b' & Hl & ->). inversion Hl as [|? v ? ? Hv Hlv|]; subst.
      exists (walkSensitiveValue v b0). split; [apply in_map_iff; exists v; by rewrite <- list_elem_of_In|].
      apply list_elem_of_In, (IH v Hv). by exists b'.
  - rewrite elem_of_visits, list_elem_of_In, in_concat. rewrite Forall_forall in IH. split.
    + intros (l & Hl & Hin). apply in_map_iff in Hl as ([k v] & <- & Hv%list_elem_of_In).
      apply list_elem_of_In in Hin. apply (IH (k, v) Hv) in Hin as (b' & Hl & ->).
      exists (sensitiveLogKey k || b'). split; [by econstructor|]. by rewrite orb_assoc.
    + intros (b' & Hl & ->). inversion Hl as [| |? k v b1 ? Hv Hlv]; subst.
      exists (walkSensitiveValue v (b0 || sensitiveLogKey k)). split; [apply in_map_iff; exists (k, v); by rewrite <- list_elem_of_In|].
      apply list_elem_of_In, (IH (k, v) Hv). exists b1. split; [done|]. by rewrite orb_assoc.
Qed.

Lemma collect_spec float_in_range body s :
  s ∈ collectSensitiveStrings float_in_range body <->
  s <> EmptyString /\ body <> EmptyString /\ exists v, unmarshal_any float_in_range body = Some v /\ leaf v true s.
Proof.
  unfold collectSensitiveStrings. case_bool_decide as Hb.
  { split; [by intros ?%not_elem_of_nil|by intros (_ & ? & _)]. }
  destruct (unmarshal_any float_in_range body) as [v|].
  2:{ split; [by intros ?%not_elem_of_nil|by intros (_ & _ & v & ? & _)]. }
  rewrite list_elem_of_fmap. split.
  - intros ([t b] & -> & ([Hbt Hne] & Hin)%list_elem_of_filter). cbn in *. subst b.
    apply walk_spec in Hin as (b' & Hl & Hb'). cbn in Hb'. subst b'. split_and!; [done|done|]. by exists v.
  - intros (Hne & _ & v' & [= <-] & Hl). exists (s, true). split; [done|]. apply list_elem_of_filter.
    split; [done|]. apply walk_spec. by exists true.
Qed.

End values.

(** What a diagnostic entry holds. *)
Lemma diagnostic_discreet `{UnicodeTables} `{MapOrder} (float_in_range : string -> bool)
    (token reqBody data s : string) (detail : list (string * json)) :
  hideable s ->
  (s = token \/ exists v, unmarshal_any float_in_range reqBody = Some v /\ leaf v true s) ->
  error_log float_in_range token reqBody data = Diagnostic detail ->
  Forall (fun kv => kv.1 ∈ diagnostic_keys /\ discreet s kv.2) detail.
Proof.
  intros Hs Hsrc. unfold error_log, debugAPIErrorResponse.
  set (known := token :: collectSensitiveStrings float_in_range reqBody).
  assert (s ∈ known) as Hk.
  { destruct Hsrc as [-> |(v & Hv & Hl)]; [by left|right]. apply collect_spec. split_and!; [apply Hs| |by exists v].
    by intros ->. }
  destruct (unmarshal_map float_in_range data) as [response|]; [|done].
  set (diagnostic := omap _ diagnostic_keys).
  assert (Forall (fun kv => kv.1 ∈ diagnostic_keys /\ discreet s kv.2) diagnostic) as Hd.
  { apply Forall_forall. intros [k w] Hin. apply list_elem_of_omap in Hin as (k' & Hk' & Hw).
    destruct (member k' response) as [v|]; [|done]. injection Hw as <- <-. split; [done|].
    by apply redactAPIValue_discreet. }
  destruct diagnostic; [done|]. by intros [= <-].
Qed.

(** ** Properties *)

(** Credentials sent in a request never show in the debug log of its error
    response. For the request's token, and every non-empty string the request
    body holds under a sensitive key, whatever the server answers: no string the
    entry shows contains it, as it is or percent-encoded; the values under
    sensitive keys are replaced whole; and only the eight diagnostic fields are
    there at all. The secret must not be spelled by the marker itself. *)
Theorem error_log_hides_credentials `{UnicodeTables} `{MapOrder} (float_in_range : string -> bool)
    (token reqBody data s : string) (detail : list (string * json)) :
  hideable s ->
  (s = token \/ exists v, unmarshal_any float_in_range reqBody = Some v /\ leaf v true s) ->
  error_log float_in_range token reqBody data = Diagnostic detail ->
  Forall (fun kv => kv.1 ∈ diagnostic_keys /\ discreet s kv.2) detail.
Proof. apply diagnostic_discreet. Qed.

(** The replacement of known secrets is thorough and no more: every secret
    of the list that the marker does not spell is gone from the text, as it is
    and percent-encoded, whatever the other secrets and whatever their order;
    and a text in which none of them occurs is not touched. *)
Theorem redactKnownSecrets_spec (value : string) (known : list string) :
  (forall s, s ∈ known -> hideable s -> hidden s (redactKnownSecrets value known))
  /\ ((forall s, s ∈ known -> s <> EmptyString -> hidden s value) -> redactKnownSecrets value known = value).
Proof. split; [intros; by apply redactKnownSecrets_hides|apply redactKnownSecrets_id]. Qed.

(** *** A concrete response *)

Definition ascii_tables : UnicodeTables := {| lower_table := fun r => r |}.

Definition text_order : MapOrder := {| in_order := fun _ A l => l; in_order_perm := fun _ A l => Permutation_refl l |}.

Definition toy_body : string :=
  json_object [("token", json_string "abc-123");
               ("payload", json_object [("secret", json_string "s3 cr3t"); ("client_name", json_string "me")])].

Definition toy_data : string :=
  json_object [("message", json_string "no abc-123 for s3+cr3t, me");
               ("detail", json_object [("Session-Token", json_object [("a", json_string "zz")])]);
               ("owner", json_string "x")].

Definition toy_detail : list (string * json) :=
  [("detail", JObj [("Session-Token", JStr redactedLogValue)]);
   ("message", JStr "no [REDACTED] for [REDACTED], me")]%string.

Lemma error_log_hides_credentials_witness :
  @error_log ascii_tables text_order (fun _ => true) "tok" toy_body toy_data = Diagnostic toy_detail
  /\ Forall (fun kv => kv.1 ∈ diagnostic_keys /\ @discreet ascii_tables "s3 cr3t" kv.2) toy_detail.
Proof.
  assert (@error_log ascii_tables text_order (fun _ => true) "tok" toy_body toy_data = Diagnostic toy_detail) as He by by vm_compute.
  split; [exact He|].
  refine (@error_log_hides_credentials ascii_tables text_order (fun _ => true) "tok" toy_body toy_data "s3 cr3t" toy_detail _ _ He).
  - by split_and!.
  - right. exists (JObj [("token", JStr "abc-123"); ("payload", JObj [("secret", JStr "s3 cr3t"); ("client_name", JStr "me")])])%string.
    split; [by vm_compute|].
    eapply (@leaf_obj ascii_tables _ "payload" _ true); [right; left|].
    eapply (@leaf_obj ascii_tables _ "secret" _ false); [left|constructor].
Defined.

(** The names of members are not redacted: a server that answers with a secret as
    a member's name gets it into the log. *)
Lemma member_names_are_shown :
  @error_log ascii_tables text_order (fun _ => true) "abc-123" EmptyString
    (json_object [("error", json_object [("abc-123", "1")])])
  = Diagnostic [("error", JObj [("abc-123", JNum "1")])]%string.
Proof. by vm_compute. Qed.
End Redact.
