(* ===== verification/Logging.v ===== *)
(** The log ([logging.go], and what [api.go] writes to it of an error response):
    which records are written, what of their attributes is replaced, and the text
    of the entry for an error response. *)

From S2P Require Import Prelude Lists GoStrings Utf8 GoJson JsonPrint Logfmt GoUrl Redact.
From Stdlib Require Import Ascii.
Open Scope Z_scope.

Import Redact.

Module Logging.

(** ** appLogger *)

(** The lowest level its handler writes, and the flag it was made with. *)
Record appLogger := { minLevel : level; debug : bool }.

Definition newAppLogger (debug : bool) : appLogger :=
  {| minLevel := if debug then LevelDebug else LevelInfo; debug := debug |}.

Definition IsDebug (l : appLogger) : bool := debug l.

Section logger.
Context `{UnicodeTables} `{PrintTable}.

(** [ReplaceAttr] of the handler. *)
Definition ReplaceAttr (a : attr) : attr :=
  if sensitiveLogKey a.1 then (a.1, AText redactedLogValue) else a.

(** What a call of one of the logger's methods at the time [now] writes. *)
Definition log (lvl : level) (l : appLogger) (now message : string) (args : list attr) : string :=
  if level_value (minLevel l) <=? level_value lvl
  then handle ReplaceAttr {| r_time := now; r_level := lvl; r_message := message; r_attrs := args |}
  else EmptyString.

Definition Debug_ : appLogger -> string -> string -> list attr -> string := log LevelDebug.
Definition Info_ : appLogger -> string -> string -> list attr -> string := log LevelInfo.
Definition Warn_ : appLogger -> string -> string -> list attr -> string := log LevelWarn.
Definition Error_ : appLogger -> string -> string -> list attr -> string := log LevelError.

(** ** newWireGuardLogger *)

(** wireguard-go's logger: its two functions on a formatted text; [None] is
    [device.DiscardLogf]. *)
Record deviceLogger := { Verbosef : option (string -> string -> string); Errorf : string -> string -> string }.

Definition newWireGuardLogger (l : appLogger) (debug : bool) : deviceLogger :=
  {| Verbosef := if debug then Some (fun now formatted => Debug_ l now "WireGuard" [("detail", AText (trim_space formatted))])
                 else None;
     Errorf := fun now formatted => Error_ l now "WireGuard" [("detail", AText (trim_space formatted))] |}.

(** ** debugAPIErrorResponse: the record *)

Definition maxDebugAPIErrorRunes : nat := 4096.

Definition ellipsis : string := encode_rune 8230.

Definition cut_detail (detail : string) : string :=
  let rs := runes detail in
  if (maxDebugAPIErrorRunes <? length rs)%nat
  then (encode_runes (take maxDebugAPIErrorRunes rs.*1) ++ ellipsis)%string
  else detail.

(** [float_text] is how [Marshal] prints the float64 of a literal. *)
Definition detail_text (float_text : string -> string) (diagnostic : list (string * json)) : string :=
  cut_detail (json_print (go_any float_text (JObj diagnostic))).

Definition logAPIErrorResponse (float_text : string -> string) (l : appLogger) (now method path data : string)
    (entry : debug_entry) : string :=
  let omitted (reason : string) :=
    Debug_ l now "API error response body omitted"
      [("method", AText method); ("path", AText path); ("response_bytes", AInt (strlen data)); ("reason", AText reason)]%string in
  match entry with
  | NotAnObject => omitted "not a JSON object"%string
  | NoDiagnosticFields => omitted "no diagnostic fields"%string
  | Diagnostic diagnostic =>
      Debug_ l now "API error response"
        [("method", AText method); ("path", AText path); ("detail", AText (detail_text float_text diagnostic))]%string
  end.

(** ** What is written, read back *)

(** A call: its level, time, message and arguments. *)
Record call := { c_level : level; c_now : string; c_message : string; c_args : list attr }.

Definition run (l : appLogger) (c : call) : string := log (c_level c) l (c_now c) (c_message c) (c_args c).

Definition enabled (l : appLogger) (c : call) : Prop := level_value (minLevel l) <= level_value (c_level c).
#[export] Instance enabled_dec l c : Decision (enabled l c).
Proof. unfold enabled. apply _. Defined.

(** The whole of a log: line after line until it ends. *)
Fixpoint read_log (fuel : nat) (s : string) : option (list (list (string * string))) :=
  match s, fuel with
  | EmptyString, _ => Some []
  | _, O => None
  | _, S f => '(line, rest) ← read_line (String.length s) s; lines ← read_log f rest; Some (line :: lines)
  end.

(** The line a call is meant to give. *)
Definition meant (c : call) : list (string * string) :=
  [("time", c_now c); ("level", level_String (c_level c)); ("msg", c_message c)]%string
  ++ ((fun a => (a.1, if sensitiveLogKey a.1 then redactedLogValue else value_text a.2)) <$> c_args c).

Definition printable (c : call) : Prop := bare (c_now c) /\ Forall (fun a => token_value a.2) (c_args c).

Lemma seen_line now lvl message args :
  seen <$> line_attrs ReplaceAttr {| r_time := now; r_level := lvl; r_message := message; r_attrs := args |}
  = meant {| c_level := lvl; c_now := now; c_message := message; c_args := args |}.
Proof.
  unfold line_attrs, meant. cbn [r_time r_level r_message r_attrs c_now c_level c_message c_args].
  rewrite !fmap_app, <- !list_fmap_compose. f_equal.
  apply list_fmap_ext. intros ? [k v] _. unfold seen, ReplaceAttr. cbn [compose fst snd].
  by destruct (sensitiveLogKey k).
Qed.

Lemma replaced_tokens attrs : Forall (fun a => token_value a.2) attrs -> Forall (fun a => token_value a.2) (ReplaceAttr <$> attrs).
Proof.
  intros Ha. apply Forall_fmap. eapply Forall_impl; [exact Ha|]. intros [k v] Hv. unfold compose, ReplaceAttr. cbn [fst snd] in *.
  by destruct (sensitiveLogKey k).
Qed.

Lemma run_read l c rest f : printable c -> enabled l c -> (length (c_args c) + 3 <= f)%nat ->
  read_line f (run l c ++ rest) = Some (meant c, rest).
Proof.
  intros [Hn Ha] He Hf. unfold run, log. rewrite (proj2 (Z.leb_le _ _)) by exact He.
  rewrite read_handled; [by rewrite seen_line; destruct c| |done].
  unfold line_attrs. apply replaced_tokens. by repeat (constructor; [done|]).
Qed.

Lemma run_disabled l c : ~ enabled l c -> run l c = EmptyString.
Proof. intros He. unfold run, log. by rewrite (proj2 (Z.leb_gt _ _)) by (unfold enabled in He; lia). Qed.

Lemma length_line attrs : (length attrs <= String.length (String.concat " " (append_attr <$> attrs)))%nat.
Proof.
  assert (forall a, 1 <= String.length (append_attr a))%nat as Ha by (intros a; unfold append_attr; rewrite !length_append; cbn; lia).
  induction attrs as [|a attrs IH]; [cbn; lia|]. rewrite fmap_cons. specialize (Ha a). destruct attrs as [|a2 attrs]; [cbn in *; lia|].
  change (String.concat " " (append_attr a :: (append_attr <$> a2 :: attrs)))
    with (append_attr a ++ String " " (String.concat " " (append_attr <$> a2 :: attrs)))%string.
  rewrite length_append. cbn [length String.length] in *. lia.
Qed.

Lemma length_run l c : enabled l c -> (length (c_args c) + 3 < String.length (run l c))%nat.
Proof.
  intros He. unfold run, log, handle. rewrite (proj2 (Z.leb_le _ _)) by exact He. rewrite length_append.
  set (attrs := line_attrs _ _). pose proof (length_line attrs) as Hl.
  assert (length attrs = (length (c_args c) + 3)%nat) as Hn by (unfold attrs, line_attrs; rewrite (length_fmap ReplaceAttr); cbn; lia).
  change (String.length newline) with 1%nat. lia.
Qed.

Definition written (l : appLogger) (calls : list call) : string := String.concat EmptyString (run l <$> calls).

Lemma read_written l calls f : Forall printable calls -> (length (filter (enabled l) calls) <= f)%nat ->
  read_log f (written l calls) = Some (meant <$> filter (enabled l) calls).
Proof.
  unfold written. intros Hp. revert f. induction Hp as [|c calls Hc Hp IH]; intros f; [by destruct f|].
  rewrite fmap_cons, concat_empty_cons, filter_cons. destruct (decide (enabled l c)) as [He|He].
  2:{ rewrite run_disabled by done. apply IH. }
  cbn [length]. intros Hf. destruct f as [|f]; [lia|]. pose proof (length_run l c He) as Hl.
  set (rest := String.concat EmptyString (run l <$> calls)) in *.
  assert (exists a s, (run l c ++ rest)%string = String a s) as (a & s & E)
    by (destruct (run l c) as [|a s]; [cbn in Hl; lia|by eexists _, _]).
  rewrite E. cbn [read_log]. rewrite <- E, run_read by (done || (rewrite length_append; lia)).
  cbn. rewrite IH by lia. done.
Qed.

Lemma length_written l calls : (length (filter (enabled l) calls) <= String.length (written l calls))%nat.
Proof.
  unfold written. induction calls as [|c calls IH]; [cbn; lia|]. rewrite fmap_cons, concat_empty_cons, length_append, filter_cons.
  destruct (decide (enabled l c)) as [He|He]; [|lia]. pose proof (length_run l c He). cbn [length]. lia.
Qed.

(** [C19] The log says what it was told, and nothing in it can be forged. However
    the messages and values were chosen, reading the log line by line gives
    exactly one line for each call whose level is enabled, in order, with the
    time, level, message and arguments of the call, where the value of every
    sensitive key is the marker. Without debug no such line is at level DEBUG. *)
Theorem log_reads_back (dbg : bool) (calls : list call) :
  Forall printable calls ->
  let l := newAppLogger dbg in
  let text := written l calls in
  exists lines, read_log (String.length text) text = Some lines
  /\ lines = meant <$> filter (enabled l) calls
  /\ (forall line k v, line ∈ lines -> (k, v) ∈ line -> sensitiveLogKey k = true -> v = redactedLogValue)
  /\ (dbg = false -> forall line, line ∈ lines -> ("level", "DEBUG")%string ∉ take 3 line)
  /\ (dbg = true -> length lines = length calls).
Proof.
  intros Hp l text. exists (meant <$> filter (enabled l) calls). split_and!; [|done|..].
  - apply read_written; [done|]. apply length_written.
  - intros line k v (c & -> & _)%list_elem_of_fmap Hin Hk. unfold meant in Hin. apply elem_of_app in Hin as [Hin|Hin].
    + exfalso. rewrite !elem_of_cons, elem_of_nil in Hin. by destruct_or! Hin; injection Hin as -> _.
    + apply list_elem_of_fmap in Hin as (a & [= -> ->] & _). by rewrite Hk.
  - intros -> line (c & -> & [He _]%list_elem_of_filter)%list_elem_of_fmap. cbn.
    rewrite !elem_of_cons, elem_of_nil. intros [H'|[H'|[H'|[]]]]; [done| |done].
    unfold enabled in He. destruct (c_level c); cbn in He, H'; (lia || done).
  - intros ->. rewrite length_fmap. f_equal. apply filter_all. apply Forall_forall. intros c _.
    unfold enabled. destruct (c_level c); cbn; lia.
Qed.

(** ** The detail of an error response *)

Lemma cut_detail_runes d : (length (runes (cut_detail d)) <= S maxDebugAPIErrorRunes)%nat.
Proof.
  unfold cut_detail. destruct (Nat.ltb_spec maxDebugAPIErrorRunes (length (runes d))); [|lia].
  assert (encode_runes (take maxDebugAPIErrorRunes (runes d).*1) ++ ellipsis
          = encode_runes (take maxDebugAPIErrorRunes (runes d).*1 ++ [8230]))%string as ->.
  { rewrite encode_runes_app, encode_runes_cons. by rewrite append_empty_r. }
  rewrite runes_encode.
  - rewrite length_fmap, length_app, length_take. cbn [length]. lia.
  - apply Forall_app. split; [|repeat constructor; lia]. apply Forall_take, runes_valid.
Qed.

(** A text of ASCII bytes occurs in the valid form of a string where it occurs in
    the string. *)
Lemma sanitize_prefix ps t : Forall rune_read ps -> all_ascii t = true ->
  has_prefix t (String.concat EmptyString ((fun p => encode_rune p.1) <$> ps)) = has_prefix t (concat_bytes ps).
Proof.
  unfold concat_bytes. intros Hps. revert t. induction Hps as [|p ps Hp Hps IH]; intros t Ht; [done|].
  rewrite !fmap_cons, !concat_empty_cons. destruct t as [|b t]; [done|]. apply andb_true_iff in Ht as [Hb%Z.ltb_lt Ht].
  destruct (Z.ltb_spec p.1 128) as [Hr|Hr].
  - pose proof (rune_read_ascii p Hp Hr) as ->. destruct Hp as [Hv _]. rewrite encode_rune_valid by done.
    rewrite (proj2 (Z.ltb_lt _ _)) by done. cbn [chr String.append has_prefix]. by rewrite IH.
  - pose proof (rune_read_high p Hp Hr) as Hh. destruct Hp as [Hv Hw]. pose proof (encode_rune_high _ Hv Hr) as [He _].
    assert (p.2 <> EmptyString) as Hne.
    { destruct Hw as [->|(_ & c & -> & _)]; [|done]. by destruct (encode_rune_width p.1) as [n Hn]; destruct (encode_rune p.1). }
    destruct (encode_rune_width p.1) as [n Hn]. destruct (encode_rune p.1) as [|c w]; [done|]. destruct p.2 as [|c2 w2]; [done|].
    apply Forall_cons in Hh as [Hc2 _]. apply Forall_cons in He as [Hc _]. cbn [String.append has_prefix].
    rewrite (proj2 (Ascii.eqb_neq b c)), (proj2 (Ascii.eqb_neq b c2)); [done|by intros ->; lia..].
Qed.

Lemma contains_high w v t : Forall (fun c => 128 <= byte_of c) (String.list_ascii_of_string w) ->
  all_ascii t = true -> t <> EmptyString -> contains (w ++ v) t = contains v t.
Proof.
  intros Hw Ht Hne. induction w as [|c w IH]; [done|]. cbn [String.list_ascii_of_string] in Hw. apply Forall_cons in Hw as [Hc Hw].
  cbn [String.append contains]. rewrite IH by done. destruct t as [|b t]; [done|].
  apply andb_true_iff in Ht as [Hb%Z.ltb_lt _]. cbn [has_prefix].
  by rewrite (proj2 (Ascii.eqb_neq b c)) by (intros ->; lia).
Qed.

Lemma sanitize_contains v t : all_ascii t = true -> t <> EmptyString -> contains (sanitize v) t = contains v t.
Proof.
  intros Ht Hne. unfold sanitize. rewrite <- (concat_runes v) at 2. pose proof (runes_read v) as Hps.
  induction Hps as [|p ps Hp Hps IH]; [done|]. pose proof (sanitize_prefix (p :: ps) t (Forall_cons_2 _ _ _ Hp Hps) Ht) as Hpre.
  revert Hpre. unfold concat_bytes in *. rewrite !fmap_cons, !concat_empty_cons. intros Hpre.
  destruct (Z.ltb_spec p.1 128) as [Hr|Hr].
  - pose proof (rune_read_ascii p Hp Hr) as Hw. destruct Hp as [Hv _].
    assert (encode_rune p.1 = chr (of_byte p.1)) as He by (rewrite encode_rune_valid by done; by rewrite (proj2 (Z.ltb_lt _ _))).
    rewrite He, Hw in *. cbn [chr String.append contains] in *. by rewrite Hpre, IH.
  - rewrite !contains_high by (done || (by apply rune_read_high) || (destruct Hp; by apply encode_rune_high)). done.
Qed.

Lemma query_escape_ascii s : all_ascii (query_escape s) = true.
Proof.
  unfold all_ascii. apply forallb_forall. intros c Hc%list_elem_of_In.
  apply query_escape_bytes in Hc as [Hc|[->| ->]]; [|done..]. revert Hc. by destruct c as [[] [] [] [] [] [] [] []]; vm_compute.
Qed.

Lemma hidden_sanitize s v : all_ascii s = true -> hideable s -> hidden s v -> hidden s (sanitize v).
Proof.
  intros Ha Hs [H1 H2]. split; rewrite sanitize_contains; try done; [by destruct Hs| |].
  - apply query_escape_ascii.
  - by apply query_escape_nonempty; destruct Hs.
Qed.

(** Values of bounded depth whose member names are UTF-8. *)
Inductive tame : Z -> json -> Prop :=
| tame_null d : tame d JNull
| tame_bool d b : tame d (JBool b)
| tame_num d l : tame d (JNum l)
| tame_str d s : tame d (JStr s)
| tame_arr d vs : 0 < d -> Forall (tame (d - 1)) vs -> tame d (JArr vs)
| tame_obj d ms : 0 < d -> Forall (fun kv => utf8 kv.1 /\ tame (d - 1) kv.2) ms -> tame d (JObj ms).

Lemma parsed_tame d v : parsed d v -> tame d v.
Proof.
  revert d. induction v as [| | | |vs IH|ms IH] using json_ind'; intros d [Hn Hu]; try constructor.
  - cbn [nesting] in Hn. pose proof (max_nonneg nesting vs). lia.
  - inversion Hu as [| | | |? Hvs|]; subst. cbn [nesting] in Hn. apply Z.le_add_le_sub_l, max_forall in Hn.
    rewrite Forall_forall in *. intros v Hv. apply IH; [done|]. split; auto.
  - cbn [nesting] in Hn. pose proof (max_nonneg (fun kv : string * json => nesting kv.2) ms). lia.
  - inversion Hu as [| | | | |? Hms]; subst. cbn [nesting] in Hn. apply Z.le_add_le_sub_l, max_forall in Hn.
    rewrite Forall_forall in *. intros kv Hv. destruct (Hms kv Hv). split; [done|]. apply IH; [done|]. split; auto.
Qed.

Lemma tame_nesting d v : 0 <= d -> tame d v -> nesting v <= d.
Proof.
  revert d. induction v as [| | | |vs IH|ms IH] using json_ind'; intros d H0d Hv; try done.
  - inversion Hv as [| | | |? ? Hd Hvs|]; subst. cbn [nesting]. apply Z.le_add_le_sub_l, max_bound; [lia|].
    rewrite Forall_forall in *. intros v Hin. apply IH; [done|lia|auto].
  - inversion Hv as [| | | | |? ? Hd Hms]; subst. cbn [nesting]. apply Z.le_add_le_sub_l, max_bound; [lia|].
    rewrite Forall_forall in *. intros v Hin. apply IH; [done|lia|by apply Hms].
Qed.

Lemma set_member_forall (P : string * json -> Prop) k v ms : P (k, v) -> Forall P ms -> Forall P (set_member k v ms).
Proof.
  intros Hkv. induction 1 as [|[k' v'] ms Hm Hms IH]; cbn [set_member]; [by constructor|].
  case_bool_decide; by constructor.
Qed.

Lemma tame_last_members d v : tame d v -> tame d (last_members v).
Proof.
  revert d. induction v as [| | | |vs IH|ms IH] using json_ind'; intros d Hv; cbn [last_members]; try done.
  - inversion Hv as [| | | |? ? Hd Hvs|]; subst. constructor; [done|]. apply Forall_map. rewrite Forall_forall in *. auto.
  - inversion Hv as [| | | | |? ? Hd Hms]; subst. constructor; [done|].
    assert (Forall (fun kv => utf8 kv.1 /\ tame (d - 1) kv.2) (List.map (fun kv => (kv.1, last_members kv.2)) ms)) as Hm.
    { apply Forall_map. rewrite Forall_forall in *. intros kv Hin. destruct (Hms kv Hin). split; [done|]. by apply IH. }
    revert Hm. assert (Forall (fun kv => utf8 kv.1 /\ tame (d - 1) kv.2) ([] : list (string * json))) as Hacc by constructor.
    revert Hacc. generalize (List.map (fun kv => (kv.1, last_members kv.2)) ms) as l. generalize ([] : list (string * json)) as acc.
    intros acc l Hacc Hl. revert acc Hacc. induction Hl as [|[k v] l Hkv Hl IHl]; intros acc Hacc; [done|]. cbn [foldl].
    apply IHl. by apply set_member_forall.
Qed.

Lemma tame_redact d v known : tame d v -> tame d (redactAPIValue v known).
Proof.
  revert d. induction v as [| | | |vs IH|ms IH] using json_ind'; intros d Hv; cbn [redactAPIValue]; try done.
  - constructor.
  - inversion Hv as [| | | |? ? Hd Hvs|]; subst. constructor; [done|]. apply Forall_map. rewrite Forall_forall in *. auto.
  - inversion Hv as [| | | | |? ? Hd Hms]; subst. constructor; [done|]. apply Forall_map. rewrite Forall_forall in *.
    intros kv Hin. destruct (Hms kv Hin). cbn [fst snd]. split; [done|]. destruct (sensitiveLogKey kv.1); [constructor|by apply IH].
Qed.

Lemma Forall_sorted_members {A} (P : string * A -> Prop) ms : Forall P ms -> Forall P (foldr insert_member [] ms).
Proof. by rewrite sort_members_permutation. Qed.

(** What was discreet stays discreet when it is written and read back. *)
Lemma discreet_printed s d text v : all_ascii s = true -> hideable s -> tame d v -> discreet s v ->
  discreet s (clean (go_any text v)).
Proof.
  intros Ha Hs. revert d. induction v as [| | |t|vs IH|ms IH] using json_ind'; intros d Ht Hv; cbn [go_any clean]; try (by constructor).
  - inversion Hv; subst. constructor. by apply hidden_sanitize.
  - inversion Ht as [| | | |? ? Hd Hvs|]; subst. inversion Hv as [| | | |? Hvs'|]; subst.
    constructor. rewrite List.map_map. apply Forall_map. rewrite Forall_forall in *. eauto.
  - unfold marshal_map. cbn [clean]. inversion Ht as [| | | | |? ? Hd Hms]; subst. inversion Hv as [| | | | |? Hd1 Hd2]; subst.
    constructor; apply Forall_map, Forall_sorted_members, Forall_map; rewrite Forall_forall in *; intros kv Hin; cbn [fst snd].
    + destruct (Hms kv Hin). eauto.
    + destruct (Hms kv Hin) as [Hk _]. unfold utf8 in Hk. rewrite Hk. intros Hsens.
      by rewrite (Hd2 kv Hin Hsens).
Qed.

Lemma diagnostic_tame float_in_range data known detail :
  debugAPIErrorResponse float_in_range data known = Diagnostic detail -> tame 10000 (JObj detail).
Proof.
  unfold debugAPIErrorResponse, unmarshal_map, unmarshal_any.
  destruct (parse_json data) as [v|] eqn:Hp; cbn [mbind option_bind]; [|done].
  apply parse_json_parsed, parsed_tame, tame_last_members in Hp.
  destruct (numbers_fit float_in_range v); cbn [mbind option_bind]; [|done].
  destruct (last_members v) as [| | | | |response]; cbn [as_members]; try done.
  inversion Hp as [| | | | |? ? _ Hms]; subst.
  set (diagnostic := omap _ diagnostic_keys). intros Hd.
  assert (detail = diagnostic) as -> by (destruct diagnostic; [done|by injection Hd as <-]). clear Hd.
  constructor; [done|]. apply Forall_forall. intros [k w] (k' & Hk & Hw)%list_elem_of_omap.
  destruct (member k' response) as [x|] eqn:Hm; [|done]. injection Hw as <- <-. cbn [fst snd].
  unfold member in Hm. apply fmap_Some in Hm as ([k2 x2] & Hm & ->). apply head_Some_elem_of in Hm.
  apply list_elem_of_filter in Hm as [<- Hm]. rewrite Forall_forall in Hms. destruct (Hms _ Hm) as [Hu Ht]. cbn in *.
  split; [done|]. by apply tame_redact.
Qed.

Lemma detail_discreet s text detail : all_ascii s = true -> hideable s ->
  tame 10000 (JObj detail) -> Forall (fun kv => kv.1 ∈ diagnostic_keys /\ discreet s kv.2) detail ->
  discreet s (clean (go_any text (JObj detail))).
Proof.
  intros Ha Hs Ht Hd. apply (discreet_printed s 10000); try done. apply Forall_and in Hd as [Hk Hd].
  constructor; [done|]. eapply Forall_impl; [exact Hk|]. intros [k v] Hin Hsens. exfalso. cbn in Hin.
  unfold diagnostic_keys in Hin. rewrite !elem_of_cons, elem_of_nil in Hin. by destruct_or! Hin; subst.
Qed.

(** [C9] The debug entry of an error response, down to its bytes. The detail is
    at most 4096 runes and an ellipsis long, whatever the server sent, and the line
    shows it whole and nothing else under that key. Unless it was cut it is a JSON
    object, and of a credential of the request, that is the token or a string under
    a sensitive key of the body, no string value in it has an occurrence, plain or
    percent-encoded, and all values under sensitive keys are replaced whole. This
    holds for credentials that are ASCII, not empty, without square brackets, and
    no part of the word REDACTED; and it is about the string values: a number, or
    the name of a member, is shown as the server sent it. *)
Theorem error_entry_text `{MapOrder} (float_in_range : string -> bool) (float_text : string -> string)
    (now method path token reqBody data : string) (detail : list (string * json)) :
  (forall lit, is_number (float_text lit) = true) -> bare now ->
  error_log float_in_range token reqBody data = Diagnostic detail ->
  let text := detail_text float_text detail in
  let line := logAPIErrorResponse float_text (newAppLogger true) now method path data (Diagnostic detail) in
  (length (runes text) <= 4097)%nat
  /\ read_log (String.length line) line
     = Some [[("time", now); ("level", "DEBUG"); ("msg", "API error response");
              ("method", method); ("path", path); ("detail", text)]%string]
  /\ ((length (runes (json_print (go_any float_text (JObj detail)))) <= 4096)%nat ->
      exists v, parse_json text = Some v
        /\ forall s, all_ascii s = true -> hideable s ->
             (s = token \/ exists b, unmarshal_any float_in_range reqBody = Some b /\ leaf b true s) -> discreet s v)
  /\ ((4096 < length (runes (json_print (go_any float_text (JObj detail)))))%nat ->
      exists rs, text = (encode_runes rs ++ ellipsis)%string /\ length rs = 4096%nat).
Proof.
  intros Hf Hn He text line. split_and!.
  - apply (cut_detail_runes (json_print (go_any float_text (JObj detail)))).
  - set (c := {| c_level := LevelDebug; c_now := now; c_message := "API error response";
                 c_args := [("method", AText method); ("path", AText path); ("detail", AText text)]%string |}).
    assert (line = written (newAppLogger true) [c]) as -> by done.
    rewrite read_written; [done| |apply length_written].
    apply Forall_singleton. split; [done|]. by repeat (constructor; [done|]).
  - intros Hl. exists (clean (go_any float_text (JObj detail))). unfold error_log in He.
    pose proof (diagnostic_tame _ _ _ _ He) as Ht. split.
    + unfold text, detail_text, cut_detail, maxDebugAPIErrorRunes. rewrite (proj2 (Nat.ltb_ge _ _)) by exact Hl.
      apply parse_json_print; [by apply go_any_numbers|]. rewrite go_any_nesting. by apply tame_nesting.
    + intros s Ha Hs Hsrc. apply detail_discreet; [done|done|done|].
      by eapply diagnostic_discreet.
  - intros Hl. exists (take 4096 (runes (json_print (go_any float_text (JObj detail)))).*1).
    unfold text, detail_text, cut_detail, maxDebugAPIErrorRunes. rewrite (proj2 (Nat.ltb_lt _ _)) by exact Hl.
    split; [done|]. rewrite length_take, length_fmap. lia.
Qed.

(** wireguard-go's messages: errors are always one line each, with the text
    trimmed; the verbose ones only come out with debug. *)
Theorem wireguard_logger_spec (dbg : bool) (now text : string) :
  bare now ->
  let l := newWireGuardLogger (newAppLogger dbg) dbg in
  let shown lvl := [("time", now); ("level", level_String lvl); ("msg", "WireGuard"); ("detail", trim_space text)]%string in
  read_log (String.length (Errorf l now text)) (Errorf l now text) = Some [shown LevelError]
  /\ (if dbg then exists f, Verbosef l = Some f /\ read_log (String.length (f now text)) (f now text) = Some [shown LevelDebug]
      else Verbosef l = None).
Proof.
  intros Hn l shown. assert (forall lvl, (lvl = LevelError \/ dbg = true) ->
    let t := log lvl (newAppLogger dbg) now "WireGuard" [("detail", AText (trim_space text))]%string in
    read_log (String.length t) t = Some [shown lvl]) as Hone.
  { intros lvl Hl t.
    set (c := {| c_level := lvl; c_now := now; c_message := "WireGuard"; c_args := [("detail", AText (trim_space text))]%string |}).
    assert (t = written (newAppLogger dbg) [c]) as -> by done.
    rewrite read_written; [|by apply Forall_singleton; split; [|repeat constructor]|apply length_written].
    rewrite filter_cons, decide_True; [done|]. unfold enabled. destruct Hl as [-> | ->]; [by destruct dbg|by destruct lvl]. }
  split; [by apply Hone; left|]. unfold l, newWireGuardLogger. cbn [Verbosef]. destruct dbg; [|done].
  eexists. split; [reflexivity|]. by apply Hone; right.
Qed.

End logger.

(** ** Concrete logs *)

Definition latin_print : PrintTable := {| print_table := fun r => 161 <=? r |}.

Definition sample_calls : list call :=
  [{| c_level := LevelInfo; c_now := "2024-05-01T10:00:00.000Z"; c_message := "reusing session";
      c_args := [("path", AText "a b=c"); ("session_token", AText "abc"); ("count", AInt (-3)); ("ok", ABool true)] |};
   {| c_level := LevelDebug; c_now := "2024-05-01T10:00:00.001Z"; c_message := "peer candidate"; c_args := [] |};
   {| c_level := LevelWarn; c_now := "2024-05-01T10:00:00.002Z";
      c_message := ("x" ++ chr (of_byte 10) ++ "level=ERROR" ++ chr (of_byte 255))%string;
      c_args := [("duration", ARaw "30s")] |}]%string.

Lemma sample_printable : Forall printable sample_calls.
Proof. repeat first [apply Forall_nil_2 | apply Forall_cons_2 | split]; try done; by eexists _, _. Qed.

Lemma log_reads_back_witness :
  Forall printable sample_calls
  /\ exists lines, @read_log 1000 (@written ascii_tables latin_print (newAppLogger false) sample_calls) = Some lines
       /\ length lines = 2%nat
  /\ exists lines, read_log (String.length (@written ascii_tables latin_print (newAppLogger false) sample_calls))
                     (@written ascii_tables latin_print (newAppLogger false) sample_calls) = Some lines.
Proof.
  split; [exact sample_printable|]. eexists. split; [by vm_compute|]. split; [done|].
  destruct (@log_reads_back ascii_tables latin_print false sample_calls sample_printable) as (lines & Hl & _).
  by exists lines.
Defined.

Definition plain_float (lit : string) : string := "1".

Lemma error_entry_text_witness :
  @error_log ascii_tables text_order (fun _ => true) "tok" toy_body toy_data = Diagnostic toy_detail
  /\ (length (runes (@detail_text plain_float toy_detail)) <= 4097)%nat
  /\ exists v, parse_json (@detail_text plain_float toy_detail) = Some v /\ @discreet ascii_tables "s3 cr3t" v.
Proof.
  assert (@error_log ascii_tables text_order (fun _ => true) "tok" toy_body toy_data = Diagnostic toy_detail) as He by by vm_compute.
  split; [exact He|].
  destruct (@error_entry_text ascii_tables latin_print text_order (fun _ => true) plain_float "12:00" "GET" "/" "tok" toy_body toy_data
              toy_detail) as (H1 & _ & H2 & _); [done| |exact He|].
  { split; [done|]. by eexists _, _. }
  split; [exact H1|]. destruct H2 as (v & Hv & Hs); [vm_compute; lia|]. exists v. split; [exact Hv|].
  apply Hs; [done|by split_and!|right]. eexists. split; [by vm_compute|].
  eapply (@leaf_obj ascii_tables _ "payload" _ true); [right; left|].
  eapply (@leaf_obj ascii_tables _ "secret" _ false); [left|constructor].
Defined.

End Logging.
