(* ===== verification/GoDecode.v ===== *)
(** [json.Unmarshal] into Go types: what a value does to the variable it is stored
    into, for strings, integers, booleans, [any], slices and structs. *)

From S2P Require Import Prelude GoStrings Utf8 GoJson JsonPrint Redact.
From Stdlib Require Import Ascii.
Open Scope Z_scope.

(** A type that can be decoded into: its zero value, and what storing a value into
    a variable makes of it; [None] is an [UnmarshalTypeError]. [fits] tells the
    values that can be stored, whatever the variable holds. *)
Class Decode (A : Type) := {
  zero : A;
  store : A -> json -> option A;
  fits : json -> bool;
  store_fits : forall (cur : A) (v : json), is_Some (store cur v) <-> fits v = true;
}.

Definition unmarshal {A} `{Decode A} (data : string) : option A := parse_json data ≫= store zero.

(** ** Scalars: [null] leaves them as they are *)

Lemma is_Some_ok {A} (x : A) (b : bool) : b = true -> is_Some (Some x) <-> b = true.
Proof. intros ->. split; [done|by eexists]. Qed.

Lemma is_Some_fail {A} (b : bool) : b = false -> is_Some (None : option A) <-> b = true.
Proof. intros ->. split; [by intros [? ?]|done]. Qed.

Ltac fits_cases := cbn; first [by apply is_Some_ok | by apply is_Some_fail].

Definition string_store (cur : string) (v : json) : option string :=
  match v with JNull => Some cur | JStr s => Some s | _ => None end.

Definition int_store (cur : Z) (v : json) : option Z :=
  match v with JNull => Some cur | JNum lit => atoi lit | _ => None end.

Definition bool_store (cur : bool) (v : json) : option bool :=
  match v with JNull => Some cur | JBool b => Some b | _ => None end.

#[export] Instance string_decode : Decode string.
Proof.
  refine {| zero := EmptyString; store := string_store;
            fits v := match v with JNull | JStr _ => true | _ => false end |}.
  intros cur [| | | | |]; fits_cases.
Defined.

#[export] Instance int_decode : Decode Z.
Proof.
  refine {| zero := 0; store := int_store;
            fits v := match v with JNull => true | JNum lit => bool_decide (is_Some (atoi lit)) | _ => false end |}.
  intros cur [| |lit| | |]; try fits_cases. by rewrite bool_decide_eq_true.
Defined.

#[export] Instance bool_decode : Decode bool.
Proof.
  refine {| zero := false; store := bool_store; fits v := match v with JNull | JBool _ => true | _ => false end |}.
  intros cur [| | | | |]; fits_cases.
Defined.

(** ** [any]: [None] is nil; what was there before is replaced *)

(** Whether [strconv.ParseFloat] takes a literal. *)
Class Floats := { float_in_range : string -> bool }.

Record any := Any { any_value : option json }.

Definition any_store `{Floats} (cur : any) (v : json) : option any :=
  if numbers_fit float_in_range v
  then Some (Any (match v with JNull => None | _ => Some (Redact.last_members v) end)) else None.

#[export] Instance any_decode `{Floats} : Decode any.
Proof.
  refine {| zero := Any None; store := any_store; fits := numbers_fit float_in_range |}.
  intros cur v. unfold any_store. destruct (numbers_fit float_in_range v); fits_cases.
Defined.

(** ** Slices

    A slice that is not nil is a length into its backing array. An array is stored
    element by element into what the backing array holds, also beyond the length;
    [null] makes the slice nil and the empty array gives it a new backing array. *)
Inductive slice (A : Type) : Type :=
| SNil
| SSlice (backing : list A) (len : nat).
Arguments SNil {A}.
Arguments SSlice {A} backing len.

Definition elements {A} (s : slice A) : list A :=
  match s with SNil => [] | SSlice backing len => take len backing end.

Definition slice_of {A} (xs : list A) : slice A := SSlice xs (length xs).

Section slices.
Context {A : Type} `{Decode A}.

Fixpoint store_elems (cur : list A) (vs : list json) : option (list A) :=
  match vs with
  | [] => Some cur
  | v :: vs' => x ← store (default zero (head cur)) v; xs ← store_elems (tail cur) vs'; Some (x :: xs)
  end.

Definition store_slice (cur : slice A) (v : json) : option (slice A) :=
  match v with
  | JNull => Some SNil
  | JArr [] => Some (SSlice [] 0)
  | JArr vs =>
      backing ← store_elems (match cur with SNil => [] | SSlice b _ => b end) vs;
      Some (SSlice backing (length vs))
  | _ => None
  end.

Definition slice_fits (v : json) : bool :=
  match v with JNull => true | JArr vs => forallb fits vs | _ => false end.

Lemma store_elems_fits cur vs : is_Some (store_elems cur vs) <-> forallb fits vs = true.
Proof.
  revert cur. induction vs as [|v vs IH]; intros cur; cbn [store_elems forallb]; [fits_cases|].
  rewrite andb_true_iff, <- (store_fits (default zero (head cur)) v), <- (IH (tail cur)).
  destruct (store (default zero (head cur)) v) as [x|]; cbn; [|by split; intros []].
  destruct (store_elems (tail cur) vs) as [xs|]; cbn; by split; [|intros []]; try (intros [? ?]; split; eexists).
Qed.

#[export] Instance slice_decode : Decode (slice A).
Proof.
  refine {| zero := SNil; store := store_slice; fits := slice_fits |}.
  intros cur [| | | |vs|]; try fits_cases. cbn [store_slice slice_fits]. destruct vs as [|v vs]; [fits_cases|].
  rewrite <- (store_elems_fits (match cur with SNil => [] | SSlice b _ => b end) (v :: vs)).
  destruct (store_elems _ (v :: vs)); cbn; by split; intros [? ?].
Defined.

(** An array stored into a slice that was nil. *)
Lemma store_elems_new vs xs : Forall2 (fun v x => store zero v = Some x) vs xs -> store_elems [] vs = Some xs.
Proof. induction 1 as [|v x vs xs Hv Hvs IH]; [done|]. cbn. rewrite Hv. cbn. by rewrite IH. Qed.

Lemma store_slice_new vs xs : Forall2 (fun v x => store zero v = Some x) vs xs ->
  store (SNil : slice A) (JArr vs) = Some (slice_of xs).
Proof.
  intros Hvs. pose proof (Forall2_length _ _ _ Hvs) as Hl. cbn. unfold slice_of. destruct Hvs as [|v x vs xs Hv Hvs]; [done|].
  unfold store_slice. rewrite (store_elems_new (v :: vs) (x :: xs)) by by constructor. cbn [mbind option_bind]. by rewrite Hl.
Qed.

End slices.

Lemma elements_slice_of {A} (xs : list A) : elements (slice_of xs) = xs.
Proof. unfold slice_of. cbn. apply firstn_all. Qed.

(** ** Encoding

    What [Marshal] writes for a value of the type, and the values that come back
    as they were: [regular] ones. Their text is as deep as [level] allows. *)
Class Codec (A : Type) `{Decode A} := {
  encode : A -> json;
  regular : A -> Prop;
  level : Z;
  round_trip : forall a, regular a -> store zero (encode a) = Some a;
  encode_utf8 : forall a, regular a -> utf8_json (encode a);
  encode_numbers : forall a, regular a -> numbers_fit is_number (encode a) = true;
  encode_level : forall a, regular a -> nesting (encode a) <= level;
}.

#[export] Instance string_codec : Codec string.
Proof. refine {| encode := JStr; regular := utf8; level := 0 |}; [done|by constructor|done|done]. Defined.

#[export] Instance int_codec : Codec Z.
Proof.
  refine {| encode n := JNum (itoa n); regular := in_int64; level := 0 |}.
  - intros n Hn. cbn. by apply atoi_itoa.
  - constructor.
  - intros n Hn. by apply itoa_is_number.
  - done.
Defined.

#[export] Instance bool_codec : Codec bool.
Proof. refine {| encode := JBool; regular _ := True; level := 0 |}; [done|constructor|done|done]. Defined.

(** A value of an [any] as its sender wrote it. *)
Definition regular_any `{Floats} (a : any) : Prop :=
  match any_value a with
  | None => True
  | Some v => v <> JNull /\ Redact.last_members v = v /\ numbers_fit float_in_range v = true
              /\ utf8_json v /\ numbers_fit is_number v = true /\ nesting v <= 100
  end.

#[export] Instance any_codec `{Floats} : Codec any.
Proof.
  refine {| encode a := default JNull (any_value a); regular := regular_any; level := 100 |};
    intros [[v|]]; cbn; try done; try constructor; intros (Hn & Hl & Hf & Hu & Hi & Hd); try done.
  unfold any_store, id. rewrite Hf. destruct v; [done|..]; by rewrite Hl.
Defined.

Section slice_codec.
Context {A : Type} `{Codec A}.

Definition slice_encode (s : slice A) : json :=
  match s with SNil => JNull | SSlice _ _ => JArr (encode <$> elements s) end.

Definition slice_regular (s : slice A) : Prop := s = SNil \/ exists xs, s = slice_of xs /\ Forall regular xs.

#[export] Instance slice_codec : Codec (slice A).
Proof.
  refine {| encode := slice_encode; regular := slice_regular; level := 1 + Z.max 0 level |}.
  - intros s [->|(xs & -> & Hxs)]; [done|]. unfold slice_encode. rewrite elements_slice_of. cbn [slice_of].
    apply store_slice_new. induction Hxs as [|x xs Hx Hxs IH]; constructor; [by apply round_trip|done].
  - intros s [->|(xs & -> & Hxs)]; [constructor|]. unfold slice_encode. rewrite elements_slice_of. cbn [slice_of].
    constructor. apply Forall_fmap. eapply Forall_impl; [exact Hxs|]. intros x. apply encode_utf8.
  - intros s [->|(xs & -> & Hxs)]; [done|]. unfold slice_encode. rewrite elements_slice_of. cbn [slice_of numbers_fit].
    apply forallb_forall. intros v Hv%list_elem_of_In. apply list_elem_of_fmap in Hv as (x & -> & Hx).
    rewrite Forall_forall in Hxs. by apply encode_numbers, Hxs.
  - intros s [->|(xs & -> & Hxs)]; [cbn; lia|]. unfold slice_encode. rewrite elements_slice_of. cbn [slice_of nesting].
    apply Zplus_le_compat_l, max_bound; [lia|]. apply Forall_fmap. eapply Forall_impl; [exact Hxs|].
    intros x Hx. cbn. pose proof (encode_level x Hx). lia.
Defined.
End slice_codec.

(** ** Structs

    A member goes to the field of its name, exactly or else up to case folding; a
    member that names no field is skipped. [f_omit] says when [Marshal] leaves a
    field out ([omitempty]). *)

Record field (R : Type) := Field {
  f_name : string;
  f_type : Type;
  f_decode : Decode f_type;
  f_codec : Codec f_type;
  f_get : R -> f_type;
  f_set : f_type -> R -> R;
  f_omit : f_type -> bool;
}.
Arguments Field {R} f_name {f_type f_decode f_codec} f_get f_set f_omit.
Arguments f_name {R}. Arguments f_type {R}. Arguments f_decode {R}. Arguments f_codec {R}. Arguments f_get {R}. Arguments f_set {R}. Arguments f_omit {R}.
#[export] Existing Instance f_decode.
#[export] Existing Instance f_codec.

(** The lower case of ASCII letters, and the letter a rune folds to. *)
Definition low (b : Z) : Z := if in_range 65 90 b then b + 32 else b.
Definition folded (r : Z) : Z := if r <? 128 then low r else if r =? 8490 then 107 else 115.
Definition fold_name (s : string) : list Z := (fun c => low (byte_of c)) <$> String.list_ascii_of_string s.

Section fields.
Context {R : Type}.

Definition find_field (fs : list (field R)) (key : string) : option (field R) :=
  match List.find (fun f => bool_decide (f_name f = key)) fs with
  | Some f => Some f
  | None => List.find (fun f => equal_fold_ascii key (f_name f)) fs
  end.

Definition store_field (f : field R) (r : R) (v : json) : option R :=
  x ← store (f_get f r) v; Some (f_set f x r).

Definition store_member (fs : list (field R)) (r : R) (kv : string * json) : option R :=
  match find_field fs kv.1 with Some f => store_field f r kv.2 | None => Some r end.

Fixpoint store_members (fs : list (field R)) (r : R) (ms : list (string * json)) : option R :=
  match ms with
  | [] => Some r
  | kv :: ms' => r' ← store_member fs r kv; store_members fs r' ms'
  end.

Definition store_struct (fs : list (field R)) (r : R) (v : json) : option R :=
  match v with JNull => Some r | JObj ms => store_members fs r ms | _ => None end.

Definition member_fits (fs : list (field R)) (kv : string * json) : bool :=
  match find_field fs kv.1 with Some f => fits (A := f_type f) kv.2 | None => true end.

Definition struct_fits (fs : list (field R)) (v : json) : bool :=
  match v with JNull => true | JObj ms => forallb (member_fits fs) ms | _ => false end.

Lemma store_members_fits fs ms r : is_Some (store_members fs r ms) <-> forallb (member_fits fs) ms = true.
Proof.
  revert r. induction ms as [|kv ms IH]; intros r; cbn [store_members forallb]; [fits_cases|].
  rewrite andb_true_iff. unfold store_member, member_fits at 1. destruct (find_field fs kv.1) as [f|].
  - unfold store_field. rewrite <- (store_fits (f_get f r) kv.2).
    destruct (store (f_get f r) kv.2) as [x|]; cbn; [|split; [by intros []|by intros [[] _]]].
    rewrite (IH (f_set f x r)). split; [|by intros [_ ?]]. intros ?. by split; [eexists|].
  - cbn. rewrite (IH r). split; [done|by intros [_ ?]].
Qed.

Lemma store_struct_fits fs r v : is_Some (store_struct fs r v) <-> struct_fits fs v = true.
Proof. destruct v; cbn [store_struct struct_fits]; try fits_cases. apply store_members_fits. Qed.

(** A field is read back as it was set, and the others stay. *)
Record lawful (fs : list (field R)) : Prop := {
  get_set : forall i f, fs !! i = Some f -> forall x r, f_get f (f_set f x r) = x;
  get_other : forall i j f g, i <> j -> fs !! i = Some f -> fs !! j = Some g -> forall x r, f_get g (f_set f x r) = f_get g r;
  names_apart : NoDup ((fun f => fold_name (f_name f)) <$> fs);
  extensional : forall r r', (forall i f, fs !! i = Some f -> f_get f r = f_get f r') -> r = r';
  names_ascii : Forall (fun f => all_ascii (f_name f) = true) fs;
}.

End fields.

(** A struct type: its zero value and its fields. *)
Class Struct (R : Type) := {
  blank : R;
  fields : list (field R);
  struct_lawful : lawful fields;
  blank_zero : forall i f, fields !! i = Some f -> f_get f blank = zero;
}.

#[export] Instance struct_decode {R} `{Struct R} : Decode R.
Proof.
  refine {| zero := blank; store := store_struct fields; fits := struct_fits fields |}.
  apply store_struct_fits.
Defined.

(** Storing one value after another into the same variable. *)
Fixpoint store_all {A} `{Decode A} (cur : A) (vs : list json) : option A :=
  match vs with [] => Some cur | v :: vs' => x ← store cur v; store_all x vs' end.

Lemma equal_fold_folded s t : equal_fold_ascii s t = true -> fold_name t = folded <$> (runes s).*1.
Proof.
  unfold equal_fold_ascii, fold_name. rewrite andb_true_iff, Nat.eqb_eq.
  generalize ((runes s).*1) as rs. intros rs. generalize (String.list_ascii_of_string t) as cs. intros cs. revert rs.
  induction cs as [|c cs IH]; intros [|r rs] [Hl Hf]; try done. rewrite !fmap_cons in *. cbn [zip forallb] in Hf.
  apply andb_true_iff in Hf as [Hc Hf]. injection Hl as Hl. f_equal; [|by apply IH].
  unfold fold_eq_rune in Hc. cbn [fst snd] in Hc. unfold folded, low. pose proof (byte_of_range c).
  destruct (Z.ltb_spec r 128); [symmetry; by apply Z.eqb_eq|].
  apply orb_true_iff in Hc as [Hc|Hc]; apply andb_true_iff in Hc as [->%Z.eqb_eq Hc%Z.eqb_eq]; done.
Qed.

Lemma equal_fold_refl s : all_ascii s = true -> equal_fold_ascii s s = true.
Proof.
  intros Hs. unfold equal_fold_ascii. rewrite runes_ascii, <- list_fmap_compose by done. rewrite !length_fmap, Nat.eqb_refl.
  cbn [andb]. unfold all_ascii in Hs. revert Hs. generalize (String.list_ascii_of_string s) as cs. intros cs.
  induction cs as [|c cs IH]; [done|]. cbn [forallb]. rewrite andb_true_iff, !fmap_cons. intros [Hc Hcs].
  cbn [zip forallb compose fst snd]. apply andb_true_iff. split; [|by apply IH]. unfold fold_eq_rune. cbn [fst snd].
  rewrite Hc. by apply Z.eqb_eq.
Qed.

Section lawful.
Context {R : Type} (fs : list (field R)) (Hfs : lawful fs).

Lemma name_folds f : f ∈ fs -> equal_fold_ascii (f_name f) (f_name f) = true.
Proof. intros Hf. apply equal_fold_refl. pose proof (names_ascii _ Hfs) as Ha. rewrite Forall_forall in Ha. by apply Ha. Qed.

Lemma find_field_spec key i f : fs !! i = Some f ->
  equal_fold_ascii key (f_name f) = true -> find_field fs key = Some f.
Proof.
  intros Hi Hf. assert (forall g, g ∈ fs -> equal_fold_ascii key (f_name g) = true -> g = f) as Huniq.
  { intros g (j & Hj)%list_elem_of_lookup Hg. apply equal_fold_folded in Hf, Hg.
    assert (i = j) as <-; [|congruence]. eapply (NoDup_lookup _ i j (fold_name (f_name f)) (names_apart _ Hfs)).
    - by rewrite list_lookup_fmap, Hi.
    - rewrite list_lookup_fmap, Hj. cbn. congruence. }
  unfold find_field. destruct (List.find _ fs) as [g|] eqn:E.
  - apply List.find_some in E as [Hin%list_elem_of_In Hg%bool_decide_eq_true]. f_equal. apply Huniq; [done|].
    rewrite <- Hg. by apply name_folds.
  - destruct (List.find (fun f => equal_fold_ascii key (f_name f)) fs) as [g|] eqn:E2.
    + apply List.find_some in E2 as [Hin%list_elem_of_In Hg]. f_equal. by apply Huniq.
    + pose proof (List.find_none _ _ E2 f) as Hn. cbn in Hn. rewrite Hn in Hf; [done|]. apply list_elem_of_In, list_elem_of_lookup. by exists i.
Qed.

Lemma find_field_Some key f : find_field fs key = Some f -> f ∈ fs /\ equal_fold_ascii key (f_name f) = true.
Proof.
  unfold find_field. destruct (List.find _ fs) as [g|] eqn:E.
  - intros [= ->]. apply List.find_some in E as [Hin%list_elem_of_In Hg%bool_decide_eq_true]. split; [done|].
    rewrite <- Hg. by apply name_folds.
  - intros [Hin%list_elem_of_In Hg]%List.find_some. done.
Qed.

(** Each field of the result is what the members of its own name, in their order,
    make of it; all else has no part in it. *)
Lemma store_members_field ms r r' i f : store_members fs r ms = Some r' -> fs !! i = Some f ->
  store_all (f_get f r) (field_values (f_name f) ms) = Some (f_get f r').
Proof.
  intros Hs Hi. revert r Hs. unfold field_values. induction ms as [|kv ms IH]; intros r; cbn [store_members].
  { by intros [= ->]. }
  intros (r1 & Hr1 & Hs)%bind_Some. specialize (IH r1 Hs). rewrite filter_cons. unfold store_member in Hr1.
  destruct (decide (equal_fold_ascii kv.1 (f_name f) = true)) as [He|He].
  - rewrite (find_field_spec kv.1 i f Hi He) in Hr1. unfold store_field in Hr1. apply bind_Some in Hr1 as (x & Hx & [= <-]).
    rewrite fmap_cons. cbn [store_all]. rewrite Hx. cbn. by rewrite <- IH, (get_set _ Hfs i).
  - rewrite <- IH. f_equal. destruct (find_field fs kv.1) as [g|] eqn:Eg; [|by injection Hr1 as ->].
    apply find_field_Some in Eg as [(j & Hj)%list_elem_of_lookup Hg].
    unfold store_field in Hr1. apply bind_Some in Hr1 as (x & Hx & [= <-]). symmetry. apply (get_other _ Hfs j i); [|done|done].
    intros ->. rewrite Hi in Hj. injection Hj as <-. done.
Qed.

End lawful.

(** What [Unmarshal] into a struct makes of the members of an object. *)
Lemma unmarshal_struct {R} `{Struct R} (ms : list (string * json)) :
  match store blank (JObj ms) with
  | Some r => forall i f, fields !! i = Some f -> store_all (f_get f blank) (field_values (f_name f) ms) = Some (f_get f r)
  | None => exists kv f, kv ∈ ms /\ find_field fields kv.1 = Some f /\ fits (A := f_type f) kv.2 = false
  end.
Proof.
  cbn. destruct (store_members fields blank ms) as [r|] eqn:E.
  - intros i f Hi. by apply (store_members_field fields struct_lawful ms blank r i).
  - assert (forallb (member_fits fields) ms = false) as Hf.
    { apply not_true_iff_false. rewrite <- (store_members_fits fields ms blank). rewrite E. by intros [? ?]. }
    clear E. induction ms as [|kv ms IH]; [done|]. cbn [forallb] in Hf. apply andb_false_iff in Hf as [Hf|Hf].
    + unfold member_fits in Hf. destruct (find_field fields kv.1) as [f|] eqn:Ef; [|done]. exists kv, f. by split; [left|].
    + destruct (IH Hf) as (kv' & f & Hin & Hr). exists kv', f. by split; [right|].
Qed.

(** *** The members of a struct *)

Section struct_codec.
Context {R : Type} `{Struct R}.

Definition encode_field (r : R) (f : field R) : option (string * json) :=
  if f_omit f (f_get f r) then None else Some (f_name f, encode (f_get f r)).

Definition encode_members (r : R) : list (string * json) := omap (encode_field r) fields.

(** Every field is regular, and one left out is at its zero value. *)
Definition regular_struct (r : R) : Prop :=
  Forall (fun f => regular (f_get f r) /\ (f_omit f (f_get f r) = true -> f_get f r = zero)) fields.

(** The members a field of [r] has in the encoding. *)
Definition field_member (r : R) (f : field R) : list json :=
  if f_omit f (f_get f r) then [] else [encode (f_get f r)].

Lemma field_values_encode r i f : fields !! i = Some f -> field_values (f_name f) (encode_members r) = field_member r f.
Proof.
  pose proof struct_lawful as Hl. unfold encode_members. intros Hi.
  pose proof (names_apart _ Hl) as Hnd.
  assert (forall j g, fields !! j = Some g -> equal_fold_ascii (f_name g) (f_name f) = true -> j = i) as Hsame.
  { intros j g Hj Hg. assert (equal_fold_ascii (f_name g) (f_name g) = true) as Hgg.
    { apply (name_folds _ Hl), list_elem_of_lookup. by exists j. }
    apply equal_fold_folded in Hg, Hgg. eapply (NoDup_lookup _ j i (fold_name (f_name g)) Hnd).
    - by rewrite list_lookup_fmap, Hj.
    - rewrite list_lookup_fmap, Hi. cbn. congruence. }
  assert (equal_fold_ascii (f_name f) (f_name f) = true) as Hff.
  { apply (name_folds _ Hl), list_elem_of_lookup. by exists i. }
  clear Hnd Hl. revert i Hi Hsame. generalize (fields : list (field R)) as fs.
  induction fs as [|g fs IH]; intros i Hi Hsame; [done|]. destruct i as [|i].
  - injection Hi as ->. cbn [omap list_omap]. unfold field_member at 1, encode_field at 1.
    assert (field_values (f_name f) (omap (encode_field r) fs) = []) as Hrest.
    { unfold field_values. rewrite filter_none; [done|]. apply Forall_forall. intros kv (g & Hg & Hkv)%list_elem_of_omap Hf.
      unfold encode_field in Hkv. destruct (f_omit g _); [done|]. injection Hkv as <-. cbn in Hf.
      apply list_elem_of_lookup in Hg as (j & Hj). by specialize (Hsame (S j) g Hj Hf). }
    destruct (f_omit f (f_get f r)); [done|]. unfold field_values in *. rewrite filter_cons, decide_True by done.
    rewrite fmap_cons. by rewrite Hrest.
  - cbn [omap list_omap]. assert (equal_fold_ascii (f_name g) (f_name f) <> true) as Hg.
    { intros Hg. by specialize (Hsame O g eq_refl Hg). }
    assert (field_values (f_name f) (omap (encode_field r) fs) = field_member r f) as <-.
    { apply (IH i Hi). intros j h Hj Hh. specialize (Hsame (S j) h Hj Hh). lia. }
    unfold encode_field at 1. destruct (f_omit g _); [done|]. unfold field_values. by rewrite filter_cons, decide_False.
Qed.

(** A regular value is decoded from any members among which each field has just
    the one it is encoded as: their order and other members do not matter. *)
Lemma struct_decodes ms r : regular_struct r ->
  (forall i f, fields !! i = Some f -> field_values (f_name f) ms = field_member r f) ->
  store blank (JObj ms) = Some r.
Proof.
  intros Hr Hms. unfold regular_struct in Hr. rewrite Forall_lookup in Hr.
  pose proof (unmarshal_struct ms) as Hu. destruct (store blank (JObj ms)) as [r'|].
  - f_equal. apply (extensional _ struct_lawful). intros i f Hi. specialize (Hu i f Hi). rewrite (Hms i f Hi) in Hu.
    destruct (Hr i f Hi) as [Hreg Hom]. rewrite (blank_zero i f Hi) in Hu. unfold field_member in Hu.
    destruct (f_omit f (f_get f r)); cbn [store_all] in Hu.
    + rewrite Hom by done. by injection Hu as ->.
    + rewrite round_trip in Hu by done. cbn in Hu. by injection Hu as ->.
  - destruct Hu as (kv & f & Hin & Hf & Hfit). exfalso.
    apply (find_field_Some _ struct_lawful) in Hf as [(i & Hi)%list_elem_of_lookup Hf]. destruct (Hr i f Hi) as [Hreg _].
    assert (kv.2 ∈ field_values (f_name f) ms) as Hv.
    { unfold field_values. apply list_elem_of_fmap. exists kv. split; [done|]. by apply list_elem_of_filter. }
    rewrite (Hms i f Hi) in Hv. unfold field_member in Hv. destruct (f_omit f (f_get f r)); [by apply not_elem_of_nil in Hv|].
    apply list_elem_of_singleton in Hv. rewrite Hv in Hfit.
    assert (fits (A := f_type f) (encode (f_get f r)) = true) as Ht; [|congruence].
    apply (store_fits (zero : f_type f)). rewrite round_trip by done. by eexists.
Qed.

(** Members that name no field. *)
Definition foreign (ms : list (string * json)) : Prop :=
  Forall (fun kv => forall i f, fields !! i = Some f -> equal_fold_ascii kv.1 (f_name f) = false) ms.

Lemma encoding_decodes ms extra r : regular_struct r -> foreign extra -> Permutation ms (encode_members r ++ extra) ->
  store blank (JObj ms) = Some r.
Proof.
  intros Hr He Hp. apply struct_decodes; [done|]. intros i f Hi.
  assert (Permutation (field_values (f_name f) ms) (field_member r f)) as Hperm.
  { unfold field_values. rewrite Hp, filter_app, fmap_app. rewrite <- (field_values_encode r i f Hi).
    rewrite (filter_none _ extra), app_nil_r; [done|].
    eapply Forall_impl; [exact He|]. intros kv Hkv. by rewrite (Hkv i f Hi). }
  unfold field_member in *. destruct (f_omit f (f_get f r)).
  - by apply Permutation_nil_r in Hperm.
  - by apply Permutation_singleton_r in Hperm.
Qed.

Definition struct_level : Z := 1 + foldr Z.max 0 ((fun f => @level (f_type f) (f_decode f) (f_codec f)) <$> fields).

#[export] Instance struct_codec : Codec R.
Proof.
  refine {| encode r := JObj (encode_members r); regular := regular_struct; level := struct_level |}.
  - intros r Hr. apply (encoding_decodes _ []); [done|constructor|by rewrite app_nil_r].
  - intros r Hr. constructor. apply Forall_forall. intros kv (f & Hf & Hkv)%list_elem_of_omap.
    unfold encode_field in Hkv. destruct (f_omit f _); [done|]. injection Hkv as <-. cbn.
    unfold regular_struct in Hr. rewrite Forall_forall in Hr. destruct (Hr f Hf). split; [|by apply encode_utf8].
    pose proof (names_ascii _ struct_lawful) as Ha. rewrite Forall_forall in Ha. by apply utf8_ascii, Ha.
  - intros r Hr. cbn [numbers_fit]. apply forallb_forall. intros kv Hin%list_elem_of_In.
    apply list_elem_of_omap in Hin as (f & Hf & Hkv). unfold encode_field in Hkv. destruct (f_omit f _); [done|].
    injection Hkv as <-. unfold regular_struct in Hr. rewrite Forall_forall in Hr. by apply encode_numbers, Hr.
  - intros r Hr. cbn [nesting]. unfold struct_level. apply Zplus_le_compat_l, max_bound.
    { pose proof (max_nonneg (fun x : Z => x) ((fun f : field R => level (A := f_type f)) <$> fields)) as Hm.
      by rewrite List.map_id in Hm. }
    apply Forall_forall. intros kv (f & Hf & Hkv)%list_elem_of_omap.
    unfold encode_field in Hkv. destruct (f_omit f _); [done|]. injection Hkv as <-. cbn [snd].
    unfold regular_struct in Hr. rewrite Forall_forall in Hr. destruct (Hr f Hf) as [Hreg _].
    etrans; [by apply encode_level|]. clear -Hf. induction (fields : list (field R)) as [|g fs IH]; [by apply not_elem_of_nil in Hf|].
    rewrite fmap_cons. cbn [foldr]. apply elem_of_cons in Hf as [->|Hf]; [lia|]. specialize (IH Hf). lia.
Defined.

End struct_codec.

(** ... also with its members in another order and others among them. *)
Lemma unmarshal_any_order {R} `{Struct R} (r : R) ms extra :
  regular_struct r -> foreign extra -> Permutation ms (encode_members r ++ extra) ->
  Forall (fun kv => utf8 kv.1 /\ utf8_json kv.2 /\ numbers_fit is_number kv.2 = true /\ nesting kv.2 <= 9999) extra ->
  struct_level <= 10000 ->
  unmarshal (json_print (JObj ms)) = Some r.
Proof.
  intros Hr He Hp Hex Hl. unfold unmarshal. pose proof (encode_utf8 r Hr) as Hu. pose proof (encode_numbers r Hr) as Hn.
  pose proof (encode_level r Hr) as Hd. cbn in Hu, Hn, Hd. inversion Hu as [| | | | |? Hm]; subst.
  assert (Forall (fun kv => utf8 kv.1 /\ utf8_json kv.2) ms) as Hum.
  { rewrite Hp. apply Forall_app. split; [done|]. eapply Forall_impl; [exact Hex|]. by intros kv (? & ? & _). }
  rewrite parse_json_print.
  - cbn [mbind option_bind]. rewrite clean_utf8 by by constructor. exact (encoding_decodes ms extra r Hr He Hp).
  - cbn [numbers_fit]. rewrite forallb_forall in Hn |- *. intros kv Hin%list_elem_of_In. rewrite Hp in Hin.
    apply elem_of_app in Hin as [Hin|Hin]; [by apply Hn, list_elem_of_In|]. rewrite Forall_forall in Hex. by apply Hex.
  - cbn [nesting] in *. apply (Zplus_le_compat_l _ 9999 1), max_bound; [lia|].
    assert (foldr Z.max 0 (List.map (fun kv => nesting kv.2) (encode_members r)) <= 9999) as Hm' by lia.
    apply max_forall in Hm'. rewrite Hp. apply Forall_app. split; [done|]. eapply Forall_impl; [exact Hex|]. by intros kv (_ & _ & _ & ?).
Qed.
