(* ===== verification/Api.v ===== *)
(** Requests to the cloud API ([api.go]): the URL, how a response is classified,
    which errors are transient, and the polling loop. *)

From S2P Require Import Prelude Lists GoStrings GoUrl Redact.
From Stdlib Require Import Ascii.
Open Scope Z_scope.

Import Redact.

Module Api.

Definition apiBase : string := "https://cloudaccess.svc.ui.com/teleport".

(** An error of a request: an [*apiError] with its status, 0 without a response,
    the message of its error and the context's error if it wraps that, or any other
    error by its message. *)
Inductive request_err : Type :=
| apiError (StatusCode : Z) (message : string) (wraps : option string)
| plainError (message : string).

(** [Error], and what [Unwrap] leads to: the context's error, if any. *)
Definition Error (e : request_err) : string :=
  match e with apiError _ message _ | plainError message => message end.

Definition Unwrap (e : request_err) : option string :=
  match e with apiError _ _ wraps => wraps | plainError _ => None end.

Definition transient (StatusCode : Z) : bool :=
  (StatusCode =? 0) || (500 <=? StatusCode) || (StatusCode =? 429).

Definition isTransientAPIError (e : request_err) : bool :=
  match e with
  | apiError status _ _ => transient status
  | plainError _ => false
  end.

(** ** apiRequestContext *)

Definition request_url (baseURL path token : string) : string :=
  let reqURL := (baseURL ++ path)%string in
  if bool_decide (token = EmptyString) then reqURL
  else
    let sep := if contains reqURL "?" then "&"%string else "?"%string in
    (reqURL ++ sep ++ "token=" ++ query_escape token)%string.

(** How the exchange of [client.Do] ends: an error, with its text, and the
    context's error if that has ended by then; or a response with its status
    code, its status line's text and its body. *)
Inductive exchange_end : Type :=
| DoFailed (message : string) (ctx_error : option string)
| Responded (StatusCode : Z) (Status : string) (data : string).

Section request.
(** The decoded response and its decoder, [json.Unmarshal] into the struct. *)
Context {apiResponse : Type} (unmarshal : string -> result string apiResponse).

(** A response with nothing but its status, or a decoded one. *)
Inductive api_reply : Type :=
| StatusOnly (StatusCode : Z)
| Decoded (r : apiResponse).

(** What follows once the request is built. *)
Definition finish_request (method path token : string) (ended : exchange_end)
  : result request_err api_reply :=
  match ended with
  | DoFailed _ (Some ctxErr) =>
      Err (apiError 0 ("api " ++ method ++ " " ++ path ++ " request canceled: " ++ ctxErr)%string (Some ctxErr))
  | DoFailed message None =>
      Err (apiError 0 ("api " ++ method ++ " " ++ path ++ " request failed: "
                       ++ redactAPIError message token)%string None)
  | Responded status statusText data =>
      if 400 <=? status then
        Err (apiError status ("api " ++ method ++ " " ++ path ++ ": " ++ statusText
                              ++ " (response body omitted)")%string None)
      else if (status =? 202) || bool_decide (data = EmptyString) then Ok (StatusOnly status)
      else match unmarshal data with
      | Err e => Err (plainError e)
      | Ok r => Ok (Decoded r)
      end
  end.

End request.

(** ** pollForResponseWithContext *)

Definition maxConsecutivePollErrors : Z := 5.

Section poll.
(** A poll's response and its [response_type]. *)
Context {response : Type} (ResponseType : response -> string).

(** One iteration: the context's error when it ends during the wait, or what the
    request returns. *)
Inductive poll_turn : Type :=
| WaitCancelled (ctx_error : string)
| Polled (r : result request_err response).

Inductive poll_err : Type :=
| PollCancelled (ctx_error : string)
| PollFailed (e : request_err).

(** [left] iterations of the loop remain. [None]: more turns are to come. *)
Fixpoint poll_loop (want : string) (left : nat) (consecutiveErrors : Z) (turns : list poll_turn)
  : option (result poll_err (option response)) :=
  match left with
  | O => Some (Ok None)
  | S left' =>
      match turns with
      | [] => None
      | WaitCancelled e :: _ => Some (Err (PollCancelled e))
      | Polled (Err e) :: turns' =>
          if negb (isTransientAPIError e) then Some (Err (PollFailed e))
          else
            let n := consecutiveErrors +i 1 in
            if maxConsecutivePollErrors <=? n then Some (Err (PollFailed e))
            else poll_loop want left' n turns'
      | Polled (Ok poll) :: turns' =>
          if bool_decide (ResponseType poll = want) then Some (Ok (Some poll))
          else poll_loop want left' 0 turns'
      end
  end.

(** A [maxTries] that is not positive makes no iteration. *)
Definition pollForResponseWithContext (want : string) (maxTries : Z) (turns : list poll_turn)
  : option (result poll_err (option response)) :=
  poll_loop want (Z.to_nat maxTries) 0 turns.

(** ** Specification *)

(** The transient failures at the end of what has been polled, newest first. *)
Fixpoint failing (rev_turns : list poll_turn) : Z :=
  match rev_turns with
  | Polled (Err _) :: rest => 1 + failing rest
  | _ => 0
  end.

(** What a turn decides, after the turns [past]. *)
Definition decides (want : string) (past : list poll_turn) (tr : poll_turn)
  : option (result poll_err (option response)) :=
  match tr with
  | WaitCancelled e => Some (Err (PollCancelled e))
  | Polled (Err e) =>
      if isTransientAPIError e && (failing (rev past) <? 4) then None else Some (Err (PollFailed e))
  | Polled (Ok poll) => if decide (ResponseType poll = want) then Some (Ok (Some poll)) else None
  end.

(** The first of the turns that decides, from [past] on. *)
Fixpoint first_decision (want : string) (past turns : list poll_turn)
  : option (result poll_err (option response)) :=
  match turns with
  | [] => None
  | tr :: turns' =>
      match decides want past tr with
      | Some r => Some r
      | None => first_decision want (past ++ [tr]) turns'
      end
  end.

Lemma poll_loop_spec want left past turns :
  (left <= length turns)%nat -> 0 <= failing (rev past) < 5 ->
  poll_loop want left (failing (rev past)) turns
  = Some (default (Ok None) (first_decision want past (take left turns))).
Proof.
  revert past turns. induction left as [|left IH]; intros past turns Hl Hf; [done|].
  destruct turns as [|tr turns]; [cbn in Hl; lia|]. cbn [take first_decision poll_loop] in *.
  cbn [length] in Hl. destruct tr as [e|[poll|e]]; cbn [decides]; [done|..].
  - case_bool_decide as Hw; [by rewrite decide_True|]. rewrite decide_False by done.
    rewrite <- IH; rewrite ?rev_app_distr; cbn; [done|lia|lia].
  - destruct (isTransientAPIError e); cbn [negb andb]; [|done].
    assert (failing (rev (past ++ [Polled (Err e)])) = failing (rev past) + 1) as Hs
      by (rewrite rev_app_distr; cbn; lia).
    unfold maxConsecutivePollErrors. rewrite wrap64_id by (unfold in_int64, int64_min, int64_max; lia).
    destruct (Z.ltb_spec (failing (rev past)) 4), (Z.leb_spec 5 (failing (rev past) + 1)); try lia; [|done].
    rewrite <- Hs. apply IH; [lia|]. rewrite Hs. lia.
Qed.

(** A run of [n] failures at the end of what was polled. *)
Lemma failing_run past : 0 <= failing (rev past)
  /\ exists pre fails, past = pre ++ fails /\ Z.of_nat (length fails) = failing (rev past)
     /\ Forall (fun tr => exists e, tr = Polled (Err e)) fails.
Proof.
  induction past as [|tr past IH] using rev_ind; [split; [done|]; by exists [], []|].
  rewrite rev_app_distr. cbn [rev app failing]. destruct IH as [H0 (pre & fails & -> & Hl & Hf)].
  destruct tr as [e|[p|e]]; try (split; [lia|]; eexists _, []; by rewrite app_nil_r).
  split; [lia|]. exists pre, (fails ++ [Polled (Err e)]). split_and!.
  - by rewrite app_assoc.
  - rewrite length_app. cbn. lia.
  - apply Forall_app. split; [done|]. constructor; [by exists e|constructor].
Qed.

Lemma first_decision_spec want past turns r :
  first_decision want past turns = Some r ->
  exists pre tr post, turns = pre ++ tr :: post /\ decides want (past ++ pre) tr = Some r
    /\ forall p1 x p2, pre = p1 ++ x :: p2 -> decides want (past ++ p1) x = None.
Proof.
  revert past. induction turns as [|tr turns IH]; intros past; cbn [first_decision]; [done|].
  destruct (decides want past tr) as [r'|] eqn:E.
  - intros [= ->]. exists [], tr, turns. rewrite app_nil_r. split_and!; [done|done|].
    intros p1 x p2 Hp. by destruct p1.
  - intros (pre & tr' & post & -> & Hd & Hn)%IH. rewrite <- app_assoc in Hd.
    exists (tr :: pre), tr', post. split_and!; [done|done|].
    intros [|y p1] x p2 [= -> ->]; [by rewrite app_nil_r|].
    specialize (Hn p1 x p2 eq_refl). by rewrite <- app_assoc in Hn.
Qed.

(** [C34] The polling loop. Given its [maxTries] turns it always returns: what the
    first deciding turn decides, or nothing when none does. A turn decides if the
    wait is cancelled, if the error is permanent or the fifth transient one in a
    row, or if the response is of the wanted type. So a response returned has
    that type, and a transient error is returned only after four failures
    straight before it. *)
Theorem poll_spec (want : string) (maxTries : Z) (turns : list poll_turn) :
  maxTries <= Z.of_nat (length turns) ->
  exists r, pollForResponseWithContext want maxTries turns = Some r
    /\ r = default (Ok None) (first_decision want [] (take (Z.to_nat maxTries) turns))
    /\ (forall p, r = Ok (Some p) -> ResponseType p = want)
    /\ (forall e, r = Err (PollFailed e) -> isTransientAPIError e = true ->
        exists pre fails post, turns = pre ++ fails ++ Polled (Err e) :: post /\ (4 <= length fails)%nat
          /\ Forall (fun tr => exists e, tr = Polled (Err e)) fails).
Proof.
  intros Hlen. exists (default (Ok None) (first_decision want [] (take (Z.to_nat maxTries) turns))).
  split; [apply (poll_loop_spec want _ [] turns); cbn; lia|]. split; [done|].
  destruct (first_decision want [] (take (Z.to_nat maxTries) turns)) as [r|] eqn:E; cbn [default]; unfold id; [|done].
  apply first_decision_spec in E as (pre & tr & post & Htake & Hd & _). cbn [app] in Hd.
  assert (turns = pre ++ tr :: (post ++ drop (Z.to_nat maxTries) turns)) as Hturns.
  { rewrite <- (take_drop (Z.to_nat maxTries) turns) at 1. rewrite Htake, <- app_assoc. done. }
  split.
  - intros p ->. destruct tr as [e|[p'|e]]; cbn [decides] in Hd; [done|..].
    + case_decide; [|done]. by injection Hd as ->.
    + by destruct (isTransientAPIError e && _).
  - intros e -> He. destruct tr as [e'|[p'|e']]; cbn [decides] in Hd; [done|by case_decide|].
    destruct (isTransientAPIError e' && (failing (rev pre) <? 4)) eqn:Ef; [done|]. injection Hd as ->.
    rewrite He in Ef. cbn [andb] in Ef. apply Z.ltb_ge in Ef.
    destruct (failing_run pre) as [_ (p1 & fails & -> & Hl & Hf)].
    exists p1, fails. exists (post ++ drop (Z.to_nat maxTries) turns).
    split; [by rewrite app_assoc|]. split; [lia|done].
Qed.

End poll.

(** How a request ends. It succeeds only with a status below 400, and its
    error is worth a retry exactly when there was no response at all or the
    status is 429 or from 500 up; and the message of a failed transport does not
    show a token that the marker cannot spell, nor its escaped form. *)
Theorem request_classified {R : Type} (unmarshal : string -> result string R)
    (method path token : string) (ended : exchange_end) :
  match finish_request unmarshal method path token ended with
  | Ok _ => exists status text data, ended = Responded status text data /\ status < 400
  | Err e =>
      (isTransientAPIError e = true <->
        (exists m c, ended = DoFailed m c)
        \/ exists status text data, ended = Responded status text data /\ (500 <= status \/ status = 429))
      /\ forall m, ended = DoFailed m None -> hideable token ->
         exists shown, e = apiError 0 ("api " ++ method ++ " " ++ path ++ " request failed: " ++ shown)%string None
           /\ hidden token shown
  end.
Proof.
  destruct ended as [m [c|]|status text data]; cbn [finish_request].
  - split; [|done]. split; [intros _; left; by eexists _, _|done].
  - split; [split; [intros _; left; by eexists _, _|done]|]. intros m' [= <-] Ht. eexists. split; [reflexivity|].
    exact (redact_one_hides token m Ht).
  - assert (forall st, 400 <= st -> transient st = true <-> 500 <= st \/ st = 429) as Htr.
    { intros st Hst. unfold transient. rewrite !orb_true_iff, !Z.eqb_eq, Z.leb_le. lia. }
    destruct (Z.leb_spec 400 status) as [Hs|Hs].
    + split; [|done]. cbn [isTransientAPIError]. rewrite Htr by done. split; [intros ?; right; by eexists _, _, _|].
      intros [(? & ? & ?)|(? & ? & ? & [= <- <- <-] & ?)]; done.
    + destruct ((status =? 202) || _); [by eexists _, _, _|].
      destruct (unmarshal data) as [r|e]; [by eexists _, _, _|]. split; [|done]. cbn. split; [done|].
      intros [(? & ? & ?)|(? & ? & ? & [= <- <- <-] & ?)]; [done|lia].
Qed.

(** Two outages, then the response; it would also have come after the cut. *)
Lemma poll_spec_witness :
  let fail := Polled (Err (apiError 503 "down" None)) in
  let turns := [fail; Polled (Ok "PENDING"); fail; Polled (Ok "ACCESS_GRANTED")]%string in
  pollForResponseWithContext id "ACCESS_GRANTED" 4 turns = Some (Ok (Some "ACCESS_GRANTED"%string))
  /\ exists r, pollForResponseWithContext id "ACCESS_GRANTED" 4 turns = Some r.
Proof.
  cbn zeta. split; [by vm_compute|].
  destruct (poll_spec id "ACCESS_GRANTED" 4 [Polled (Err (apiError 503 "down" None)); Polled (Ok "PENDING"%string);
    Polled (Err (apiError 503 "down" None)); Polled (Ok "ACCESS_GRANTED"%string)]) as (r & Hr & _); [cbn; lia|].
  by exists r.
Defined.

End Api.
