(* ===== verification/Invite.v ===== *)
(** Invites and identifiers ([api.go]): reading an invite, the random client id,
    the device token made from an invite, and the metadata request. *)

From S2P Require Import Prelude GoStrings Utf8 GoNet GoCodec GoUrl Redact Api.
From Stdlib Require Import Ascii.
Open Scope Z_scope.

Import Redact Api.

Module Invite.

(** ** normalizeInviteSecret *)

Inductive invite_err : Type :=
| NotTheLink
| NotOneComponent
| NotUUID.

Definition hyphen_at (i : nat) : bool := bool_decide (i ∈ [8; 13; 18; 23]%nat).

Definition hex_rune (r : Z) : bool := in_range 48 57 r || in_range 97 102 r || in_range 65 70 r.

(** The loop over the runes; [i] is the offset of the next one. *)
Fixpoint uuid_runes (i : nat) (rs : list (Z * string)) : bool :=
  match rs with
  | [] => true
  | (r, text) :: rs' => (hyphen_at i || hex_rune r) && uuid_runes (i + String.length text) rs'
  end.

(** What follows the extraction of the path. The value is ASCII by then, so
    [ToLower] works byte by byte. *)
Definition check_uuid (value : string) : result invite_err string :=
  if negb (strlen value =? 36)
     || existsb (fun i => negb (bool_decide (char_at value i = Some "-"%char))) [8; 13; 18; 23]%nat
  then Err NotUUID
  else if negb (uuid_runes 0 (runes value)) then Err NotUUID
  else Ok (map_bytes lower_ascii_byte value).

Definition normalizeInviteSecret (value : string) : result invite_err string :=
  let value := trim_space value in
  if has_prefix "https://" value || has_prefix "http://" value then
    match parse_url value with
    | None => Err NotTheLink
    | Some u =>
        if negb (equal_fold_ascii (hostname u) "teleport.ui.link") then Err NotTheLink
        else
          let value := trim_bytes ["/"%char] (escaped_path u) in
          if has_byte "/" value || negb (bool_decide (raw_query u = EmptyString))
             || negb (bool_decide (fragment u = EmptyString))
          then Err NotOneComponent
          else check_uuid value
    end
  else check_uuid value.

(** ** Identifiers and tokens *)

(** [b] is what the random source gave; a failing one is a panic. *)
Definition randomUUID (random : option (list Z)) : option string :=
  b ← random;
  let b := at_byte 8 (fun x => Z.lor (Z.land x 63) 128) (at_byte 6 (fun x => Z.lor (Z.land x 15) 64) b) in
  let part i j := hex_encode (take (j - i) (drop i b)) in
  Some (part 0 4 ++ "-" ++ part 4 6 ++ "-" ++ part 6 8 ++ "-" ++ part 8 10 ++ "-" ++ part 10 16)%nat%string.

(** scrypt with the program's salt and costs, and SHA-512 of its output. *)
Class Kdf := { scrypt_key : string -> option (list Z); sha512 : list Z -> list Z }.

Definition trim_padding (s : string) : string :=
  String.string_of_list_ascii (reverse (drop_while (Ascii.eqb "=") (reverse (String.list_ascii_of_string s)))).

Definition secretToToken `{Kdf} (secret : string) : option string :=
  dk ← scrypt_key secret; Some (trim_padding (b64_encode URLEncoding (sha512 dk))).

(** ** fetchMetadataContext *)

Definition metadata_url (token : string) : string :=
  (apiBase ++ "/metadata?token=" ++ query_escape token)%string.

Section metadata.
Context {metadataResponse : Type} (unmarshal : string -> result string metadataResponse).

Inductive metadata_err : Type :=
| RequestCanceled (ctx_error : string)
| RequestFailed (message : string)
| ReadFailed (message : string)
| BadStatus (Status : string)
| NotDecoded (message : string).

(** How the exchange ends; [data] is the body, or the error of reading it. *)
Inductive metadata_end : Type :=
| MetaDoFailed (message : string) (ctx_error : option string)
| MetaResponded (StatusCode : Z) (Status : string) (data : result string string).

Definition fetchMetadataContext (token : string) (ended : metadata_end) : result metadata_err metadataResponse :=
  match ended with
  | MetaDoFailed _ (Some ctxErr) => Err (RequestCanceled ctxErr)
  | MetaDoFailed message None => Err (RequestFailed (redactAPIError message token))
  | MetaResponded _ _ (Err e) => Err (ReadFailed e)
  | MetaResponded status statusText (Ok data) =>
      if 400 <=? status then Err (BadStatus statusText)
      else match unmarshal data with
      | Err e => Err (NotDecoded e)
      | Ok out => Ok out
      end
  end.

End metadata.

(** ** UUIDs as text *)

(** 36 bytes, hyphens where they belong and digits of the given kind elsewhere. *)
Definition uuid_text (digit : ascii -> bool) (s : string) : Prop :=
  String.length s = 36%nat
  /\ forall i c, String.list_ascii_of_string s !! i = Some c -> if hyphen_at i then c = "-"%char else digit c = true.

Lemma hex_rune_hex c : hex_rune (byte_of c) = is_hex c.
Proof. all_ascii_cases c. Qed.

Lemma char_at_list s i : char_at s i = String.list_ascii_of_string s !! i.
Proof. unfold char_at. revert i. induction s as [|c s IH]; intros [|i]; [done..|]. apply IH. Qed.

Lemma uuid_runes_sound i s :
  (forall k c, String.list_ascii_of_string s !! k = Some c -> hyphen_at (i + k) = true -> c = "-"%char) ->
  uuid_runes i (runes s) = true <->
  (forall k c, String.list_ascii_of_string s !! k = Some c -> if hyphen_at (i + k) then c = "-"%char else is_hex c = true).
Proof.
  revert i. induction s as [|c s IH]; intros i Hhy.
  { by split; [intros _ [|k] c|]. }
  assert (forall k a, String.list_ascii_of_string s !! k = Some a -> hyphen_at (S i + k) = true -> a = "-"%char) as Hhy'.
  { intros k a Hk. replace (S i + k)%nat with (i + S k)%nat by lia. by apply Hhy. }
  pose proof (Hhy 0%nat c eq_refl) as H0. rewrite Nat.add_0_r in H0.
  destruct (Z.lt_ge_cases (byte_of c) 128) as [Hc|Hc].
  - rewrite runes_cons_ascii by done. cbn [uuid_runes String.length chr]. rewrite Nat.add_1_r, andb_true_iff, IH, hex_rune_hex by done.
    split.
    + intros [Hi Hs] [|k] a; cbn; [intros [= <-]; rewrite Nat.add_0_r|rewrite Nat.add_succ_r; apply Hs].
      destruct (hyphen_at i); [by apply H0|done].
    + intros H. split; [|intros k a Hk; replace (S i + k)%nat with (i + S k)%nat by lia; by apply H].
      specialize (H 0%nat c eq_refl). rewrite Nat.add_0_r in H. by destruct (hyphen_at i).
  - assert (is_hex c = false) as Hhex by (revert Hc; clear; destruct c as [[] [] [] [] [] [] [] []]; vm_compute; done).
    assert (hyphen_at i = false) as Hi.
    { apply not_true_iff_false. intros ->%H0. by vm_compute in Hc. }
    split; [|intros H; specialize (H 0%nat c eq_refl); rewrite Nat.add_0_r, Hi in H; congruence].
    unfold runes. cbn [runes_from]. pose proof (decode_rune_high c s Hc) as Hr.
    destruct (decode_rune (String c s)) as [r w]. cbn [fst] in Hr. cbn [uuid_runes]. rewrite Hi. cbn [orb].
    unfold hex_rune, in_range. zbool; cbn; try lia; done.
Qed.

Lemma check_uuid_spec value s :
  check_uuid value = Ok s <-> uuid_text is_hex value /\ s = map_bytes lower_ascii_byte value.
Proof.
  unfold check_uuid, uuid_text, strlen. set (bs := String.list_ascii_of_string value).
  destruct (Z.eqb_spec (Z.of_nat (String.length value)) 36) as [Hl|Hl]; cbn [negb orb].
  2:{ split; [done|]. intros [[H _] _]. lia. }
  destruct (existsb _ _) eqn:Eh.
  - split; [done|]. intros [[_ H] _]. apply existsb_exists in Eh as (i & Hi & Hn).
    apply negb_true_iff, bool_decide_eq_false in Hn. destruct Hn. rewrite char_at_list. fold bs.
    assert (hyphen_at i = true) as Hy by (apply bool_decide_eq_true; by apply list_elem_of_In).
    destruct (bs !! i) as [c|] eqn:E.
    + specialize (H i c E). rewrite Hy in H. by rewrite H.
    + apply lookup_ge_None in E. unfold bs in E. apply bool_decide_eq_true in Hy.
      assert (length (String.list_ascii_of_string value) = String.length value) as Hlen
        by (clear; induction value; cbn; congruence).
      rewrite Hlen in E. apply list_elem_of_In in Hy. cbn in Hy. lia.
  - assert (forall k c, bs !! k = Some c -> hyphen_at (0 + k) = true -> c = "-"%char) as Hhy.
    { intros k c Hk Hy%bool_decide_eq_true.
      assert (negb (bool_decide (char_at value k = Some "-"%char)) = false) as Hn.
      { apply not_true_iff_false. intros Ht. enough (existsb (fun i => negb (bool_decide (char_at value i = Some "-"%char))) [8; 13; 18; 23]%nat = true) by congruence.
        apply existsb_exists. exists k. split; [by apply list_elem_of_In|done]. }
      apply negb_false_iff, bool_decide_eq_true in Hn. rewrite char_at_list in Hn. fold bs in Hn. congruence. }
    pose proof (uuid_runes_sound 0 value Hhy) as Hr. fold bs in Hr. cbn [Nat.add] in Hr.
    destruct (uuid_runes 0 (runes value)); cbn [negb].
    + destruct Hr as [Hr _]. split; [intros [= <-]; split; [split; [lia|by apply Hr]|done]|by intros [_ ->]].
    + split; [done|]. intros [[_ H] _]. enough (false = true) by done. by apply Hr.
Qed.

Definition uuid_byte (digit : ascii -> bool) (c : ascii) : bool := digit c || Ascii.eqb c "-".

Lemma uuid_text_bytes digit s : uuid_text digit s -> all_bytes (uuid_byte digit) s = true.
Proof.
  intros [_ H]. unfold all_bytes. apply List.forallb_forall. intros c Hc%list_elem_of_In.
  apply list_elem_of_lookup_1 in Hc as [i Hi]. specialize (H i c Hi). unfold uuid_byte.
  destruct (hyphen_at i); [by rewrite H, orb_true_r|by rewrite H].
Qed.

Lemma map_bytes_list f s : String.list_ascii_of_string (map_bytes f s) = f <$> String.list_ascii_of_string s.
Proof. apply String.list_ascii_of_string_of_list_ascii. Qed.

Lemma string_length_list s : length (String.list_ascii_of_string s) = String.length s.
Proof. induction s; cbn; congruence. Qed.

Lemma uuid_text_lower s : uuid_text is_hex s -> uuid_text is_lower_hex (map_bytes lower_ascii_byte s).
Proof.
  intros [Hl H]. split.
  - by rewrite <- string_length_list, map_bytes_list, length_fmap, string_length_list.
  - intros i c. rewrite map_bytes_list, list_lookup_fmap. intros (a & Ha & ->)%fmap_Some. specialize (H i a Ha).
    destruct (hyphen_at i); [by rewrite H|]. revert H. clear. destruct a as [[] [] [] [] [] [] [] []]; vm_compute; done.
Qed.

Lemma uuid_text_weaken s : uuid_text is_lower_hex s -> uuid_text is_hex s.
Proof.
  intros [Hl H]. split; [done|]. intros i c Hi. specialize (H i c Hi). destruct (hyphen_at i); [done|].
  revert H. clear. destruct c as [[] [] [] [] [] [] [] []]; vm_compute; done.
Qed.

Lemma lower_id s : uuid_text is_lower_hex s -> map_bytes lower_ascii_byte s = s.
Proof.
  intros H%uuid_text_bytes. unfold map_bytes, all_bytes in *. rewrite <- (String.string_of_list_ascii_of_string s) at 2. f_equal.
  rewrite List.forallb_forall in H. rewrite <- (list_fmap_id (String.list_ascii_of_string s)) at 2.
  apply list_fmap_ext. intros i c Hi. apply list_elem_of_lookup_2, list_elem_of_In, H in Hi.
  revert Hi. clear. destruct c as [[] [] [] [] [] [] [] []]; vm_compute; done.
Qed.

Lemma uuid_not_link s : uuid_text is_hex s -> has_prefix "https://" s || has_prefix "http://" s = false.
Proof.
  intros [Hl H]. destruct s as [|c s]; [done|]. specialize (H 0%nat c eq_refl). cbn [has_prefix].
  assert (Ascii.eqb "h" c = false) as ->; [|done]. apply Ascii.eqb_neq. intros <-. by vm_compute in H.
Qed.

(** A text of visible ASCII is left alone by [TrimSpace]. *)
Definition visible (c : ascii) : bool := (33 <=? byte_of c) && (byte_of c <=? 126).

Lemma drop_while_none {A} (p : A -> bool) l : Forall (fun x => p x = false) l -> drop_while p l = l.
Proof. destruct 1 as [|x l Hx]; [done|]. cbn. by rewrite Hx. Qed.

Lemma visible_ascii s : all_bytes visible s = true -> all_ascii s = true.
Proof.
  unfold all_bytes, all_ascii. rewrite !forallb_forall. intros H c Hc. specialize (H c Hc). unfold visible in H. lia.
Qed.

Lemma trim_space_id s : all_bytes visible s = true -> trim_space s = s.
Proof.
  intros H. unfold trim_space. rewrite runes_ascii by by apply visible_ascii.
  assert (Forall (fun p : Z * string => is_space p.1 = false) ((fun c => (byte_of c, chr c)) <$> String.list_ascii_of_string s)) as Hf.
  { apply Forall_fmap, Forall_forall. intros c Hc. unfold all_bytes in H. rewrite List.forallb_forall in H.
    apply list_elem_of_In, H in Hc. cbn. revert Hc. clear. destruct c as [[] [] [] [] [] [] [] []]; vm_compute; done. }
  rewrite (drop_while_none _ _ Hf), drop_while_none by by apply Forall_reverse.
  rewrite reverse_involutive. clear. unfold concat_bytes. induction s as [|c s IH]; [done|].
  cbn [String.list_ascii_of_string]. rewrite !fmap_cons, concat_empty_cons, IH. done.
Qed.

Lemma uuid_visible s : uuid_text is_hex s -> all_bytes visible s = true.
Proof.
  intros H%uuid_text_bytes. eapply all_bytes_weaken, H. intros c. all_ascii_cases c.
Qed.

Lemma uuid_normal s : uuid_text is_hex s -> normalizeInviteSecret s = Ok (map_bytes lower_ascii_byte s).
Proof.
  intros H. unfold normalizeInviteSecret. rewrite trim_space_id by by apply uuid_visible.
  rewrite uuid_not_link by done. by apply check_uuid_spec.
Qed.

(** The slashes around a path are trimmed. *)
Lemma trim_slashes (l r : nat) s : has_byte "/" s = false ->
  trim_bytes ["/"%char] (String.string_of_list_ascii (replicate l "/"%char) ++ s ++ String.string_of_list_ascii (replicate r "/"%char)) = s.
Proof.
  intros H%has_byte_false. unfold trim_bytes. rewrite !list_ascii_append, !String.list_ascii_of_string_of_list_ascii.
  set (p := fun c => bool_decide (c ∈ ["/"%char])). set (bs := String.list_ascii_of_string s) in *.
  assert (Forall (fun c => p c = false) bs) as Hbs.
  { apply Forall_forall. intros c Hc. apply bool_decide_eq_false. intros ->%list_elem_of_singleton. done. }
  assert (forall n k, drop_while p (replicate n "/"%char ++ k) = drop_while p k) as Hd.
  { intros n k. induction n as [|n IH]; [done|]. cbn [replicate app drop_while]. by assert (p "/"%char = true) as -> by done. }
  rewrite Hd. assert (drop_while p (reverse (drop_while p (bs ++ replicate r "/"%char))) = reverse bs) as ->.
  { destruct bs as [|b bs'] eqn:E.
    - cbn [app]. pose proof (Hd r []) as H0. rewrite app_nil_r in H0. by rewrite H0.
    - cbn [app drop_while]. pose proof Hbs as [-> _]%Forall_cons.
      change (b :: bs' ++ replicate r "/"%char) with ((b :: bs') ++ replicate r "/"%char).
      rewrite reverse_app, reverse_replicate, Hd. apply drop_while_none. by apply Forall_reverse. }
  rewrite reverse_involutive. apply String.string_of_list_ascii_of_string.
Qed.

Lemma link_normal sch s (slash : bool) :
  sch = "http"%string \/ sch = "https"%string -> uuid_text is_hex s ->
  normalizeInviteSecret (sch ++ "://teleport.ui.link/" ++ s ++ (if slash then "/" else ""))
  = Ok (map_bytes lower_ascii_byte s).
Proof.
  intros Hsch Hs. pose proof (uuid_visible _ Hs) as Hv. set (p := (s ++ (if slash then "/" else ""))%string).
  assert (all_bytes path_byte p = true) as Hp.
  { unfold p. rewrite all_bytes_append. apply andb_true_iff. split; [|by destruct slash].
    eapply all_bytes_weaken, uuid_text_bytes, Hs. intros c. all_ascii_cases c. }
  assert ((sch ++ "://teleport.ui.link/" ++ p)%string = (sch ++ ":" ++ "//" ++ "teleport.ui.link" ++ String "/" (p ++ ""))%string) as Heq
    by by rewrite (append_empty_r p).
  unfold normalizeInviteSecret. rewrite trim_space_id.
  2:{ rewrite !all_bytes_append. assert (all_bytes visible p = true) as ->; [|by destruct Hsch as [-> | ->]].
      unfold p. rewrite all_bytes_append, Hv. by destruct slash. }
  assert (has_prefix "https://" (sch ++ "://teleport.ui.link/" ++ p) || has_prefix "http://" (sch ++ "://teleport.ui.link/" ++ p) = true)
    as -> by by destruct Hsch as [-> | ->].
  rewrite Heq, (parse_plain_url sch "teleport.ui.link" p EmptyString EmptyString) by (done || constructor).
  rewrite hostname_plain, escaped_path_plain by done.
  assert (trim_bytes ["/"%char] (String "/" p) = s) as ->.
  { unfold p. assert (has_byte "/" s = false) as Hno.
    { apply (no_byte_of (uuid_byte is_hex)); [by apply uuid_text_bytes|done]. }
    destruct slash; [apply (trim_slashes 1 1 s Hno)|apply (trim_slashes 1 0 s Hno)]. }
  assert (equal_fold_ascii "teleport.ui.link" "teleport.ui.link" = true) as -> by by vm_compute.
  rewrite (no_byte_of (uuid_byte is_hex)) by (by apply uuid_text_bytes || done).
  cbn [negb raw_query fragment plain_url orb]. rewrite bool_decide_true by done. by apply check_uuid_spec.
Qed.

Lemma check_uuid_normal w s : check_uuid w = Ok s -> uuid_text is_lower_hex s.
Proof. intros [Hw ->]%check_uuid_spec. by apply uuid_text_lower. Qed.

Lemma invite_normal value s : normalizeInviteSecret value = Ok s -> uuid_text is_lower_hex s /\ s <> EmptyString.
Proof.
  intros Hs. assert (uuid_text is_lower_hex s) as Hu; [|by split; [|intros ->; by destruct Hu]].
  unfold normalizeInviteSecret in Hs. destruct (_ || _); [|by apply check_uuid_normal in Hs].
  destruct (parse_url _); [|done]. destruct (negb _); [done|]. destruct (_ || _); [done|]. by apply check_uuid_normal in Hs.
Qed.

(** [C32] An invite is read in one way. What is accepted is a UUID in lower case,
    which is accepted again as itself; it stands in the text, either alone or as
    the only component of the path of a URL of teleport.ui.link without query or
    fragment; and every UUID is accepted in any case, alone or in a link, over
    http or https, with or without a final slash, always with the same
    result. *)
Theorem invite_spec (value : string) :
  (forall s, normalizeInviteSecret value = Ok s ->
     uuid_text is_lower_hex s /\ normalizeInviteSecret s = Ok s
     /\ exists w, uuid_text is_hex w /\ s = map_bytes lower_ascii_byte w
          /\ (w = trim_space value
              \/ exists u, parse_url (trim_space value) = Some u
                  /\ equal_fold_ascii (hostname u) "teleport.ui.link" = true
                  /\ w = trim_bytes ["/"%char] (escaped_path u)
                  /\ raw_query u = EmptyString /\ fragment u = EmptyString))
  /\ (uuid_text is_hex value ->
      Forall (fun v => normalizeInviteSecret v = Ok (map_bytes lower_ascii_byte value))
        [value; "https://teleport.ui.link/" ++ value; "http://teleport.ui.link/" ++ value;
         "https://teleport.ui.link/" ++ value ++ "/"]%string).
Proof.
  split.
  - intros s Hs. assert (exists w, check_uuid w = Ok s /\ (w = trim_space value \/ exists u, parse_url (trim_space value) = Some u
        /\ equal_fold_ascii (hostname u) "teleport.ui.link" = true /\ w = trim_bytes ["/"%char] (escaped_path u)
        /\ raw_query u = EmptyString /\ fragment u = EmptyString)) as (w & Hw & Hfrom).
    { unfold normalizeInviteSecret in Hs. destruct (_ || _); [|by exists (trim_space value); split; [|left]].
      destruct (parse_url (trim_space value)) as [u|]; [|done].
      destruct (equal_fold_ascii (hostname u) "teleport.ui.link") eqn:Eh; [|done]. cbn [negb] in Hs.
      destruct (_ || _) eqn:E; [done|]. apply orb_false_iff in E as [E Hf]. apply orb_false_iff in E as [_ Hq].
      apply negb_false_iff, bool_decide_eq_true in Hf, Hq.
      exists (trim_bytes ["/"%char] (escaped_path u)). split; [done|]. right. by exists u. }
    apply check_uuid_spec in Hw as [Hw ->]. pose proof (uuid_text_lower _ Hw) as Hlow. split; [done|]. split.
    + rewrite uuid_normal by by apply uuid_text_weaken. by rewrite lower_id.
    + by exists w.
  - intros H. pose proof (link_normal "https" value false (or_intror eq_refl) H) as H1.
    pose proof (link_normal "http" value false (or_introl eq_refl) H) as H2.
    pose proof (link_normal "https" value true (or_intror eq_refl) H) as H3.
    cbn [String.append] in *. rewrite append_empty_r in H1, H2.
    repeat constructor; [by apply uuid_normal|done..].
Qed.

(** ** Random identifiers *)

Lemma version_byte b : is_byte b ->
  is_byte (Z.lor (Z.land b 15) 64) /\ hex_digit (Z.lor (Z.land b 15) 64 / 16) = "4"%char.
Proof.
  intros Hb. apply (byte_cases (fun b => (0 <=? Z.lor (Z.land b 15) 64) && (Z.lor (Z.land b 15) 64 <? 256)
    && Ascii.eqb (hex_digit (Z.lor (Z.land b 15) 64 / 16)) "4")) in Hb; [|by vm_compute].
  apply andb_true_iff in Hb as [Hb ?%Ascii.eqb_eq]. unfold is_byte. split; [lia|done].
Qed.

Lemma variant_byte b : is_byte b ->
  is_byte (Z.lor (Z.land b 63) 128) /\ has_byte (hex_digit (Z.lor (Z.land b 63) 128 / 16)) "89ab" = true.
Proof.
  intros Hb. apply (byte_cases (fun b => (0 <=? Z.lor (Z.land b 63) 128) && (Z.lor (Z.land b 63) 128 <? 256)
    && has_byte (hex_digit (Z.lor (Z.land b 63) 128 / 16)) "89ab")) in Hb; [|by vm_compute].
  apply andb_true_iff in Hb as [Hb ?]. unfold is_byte. split; [lia|done].
Qed.

(** The client id is a random UUID as RFC 9562 has it, version 4 and variant
    10, whatever the random bytes; in particular it reads as an invite does,
    unchanged. *)
Theorem random_uuid_v4 (r : list Z) :
  length r = 16%nat -> Forall is_byte r ->
  exists s v, randomUUID (Some r) = Some s
    /\ uuid_text is_lower_hex s /\ normalizeInviteSecret s = Ok s
    /\ char_at s 14 = Some "4"%char /\ char_at s 19 = Some v /\ has_byte v "89ab" = true.
Proof.
  intros Hl Hr. assert (exists s v, randomUUID (Some r) = Some s /\ uuid_text is_lower_hex s
    /\ char_at s 14 = Some "4"%char /\ char_at s 19 = Some v /\ has_byte v "89ab" = true) as (s & v & Hs & Hu & H).
  { do 16 (destruct r as [|? r]; [done|]). destruct r; [|done]. repeat (apply Forall_cons in Hr as [? Hr]).
    destruct (version_byte z5) as [Hv6 Hv]; [done|]. destruct (variant_byte z7) as [Hv8 Hvar]; [done|].
    eexists _, _. split; [reflexivity|]. split; [|split; [by rewrite <- Hv|by split]].
    split; [reflexivity|]. intros i c Hi.
    do 36 (destruct i as [|i];
      [apply (inj Some) in Hi as <-;
       match goal with |- context [hyphen_at ?k] => let b := eval vm_compute in (hyphen_at k) in change (hyphen_at k) with b end;
       cbv iota; first [reflexivity|by apply hex_digit_lower, byte_split]|]).
    done. }
  exists s, v. split_and!; try done; try apply H. rewrite uuid_normal by by apply uuid_text_weaken. by rewrite lower_id.
Qed.

(** ** Tokens *)

Section kdf.
Context `{Kdf}.

Class KdfLaws := { sha512_64 : forall m, length (sha512 m) = 64%nat /\ Forall is_byte (sha512 m) }.

(** What is left of the text of [3k + 1] bytes when its padding is trimmed. *)
Lemma url_text_unreserved v : 0 <= v < 64 ->
  unreserved (b64_char URLEncoding v) = true /\ Ascii.eqb "=" (b64_char URLEncoding v) = false.
Proof.
  intros Hv. assert (forallb (fun v => unreserved (b64_char URLEncoding v)
    && negb (Ascii.eqb "=" (b64_char URLEncoding v))) (seqZ 0 64) = true) as Hall by by vm_compute.
  rewrite List.forallb_forall in Hall. specialize (Hall v ltac:(apply list_elem_of_In, elem_of_seqZ; lia)).
  by apply andb_true_iff in Hall as [? ?%negb_true_iff].
Qed.

Lemma padded_one bs : Forall is_byte bs -> Z.of_nat (length bs) mod 3 = 1 ->
  exists t, b64_encode URLEncoding bs = (t ++ "==")%string /\ all_bytes unreserved t = true /\ has_byte "=" t = false.
Proof.
  assert (forall v, 0 <= v < 64 -> unreserved (b64_char URLEncoding v) = true) as Hu by (intros; by apply url_text_unreserved).
  induction bs as [|a|a b|a b c rest IH] using three_ind; intros Hbs Hl; try done.
  - apply Forall_cons in Hbs as [Ha _]. exists (String (b64_char URLEncoding (a / 4)) (chr (b64_char URLEncoding (a mod 4 * 16)))).
    assert (all_bytes unreserved (String (b64_char URLEncoding (a / 4)) (chr (b64_char URLEncoding (a mod 4 * 16)))) = true) as Hall.
    { unfold chr. rewrite !all_bytes_cons, !Hu by sextets. done. }
    split_and!; [done|done|]. by apply (no_byte_of unreserved).
  - repeat (apply Forall_cons in Hbs as [? Hbs]). destruct (IH Hbs) as (t & Ht & Hall & _).
    { revert Hl. cbn [length]. rewrite !Nat2Z.inj_succ. intros. sextets. }
    cbn [b64_encode]. rewrite Ht. eexists (String _ (String _ (String _ (String _ t)))). split; [reflexivity|].
    assert (all_bytes unreserved (String (b64_char URLEncoding (a / 4)) (String (b64_char URLEncoding (a mod 4 * 16 + b / 16))
      (String (b64_char URLEncoding (b mod 16 * 4 + c / 64)) (String (b64_char URLEncoding (c mod 64)) t)))) = true) as Ha.
    { rewrite !all_bytes_cons, !Hu, Hall by sextets. done. }
    split; [done|]. by apply (no_byte_of unreserved).
Qed.

Lemma trim_padding_two t : has_byte "=" t = false -> trim_padding (t ++ "==") = t.
Proof.
  intros Ht%has_byte_false. unfold trim_padding. rewrite list_ascii_append, reverse_app.
  change (reverse (String.list_ascii_of_string "==")) with ["="; "="]%char. cbn [app drop_while Ascii.eqb Bool.eqb].
  rewrite drop_while_none.
  - rewrite reverse_involutive. apply String.string_of_list_ascii_of_string.
  - apply Forall_reverse, Forall_forall. intros c Hc. apply Ascii.eqb_neq. by intros <-.
Qed.

(** The device token stands for the digest of the invite and is safe in a
    URL: 86 characters that need no escaping, and two invites share a token
    exactly when their digests are equal. *)
Theorem token_spec `{!KdfLaws} (secret token : string) (dk : list Z) :
  scrypt_key secret = Some dk -> secretToToken secret = Some token ->
  strlen token = 86 /\ all_bytes unreserved token = true /\ query_escape token = token
  /\ forall secret' dk', scrypt_key secret' = Some dk' ->
       (secretToToken secret' = Some token <-> sha512 dk' = sha512 dk).
Proof.
  intros Hk Ht. unfold secretToToken in Ht. rewrite Hk in Ht. cbn [mbind option_bind] in Ht. apply (inj Some) in Ht as <-.
  destruct (sha512_64 dk) as [Hl Hb]. destruct (padded_one (sha512 dk) Hb) as (t & Ht & Hu & Hp); [by rewrite Hl|].
  pose proof (b64_encode_length URLEncoding (sha512 dk)) as Hlen. rewrite Hl, Ht, strlen_append in Hlen.
  rewrite Ht, trim_padding_two by done. split_and!.
  - change (strlen "==") with 2 in Hlen. change (4 * ((Z.of_nat 64 + 2) / 3)) with 88 in Hlen. lia.
  - done.
  - clear -Hu. unfold query_escape. induction t as [|c t IH]; [done|]. rewrite all_bytes_cons in Hu.
    apply andb_true_iff in Hu as [Hc Hu]. rewrite escape_cons, IH by done.
    change (escape_byte encodeQueryComponent c) with (query_escape_byte c). by rewrite query_escape_byte_eq, Hc.
  - intros secret' dk' Hk'. unfold secretToToken. rewrite Hk'. cbn [mbind option_bind].
    destruct (sha512_64 dk') as [Hl' Hb']. destruct (padded_one (sha512 dk') Hb') as (t' & Ht' & _ & Hp'); [by rewrite Hl'|].
    rewrite Ht', trim_padding_two by done. split.
    + intros [= ->]. apply (b64_encode_inj URLEncoding); [by right|done..|congruence].
    + intros Heq. rewrite Heq, Ht in Ht'. f_equal. apply (f_equal trim_padding) in Ht'.
      by rewrite !trim_padding_two in Ht'.
Qed.

End kdf.

(** ** The token in a URL *)

Lemma query_escape_query_bytes s : all_bytes query_byte (query_escape s) = true /\ has_byte "&" (query_escape s) = false
  /\ has_byte ";" (query_escape s) = false.
Proof.
  assert (all_bytes (fun b => unreserved b || Ascii.eqb b "+" || Ascii.eqb b "%") (query_escape s) = true) as H.
  { unfold all_bytes. apply List.forallb_forall. intros b Hb%list_elem_of_In%query_escape_bytes.
    destruct Hb as [-> |[-> | ->]]; [done..|]. done. }
  split_and!; [|by apply (no_byte_of _ _ _ H); vm_compute..].
  eapply all_bytes_weaken, H. intros c. all_ascii_cases c.
Qed.

Lemma query_of_token sch h p token :
  query_get (query (plain_url sch h p ("token=" ++ query_escape token))) "token" = token.
Proof.
  destruct (query_escape_query_bytes token) as (_ & Hamp & Hsemi).
  assert (forall c, c ∈ ["&"; ";"]%char -> has_byte c ("token=" ++ query_escape token) = false) as Hno.
  { intros c Hc. rewrite has_byte_append. repeat (apply elem_of_cons in Hc as [-> |Hc]); [by rewrite Hamp|by rewrite Hsemi|].
    by apply not_elem_of_nil in Hc. }
  unfold query. cbn [raw_query plain_url].
  assert (count_byte "&" ("token=" ++ query_escape token) = 0%nat) as ->.
  { unfold count_byte. apply length_zero_iff_nil. destruct (filter _ _) as [|c l] eqn:E; [done|]. exfalso.
    specialize (Hno "&"%char ltac:(by left)). apply has_byte_false in Hno. apply Hno.
    assert (c ∈ filter (fun a => a = "&"%char) (String.list_ascii_of_string ("token=" ++ query_escape token))) as Hc
      by (rewrite E; by left).
    by apply list_elem_of_filter in Hc as [-> Hc]. }
  cbn [Nat.ltb Nat.leb]. rewrite split_byte_none by (apply Hno; by left). cbn [omap list_omap].
  unfold query_pair. rewrite Hno by (right; by left). rewrite bool_decide_false by done.
  change ("token=" ++ query_escape token)%string with ("token" ++ String "=" (query_escape token))%string.
  rewrite cut_or_all_mid by done.
  assert (unescape encodeQueryComponent "token" = Some "token"%string) as -> by reflexivity.
  cbn [mbind option_bind]. unfold query_escape. rewrite unescape_escape by by right. cbn [mbind option_bind].
  unfold query_get. done.
Qed.

(** A request reaches the place it names, and its token arrives unaltered.
    Whatever bytes the token has, the URL of a request parses to the API's host
    over https and to the path asked for, and the receiver reads the token back
    from it; nothing in a token can add a parameter, or change host or path. *)
Theorem request_url_round_trip (p token : string) :
  all_bytes path_byte p = true ->
  exists u, parse_url (request_url apiBase (String "/" p) token) = Some u
    /\ scheme u = "https"%string /\ hostname u = "cloudaccess.svc.ui.com"%string
    /\ path u = ("/teleport/" ++ p)%string /\ fragment u = EmptyString
    /\ query_get (query u) "token" = token
    /\ (token <> EmptyString -> p = "metadata"%string -> request_url apiBase (String "/" p) token = metadata_url token).
Proof.
  intros Hp. set (h := "cloudaccess.svc.ui.com"%string). set (t := if bool_decide (token = EmptyString) then EmptyString else
    String "?" ("token=" ++ query_escape token)). set (q := if bool_decide (token = EmptyString) then EmptyString else
    ("token=" ++ query_escape token)%string).
  assert (request_url apiBase (String "/" p) token = ("https" ++ ":" ++ "//" ++ h ++ String "/" (("teleport/" ++ p) ++ t))%string) as Heq.
  { unfold request_url, t. case_bool_decide; [by rewrite append_empty_r|].
    assert (contains (apiBase ++ String "/" p) "?" = false) as ->; [|by rewrite !append_assoc].
    apply not_true_iff_false. intros (l & r & Hc)%contains_spec.
    assert (has_byte "?" (apiBase ++ String "/" p) = false) as Hno.
    { rewrite has_byte_append. change (String "/" p) with ("/" ++ p)%string. rewrite has_byte_append.
      by rewrite (no_byte_of path_byte _ _ Hp). }
    rewrite Hc in Hno. change ("?" ++ r)%string with (String "?" r) in Hno. by rewrite has_byte_mid in Hno. }
  exists (plain_url "https" h ("teleport/" ++ p) q). split_and!; try done.
  - rewrite Heq. apply parse_plain_url; [by right|done|by rewrite all_bytes_append, Hp|].
    unfold t, q. case_bool_decide; [constructor|]. constructor; [done|].
    destruct (query_escape_query_bytes token) as [Hq _]. by rewrite all_bytes_append, Hq.
  - unfold q. case_bool_decide as Ht; [by rewrite Ht|apply query_of_token].
  - intros Ht ->. unfold metadata_url, request_url. rewrite bool_decide_false by done. done.
Qed.

(** *** Concrete runs *)

Example invite_link :
  normalizeInviteSecret " HTTPS" = Err NotUUID
  /\ normalizeInviteSecret "https://Teleport.UI.link/01234567-89AB-4def-8012-3456789abcde/ "
     = Ok "01234567-89ab-4def-8012-3456789abcde"%string
  /\ normalizeInviteSecret "https://example.com/01234567-89ab-4def-8012-3456789abcde" = Err NotTheLink
  /\ normalizeInviteSecret "https://teleport.ui.link/a/01234567-89ab-4def-8012-3456789abcde" = Err NotOneComponent
  /\ normalizeInviteSecret "https://teleport.ui.link/01234567-89ab-4def-8012-3456789abcde?x=1" = Err NotOneComponent.
Proof. by vm_compute. Qed.

Lemma random_uuid_v4_witness :
  exists s, randomUUID (Some (replicate 16 255)) = Some s /\ normalizeInviteSecret s = Ok s
    /\ s = "ffffffff-ffff-4fff-bfff-ffffffffffff"%string.
Proof.
  destruct (random_uuid_v4 (replicate 16 255)) as (s & v & Hs & _ & Hn & _);
    [done|by apply Forall_replicate; unfold is_byte; lia|].
  exists s. split_and!; [done..|]. vm_compute in Hs. by injection Hs as <-.
Defined.

(** A digest that is its input's first bytes. *)
#[local] Instance toy_kdf : Kdf :=
  {| scrypt_key s := Some (byte_of <$> String.list_ascii_of_string s);
     sha512 m := (fun b => b mod 256) <$> take 64 (m ++ replicate 64 0) |}.
#[local] Instance toy_kdf_laws : KdfLaws.
Proof.
  constructor. intros m. split.
  - unfold sha512, toy_kdf. rewrite length_fmap, length_take, length_app, length_replicate. lia.
  - apply Forall_fmap, Forall_forall. intros b _. unfold is_byte. apply Z.mod_pos_bound. lia.
Qed.

Lemma token_spec_witness :
  exists token dk, secretToToken "ab" = Some token /\ strlen token = 86 /\ query_escape token = token
    /\ (secretToToken "ac" = Some token <-> sha512 [97; 99] = sha512 dk).
Proof.
  destruct (token_spec "ab" (default EmptyString (secretToToken "ab")) [97; 98]) as (Hl & _ & Hq & H);
    [by vm_compute..|].
  exists (default EmptyString (secretToToken "ab")), [97; 98]. split_and!; [by vm_compute|exact Hl|exact Hq|].
  apply (H "ac"%string [97; 99]). by vm_compute.
Defined.

Lemma request_url_round_trip_witness :
  exists u, parse_url (request_url apiBase "/abc" "t&x=1 #") = Some u /\ hostname u = "cloudaccess.svc.ui.com"%string
    /\ query_get (query u) "token" = "t&x=1 #"%string.
Proof.
  destruct (request_url_round_trip "abc" "t&x=1 #") as (u & Hu & _ & Hh & _ & _ & Hq & _); [by vm_compute|].
  by exists u.
Defined.

End Invite.
