(* ===== verification/Session.v ===== *)
(** The session file ([session.go]): writing it so that neither a crash nor a
    power failure leaves a damaged file or shows the credentials, and reading it
    back. *)

From S2P Require Import Prelude Lists GoStrings Utf8 GoJson JsonPrint.
From Stdlib Require Import Ascii.
Open Scope Z_scope.

Module Session.

(** ** The file's text

    [saved_at] is the text of [SavedAt], which [time.Time]'s own methods write
    and read: [format_time], [None] when it has no such text, and [parse_time]. *)

Record pairedSession (T : Type) := { SessionToken : string; SessionSecret : string; SavedAt : T }.
Arguments SessionToken {T}. Arguments SessionSecret {T}. Arguments SavedAt {T}.

Class TimeText := {
  moment : Type;
  zero_moment : moment;
  format_time : moment -> option string;
  parse_time : string -> option moment;
}.

Definition newline : string := chr (of_byte 10).

(** [json.MarshalIndent(s, "", "  ")] on three string fields. *)
Definition indented_field (kv : string * string) : string :=
  (newline ++ "  " ++ json_string kv.1 ++ ": " ++ json_string kv.2)%string.

Definition indented_object (fields : list (string * string)) : string :=
  ("{" ++ String.concat "," (indented_field <$> fields) ++ newline ++ "}")%string.

Section text.
Context `{TimeText}.

Definition marshal_session (s : pairedSession moment) : option string :=
  at_ ← format_time (SavedAt s);
  Some (indented_object [("session_token", SessionToken s); ("session_secret", SessionSecret s);
                         ("saved_at", at_)]).

(** [null] leaves the time as it is. *)
Fixpoint store_time (cur : moment) (vs : list json) : option moment :=
  match vs with
  | [] => Some cur
  | JNull :: vs' => store_time cur vs'
  | JStr s :: vs' => match parse_time s with Some t => store_time t vs' | None => None end
  | _ :: _ => None
  end.

Definition unmarshal_session (data : string) : option (pairedSession moment) :=
  v ← parse_json data;
  ms ← as_members v;
  token ← store_string EmptyString (field_values "session_token" ms);
  secret ← store_string EmptyString (field_values "session_secret" ms);
  at_ ← store_time zero_moment (field_values "saved_at" ms);
  Some {| SessionToken := token; SessionSecret := secret; SavedAt := at_ |}.

Inductive load_err : Type := ReadFailed | BadJSON | MissingFields.

(** [contents] is what [os.ReadFile] returns. *)
Definition loadSession (contents : option string) : result load_err (pairedSession moment) :=
  match contents with
  | None => Err ReadFailed
  | Some data =>
      match unmarshal_session data with
      | None => Err BadJSON
      | Some s =>
          if bool_decide (SessionToken s = EmptyString) || bool_decide (SessionSecret s = EmptyString)
          then Err MissingFields else Ok s
      end
  end.

End text.

(** ** The disk

    A directory maps names to inodes. [journal] are the directories a power
    failure may bring back: those since the directory was last synced. Of an
    inode that is not synced a power failure may leave any contents. *)

Record inode := { contents : string; perm : Z; synced : bool }.

Record disk := { names : gmap string nat; inodes : gmap nat inode; journal : list (gmap string nat) }.

Definition read_file (d : disk) (path : string) : option inode :=
  i ← names d !! path; inodes d !! i.

Definition set_inode (d : disk) (i : nat) (f : inode -> inode) : disk :=
  {| names := names d; inodes := alter f i (inodes d); journal := journal d |}.

Definition set_names (d : disk) (n : gmap string nat) : disk :=
  {| names := n; inodes := inodes d; journal := names d :: journal d |}.

(** [0600]. *)
Definition owner_only : Z := 384.

Definition create_temp (d : disk) (tmp : string) (i : nat) (umask : Z) : disk :=
  {| names := <[tmp := i]> (names d);
     inodes := <[i := {| contents := EmptyString; perm := Z.ldiff owner_only umask; synced := false |}]> (inodes d);
     journal := names d :: journal d |}.

Definition chmod (d : disk) (i : nat) (mode : Z) : disk :=
  set_inode d i (fun f => {| contents := contents f; perm := mode; synced := synced f |}).

Definition write (d : disk) (i : nat) (text : string) : disk :=
  set_inode d i (fun f => {| contents := text; perm := perm f; synced := false |}).

Definition fsync (d : disk) (i : nat) : disk :=
  set_inode d i (fun f => {| contents := contents f; perm := perm f; synced := true |}).

Definition remove (d : disk) (name : string) : disk := set_names d (delete name (names d)).

(** One step: the old name goes and the new one is the inode's, replacing what it
    named before. *)
Definition rename (d : disk) (old new : string) (i : nat) : disk :=
  set_names d (<[new := i]> (delete old (names d))).

Definition sync_dir (d : disk) : disk := {| names := names d; inodes := inodes d; journal := [] |}.

(** ** saveSession

    How each system call ends, the name and inode of the new file, the umask,
    and how many bytes a failing [Write] wrote. *)
Record env := {
  e_mkdir : bool; e_create : bool; e_chmod : bool; e_write_fails : option nat; e_sync : bool;
  e_close : bool; e_rename : bool; e_open_dir : bool; e_sync_dir : bool;
  e_remove : bool; e_tmp : string; e_inode : nat; e_umask : Z;
}.

(** The disks a crash may find, oldest first, and whether it was saved. *)
Definition history : Type := list disk * bool.

Definition before (h : list disk) (k : history) : history := (h ++ k.1, k.2).

(** The deferred function removes the file of a save that did not commit. *)
Definition roll_back (e : env) (d : disk) : history :=
  ([d] ++ (if e_remove e then [remove d (e_tmp e)] else []), false).

(** After the rename: [committed]. *)
Definition commit (e : env) (d : disk) : history :=
  ([d] ++ (if e_open_dir e && e_sync_dir e then [sync_dir d] else []), true).

(** The disks during a write of [n] bytes of the text. *)
Definition writing (d : disk) (i : nat) (text : string) (n : nat) : list disk :=
  (fun k => write d i (str_take k text)) <$> seq 0 n.

Definition saveSession (e : env) (d : disk) (path : string) (data : option string) : history :=
  match data with
  | None => ([d], false)
  | Some text =>
      if negb (e_mkdir e) || negb (e_create e) then ([d], false)
      else
        let i := e_inode e in
        let d1 := create_temp d (e_tmp e) i (e_umask e) in
        before [d] (
        if negb (e_chmod e) then roll_back e d1
        else
          let d2 := chmod d1 i owner_only in
          before [d1] (
          match e_write_fails e with
          | Some n => before (d2 :: writing d2 i text n) (roll_back e (write d2 i (str_take n text)))
          | None =>
              let d3 := write d2 i text in
              before (d2 :: writing d2 i text (String.length text)) (
              if negb (e_sync e) then roll_back e d3
              else
                let d4 := fsync d3 i in
                before [d3] (
                if negb (e_close e) then roll_back e d4
                else if negb (e_rename e) then roll_back e d4
                else before [d4] (commit e (rename d4 (e_tmp e) path i))))
          end))
  end.

(** ** What a failure leaves *)

(** A crash of the program leaves the disk; a power failure one of the journal's
    directories, and of the inodes that are not synced any contents. *)
Inductive power_failure (d : disk) (path : string) : option string -> Prop :=
| failure_none n : n ∈ names d :: journal d -> n !! path = None -> power_failure d path None
| failure_some n i f c : n ∈ names d :: journal d -> n !! path = Some i -> inodes d !! i = Some f ->
    (synced f = true -> c = contents f) -> power_failure d path (Some c).

(** A disk at rest, on which the new file's name and inode are unused. *)
Definition at_rest (d : disk) : Prop :=
  journal d = [] /\ (forall p i, names d !! p = Some i -> exists f, inodes d !! i = Some f /\ synced f = true).

Definition unused (e : env) (d : disk) (path : string) : Prop :=
  names d !! e_tmp e = None /\ inodes d !! e_inode e = None /\ e_tmp e <> path.

(** Before the rename: at most the new name and inode are there, and only its
    owner may open the file. *)
Definition private_mode (m : Z) : Prop := Z.land m 63 = 0.

Definition staged (e : env) (d0 d : disk) : Prop :=
  (forall n, n ∈ names d :: journal d -> n = names d0 \/ n = <[e_tmp e := e_inode e]> (names d0))
  /\ (inodes d = inodes d0 \/ exists f, inodes d = <[e_inode e := f]> (inodes d0) /\ private_mode (perm f)).

(** After it. *)
Definition committed (e : env) (d0 : disk) (path text : string) (d : disk) : Prop :=
  names d = <[path := e_inode e]> (names d0)
  /\ (forall n, n ∈ journal d -> n = names d0 \/ n = <[e_tmp e := e_inode e]> (names d0))
  /\ inodes d = <[e_inode e := {| contents := text; perm := owner_only; synced := true |}]> (inodes d0).

Lemma staged_refl e d : journal d = [] -> staged e d d.
Proof. intros Hj. split; [|by left]. intros n. rewrite Hj. intros ->%list_elem_of_singleton. by left. Qed.

Lemma private_ldiff umask : private_mode (Z.ldiff owner_only umask).
Proof.
  unfold private_mode. rewrite Z.ldiff_land, <- Z.land_assoc, (Z.land_comm (Z.lnot _)), Z.land_assoc.
  apply Z.land_0_l.
Qed.

Lemma staged_create e d : journal d = [] -> staged e d (create_temp d (e_tmp e) (e_inode e) (e_umask e)).
Proof.
  intros Hj. split; cbn.
  - rewrite Hj. intros n [-> | ->%list_elem_of_singleton]%elem_of_cons; auto.
  - right. eexists. split; [done|]. apply private_ldiff.
Qed.

(** The inode's changes keep what came before the rename. *)
Lemma staged_set_inode e d0 d f :
  (forall g, private_mode (perm g) -> private_mode (perm (f g))) -> inodes d0 !! e_inode e = None ->
  staged e d0 d -> staged e d0 (set_inode d (e_inode e) f).
Proof.
  intros Hf Hnew [Hn Hi]. split; [exact Hn|]. cbn. destruct Hi as [-> |(g & -> & Hg)].
  - left. apply map_eq. intros j. destruct (decide (j = e_inode e)) as [-> |Hj];
      [by rewrite lookup_alter_eq, Hnew|by rewrite lookup_alter_ne].
  - right. exists (f g). split; [|by apply Hf]. apply map_eq. intros j. destruct (decide (j = e_inode e)) as [-> |Hj].
    + by rewrite lookup_alter_eq, !lookup_insert_eq.
    + by rewrite lookup_alter_ne, !lookup_insert_ne.
Qed.

Lemma staged_remove e d0 d : names d0 !! e_tmp e = None -> staged e d0 d -> staged e d0 (remove d (e_tmp e)).
Proof.
  intros Hnew [Hn Hi]. split; [|exact Hi]. cbn. intros n [-> |Hin]%elem_of_cons; [|by apply Hn].
  left. destruct (Hn (names d)) as [-> | ->]; [by left|by apply delete_id|by apply delete_insert_id].
Qed.

Ltac all_of := repeat (apply Forall_cons_2; [first [done|by right]|]); apply Forall_nil_2.

Section save.
Context (e : env) (d0 : disk) (path text : string).
Context (Hrest : at_rest d0) (Hunused : unused e d0 path).

Let i := e_inode e.

Lemma staged_write d t : staged e d0 d -> staged e d0 (write d i t).
Proof. apply staged_set_inode; [done|apply Hunused]. Qed.

Lemma staged_writing d n : staged e d0 d -> Forall (staged e d0) (writing d i text n).
Proof.
  intros Hd. apply Forall_forall. intros x Hx. apply list_elem_of_fmap in Hx as (k & -> & _). by apply staged_write.
Qed.

(** A save that fails: nothing but staged disks, and the names as they were when
    the new file can be removed. *)
Definition failed_save (h : history) : Prop :=
  h.2 = false /\ Forall (staged e d0) h.1
  /\ exists d, last h.1 = Some d /\ (e_remove e = true -> names d = names d0).

Lemma failed_roll_back d : staged e d0 d -> failed_save (roll_back e d).
Proof.
  intros Hd. split; [done|]. unfold roll_back. destruct (e_remove e) eqn:Er; cbn [fst app last].
  - pose proof (staged_remove e d0 d ltac:(apply Hunused) Hd) as Hr. split; [all_of|].
    eexists. split; [done|]. intros _. cbn. destruct Hd as [Hn _].
    destruct (Hn (names d)) as [-> | ->]; [by left|by apply delete_id, Hunused|by apply delete_insert_id, Hunused].
  - split; [all_of|]. by eexists.
Qed.

(** A save that succeeds: staged disks, then committed ones. *)
Definition good_save (h : history) : Prop :=
  h.2 = true /\ Forall (fun d => staged e d0 d \/ committed e d0 path text d) h.1
  /\ exists d, last h.1 = Some d /\ committed e d0 path text d
     /\ (e_open_dir e && e_sync_dir e = true -> journal d = []).

Lemma last_app_nonempty {A} (l k : list A) x : last k = Some x -> last (l ++ k) = Some x.
Proof. intros Hk. rewrite last_app, Hk. done. Qed.

Lemma save_before l h : Forall (staged e d0) l -> failed_save h \/ good_save h -> failed_save (before l h) \/ good_save (before l h).
Proof.
  intros Hl [(H1 & H2 & d & H3 & H4)|(H1 & H2 & d & H3 & H4)]; [left|right]; (split; [exact H1|]); cbn; split.
  - by apply Forall_app.
  - exists d. split; [by apply last_app_nonempty|done].
  - apply Forall_app. split; [|exact H2]. eapply Forall_impl; [exact Hl|]. auto.
  - exists d. split; [by apply last_app_nonempty|done].
Qed.

(** The new inode through the calls. *)
Definition prepared (d : disk) (f : inode) : Prop :=
  names d = <[e_tmp e := i]> (names d0) /\ journal d = [names d0] /\ inodes d = <[i := f]> (inodes d0).

Lemma prepared_set d f g : prepared d f -> prepared (set_inode d i g) (g f).
Proof.
  intros (Hn & Hj & Hi). split_and!; [done|done|]. cbn. rewrite Hi. apply map_eq. intros j.
  destruct (decide (j = i)) as [-> |Hne].
  - by rewrite lookup_alter_eq, !lookup_insert_eq.
  - by rewrite lookup_alter_ne, !lookup_insert_ne.
Qed.

Lemma prepared_staged d f : private_mode (perm f) -> prepared d f -> staged e d0 d.
Proof.
  intros Hp (Hn & Hj & Hi). split; [|by right; exists f]. rewrite Hn, Hj.
  intros n [-> | ->%list_elem_of_singleton]%elem_of_cons; auto.
Qed.

Lemma commit_good d :
  prepared d {| contents := text; perm := owner_only; synced := true |} -> good_save (commit e (rename d (e_tmp e) path i)).
Proof.
  intros (Hn & Hj & Hi). assert (committed e d0 path text (rename d (e_tmp e) path i)) as Hc.
  { split_and!; cbn; [|intros n|exact Hi].
    - rewrite Hn, delete_insert_id by apply Hunused. done.
    - rewrite Hn, Hj. intros [-> | ->%list_elem_of_singleton]%elem_of_cons; auto. }
  split; [done|]. unfold commit. destruct (e_open_dir e && e_sync_dir e); cbn [fst app last].
  - assert (committed e d0 path text (sync_dir (rename d (e_tmp e) path i))) as Hs.
    { destruct Hc as (? & _ & ?). split_and!; [done| |done]. cbn. by intros n ?%not_elem_of_nil. }
    split; [all_of|]. by eexists.
  - split; [all_of|]. by eexists.
Qed.

Lemma save_cases : failed_save (saveSession e d0 path (Some text)) \/ good_save (saveSession e d0 path (Some text)).
Proof.
  assert (staged e d0 d0) as H0 by apply staged_refl, Hrest.
  assert (journal d0 = []) as Hj by apply Hrest. unfold saveSession.
  destruct (negb (e_mkdir e) || negb (e_create e)).
  { left. split; [done|]. split; [all_of|]. by exists d0. }
  cbn zeta. fold i. apply save_before; [all_of|].
  assert (staged e d0 (create_temp d0 (e_tmp e) i (e_umask e))) as H1 by by apply staged_create.
  assert (exists f, private_mode (perm f) /\ prepared (create_temp d0 (e_tmp e) i (e_umask e)) f) as (f1 & Hf1 & P1).
  { exists {| contents := EmptyString; perm := Z.ldiff owner_only (e_umask e); synced := false |}.
    split; [apply private_ldiff|]. split_and!; cbn; by rewrite ?Hj. }
  set (d1 := create_temp _ _ _ _) in *.
  destruct (negb (e_chmod e)); [left; by apply failed_roll_back|]. apply save_before; [all_of|].
  pose proof (prepared_set _ _ (fun f => {| contents := contents f; perm := owner_only; synced := synced f |}) P1) as P2.
  change (set_inode d1 i _) with (chmod d1 i owner_only) in P2. set (d2 := chmod d1 i owner_only) in *.
  assert (staged e d0 d2) as H2 by by eapply prepared_staged, P2.
  destruct (e_write_fails e) as [n|].
  - apply save_before; [constructor; [done|by apply staged_writing]|]. left. by apply failed_roll_back, staged_write.
  - apply save_before; [constructor; [done|by apply staged_writing]|].
    assert (staged e d0 (write d2 i text)) as H3 by by apply staged_write.
    pose proof (prepared_set _ _ (fun f => {| contents := text; perm := perm f; synced := false |}) P2) as P3.
    change (set_inode d2 i _) with (write d2 i text) in P3. set (d3 := write d2 i text) in *.
    destruct (negb (e_sync e)); [left; by apply failed_roll_back|]. apply save_before; [all_of|].
    pose proof (prepared_set _ _ (fun f => {| contents := contents f; perm := perm f; synced := true |}) P3) as P4.
    change (set_inode d3 i _) with (fsync d3 i) in P4. set (d4 := fsync d3 i) in *. cbn [contents perm] in P4.
    assert (staged e d0 d4) as H4 by by eapply prepared_staged, P4.
    destruct (negb (e_close e)); [left; by apply failed_roll_back|].
    destruct (negb (e_rename e)); [left; by apply failed_roll_back|].
    apply save_before; [all_of|]. right. by apply commit_good.
Qed.

(** *** Reading the disks of a save *)

Definition new_file : inode := {| contents := text; perm := owner_only; synced := true |}.

Lemma old_inode p j : names d0 !! p = Some j -> j <> i /\ exists f, inodes d0 !! j = Some f /\ synced f = true.
Proof.
  intros Hp. destruct (proj2 Hrest p j Hp) as (f & Hf & Hs). split; [|by exists f].
  intros ->. destruct Hunused as (_ & Hi & _). unfold i in Hf. congruence.
Qed.

(** The inodes of a staged or committed disk, at the names that were there. *)
Lemma old_lookup d p j :
  (inodes d = inodes d0 \/ exists f, inodes d = <[i := f]> (inodes d0)) ->
  names d0 !! p = Some j -> inodes d !! j = inodes d0 !! j.
Proof.
  intros Hd Hp. destruct (old_inode p j Hp) as [Hj _]. destruct Hd as [-> |(f & ->)]; [done|].
  by rewrite lookup_insert_ne.
Qed.

Lemma read_same d p :
  (inodes d = inodes d0 \/ exists f, inodes d = <[i := f]> (inodes d0)) -> names d !! p = names d0 !! p ->
  read_file d p = read_file d0 p.
Proof.
  intros Hd Hn. unfold read_file. rewrite Hn. destruct (names d0 !! p) as [j|] eqn:Ep; [|done].
  cbn. by eapply old_lookup.
Qed.

Lemma staged_inodes d : staged e d0 d -> inodes d = inodes d0 \/ exists f, inodes d = <[i := f]> (inodes d0).
Proof. intros [_ [?|(f & ? & _)]]; [by left|right; by exists f]. Qed.

Lemma committed_inodes d :
  committed e d0 path text d -> inodes d = inodes d0 \/ exists f, inodes d = <[i := f]> (inodes d0).
Proof. intros (_ & _ & ?). right. by eexists. Qed.

Lemma staged_read d p : staged e d0 d -> p <> e_tmp e -> read_file d p = read_file d0 p.
Proof.
  intros Hs Hp. apply read_same; [by apply staged_inodes|].
  destruct Hs as [Hn _]. destruct (Hn (names d)) as [-> | ->]; [by left|done|by rewrite lookup_insert_ne].
Qed.

Lemma committed_read_other d p : committed e d0 path text d -> p <> path -> read_file d p = read_file d0 p.
Proof.
  intros Hc Hp. apply read_same; [by apply committed_inodes|]. destruct Hc as [-> _]. by rewrite lookup_insert_ne.
Qed.

Lemma committed_read d : committed e d0 path text d -> read_file d path = Some new_file.
Proof. intros (Hn & _ & Hi). unfold read_file. rewrite Hn, lookup_insert_eq. cbn. by rewrite Hi, lookup_insert_eq. Qed.

(** What an old directory shows of the path. *)
Lemma old_failure d n :
  (inodes d = inodes d0 \/ exists f, inodes d = <[i := f]> (inodes d0)) ->
  n = names d0 \/ n = <[e_tmp e := i]> (names d0) ->
  (n !! path = None -> contents <$> read_file d0 path = None)
  /\ forall j f c, n !! path = Some j -> inodes d !! j = Some f -> (synced f = true -> c = contents f) ->
     contents <$> read_file d0 path = Some c.
Proof.
  intros Hd Hn. assert (n !! path = names d0 !! path) as Hp.
  { destruct Hn as [-> | ->]; [done|]. apply lookup_insert_ne, Hunused. }
  rewrite Hp. unfold read_file. split; [by intros ->|]. intros j f c Hj Hf Hc. rewrite Hj. cbn.
  destruct (old_inode path j Hj) as [_ (g & Hg & Hs)].
  rewrite (old_lookup d path j Hd Hj), Hg in Hf. injection Hf as <-. by rewrite Hg, Hc.
Qed.

Lemma save_power d c :
  staged e d0 d \/ committed e d0 path text d -> power_failure d path c ->
  c = contents <$> read_file d0 path \/ c = Some text.
Proof.
  intros Hd Hc.
  assert (forall n, n = names d0 \/ n = <[e_tmp e := i]> (names d0) -> n ∈ names d :: journal d ->
    (n !! path = None -> contents <$> read_file d0 path = None)
    /\ forall j f c, n !! path = Some j -> inodes d !! j = Some f -> (synced f = true -> c = contents f) ->
       contents <$> read_file d0 path = Some c) as Hold.
  { intros n Hn _. apply old_failure; [|done]. destruct Hd; [by apply staged_inodes|by apply committed_inodes]. }
  assert (forall n, n ∈ names d :: journal d -> (n = names d0 \/ n = <[e_tmp e := i]> (names d0))
    \/ committed e d0 path text d /\ n = <[path := i]> (names d0)) as Hcase.
  { intros n Hin. destruct Hd as [[Hn _]|Hd]; [left; by apply Hn|].
    apply elem_of_cons in Hin as [-> |Hin]; [right; split; [done|apply Hd]|left; by apply Hd]. }
  inversion Hc as [n Hin Hp|n j f t Hin Hp Hj Ht]; subst.
  - destruct (Hcase n Hin) as [Hn|[_ ->]]; [|by rewrite lookup_insert_eq in Hp]. left. symmetry. by apply (Hold n).
  - destruct (Hcase n Hin) as [Hn|[(_ & _ & Hi) ->]]; [left; symmetry; by eapply (Hold n)|right].
    rewrite lookup_insert_eq in Hp. injection Hp as <-. unfold i in Hj. rewrite Hi, lookup_insert_eq in Hj.
    injection Hj as <-. by rewrite Ht.
Qed.

Lemma save_private d p f :
  staged e d0 d \/ committed e d0 path text d -> read_file d p = Some f ->
  read_file d0 p = Some f \/ private_mode (perm f).
Proof.
  intros [Hd|Hd] Hf.
  - destruct (decide (p = e_tmp e)) as [-> |Hp]; [|left; by rewrite <- (staged_read d)].
    right. destruct Hd as [Hn Hi]. unfold read_file in Hf.
    destruct (Hn (names d)) as [Hd|Hd]; [by left|..]; rewrite Hd in Hf.
    + destruct Hunused as [Ht _]. by rewrite Ht in Hf.
    + rewrite lookup_insert_eq in Hf. cbn in Hf. destruct Hi as [Hi|(g & Hi & Hg)]; rewrite Hi in Hf.
      * destruct Hunused as (_ & Hu & _). by rewrite Hu in Hf.
      * rewrite lookup_insert_eq in Hf. by injection Hf as <-.
  - destruct (decide (p = path)) as [-> |Hp]; [|left; by rewrite <- (committed_read_other d)].
    right. rewrite (committed_read d Hd) in Hf. by injection Hf as <-.
Qed.

Lemma save_disks : Forall (fun d => staged e d0 d \/ committed e d0 path text d) (saveSession e d0 path (Some text)).1.
Proof.
  destruct save_cases as [(_ & Hf & _)|(_ & Hf & _)]; [|done]. eapply Forall_impl; [exact Hf|]. auto.
Qed.

End save.

(** ** Properties *)

(** [C10] Saving is atomic and private, whichever call fails and whenever the
    program or the power goes. On every disk of a save the path holds the old
    file or the whole new one, with mode 0600; after a power failure at any
    point it has the old contents or the new; and a file that was not there
    before is open to its owner only. *)
Theorem save_is_atomic (e : env) (d0 : disk) (path text : string) :
  at_rest d0 -> unused e d0 path ->
  Forall (fun d =>
    (read_file d path = read_file d0 path
     \/ read_file d path = Some {| contents := text; perm := owner_only; synced := true |})
    /\ (forall c, power_failure d path c -> c = contents <$> read_file d0 path \/ c = Some text)
    /\ (forall p f, read_file d p = Some f -> read_file d0 p = Some f \/ private_mode (perm f)))
  (saveSession e d0 path (Some text)).1.
Proof.
  intros Hr Hu. eapply Forall_impl; [by apply save_disks|]. intros d Hd. cbn beta in *. split_and!.
  - destruct Hd as [Hd|Hd]; [left; eapply staged_read; try done; apply not_eq_sym, Hu|right; by eapply committed_read].
  - intros c. by eapply save_power.
  - intros p f. by eapply save_private.
Qed.

(** What a save leaves behind. One that succeeds leaves the new text under
    the path and no other change, and it survives a power failure if the
    directory could be synced; one that fails leaves every file as it was, up to
    the new file if that could not be removed. *)
Theorem save_outcome (e : env) (d0 : disk) (path text : string) :
  at_rest d0 -> unused e d0 path ->
  exists d, last (saveSession e d0 path (Some text)).1 = Some d
    /\ if (saveSession e d0 path (Some text)).2
       then read_file d path = Some {| contents := text; perm := owner_only; synced := true |}
            /\ (forall p, p <> path -> read_file d p = read_file d0 p)
            /\ (e_open_dir e && e_sync_dir e = true -> forall c, power_failure d path c -> c = Some text)
       else (forall p, p <> e_tmp e -> read_file d p = read_file d0 p)
            /\ (e_remove e = true -> forall p, read_file d p = read_file d0 p).
Proof.
  intros Hr Hu. destruct (save_cases e d0 path text Hr Hu) as [(-> & Hall & d & Hl & Hd)|(-> & Hall & d & Hl & Hd & Hj)];
    exists d; (split; [done|]).
  - assert (staged e d0 d) as Hs.
    { rewrite Forall_forall in Hall. apply Hall. by apply last_Some_elem_of. }
    split; [intros p Hp; by eapply staged_read|]. intros He p.
    eapply read_same; [done|done|by eapply staged_inodes|]. by rewrite Hd.
  - split_and!; [by eapply committed_read|intros p Hp; by eapply committed_read_other|].
    intros He c Hc. specialize (Hj He). destruct Hd as (Hn & _ & Hi).
    inversion Hc as [n Hin Hp|n j f t Hin Hp Hf Ht]; subst;
      rewrite Hj, Hn in Hin; apply list_elem_of_singleton in Hin as ->; rewrite lookup_insert_eq in Hp; [done|].
    injection Hp as <-. rewrite Hi, lookup_insert_eq in Hf. injection Hf as <-. by rewrite Ht.
Qed.

(** *** Reading a session back *)

(** One member as [MarshalIndent] lays it out. *)
Lemma parse_members_field fuel depth k v tail :
  parse_members (S (S fuel)) depth (indented_field (k, v) ++ tail)%string
  = match skip_space tail with
    | String c3 r' =>
        if Ascii.eqb c3 "}" then Some ([(sanitize k, JStr (sanitize v))], r')
        else if Ascii.eqb c3 "," then (fun p => ((sanitize k, JStr (sanitize v)) :: p.1, p.2)) <$> parse_members (S fuel) depth r'
        else None
    | EmptyString => None
    end.
Proof.
  unfold indented_field, json_string. cbn [fst snd]. unfold newline, chr.
  rewrite !append_assoc. cbn [String.append]. rewrite ?append_assoc. cbn [String.append].
  cbn [parse_members skip_space].
  change (is_json_space (of_byte 10)) with true. change (is_json_space " ") with true. cbn iota.
  change (is_json_space dquote) with false. cbn iota. rewrite Ascii.eqb_refl. cbn [negb].
  rewrite ?append_assoc. cbn [String.append]. rewrite ?append_assoc. cbn [String.append].
  match goal with |- context [scan_string (json_string_body k ++ String dquote ?X)] =>
    destruct (scan_json_string k X) as (us & -> & Hk) end. cbn [skip_space].
  change (is_json_space ":") with false. cbn iota. change (Ascii.eqb ":" ":") with true. cbn [negb].
  cbn [parse_value skip_space]. change (is_json_space " ") with true. cbn iota.
  change (is_json_space dquote) with false. cbn iota.
  change (Ascii.eqb dquote "{") with false. change (Ascii.eqb dquote "[") with false.
  rewrite Ascii.eqb_refl. cbn iota. destruct (scan_json_string v tail) as (vs & -> & Hv).
  cbn [fmap option_fmap option_map fst snd]. by rewrite Hk, Hv.
Qed.

Lemma parse_indented k1 v1 k2 v2 k3 v3 :
  parse_json (indented_object [(k1, v1); (k2, v2); (k3, v3)])
  = Some (JObj ((fun kv => (sanitize kv.1, JStr (sanitize kv.2))) <$> [(k1, v1); (k2, v2); (k3, v3)])).
Proof.
  unfold parse_json.
  assert (exists n, (2 * String.length (indented_object [(k1, v1); (k2, v2); (k3, v3)]))%nat = S (S (S (S n)))) as [n ->].
  { unfold indented_object. set (x := String.concat _ _). rewrite !length_append. eexists. cbn.
    rewrite Nat.add_succ_r. reflexivity. }
  unfold indented_object. rewrite !fmap_cons, fmap_nil. cbn [String.concat].
  set (f1 := indented_field (k1, v1)). set (f2 := indented_field (k2, v2)). set (f3 := indented_field (k3, v3)).
  rewrite !append_assoc. cbn [String.append parse_value skip_space].
  change (is_json_space "{") with false. cbn iota. rewrite Ascii.eqb_refl. change (10000 <=? 0) with false. cbn iota.
  set (rest := (f2 ++ _)%string).
  assert (exists x, skip_space (f1 ++ String "," rest) = String dquote x
    /\ forall fuel depth, parse_members fuel depth (String dquote x) = parse_members fuel depth (f1 ++ String "," rest)%string)
    as (x & -> & Hx).
  { unfold f1, indented_field, json_string, newline, chr. cbn [fst snd]. rewrite !append_assoc. cbn [String.append].
    eexists. split; [reflexivity|]. intros [|fuel] depth; reflexivity. }
  change (Ascii.eqb dquote "}") with false. cbn iota. rewrite Hx. unfold f1.
  rewrite parse_members_field. cbn [skip_space]. change (is_json_space ",") with false. cbn iota.
  change (Ascii.eqb "," "}") with false. rewrite Ascii.eqb_refl. cbn iota. unfold rest, f2.
  rewrite parse_members_field. cbn [skip_space]. change (is_json_space ",") with false. cbn iota.
  change (Ascii.eqb "," "}") with false. rewrite Ascii.eqb_refl. cbn iota. unfold f3.
  rewrite parse_members_field. unfold newline, chr. cbn [String.append skip_space].
  change (is_json_space (of_byte 10)) with true. change (is_json_space "}") with false. cbn iota.
  rewrite Ascii.eqb_refl. reflexivity.
Qed.

Lemma load_nonempty `{TimeText} file s :
  loadSession file = Ok s -> SessionToken s <> EmptyString /\ SessionSecret s <> EmptyString.
Proof.
  unfold loadSession. destruct file as [data|]; [|done]. destruct (unmarshal_session data) as [s'|]; [|done].
  repeat case_bool_decide; cbn [orb]; [done..|]. by intros [= <-].
Qed.

Lemma encode_rune_nonempty r : encode_rune r <> EmptyString.
Proof. unfold encode_rune. cbv zeta. by repeat case_match. Qed.

(** A text is empty just when it is read back as such. *)
Lemma sanitize_empty s : sanitize s = EmptyString <-> s = EmptyString.
Proof.
  split; [|by intros ->]. intros He. rewrite <- (concat_runes s). unfold sanitize in He.
  destruct (runes s) as [|[r w] ps]; [done|]. exfalso.
  rewrite fmap_cons, concat_empty_cons in He. cbn [fst] in He. pose proof (encode_rune_nonempty r).
  by destruct (encode_rune r).
Qed.

(** [C39] What was saved is what is loaded: any session whose token and secret are
    UTF-8 and not empty, quotes, control characters and all, and whose time is
    given back by its own text, is read back whole from the text of its file; in
    other tokens and secrets the bytes that are not UTF-8 come back as U+FFFD.
    No load ever yields a session without credentials. *)
Theorem session_round_trip `{TimeText} (s : pairedSession moment) (at_text : string) :
  format_time (SavedAt s) = Some at_text -> utf8 at_text -> parse_time at_text = Some (SavedAt s) ->
  loadSession (marshal_session s)
    = (if decide (SessionToken s = EmptyString \/ SessionSecret s = EmptyString) then Err MissingFields
       else Ok {| SessionToken := sanitize (SessionToken s); SessionSecret := sanitize (SessionSecret s); SavedAt := SavedAt s |})
  /\ (utf8 (SessionToken s) -> utf8 (SessionSecret s) -> SessionToken s <> EmptyString -> SessionSecret s <> EmptyString ->
      loadSession (marshal_session s) = Ok s)
  /\ forall file s', loadSession file = Ok s' -> SessionToken s' <> EmptyString /\ SessionSecret s' <> EmptyString.
Proof.
  intros Hf Hu Hp. assert (loadSession (marshal_session s)
    = (if decide (SessionToken s = EmptyString \/ SessionSecret s = EmptyString) then Err MissingFields
       else Ok {| SessionToken := sanitize (SessionToken s); SessionSecret := sanitize (SessionSecret s); SavedAt := SavedAt s |})) as Hl.
  - unfold marshal_session. rewrite Hf. cbn [mbind option_bind].
    unfold loadSession, unmarshal_session. rewrite parse_indented. cbn [mbind option_bind as_members fmap list_fmap fst snd].
    change (field_values "session_token" _) with [JStr (sanitize (SessionToken s))].
    change (field_values "session_secret" _) with [JStr (sanitize (SessionSecret s))].
    change (field_values "saved_at" _) with [JStr (sanitize at_text)]. unfold utf8 in Hu. rewrite Hu.
    cbn [store_string store_time mbind option_bind]. rewrite Hp. cbn [mbind option_bind SessionToken SessionSecret].
    rewrite <- bool_decide_or, (bool_decide_ext _ (SessionToken s = EmptyString \/ SessionSecret s = EmptyString))
      by (by rewrite !sanitize_empty). by rewrite decide_bool_decide.
  - split; [exact Hl|]. split; [|intros file s' Hs; by eapply load_nonempty].
    intros Ht Hs Hne1 Hne2. rewrite Hl, decide_False by tauto. rewrite Ht, Hs. by destruct s.
Qed.

(** *** Concrete runs *)

Definition text_times : TimeText :=
  {| moment := string; zero_moment := EmptyString; format_time := Some; parse_time := Some |}.

Lemma session_round_trip_witness :
  let s := {| SessionToken := "tok<1>&\"; SessionSecret := "c2VjcmV0"; SavedAt := "2024-05-01T10:00:00Z" |}%string in
  @loadSession text_times (@marshal_session text_times s) = Ok s.
Proof.
  intros s. destruct (@session_round_trip text_times s "2024-05-01T10:00:00Z") as (_ & Hl & _); [done|by vm_compute|done|].
  by apply Hl; vm_compute.
Defined.

(** An old session under "s.json"; a write that fails after two bytes, and a save
    that succeeds. *)
Definition old_disk : disk :=
  {| names := {["s.json"%string := 1%nat]};
     inodes := {[1%nat := {| contents := "old"; perm := 420; synced := true |}]}; journal := [] |}.

Definition quiet (w : option nat) : env :=
  {| e_mkdir := true; e_create := true; e_chmod := true; e_write_fails := w; e_sync := true; e_close := true;
     e_rename := true; e_open_dir := true; e_sync_dir := true; e_remove := true;
     e_tmp := "s.json.tmp-1"; e_inode := 2; e_umask := 18 |}.

Lemma old_disk_at_rest : at_rest old_disk.
Proof.
  split; [done|]. intros p i Hp. cbn in Hp. apply lookup_singleton_Some in Hp as [_ <-]. by eexists.
Qed.

Lemma save_is_atomic_witness :
  length (saveSession (quiet (Some 2%nat)) old_disk "s.json" (Some "new"%string)).1 = 7%nat
  /\ Forall (fun d => read_file d "s.json" = read_file old_disk "s.json"
       \/ read_file d "s.json" = Some {| contents := "new"; perm := owner_only; synced := true |})
     (saveSession (quiet (Some 2%nat)) old_disk "s.json" (Some "new"%string)).1.
Proof.
  split; [by vm_compute|]. eapply Forall_impl.
  - apply (save_is_atomic (quiet (Some 2%nat)) old_disk "s.json" "new"); [apply old_disk_at_rest|done].
  - by intros d (? & _).
Defined.

Lemma save_outcome_witness :
  (saveSession (quiet None) old_disk "s.json" (Some "new"%string)).2 = true
  /\ exists d, last (saveSession (quiet None) old_disk "s.json" (Some "new"%string)).1 = Some d.
Proof.
  split; [by vm_compute|].
  destruct (save_outcome (quiet None) old_disk "s.json" "new" old_disk_at_rest ltac:(done)) as (d & Hd & _).
  by exists d.
Defined.

End Session.
