(* ===== verification/PeerMTU.v ===== *)
(** The RFC 8899 search of [peermtu.go]: the [peerMTUProber] state machine. The
    prober's methods each run under its mutex, so an execution is a sequence of
    them; [step] is one method call and [reachable] any sequence of calls. *)

From S2P Require Import Prelude.
Open Scope Z_scope.

Module Prober.

(** ** State *)

Inductive dplpmtudState : Type :=
| dplpmtudStateBase
| dplpmtudStateSearching
| dplpmtudStateSearchComplete
| dplpmtudStateDisabled.

#[export] Instance dplpmtudState_eq_dec : EqDecision dplpmtudState.
Proof. solve_decision. Defined.

Definition state_String (s : dplpmtudState) : string :=
  match s with
  | dplpmtudStateBase => "BASE"
  | dplpmtudStateSearching => "SEARCHING"
  | dplpmtudStateSearchComplete => "SEARCH_COMPLETE"
  | dplpmtudStateDisabled => "DISABLED"
  end.

Definition defaultProbeMilestones : list Z := [1360; 1400; 1420; 1440].
Definition maxDPLPMTUDProbesPerMilestone : Z := 2.
Definition baseTunnelMTU : Z := 1280.

Record peerMTUProber := {
  state : dplpmtudState;
  milestones : list Z;
  currentIndex : nat;
  confirmedMTU : Z;
  maxTargetMTU : Z;
  failedAttempts : Z;
  manualOverride : bool;
  armed : bool;
}.

(** ** Operations *)

(** The loop that leaves [startIdx] after the last milestone at most [confirmed]. *)
Fixpoint start_index (confirmed : Z) (i : nat) (startIdx : nat) (candidates : list Z) : nat :=
  match candidates with
  | [] => startIdx
  | m :: rest => start_index confirmed (S i) (if m <=? confirmed then S i else startIdx) rest
  end.

Definition newPeerMTUProber (initialMTU maxTarget manualMTU : Z) : peerMTUProber :=
  if 0 <? manualMTU then
    {| state := dplpmtudStateDisabled; milestones := []; currentIndex := 0;
       confirmedMTU := manualMTU; maxTargetMTU := manualMTU; failedAttempts := 0;
       manualOverride := true; armed := false |}
  else
    let maxTarget := if maxTarget <? baseTunnelMTU then baseTunnelMTU else maxTarget in
    let candidates := filter (fun m => m <= maxTarget) defaultProbeMilestones in
    let confirmed := if initialMTU <? baseTunnelMTU then baseTunnelMTU else initialMTU in
    let startIdx := start_index confirmed 0 0 candidates in
    {| state := if (length candidates <=? startIdx)%nat
                then dplpmtudStateSearchComplete else dplpmtudStateSearching;
       milestones := candidates; currentIndex := startIdx; confirmedMTU := confirmed;
       maxTargetMTU := maxTarget; failedAttempts := 0; manualOverride := false;
       armed := true |}.

Definition Arm (p : peerMTUProber) : peerMTUProber :=
  {| state := state p; milestones := milestones p; currentIndex := currentIndex p;
     confirmedMTU := confirmedMTU p; maxTargetMTU := maxTargetMTU p;
     failedAttempts := failedAttempts p; manualOverride := manualOverride p; armed := true |}.

(** [None] is the code's [(0, false)]. *)
Definition NextProbeMTU (p : peerMTUProber) : option Z :=
  if negb (armed p) || negb (bool_decide (state p = dplpmtudStateSearching))
     || (length (milestones p) <=? currentIndex p)%nat
  then None
  else milestones p !! currentIndex p.

(** The three results (mtuChanged, newMTU, searchDone), then the new state. *)
Definition RecordProbeResult (targetMTU : Z) (success : bool) (p : peerMTUProber)
  : bool * Z * bool * peerMTUProber :=
  if negb (bool_decide (state p = dplpmtudStateSearching)) then
    (false, confirmedMTU p, true, p)
  else if (length (milestones p) <=? currentIndex p)%nat
       || negb (bool_decide (milestones p !! currentIndex p = Some targetMTU)) then
    (false, confirmedMTU p, false, p)
  else if success then
    let mtuChanged := confirmedMTU p <? targetMTU in
    let idx := S (currentIndex p) in
    let finished := (length (milestones p) <=? idx)%nat in
    (mtuChanged, targetMTU, finished,
     {| state := if finished then dplpmtudStateSearchComplete else state p;
        milestones := milestones p; currentIndex := idx; confirmedMTU := targetMTU;
        maxTargetMTU := maxTargetMTU p; failedAttempts := 0;
        manualOverride := manualOverride p; armed := armed p |})
  else
    let failed := failedAttempts p +i 1 in
    let finished := maxDPLPMTUDProbesPerMilestone <=? failed in
    (false, confirmedMTU p, finished,
     {| state := if finished then dplpmtudStateSearchComplete else state p;
        milestones := milestones p; currentIndex := currentIndex p;
        confirmedMTU := confirmedMTU p; maxTargetMTU := maxTargetMTU p;
        failedAttempts := failed; manualOverride := manualOverride p; armed := armed p |}).

Definition ConfirmedMTU (p : peerMTUProber) : Z := confirmedMTU p.
Definition State (p : peerMTUProber) : dplpmtudState := state p.

Definition Reset (p : peerMTUProber) : peerMTUProber :=
  if manualOverride p then p
  else {| state := dplpmtudStateSearching; milestones := milestones p; currentIndex := 0;
          confirmedMTU := baseTunnelMTU; maxTargetMTU := maxTargetMTU p;
          failedAttempts := 0; manualOverride := manualOverride p; armed := false |}.

(** ** Executions *)

Inductive step : peerMTUProber -> peerMTUProber -> Prop :=
| step_arm p : step p (Arm p)
| step_record p target success : step p (RecordProbeResult target success p).2
| step_reset p : step p (Reset p).

Inductive reachable (initialMTU maxTarget manualMTU : Z) : peerMTUProber -> Prop :=
| reach_new : reachable initialMTU maxTarget manualMTU (newPeerMTUProber initialMTU maxTarget manualMTU)
| reach_step p q :
    reachable initialMTU maxTarget manualMTU p -> step p q ->
    reachable initialMTU maxTarget manualMTU q.

(** ** The search as the client drives it

    [probe_once] is one round of the pinger's probing branch: ask for the next
    milestone, send the probe, record whether it was answered. [answer m k] is
    the network's answer to attempt [k] at milestone [m]. *)

Definition probe_once (answer : Z -> Z -> bool) (p : peerMTUProber) : option peerMTUProber :=
  match NextProbeMTU p with
  | Some target => Some (RecordProbeResult target (answer target (failedAttempts p)) p).2
  | None => None
  end.

Fixpoint search (fuel : nat) (answer : Z -> Z -> bool) (p : peerMTUProber) : peerMTUProber :=
  match fuel with
  | O => p
  | S f => match probe_once answer p with
           | Some q => search f answer q
           | None => p
           end
  end.

(** What the search promises: climb while one of two attempts is answered, stay
    at the last milestone confirmed. *)
Fixpoint climb (answer : Z -> Z -> bool) (confirmed : Z) (ms : list Z) : Z :=
  match ms with
  | [] => confirmed
  | m :: rest => if answer m 0 || answer m 1 then climb answer m rest else confirmed
  end.

(** ** The invariant

    [top] is the largest MTU the prober was started with or allowed to reach. *)

Record wf (top : Z) (p : peerMTUProber) : Prop := {
  wf_sorted : StronglySorted Z.lt (milestones p);
  wf_range : Forall (fun m => baseTunnelMTU < m <= maxTargetMTU p /\ m ∈ defaultProbeMilestones)
                    (milestones p);
  wf_index : (currentIndex p <= length (milestones p))%nat;
  wf_failed : 0 <= failedAttempts p <= maxDPLPMTUDProbesPerMilestone;
  wf_auto : manualOverride p = false ->
    (state p = dplpmtudStateSearching \/ state p = dplpmtudStateSearchComplete)
    /\ baseTunnelMTU <= maxTargetMTU p <= top /\ baseTunnelMTU <= confirmedMTU p <= top;
  wf_manual : manualOverride p = true -> state p = dplpmtudStateDisabled;
  wf_ahead : state p = dplpmtudStateSearching ->
    failedAttempts p < maxDPLPMTUDProbesPerMilestone
    /\ Forall (fun m => confirmedMTU p < m) (drop (currentIndex p) (milestones p));
}.

Lemma start_index_above c i s ms : Forall (fun m => c < m) ms -> start_index c i s ms = s.
Proof.
  revert i. induction ms as [|m ms IH]; intros i H; simpl; [done|].
  apply Forall_cons in H as [Hm Hms]. destruct (Z.leb_spec m c); [lia|]. by apply IH.
Qed.

Lemma start_index_split c i ms :
  StronglySorted Z.lt ms ->
  exists k, start_index c i i ms = (i + k)%nat /\ (k <= length ms)%nat
            /\ drop k ms = filter (fun m => c < m) ms.
Proof.
  intros Hs. revert i. induction Hs as [|m ms Hs IH Hm]; intros i; simpl.
  - exists O. rewrite Nat.add_0_r. done.
  - rewrite filter_cons. destruct (Z.leb_spec m c) as [Hle|Hlt].
    + destruct (IH (S i)) as (k & -> & Hk & Hd). exists (S k).
      rewrite decide_False by lia. split; [lia|]. split; [lia|done].
    + exists O. assert (Forall (fun x => c < x) ms) as Hall
        by (eapply Forall_impl; [exact Hm|]; simpl; lia).
      rewrite start_index_above by done. rewrite decide_True by done.
      split; [lia|]. split; [lia|]. by rewrite filter_all.
Qed.

Lemma filter_lt_above c ms : Forall (fun m => c < m) (filter (fun m => c < m) ms).
Proof. apply Forall_forall. by intros m [? _]%list_elem_of_filter. Qed.

Lemma defaultProbeMilestones_sorted : StronglySorted Z.lt defaultProbeMilestones.
Proof. repeat constructor. Qed.

Definition ceiling (initialMTU maxTarget : Z) : Z :=
  Z.max baseTunnelMTU (Z.max initialMTU maxTarget).

Lemma wf_new initialMTU maxTarget manualMTU :
  wf (ceiling initialMTU maxTarget) (newPeerMTUProber initialMTU maxTarget manualMTU).
Proof.
  unfold newPeerMTUProber, ceiling. destruct (Z.ltb_spec 0 manualMTU).
  { split; simpl; try done; constructor. }
  set (mt := if maxTarget <? _ then _ else _). set (cf := if initialMTU <? _ then _ else _).
  assert (baseTunnelMTU <= mt <= Z.max baseTunnelMTU maxTarget) as Hmt
    by (subst mt; destruct (Z.ltb_spec maxTarget baseTunnelMTU); lia).
  assert (baseTunnelMTU <= cf <= Z.max baseTunnelMTU initialMTU) as Hcf
    by (subst cf; destruct (Z.ltb_spec initialMTU baseTunnelMTU); lia).
  set (cs := filter _ _).
  assert (StronglySorted Z.lt cs) as Hs
    by apply StronglySorted_filter, defaultProbeMilestones_sorted.
  destruct (start_index_split cf 0 cs Hs) as (k & -> & Hk & Hd).
  pose proof (filter_lt_above cf cs) as Habove. rewrite <- Hd in Habove.
  split; simpl; try done; try lia.
  - apply Forall_forall. intros m [Hle Hm]%list_elem_of_filter. split; [|done]. split; [|done].
    unfold defaultProbeMilestones, baseTunnelMTU in *. set_unfold. lia.
  - intros _. split; [destruct (_ <=? _)%nat; auto|lia].
Qed.

Lemma lookup_drop_head {A} (l : list A) i x :
  l !! i = Some x -> drop i l = x :: drop (S i) l.
Proof. intros H. by rewrite (drop_S _ x). Qed.

Lemma wf_record top target success p :
  wf top p -> wf top (RecordProbeResult target success p).2.
Proof.
  intros [Hs Hr Hi Hf Ha Hm Hw]. unfold RecordProbeResult.
  case_bool_decide as Hst; simpl; [|by split].
  destruct (Hw Hst) as [Hfail Hahead].
  destruct (Nat.leb_spec (length (milestones p)) (currentIndex p)); simpl; [by split|].
  case_bool_decide as Hl; simpl; [|by split].
  pose proof (proj1 (Forall_lookup _ _) Hr _ _ Hl) as [Ht _].
  destruct success; simpl.
  - rewrite (lookup_drop_head _ _ _ Hl) in Hahead. apply Forall_cons in Hahead as [Hlt Hrest].
    split; simpl; unfold maxDPLPMTUDProbesPerMilestone in *; try done; try lia.
    + intros Hman. destruct (Ha Hman) as (Hor & Hmt & Hc).
      split; [destruct (_ <=? _)%nat; auto|]. split; [done|]. lia.
    + intros Hman. specialize (Hm Hman). congruence.
    + intros _. split; [done|]. apply Forall_forall. intros m Hm'.
      pose proof Hs as Hs'. rewrite <- (take_drop (currentIndex p)) in Hs'.
      apply StronglySorted_app_1_r in Hs'. rewrite (lookup_drop_head _ _ _ Hl) in Hs'.
      apply StronglySorted_inv in Hs' as [_ Hlt']. rewrite Forall_forall in Hlt'. by apply Hlt'.
  - unfold maxDPLPMTUDProbesPerMilestone in *. int64.
    split; simpl; unfold maxDPLPMTUDProbesPerMilestone in *; try done; try lia.
    + intros Hman. destruct (Ha Hman) as (Hor & Hmt & Hc).
      split; [destruct (_ <=? _); auto|done].
    + intros Hman. specialize (Hm Hman). congruence.
    + destruct (Z.leb_spec 2 (failedAttempts p + 1)); [done|]. intros _. split; [lia|done].
Qed.

Lemma wf_reset top p : wf top p -> wf top (Reset p).
Proof.
  intros Hwf. unfold Reset. destruct (manualOverride p) eqn:E; [done|].
  destruct Hwf as [Hs Hr Hi Hf Ha Hm Hw]. destruct (Ha E) as (_ & Hmt & Hc).
  split; simpl; try done; try lia.
  - intros _. split; [by left|]. split; [done|lia].
  - intros _. split; [done|]. rewrite drop_0. eapply Forall_impl; [exact Hr|]. simpl. lia.
Qed.

Lemma wf_step top p q : wf top p -> step p q -> wf top q.
Proof.
  intros Hwf Hst. revert Hwf. destruct Hst as [r|r target success|r].
  - intros []. by split.
  - apply wf_record.
  - apply wf_reset.
Qed.

Lemma reachable_wf initialMTU maxTarget manualMTU p :
  reachable initialMTU maxTarget manualMTU p -> wf (ceiling initialMTU maxTarget) p.
Proof. induction 1; eauto using wf_new, wf_step. Qed.

Lemma reachable_manual initialMTU maxTarget manualMTU p :
  reachable initialMTU maxTarget manualMTU p -> manualOverride p = (0 <? manualMTU).
Proof.
  induction 1 as [|p q _ IH Hst].
  - unfold newPeerMTUProber. by destruct (0 <? manualMTU).
  - rewrite <- IH. clear IH. destruct Hst as [r|r t s|r].
    + done.
    + unfold RecordProbeResult. by repeat case_match.
    + unfold Reset. by destruct (manualOverride r) eqn:E.
Qed.

Lemma reachable_maxTarget initialMTU maxTarget manualMTU p :
  reachable initialMTU maxTarget manualMTU p ->
  maxTargetMTU p = if 0 <? manualMTU then manualMTU else Z.max baseTunnelMTU maxTarget.
Proof.
  induction 1 as [|p q _ IH Hst].
  - unfold newPeerMTUProber. destruct (0 <? manualMTU); simpl; [done|].
    destruct (Z.ltb_spec maxTarget baseTunnelMTU); lia.
  - rewrite <- IH. clear IH. destruct Hst as [r|r t s|r].
    + done.
    + unfold RecordProbeResult. by repeat case_match.
    + unfold Reset. by destruct (manualOverride r).
Qed.

Lemma NextProbeMTU_Some p t :
  NextProbeMTU p = Some t <->
  armed p = true /\ state p = dplpmtudStateSearching /\ milestones p !! currentIndex p = Some t.
Proof.
  unfold NextProbeMTU. destruct (armed p); simpl; [|naive_solver].
  case_bool_decide; simpl; [|naive_solver].
  destruct (Nat.leb_spec (length (milestones p)) (currentIndex p)); [|naive_solver].
  rewrite lookup_ge_None_2 by lia. naive_solver.
Qed.

(** One recorded result, for a prober whose current milestone is [target]. *)
Lemma record_success p target :
  state p = dplpmtudStateSearching -> milestones p !! currentIndex p = Some target ->
  let fin := (length (milestones p) <=? S (currentIndex p))%nat in
  RecordProbeResult target true p =
    (confirmedMTU p <? target, target, fin,
     {| state := if fin then dplpmtudStateSearchComplete else dplpmtudStateSearching;
        milestones := milestones p; currentIndex := S (currentIndex p); confirmedMTU := target;
        maxTargetMTU := maxTargetMTU p; failedAttempts := 0;
        manualOverride := manualOverride p; armed := armed p |}).
Proof.
  intros Hst Hl fin. unfold RecordProbeResult. rewrite Hst, bool_decide_true by done.
  pose proof (lookup_lt_Some _ _ _ Hl).
  destruct (Nat.leb_spec (length (milestones p)) (currentIndex p)); [lia|].
  rewrite bool_decide_true by done. done.
Qed.

Lemma record_failure p target :
  state p = dplpmtudStateSearching -> milestones p !! currentIndex p = Some target ->
  0 <= failedAttempts p < 2 ->
  let fin := 2 <=? failedAttempts p + 1 in
  RecordProbeResult target false p =
    (false, confirmedMTU p, fin,
     {| state := if fin then dplpmtudStateSearchComplete else dplpmtudStateSearching;
        milestones := milestones p; currentIndex := currentIndex p;
        confirmedMTU := confirmedMTU p; maxTargetMTU := maxTargetMTU p;
        failedAttempts := failedAttempts p + 1; manualOverride := manualOverride p;
        armed := armed p |}).
Proof.
  intros Hst Hl Hf fin. unfold RecordProbeResult. rewrite Hst, bool_decide_true by done.
  pose proof (lookup_lt_Some _ _ _ Hl).
  destruct (Nat.leb_spec (length (milestones p)) (currentIndex p)); [lia|].
  rewrite bool_decide_true by done. simpl. unfold maxDPLPMTUDProbesPerMilestone. int64. done.
Qed.

Lemma search_done fuel answer p :
  state p <> dplpmtudStateSearching -> search fuel answer p = p.
Proof.
  intros Hst. destruct fuel as [|f]; simpl; [done|]. unfold probe_once, NextProbeMTU.
  rewrite (bool_decide_false _ Hst), orb_true_r. done.
Qed.

Lemma search_next fuel answer p t :
  NextProbeMTU p = Some t ->
  search (S fuel) answer p
  = search fuel answer (RecordProbeResult t (answer t (failedAttempts p)) p).2.
Proof. intros H. simpl. unfold probe_once. by rewrite H. Qed.

(** The search from any prober about to try its next milestone for the first
    time: two rounds per remaining milestone are enough. *)
Lemma search_climb answer ms : forall fuel p,
  state p = dplpmtudStateSearching -> armed p = true -> failedAttempts p = 0 ->
  drop (currentIndex p) (milestones p) = ms -> ms <> [] ->
  (2 * length ms <= fuel)%nat ->
  let q := search fuel answer p in
  confirmedMTU q = climb answer (confirmedMTU p) ms /\ state q = dplpmtudStateSearchComplete.
Proof.
  induction ms as [|m ms IH]; intros fuel p Hst Harm Hfail Hdrop Hne Hfuel; [done|].
  assert (milestones p !! currentIndex p = Some m) as Hl.
  { rewrite <- (Nat.add_0_r (currentIndex p)), <- lookup_drop, Hdrop. done. }
  assert (drop (S (currentIndex p)) (milestones p) = ms) as Hdrop'.
  { rewrite (lookup_drop_head _ _ _ Hl) in Hdrop. congruence. }
  assert (length (milestones p) = (S (currentIndex p) + length ms)%nat) as Hlen.
  { pose proof (lookup_lt_Some _ _ _ Hl). rewrite <- Hdrop', length_drop. lia. }
  assert (NextProbeMTU p = Some m) as Hnext by (apply NextProbeMTU_Some; done).
  (* what happens once a probe of [m] succeeds from a state like [p] *)
  assert (Hup : forall g r, state r = state p -> armed r = true -> milestones r = milestones p ->
    currentIndex r = currentIndex p -> (2 * length ms <= g)%nat ->
    let q := search g answer (RecordProbeResult m true r).2 in
    confirmedMTU q = climb answer m ms /\ state q = dplpmtudStateSearchComplete).
  { intros g r Hst' Harm' Hms' Hidx' Hg. rewrite record_success by congruence. simpl.
    rewrite Hms', Hidx', Hlen.
    destruct ms as [|m2 ms'].
    - rewrite (proj2 (Nat.leb_le _ _)) by (simpl; lia). rewrite search_done by done. done.
    - rewrite (proj2 (Nat.leb_gt _ _)) by (simpl; lia). by apply IH. }
  destruct fuel as [|[|fuel]]; [simpl in Hfuel; lia..|]. simpl in Hfuel.
  rewrite (search_next _ _ _ _ Hnext), Hfail. cbn [climb].
  destruct (answer m 0) eqn:H0; cbn [orb].
  { apply (Hup (S fuel)); try done. lia. }
  rewrite record_failure by (try done; lia). rewrite Hfail. cbn [snd].
  change (2 <=? 0 + 1) with false. cbn iota. change (0 + 1) with 1.
  set (p1 := {| state := dplpmtudStateSearching |}).
  assert (NextProbeMTU p1 = Some m) as Hnext1 by (apply NextProbeMTU_Some; done).
  rewrite (search_next _ _ _ _ Hnext1). change (failedAttempts p1) with 1.
  destruct (answer m 1) eqn:H1.
  { apply (Hup fuel p1); try done. lia. }
  rewrite record_failure by (try done; simpl; lia). simpl. rewrite search_done by done. done.
Qed.

Lemma climb_limit limit c ms :
  StronglySorted Z.lt ms -> Forall (fun m => c < m) ms ->
  climb (fun m _ => m <=? limit) c ms = foldr Z.max c (filter (fun m => m <= limit) ms).
Proof.
  intros Hs. revert c. induction Hs as [|m ms Hs IH Hm]; intros c Hc; [done|].
  apply Forall_cons in Hc as [Hcm Hc]. simpl. rewrite filter_cons.
  destruct (Z.leb_spec m limit) as [Hle|Hgt]; simpl.
  - rewrite decide_True by done. simpl. rewrite IH by done.
    assert (forall l, m <= foldr Z.max m l) as Hb by (induction l; simpl; lia).
    assert (forall l, foldr Z.max m l = Z.max m (foldr Z.max c l)) as Hmax
      by (induction l; simpl; lia).
    by rewrite Hmax.
  - rewrite decide_False by lia.
    assert (filter (fun x => x <= limit) ms = []) as ->; [|done].
    apply elem_of_nil_inv. intros x [Hle Hx]%list_elem_of_filter.
    rewrite Forall_forall in Hm. specialize (Hm x Hx). lia.
Qed.

Definition clamp_floor (x : Z) : Z := Z.max baseTunnelMTU x.

Lemma new_auto_ready initialMTU maxTarget :
  let p := newPeerMTUProber initialMTU maxTarget 0 in
  let ahead := filter (fun m => m <= clamp_floor maxTarget) defaultProbeMilestones in
  armed p = true /\ failedAttempts p = 0 /\ confirmedMTU p = clamp_floor initialMTU
  /\ drop (currentIndex p) (milestones p) = filter (fun m => clamp_floor initialMTU < m) ahead
  /\ state p = (if decide (drop (currentIndex p) (milestones p) = [])
                then dplpmtudStateSearchComplete else dplpmtudStateSearching).
Proof.
  unfold newPeerMTUProber. simpl.
  assert (forall x, (if x <? baseTunnelMTU then baseTunnelMTU else x) = clamp_floor x) as Hclamp.
  { intros x. unfold clamp_floor. destruct (Z.ltb_spec x baseTunnelMTU); lia. }
  rewrite !Hclamp. set (cs := filter _ _).
  destruct (start_index_split (clamp_floor initialMTU) 0 cs) as (k & -> & Hk & Hd).
  { apply StronglySorted_filter, defaultProbeMilestones_sorted. }
  simpl. split_and!; try done.
  assert (drop k cs = [] <-> (length cs <= k)%nat) as Hnil.
  { split; [|apply drop_ge]. intros E%(f_equal length). rewrite length_drop in E. simpl in E. lia. }
  destruct (Nat.leb_spec (length cs) k) as [Hle|Hgt].
  - by rewrite decide_True by (apply Hnil; done).
  - rewrite decide_False; [done|]. rewrite Hnil. lia.
Qed.

Lemma ahead_facts initialMTU maxTarget :
  let p := newPeerMTUProber initialMTU maxTarget 0 in
  let ms := drop (currentIndex p) (milestones p) in
  StronglySorted Z.lt ms /\ Forall (fun m => confirmedMTU p < m) ms /\ (length ms <= 4)%nat.
Proof.
  destruct (new_auto_ready initialMTU maxTarget) as (_ & _ & Hc & Hd & _). cbn zeta in *.
  rewrite Hc, Hd. split_and!.
  - by apply StronglySorted_filter, StronglySorted_filter, defaultProbeMilestones_sorted.
  - apply filter_lt_above.
  - etransitivity; [apply length_filter|]. apply length_filter.
Qed.

(** Eight probes complete the search, at the MTU [climb] gives. *)
Lemma search_ends answer initialMTU maxTarget :
  let p := newPeerMTUProber initialMTU maxTarget 0 in
  let q := search 8 answer p in
  state q = dplpmtudStateSearchComplete
  /\ ConfirmedMTU q = climb answer (ConfirmedMTU p) (drop (currentIndex p) (milestones p)).
Proof.
  intros p q.
  destruct (new_auto_ready initialMTU maxTarget) as (Harm & Hf & _ & _ & Hst).
  destruct (ahead_facts initialMTU maxTarget) as (_ & _ & Hlen).
  fold p in Harm, Hf, Hst, Hlen. case_decide as E.
  - unfold q. rewrite search_done by congruence. rewrite E. auto.
  - destruct (search_climb answer _ 8 p Hst Harm Hf eq_refl E ltac:(lia)) as [? ?]. auto.
Qed.

(** ** Properties *)

(** [C8] The automatic search of a new prober, run against any network, ends:
    eight probes at most take it to SEARCH_COMPLETE with nothing more to probe,
    and the MTU it locks is the one the specification [climb] gives: the last
    milestone of the unbroken run, from the starting MTU, of milestones one of
    whose two attempts was answered. *)
Theorem search_refines_climb (answer : Z -> Z -> bool) (initialMTU maxTarget : Z) :
  let p := newPeerMTUProber initialMTU maxTarget 0 in
  let q := search 8 answer p in
  State q = dplpmtudStateSearchComplete
  /\ NextProbeMTU q = None
  /\ ConfirmedMTU q = climb answer (ConfirmedMTU p) (drop (currentIndex p) (milestones p)).
Proof.
  intros p q. destruct (search_ends answer initialMTU maxTarget) as [Hq Hm].
  split_and!; [done| |done]. unfold NextProbeMTU.
  rewrite (bool_decide_false (state _ = _)), orb_true_r by (fold p q in Hq; congruence). done.
Qed.

(** On a path that carries probes of at most [limit] bytes the search locks
    the largest milestone that fits both the path and the target ceiling, and
    stays at the starting MTU when none does. *)
Theorem search_finds_path_limit (limit initialMTU maxTarget : Z) :
  ConfirmedMTU (search 8 (fun m _ => m <=? limit) (newPeerMTUProber initialMTU maxTarget 0))
  = foldr Z.max (clamp_floor initialMTU)
      (filter (fun m => m <= limit)
         (filter (fun m => clamp_floor initialMTU < m)
            (filter (fun m => m <= clamp_floor maxTarget) defaultProbeMilestones))).
Proof.
  destruct (search_ends (fun m _ => m <=? limit) initialMTU maxTarget) as [_ ->].
  destruct (new_auto_ready initialMTU maxTarget) as (_ & _ & Hc & Hd & _).
  destruct (ahead_facts initialMTU maxTarget) as (Hs & Ha & _). cbn zeta in *.
  unfold ConfirmedMTU. rewrite climb_limit by done. by rewrite Hc, Hd.
Qed.

(** In every state the prober can reach without a manual MTU, the confirmed
    MTU is at least 1280 and at most the larger of the MTU it started with and
    its ceiling; a probe it asks for is one of the milestones, above the
    confirmed MTU and within the ceiling. *)
Theorem reachable_mtu_bounds (initialMTU maxTarget manualMTU : Z) (p : peerMTUProber) :
  manualMTU <= 0 -> reachable initialMTU maxTarget manualMTU p ->
  baseTunnelMTU <= ConfirmedMTU p <= ceiling initialMTU maxTarget
  /\ forall t, NextProbeMTU p = Some t ->
       ConfirmedMTU p < t <= clamp_floor maxTarget /\ t ∈ defaultProbeMilestones.
Proof.
  intros Hman Hp. pose proof (reachable_wf _ _ _ _ Hp) as [_ Hr _ _ Ha _ Hw].
  pose proof (reachable_manual _ _ _ _ Hp) as Hm. pose proof (reachable_maxTarget _ _ _ _ Hp) as Hmt.
  rewrite (proj2 (Z.ltb_ge 0 manualMTU)) in Hm, Hmt by lia.
  destruct (Ha Hm) as (_ & _ & Hc). split; [done|].
  intros t (_ & Hst & Hl)%NextProbeMTU_Some. destruct (Hw Hst) as [_ Hd].
  rewrite (lookup_drop_head _ _ _ Hl) in Hd. apply Forall_cons in Hd as [Hlt _].
  rewrite Forall_forall in Hr. destruct (Hr t) as [Ht Hin]; [by eapply list_elem_of_lookup_2|].
  rewrite Hmt in Ht. unfold clamp_floor, ConfirmedMTU. split; [lia|done].
Qed.

Lemma reachable_mtu_bounds_witness :
  let p := (RecordProbeResult 1360 true (newPeerMTUProber 1280 1420 0)).2 in
  (baseTunnelMTU <= ConfirmedMTU p <= ceiling 1280 1420)
  /\ (ConfirmedMTU p < 1400 <= clamp_floor 1420 /\ 1400 ∈ defaultProbeMilestones).
Proof.
  destruct (reachable_mtu_bounds 1280 1420 0
    (RecordProbeResult 1360 true (newPeerMTUProber 1280 1420 0)).2) as [Hb Hn].
  - lia.
  - eapply reach_step; [apply reach_new|apply step_record].
  - split; [exact Hb|]. apply Hn. reflexivity.
Defined.

(** What [RecordProbeResult] reports is what it did: the MTU it returns is
    the new confirmed MTU, which never decreases; it reports a change exactly
    when the confirmed MTU rose, and reports the search done exactly when the
    prober is no longer SEARCHING. *)
Theorem record_reports_truth (initialMTU maxTarget manualMTU target : Z) (success : bool)
    (p : peerMTUProber) :
  reachable initialMTU maxTarget manualMTU p ->
  let '(mtuChanged, newMTU, searchDone, q) := RecordProbeResult target success p in
  newMTU = ConfirmedMTU q /\ ConfirmedMTU p <= ConfirmedMTU q
  /\ (mtuChanged = true <-> ConfirmedMTU p < ConfirmedMTU q)
  /\ (searchDone = true <-> State q <> dplpmtudStateSearching).
Proof.
  intros Hp. pose proof (reachable_wf _ _ _ _ Hp) as [_ _ _ Hf _ _ Hw].
  unfold ConfirmedMTU, State.
  destruct (decide (state p = dplpmtudStateSearching)) as [Hst|Hst].
  - destruct (Hw Hst) as [Hfail Hahead].
    destruct (decide (milestones p !! currentIndex p = Some target)) as [Hl|Hl].
    + rewrite (lookup_drop_head _ _ _ Hl) in Hahead. apply Forall_cons in Hahead as [Hlt _].
      destruct success.
      * rewrite record_success by done. simpl. split_and!; [done|lia| |].
        -- rewrite Z.ltb_lt. done.
        -- by destruct (_ <=? _)%nat.
      * rewrite record_failure by (try done; unfold maxDPLPMTUDProbesPerMilestone in *; lia).
        simpl. split_and!; [done|lia|split; [done|lia]|]. by destruct (_ <=? _).
    + unfold RecordProbeResult. rewrite bool_decide_true by done.
      rewrite (bool_decide_false _ Hl), orb_true_r. simpl.
      split_and!; [done|lia|split; [done|lia]|by split].
  - unfold RecordProbeResult. rewrite bool_decide_false by done. simpl.
    split_and!; [done|lia|split; [done|lia]|by split].
Qed.

Lemma record_reports_truth_witness :
  let '(mtuChanged, newMTU, searchDone, q) :=
    RecordProbeResult 1360 true (newPeerMTUProber 1280 1440 0) in
  newMTU = ConfirmedMTU q /\ ConfirmedMTU (newPeerMTUProber 1280 1440 0) <= ConfirmedMTU q
  /\ (mtuChanged = true <-> ConfirmedMTU (newPeerMTUProber 1280 1440 0) < ConfirmedMTU q)
  /\ (searchDone = true <-> State q <> dplpmtudStateSearching).
Proof.
  exact (record_reports_truth 1280 1440 0 1360 true (newPeerMTUProber 1280 1440 0)
           (reach_new 1280 1440 0)).
Defined.

(** Calls that do not arm the prober. *)
Inductive quiet_step : peerMTUProber -> peerMTUProber -> Prop :=
| quiet_record p target success : quiet_step p (RecordProbeResult target success p).2
| quiet_reset p : quiet_step p (Reset p).

Lemma quiet_unarmed p q : quiet_step p q -> armed p = false -> armed q = false.
Proof.
  intros Hq. destruct Hq as [r t s|r].
  - unfold RecordProbeResult. by repeat case_match.
  - unfold Reset. by destruct (manualOverride r).
Qed.

(** After [Reset] a prober without manual override is back at 1280 bytes,
    and whatever results are recorded and however often it is reset again, it
    asks for no probe until [Arm] is called; [Arm] then starts the search from
    the first milestone. *)
Theorem reset_pauses_until_armed (p q : peerMTUProber) :
  manualOverride p = false -> rtc quiet_step (Reset p) q ->
  ConfirmedMTU (Reset p) = baseTunnelMTU /\ NextProbeMTU q = None
  /\ NextProbeMTU (Arm (Reset p)) = head (milestones p).
Proof.
  intros Hm Hq. assert (armed q = false) as Hunarmed.
  { assert (armed (Reset p) = false) as H0 by (unfold Reset; by rewrite Hm).
    induction Hq as [r|r s t Hst _ IH]; [done|]. eapply IH, quiet_unarmed; eauto. }
  split_and!.
  - unfold Reset. by rewrite Hm.
  - unfold NextProbeMTU. by rewrite Hunarmed.
  - unfold Reset. rewrite Hm. unfold NextProbeMTU. simpl. by destruct (milestones p).
Qed.

Lemma reset_pauses_until_armed_witness :
  let p := (RecordProbeResult 1360 true (newPeerMTUProber 1280 1440 0)).2 in
  ConfirmedMTU (Reset p) = baseTunnelMTU
  /\ NextProbeMTU (RecordProbeResult 1360 true (Reset p)).2 = None
  /\ NextProbeMTU (Arm (Reset p)) = Some 1360.
Proof.
  apply (reset_pauses_until_armed
    (RecordProbeResult 1360 true (newPeerMTUProber 1280 1440 0)).2
    (RecordProbeResult 1360 true
       (Reset (RecordProbeResult 1360 true (newPeerMTUProber 1280 1440 0)).2)).2).
  - reflexivity.
  - eapply rtc_once, quiet_record.
Defined.

(** A manually configured MTU is never probed away: in every state reached
    from a manual prober the state is DISABLED, the MTU is the configured one
    and no probe is due. *)
Theorem manual_mtu_locked (initialMTU maxTarget manualMTU : Z) (p : peerMTUProber) :
  0 < manualMTU -> reachable initialMTU maxTarget manualMTU p ->
  State p = dplpmtudStateDisabled /\ ConfirmedMTU p = manualMTU /\ NextProbeMTU p = None.
Proof.
  intros Hpos Hp.
  assert (state p = dplpmtudStateDisabled /\ confirmedMTU p = manualMTU
          /\ manualOverride p = true) as (Hst & Hc & _).
  { induction Hp as [|p q _ (Hst & Hc & Hm) Hstep].
    - unfold newPeerMTUProber. by rewrite (proj2 (Z.ltb_lt _ _) Hpos).
    - destruct Hstep as [r|r t s|r]; [done| |].
      + unfold RecordProbeResult. rewrite bool_decide_false by congruence. done.
      + unfold Reset. rewrite Hm. done. }
  split_and!; [done|done|]. unfold NextProbeMTU.
  rewrite (bool_decide_false (state p = _)), orb_true_r by congruence. done.
Qed.

Lemma manual_mtu_locked_witness :
  let p := Reset (Arm (newPeerMTUProber 1280 1440 1360)) in
  State p = dplpmtudStateDisabled /\ ConfirmedMTU p = 1360 /\ NextProbeMTU p = None.
Proof.
  apply (manual_mtu_locked 1280 1440 1360 (Reset (Arm (newPeerMTUProber 1280 1440 1360)))).
  - lia.
  - eapply reach_step; [eapply reach_step; [apply reach_new|apply step_arm]|apply step_reset].
Defined.

End Prober.
