(* ===== verification/EchoPayload.v ===== *)
(** The in-tunnel UDP echo messages: the padded probe payload built by
    [buildPaddedEchoPayload] ([peermtu.go]), the plain request and the response
    parser of [udpecho.go]. *)

From S2P Require Import Prelude GoStrings GoJson.
From Stdlib Require Import Ascii.
Open Scope Z_scope.

(** ** Building *)

Record echoProbePayload := {
  SessionSecretHash : string;
  RequestID : string;
  Timeout : Z;
  Padding : string;
}.

(** [json.Marshal] of an [echoProbePayload]; [pad] is [omitempty]. *)
Definition marshal_probe (p : echoProbePayload) : string :=
  json_object
    ([("session_secret_hash", json_string (SessionSecretHash p));
      ("req_id", json_string (RequestID p));
      ("timeout", itoa (Timeout p))]
     ++ match Padding p with
        | EmptyString => []
        | pad => [("pad", json_string pad)]
        end).

Definition with_padding (p : echoProbePayload) (pad : string) : echoProbePayload :=
  {| SessionSecretHash := SessionSecretHash p; RequestID := RequestID p;
     Timeout := Timeout p; Padding := pad |}.

Fixpoint str_repeat (c : ascii) (n : nat) : string :=
  match n with O => EmptyString | S n' => String c (str_repeat c n') end.

(** [for len(padded) < target { req.Padding += "A"; ... }]; [None] is fuel
    running out. *)
Fixpoint pad_up (fuel : nat) (target : Z) (p : echoProbePayload) : option echoProbePayload :=
  if strlen (marshal_probe p) <? target then
    match fuel with
    | O => None
    | S f => pad_up f target (with_padding p (Padding p ++ "A")%string)
    end
  else Some p.

(** [for len(padded) > target && len(req.Padding) > 0 { drop the last byte; ... }]. *)
Fixpoint pad_down (fuel : nat) (target : Z) (p : echoProbePayload) : option echoProbePayload :=
  if (target <? strlen (marshal_probe p)) && (0 <? strlen (Padding p)) then
    match fuel with
    | O => None
    | S f => pad_down f target
               (with_padding p (str_take (String.length (Padding p) - 1) (Padding p)))
    end
  else Some p.

Definition minEchoPayload : Z := 64.

Definition payload_target (targetPacketSize ipHeaderLen : Z) : Z :=
  let t := (targetPacketSize -i ipHeaderLen) -i 8 in
  if t <? minEchoPayload then minEchoPayload else t.

Definition probe_base (secretHash reqID : string) (timeoutMs : Z) : echoProbePayload :=
  {| SessionSecretHash := secretHash; RequestID := reqID; Timeout := timeoutMs;
     Padding := EmptyString |}.

Definition buildPaddedEchoPayload (secretHash reqID : string)
    (timeoutMs targetPacketSize ipHeaderLen : Z) : option string :=
  let target := payload_target targetPacketSize ipHeaderLen in
  let req := probe_base secretHash reqID timeoutMs in
  let base := marshal_probe req in
  if target <=? strlen base then Some base
  else
    let neededPad := (target -i strlen base) -i 9 in
    if neededPad <? 0 then Some base
    else
      match pad_up (Z.to_nat target) target
              (with_padding req (str_repeat "A" (Z.to_nat neededPad))) with
      | None => None
      | Some up =>
          match pad_down (S (String.length (Padding up))) target up with
          | None => None
          | Some down => Some (marshal_probe down)
          end
      end.

(** The plain request of the pinger's loop. *)
Definition marshal_request (secretHash reqID : string) (timeoutMs : Z) : string :=
  marshal_probe (probe_base secretHash reqID timeoutMs).

(** ** Parsing a response *)

Inductive echo_error : Type :=
| EchoBadJson
| EchoNoReqID
| EchoUnsupported.

(** The last member whose key selects [req_id]; absent is the empty
    [json.RawMessage]. *)
Definition parseUDPEchoResponse (data : string) : result echo_error string :=
  match parse_json data with
  | None => Err EchoBadJson
  | Some doc =>
      match as_members doc with
      | None => Err EchoBadJson
      | Some ms =>
          match last (field_values "req_id" ms) with
          | None | Some JNull => Err EchoNoReqID
          | Some (JStr s) => Ok s
          | Some (JNum lit) => Ok lit
          | Some _ => Err EchoUnsupported
          end
      end
  end.

(** ** Sizes *)

Lemma runes_A s : runes (String "A" s) = (65, "A"%string) :: runes s.
Proof. reflexivity. Qed.

Lemma body_repeat_A n : json_string_body (str_repeat "A" n) = str_repeat "A" n.
Proof.
  induction n as [|n IH]; [done|]. simpl str_repeat at 1. unfold json_string_body in *.
  rewrite runes_A by done. rewrite fmap_cons. simpl.
  destruct (json_escape_rune <$> runes (str_repeat "A" n)) as [|x xs] eqn:E; simpl in *.
  - by rewrite <- IH.
  - by rewrite IH.
Qed.

Lemma length_str_repeat c n : String.length (str_repeat c n) = n.
Proof. induction n; simpl; auto. Qed.

Lemma concat_snoc sep x xs y :
  String.concat sep ((x :: xs) ++ [y]) = (String.concat sep (x :: xs) ++ sep ++ y)%string.
Proof.
  revert x. induction xs as [|z xs IH]; intros x; [done|].
  cbn [app]. change (String.concat sep (x :: z :: xs ++ [y]))
    with (x ++ sep ++ String.concat sep ((z :: xs) ++ [y]))%string.
  rewrite IH. change (String.concat sep (x :: z :: xs))
    with (x ++ sep ++ String.concat sep (z :: xs))%string.
  by rewrite !append_assoc.
Qed.

Lemma marshal_padded_length p n :
  Padding p = EmptyString -> (0 < n)%nat ->
  strlen (marshal_probe (with_padding p (str_repeat "A" n)))
  = strlen (marshal_probe p) + 9 + Z.of_nat n.
Proof.
  intros Hp Hn. destruct n as [|n]; [lia|]. unfold marshal_probe. rewrite Hp.
  cbn [with_padding Padding SessionSecretHash RequestID Timeout].
  change (str_repeat "A" (S n)) with (String "A" (str_repeat "A" n)) at 1. cbv iota.
  rewrite app_nil_r. unfold json_object. rewrite fmap_app.
  rewrite !fmap_cons, fmap_nil, concat_snoc, !strlen_append.
  change (String "A" (str_repeat "A" n)) with (str_repeat "A" (S n)).
  assert (strlen (json_field ("pad", json_string (str_repeat "A" (S n)))) = 8 + Z.of_nat (S n)) as ->.
  { unfold json_field. cbn [fst snd]. unfold json_string at 2.
    rewrite body_repeat_A, strlen_append.
    change (strlen (json_string "pad")) with 5. rewrite strlen_append.
    change (strlen ":") with 1. unfold strlen. simpl. rewrite length_append, length_str_repeat.
    simpl. lia. }
  change (strlen ",") with 1. lia.
Qed.

Lemma marshal_probe_length_bound p : 0 < strlen (marshal_probe p).
Proof.
  unfold marshal_probe, json_object. rewrite strlen_append. change (strlen "{") with 1.
  match goal with |- context [strlen ?x] => pose proof (strlen_nonneg x) end. lia.
Qed.

Lemma pad_up_done fuel target p : target <= strlen (marshal_probe p) -> pad_up fuel target p = Some p.
Proof. intros H. destruct fuel; simpl; by rewrite (proj2 (Z.ltb_ge _ _)) by lia. Qed.

Lemma pad_up_more fuel target p :
  strlen (marshal_probe p) < target ->
  pad_up (S fuel) target p = pad_up fuel target (with_padding p (Padding p ++ "A")%string).
Proof. intros H. simpl. by rewrite (proj2 (Z.ltb_lt _ _)) by lia. Qed.

Lemma pad_down_done fuel target p : strlen (marshal_probe p) <= target -> pad_down fuel target p = Some p.
Proof. intros H. destruct fuel; simpl; by rewrite (proj2 (Z.ltb_ge _ _)) by lia. Qed.

Lemma pad_down_more fuel target p :
  target < strlen (marshal_probe p) -> 0 < strlen (Padding p) ->
  pad_down (S fuel) target p
  = pad_down fuel target (with_padding p (str_take (String.length (Padding p) - 1) (Padding p))).
Proof. intros H H'. simpl. by rewrite !(proj2 (Z.ltb_lt _ _)) by lia. Qed.

(** ** Properties *)

(** [C40] For every secret hash, request id and packet size the builder returns a
    payload (its two padding loops end), and which one depends only on the room
    left: when the unpadded request leaves more than the nine bytes the padding
    field costs, the payload is padded to exactly the target size, and otherwise
    it is the unpadded request. *)
Theorem padded_payload_exact (secretHash reqID : string) (timeoutMs target ipHeaderLen : Z) :
  0 <= ipHeaderLen <= 40 -> 0 <= target <= 65535 ->
  let base := marshal_request secretHash reqID timeoutMs in
  let tp := Z.max minEchoPayload (target - ipHeaderLen - 8) in
  if strlen base + 9 <? tp
  then exists payload,
         buildPaddedEchoPayload secretHash reqID timeoutMs target ipHeaderLen = Some payload
         /\ strlen payload = tp
         /\ payload = marshal_probe (with_padding (probe_base secretHash reqID timeoutMs)
              (str_repeat "A" (Z.to_nat (tp - strlen base - 9))))
  else buildPaddedEchoPayload secretHash reqID timeoutMs target ipHeaderLen = Some base.
Proof.
  intros Hip Ht base tp. unfold buildPaddedEchoPayload.
  assert (payload_target target ipHeaderLen = tp) as ->.
  { unfold payload_target, tp, minEchoPayload. int64.
    destruct (Z.ltb_spec (target - ipHeaderLen - 8) 64); lia. }
  fold (marshal_request secretHash reqID timeoutMs). fold base.
  set (req := probe_base secretHash reqID timeoutMs) in *.
  assert (0 < strlen base) as Hpos by apply marshal_probe_length_bound.
  assert (64 <= tp <= 65535) as Htp by (unfold tp, minEchoPayload; lia).
  destruct (Z.leb_spec tp (strlen base)) as [Hle|Hgt].
  { by rewrite (proj2 (Z.ltb_ge _ _)) by lia. }
  int64. destruct (Z.ltb_spec (tp - strlen base - 9) 0) as [Hneg|Hnn].
  { by rewrite (proj2 (Z.ltb_ge _ _)) by lia. }
  assert (forall n, (0 < n)%nat ->
    strlen (marshal_probe (with_padding req (str_repeat "A" n))) = strlen base + 9 + Z.of_nat n)
    as Hlen by (intros n Hn; by apply marshal_padded_length).
  destruct (Z.ltb_spec (strlen base + 9) tp) as [Hroom|Hzero].
  - specialize (Hlen (Z.to_nat (tp - strlen base - 9)) ltac:(lia)).
    rewrite Z2Nat.id in Hlen by lia. rewrite (pad_up_done _ tp) by lia.
    rewrite pad_down_done by lia. eexists. split_and!; [done|lia|done].
  - replace (tp - strlen base - 9) with 0 by lia. change (Z.to_nat 0) with O.
    specialize (Hlen 1%nat ltac:(lia)). simpl str_repeat in *.
    destruct (Z.to_nat tp) as [|[|f]] eqn:Ef; [lia..|].
    change (with_padding req EmptyString) with req in *.
    rewrite pad_up_more by (change (marshal_probe req) with base; lia).
    change (with_padding req (Padding req ++ "A")%string) with (with_padding req "A") in *.
    rewrite pad_up_done by (rewrite Hlen; lia).
    rewrite pad_down_more by (rewrite ?Hlen; done || lia).
    change (with_padding (with_padding req "A") _) with req.
    rewrite pad_down_done by (change (marshal_probe req) with base; lia). done.
Qed.

Lemma padded_payload_exact_witness :
  exists payload,
    buildPaddedEchoPayload "dGVzdC1zZWNyZXQtaGFzaA==" "42" 3000 1360 20 = Some payload
    /\ strlen payload = 1332
    /\ payload = marshal_probe (with_padding (probe_base "dGVzdC1zZWNyZXQtaGFzaA==" "42" 3000)
         (str_repeat "A" (Z.to_nat (1332
            - strlen (marshal_request "dGVzdC1zZWNyZXQtaGFzaA==" "42" 3000) - 9)))).
Proof.
  apply (padded_payload_exact "dGVzdC1zZWNyZXQtaGFzaA==" "42" 3000 1360 20); lia.
Defined.

(** ** The echo round trip *)

Lemma itoa_plain n : plain (itoa n) = true.
Proof.
  unfold plain. apply forallb_forall. intros c Hc. apply list_elem_of_In, itoa_bytes in Hc.
  destruct Hc as [Hd| ->]; [|done]. unfold is_digit in Hd. rewrite andb_true_iff, !Z.leb_le in Hd.
  unfold plain_byte, in_range. rewrite (proj2 (Z.leb_le 32 _)), (proj2 (Z.leb_le _ 126)) by lia.
  repeat match goal with
  | |- context [byte_of c =? ?k] => rewrite (proj2 (Z.eqb_neq (byte_of c) k)) by lia
  end. done.
Qed.

Lemma plain_repeat_A n : plain (str_repeat "A" n) = true.
Proof. induction n as [|n IH]; [done|]. simpl str_repeat. apply plain_cons. done. Qed.

Lemma encodes_3000 : encodes (itoa 3000) (JNum "3000").
Proof. intros fuel depth rest (c & r & -> & [-> | ->]); reflexivity. Qed.

Lemma parse_marshal_probe secretHash reqID pad :
  plain secretHash = true -> plain reqID = true -> plain pad = true ->
  parse_json (marshal_probe (with_padding (probe_base secretHash reqID 3000) pad))
  = Some (JObj ([("session_secret_hash", JStr secretHash); ("req_id", JStr reqID);
                 ("timeout", JNum "3000")]
                ++ match pad with EmptyString => [] | _ => [("pad", JStr pad)] end)).
Proof.
  intros Hs Hr Hp. unfold marshal_probe. apply parse_json_object; [|done].
  cbn [with_padding probe_base SessionSecretHash RequestID Timeout Padding].
  repeat (constructor; [split_and!; first [by apply encodes_string|apply encodes_3000|done]|]).
  destruct pad; constructor; [|constructor]. split_and!; first [by apply encodes_string|done].
Qed.

(** The echo protocol is closed: when the peer sends a request or a padded
    probe back unchanged, the response parser returns the request id that was
    sent, and it equals the id of another request only for the same request
    number, so no stale answer is taken for a current one. *)
Theorem echo_round_trip (secretHash : string) (n m : Z) (k : nat) :
  plain secretHash = true -> in_int64 n -> in_int64 m ->
  let sent := marshal_probe (with_padding (probe_base secretHash (itoa n) 3000) (str_repeat "A" k)) in
  parseUDPEchoResponse sent = Ok (itoa n)
  /\ (parseUDPEchoResponse sent = Ok (itoa m) <-> n = m).
Proof.
  intros Hs Hn Hm sent. assert (parseUDPEchoResponse sent = Ok (itoa n)) as E.
  { unfold sent, parseUDPEchoResponse.
    rewrite parse_marshal_probe by auto using itoa_plain, plain_repeat_A.
    by destruct k. }
  split; [done|]. rewrite E. split; [|by intros ->].
  intros [= Heq]. by apply itoa_inj.
Qed.

Lemma echo_round_trip_witness :
  parseUDPEchoResponse (marshal_probe (with_padding (probe_base "c2VjcmV0" (itoa 7) 3000)
    (str_repeat "A" 12))) = Ok (itoa 7)
  /\ (parseUDPEchoResponse (marshal_probe (with_padding (probe_base "c2VjcmV0" (itoa 7) 3000)
    (str_repeat "A" 12))) = Ok (itoa 8) <-> 7 = 8).
Proof.
  apply (echo_round_trip "c2VjcmV0" 7 8 12); [reflexivity| |];
    unfold in_int64, int64_min, int64_max; lia.
Defined.
