(* ===== verification/TunnelMTU.v ===== *)
(** MTU arithmetic and path discovery of [wireguard.go]: the configured MTU, the
    route MTU printed by the system tools, the encapsulation overhead and
    [discoverPathMTU]. The kernel (route tools, the dialled socket's local
    address, the interface list) is the record [host_env]. *)

From S2P Require Import Prelude GoStrings GoNet PeerMTU.
From Stdlib Require Import Ascii.
Open Scope Z_scope.

Module MTU.

Definition wgIPv4OverheadBytes : Z := 60.
Definition wgIPv6OverheadBytes : Z := 80.
Definition fallbackMTU : Z := 1420.
Definition minTunnelMTU : Z := 1280.
Definition maxInternetWireMTU : Z := 1500.
Definition minConfiguredMTU : Z := 1280.
Definition maxConfiguredMTU : Z := 1500.

Definition wireGuardOverhead (endpoint : option UDPAddr) : Z :=
  match endpoint with
  | Some e =>
      if negb (bool_decide (IP e = [])) && negb (is_v4 (IP e))
      then wgIPv6OverheadBytes else wgIPv4OverheadBytes
  | None => wgIPv4OverheadBytes
  end.

(** ** Configuration *)

Inductive config_error : Type :=
| CliMTUOutOfRange (got : Z)
| EnvMTUNotInteger (got : string)
| EnvMTUOutOfRange (got : Z)
| UnsupportedCongestionControl (got : string).

Definition resolveConfiguredMTU (cliMTU : Z) (envMTU : string) : result config_error Z :=
  if negb (cliMTU =? 0) then
    if (cliMTU <? minConfiguredMTU) || (maxConfiguredMTU <? cliMTU)
    then Err (CliMTUOutOfRange cliMTU) else Ok cliMTU
  else
    let trimmedEnv := trim_space envMTU in
    if negb (bool_decide (trimmedEnv = EmptyString)) then
      match atoi trimmedEnv with
      | None => Err (EnvMTUNotInteger trimmedEnv)
      | Some val =>
          if (val <? minConfiguredMTU) || (maxConfiguredMTU <? val)
          then Err (EnvMTUOutOfRange val) else Ok val
      end
    else Ok 0.

Definition resolveTCPCongestionControl `{UnicodeTables} (envVal : string) : result config_error string :=
  let trimmed := to_lower (trim_space envVal) in
  if bool_decide (trimmed = EmptyString) then Ok EmptyString
  else if bool_decide (trimmed = "reno") || bool_decide (trimmed = "cubic") then Ok trimmed
  else Err (UnsupportedCongestionControl envVal).

(** ** Route MTU *)

Definition positive_int (s : string) : option Z :=
  match atoi s with
  | Some v => if 0 <? v then Some v else None
  | None => None
  end.

Fixpoint index_of (x : string) (l : list string) : option nat :=
  match l with
  | [] => None
  | y :: l' => if bool_decide (y = x) then Some O else S <$> index_of x l'
  end.

Fixpoint darwin_lines (mtuCol : option nat) (lines : list string) : Z :=
  match lines with
  | [] => 0
  | line :: rest =>
      match fields line with
      | [] => darwin_lines mtuCol rest
      | fs =>
          match mtuCol with
          | None => darwin_lines (index_of "mtu" fs) rest
          | Some col =>
              match fs !! col with
              | Some f => default 0 (positive_int f)
              | None => 0
              end
          end
      end
  end.

Definition newline : ascii := of_byte 10.

Definition parseDarwinRouteMTU (output : string) : Z :=
  darwin_lines None (split_byte newline output).

Fixpoint linux_words (ws : list string) : Z :=
  match ws with
  | w :: (v :: rest) as tl =>
      if bool_decide (w = "mtu") then
        let cand := if bool_decide (v = "lock") then default v (head rest) else v in
        match positive_int cand with
        | Some n => n
        | None => linux_words tl
        end
      else linux_words tl
  | _ => 0
  end.

Definition parseLinuxRouteMTU (output : string) : Z := linux_words (fields output).

Definition computeTunnelMTU (wireMTU overhead : Z) : Z :=
  let wireMTU := if maxInternetWireMTU <? wireMTU then maxInternetWireMTU else wireMTU in
  let mtu := wireMTU -i overhead in
  if mtu <? minTunnelMTU then minTunnelMTU else mtu.

(** ** The host *)

Record iface := { iface_mtu : Z; iface_addrs : option (list netAddr) }.

Record host_env := {
  goos : string;
  (** output of a command, [None] when it fails or times out *)
  run_command : list string -> option string;
  (** local IP of a UDP socket dialled to the endpoint *)
  dial_local_ip : UDPAddr -> option (list Z);
  interfaces : option (list iface);
}.

Definition queryRouteMTU (env : host_env) (ip : list Z) : Z :=
  if bool_decide (ip = []) || is_unspecified ip || is_loopback ip then 0
  else
    let ipStr := ip_string ip in
    if bool_decide (goos env ∈ ["darwin"; "freebsd"; "openbsd"; "netbsd"]) then
      let familyArg := if is_v4 ip then "-inet" else "-inet6" in
      match run_command env ["route"; "-n"; "get"; familyArg; ipStr] with
      | Some out => parseDarwinRouteMTU out
      | None => 0
      end
    else if bool_decide (goos env = "linux") then
      match run_command env ["ip"; "route"; "get"; ipStr] with
      | Some out => parseLinuxRouteMTU out
      | None => 0
      end
    else 0.

Definition addr_matches (localIP : list Z) (a : netAddr) : bool :=
  match a with
  | IPNet ip | IPAddr ip => ip_equal ip localIP
  | OtherAddr => false
  end.

(** The two nested loops: the MTU of the first interface holding [localIP]. *)
Fixpoint find_iface (localIP : list Z) (ifaces : list iface) : option Z :=
  match ifaces with
  | [] => None
  | i :: rest =>
      match iface_addrs i with
      | None => find_iface localIP rest
      | Some addrs =>
          if existsb (addr_matches localIP) addrs then Some (iface_mtu i)
          else find_iface localIP rest
      end
  end.

Definition usable_endpoint (e : UDPAddr) : bool :=
  negb (bool_decide (IP e = []) || is_unspecified (IP e) || (Port e <=? 0) || (65535 <? Port e)).

Definition discoverPathMTU (env : host_env) (endpoint : option UDPAddr) : Z :=
  match endpoint with
  | None => fallbackMTU
  | Some e =>
      if negb (usable_endpoint e) then fallbackMTU
      else
        let overhead := wireGuardOverhead endpoint in
        match dial_local_ip env e with
        | None => fallbackMTU
        | Some localIP =>
            let routeMTU := queryRouteMTU env (IP e) in
            match interfaces env with
            | None => if 0 <? routeMTU then computeTunnelMTU routeMTU overhead else fallbackMTU
            | Some ifaces =>
                match find_iface localIP ifaces with
                | Some ifaceMTU =>
                    let wireMTU :=
                      if (0 <? routeMTU) && (routeMTU <? ifaceMTU) then routeMTU else ifaceMTU in
                    computeTunnelMTU wireMTU overhead
                | None =>
                    if 0 <? routeMTU then computeTunnelMTU routeMTU overhead else fallbackMTU
                end
            end
        end
  end.

(** ** Specification: the wire MTU the path is known to carry *)

Definition known_wire (env : host_env) (e : UDPAddr) : option Z :=
  if negb (usable_endpoint e) then None
  else match dial_local_ip env e with
  | None => None
  | Some localIP =>
      let routeMTU := queryRouteMTU env (IP e) in
      let route := if 0 <? routeMTU then Some routeMTU else None in
      match interfaces env ≫= find_iface localIP, route with
      | Some i, Some r => Some (Z.min i r)
      | Some i, None => Some i
      | None, _ => route
      end
  end.

(** Interface MTUs as a kernel reports them. *)
Definition sane_ifaces (env : host_env) : Prop :=
  forall ifs, interfaces env = Some ifs -> Forall (fun i => 0 <= iface_mtu i <= int64_max) ifs.

(** ** Lemmas *)

Lemma wireGuardOverhead_cases e : wireGuardOverhead e = 60 \/ wireGuardOverhead e = 80.
Proof. unfold wireGuardOverhead. destruct e; [destruct (_ && _)|]; auto. Qed.

Lemma computeTunnelMTU_spec wire overhead :
  0 <= wire -> overhead = 60 \/ overhead = 80 ->
  computeTunnelMTU wire overhead = Z.max 1280 (Z.min 1500 wire - overhead).
Proof.
  intros Hw Ho. unfold computeTunnelMTU, maxInternetWireMTU, minTunnelMTU.
  destruct (Z.ltb_spec 1500 wire); int64; zbool; lia.
Qed.

Lemma positive_int_bounds s v : positive_int s = Some v -> 0 < v <= int64_max.
Proof.
  unfold positive_int. destruct (atoi s) as [w|] eqn:E; [|done].
  apply atoi_bounds in E as [_ E]. destruct (Z.ltb_spec 0 w); [|done]. intros [= <-]. lia.
Qed.

Lemma linux_words_nonneg ws : 0 <= linux_words ws <= int64_max.
Proof.
  induction ws as [|w [|v rest] IH]; [unfold int64_max; simpl; lia..|].
  cbn [linux_words]. case_bool_decide; [|done].
  destruct (positive_int _) as [n|] eqn:E; [|done]. apply positive_int_bounds in E. lia.
Qed.

Lemma darwin_lines_nonneg col ls : 0 <= darwin_lines col ls <= int64_max.
Proof.
  revert col. induction ls as [|l ls IH]; intros col; [unfold int64_max; simpl; lia|].
  cbn [darwin_lines]. destruct (fields l) as [|f fs]; [apply IH|].
  destruct col as [c|]; [|apply IH].
  destruct ((f :: fs) !! c) as [g|]; simpl; [|unfold int64_max; lia].
  destruct (positive_int g) as [v|] eqn:E; simpl; [|unfold int64_max; lia].
  apply positive_int_bounds in E. lia.
Qed.

Lemma queryRouteMTU_nonneg env ip : 0 <= queryRouteMTU env ip <= int64_max.
Proof.
  assert (0 <= 0 <= int64_max) by (unfold int64_max; lia).
  unfold queryRouteMTU, parseDarwinRouteMTU, parseLinuxRouteMTU.
  repeat case_match; auto using linux_words_nonneg, darwin_lines_nonneg.
Qed.

Lemma find_iface_bounds localIP ifs m :
  Forall (fun i => 0 <= iface_mtu i <= int64_max) ifs ->
  find_iface localIP ifs = Some m -> 0 <= m <= int64_max.
Proof.
  induction 1 as [|i ifs Hi Hrest IH]; simpl; [done|].
  destruct (iface_addrs i) as [addrs|]; [|done].
  destruct (existsb _ addrs); [by intros [= <-]|done].
Qed.

Lemma discover_known env e :
  sane_ifaces env ->
  discoverPathMTU env (Some e) =
    match known_wire env e with
    | Some w => Z.max 1280 (Z.min 1500 w - wireGuardOverhead (Some e))
    | None => fallbackMTU
    end.
Proof.
  intros Hs. pose proof (wireGuardOverhead_cases (Some e)) as Ho.
  pose proof (queryRouteMTU_nonneg env (IP e)) as Hr.
  unfold discoverPathMTU, known_wire. destruct (negb (usable_endpoint e)); [done|].
  destruct (dial_local_ip env e) as [l|]; [|done].
  destruct (interfaces env) as [ifs|] eqn:Ei; simpl.
  - destruct (find_iface l ifs) as [i|] eqn:Ef.
    + apply (find_iface_bounds l ifs i (Hs ifs Ei)) in Ef.
      destruct (Z.ltb_spec 0 (queryRouteMTU env (IP e))); simpl.
      * rewrite computeTunnelMTU_spec by (try done; zbool; lia). zbool; lia.
      * rewrite computeTunnelMTU_spec by (try done; lia). done.
    + destruct (Z.ltb_spec 0 (queryRouteMTU env (IP e))); [|done].
      rewrite computeTunnelMTU_spec by (try done; lia). done.
  - destruct (Z.ltb_spec 0 (queryRouteMTU env (IP e))); [|done].
    rewrite computeTunnelMTU_spec by (try done; lia). done.
Qed.

(** ** Properties *)

(** [C38] Path discovery implements its specification on every branch: when the
    route tables or the interface holding the local address tell the wire MTU
    (the smaller when both do), the tunnel MTU is that, capped at 1500, less
    the overhead of the outer family, and never below 1280; when they tell
    nothing it is 1420. Either way the result lies in [1280, 1500 - overhead]. *)
Theorem discoverPathMTU_refines (env : host_env) (e : UDPAddr) :
  sane_ifaces env ->
  discoverPathMTU env (Some e)
  = match known_wire env e with
    | Some w => Z.max 1280 (Z.min 1500 w - wireGuardOverhead (Some e))
    | None => 1420
    end
  /\ 1280 <= discoverPathMTU env (Some e) <= 1500 - wireGuardOverhead (Some e).
Proof.
  intros Hs. rewrite (discover_known env e Hs). split; [done|].
  pose proof (wireGuardOverhead_cases (Some e)) as Ho.
  destruct (known_wire env e); unfold fallbackMTU; lia.
Qed.

Definition example_env : host_env :=
  {| goos := "linux";
     run_command := fun _ => Some "192.0.2.1 via 10.0.0.1 dev eth0 src 10.0.0.2 mtu lock 1472 "%string;
     dial_local_ip := fun _ => Some [10; 0; 0; 2];
     interfaces := Some [ {| iface_mtu := 65536; iface_addrs := Some [IPNet [127; 0; 0; 1]] |};
                          {| iface_mtu := 1500; iface_addrs := Some [IPNet [10; 0; 0; 2]] |} ] |}.

Definition example_peer : UDPAddr :=
  {| IP := [192; 0; 2; 1]; Port := 51820; Zone := EmptyString |}.

Lemma example_env_sane : sane_ifaces example_env.
Proof. intros ifs [= <-]. repeat constructor; simpl; unfold int64_max; lia. Qed.

Lemma discoverPathMTU_refines_witness :
  (discoverPathMTU example_env (Some example_peer)
   = match known_wire example_env example_peer with
     | Some w => Z.max 1280 (Z.min 1500 w - wireGuardOverhead (Some example_peer))
     | None => 1420
     end
   /\ 1280 <= discoverPathMTU example_env (Some example_peer)
        <= 1500 - wireGuardOverhead (Some example_peer))
  /\ known_wire example_env example_peer = Some 1472.
Proof.
  split; [exact (discoverPathMTU_refines example_env example_peer example_env_sane)|].
  vm_compute. reflexivity.
Defined.

(** A probe of the search and its encapsulation fit the link. *)
Lemma probe_within_wire (env : host_env) (e : UDPAddr) (p : Prober.peerMTUProber) (t : Z) :
  sane_ifaces env ->
  Prober.reachable Prober.baseTunnelMTU (discoverPathMTU env (Some e)) 0 p ->
  Prober.NextProbeMTU p = Some t ->
  t + wireGuardOverhead (Some e) <= 1500
  /\ forall w, known_wire env e = Some w -> t + wireGuardOverhead (Some e) <= w.
Proof.
  intros Hs Hp Hn.
  apply Prober.NextProbeMTU_Some in Hn as (_ & _ & Hl).
  pose proof (Prober.reachable_wf _ _ _ _ Hp) as Hwf.
  pose proof (Prober.reachable_maxTarget _ _ _ _ Hp) as Hmt.
  change (0 <? 0) with false in Hmt. cbn iota in Hmt.
  pose proof (Prober.wf_range _ _ Hwf) as Hr. rewrite Forall_forall in Hr.
  destruct (Hr t) as [[Hlo Hhi] _]; [by eapply list_elem_of_lookup_2|].
  rewrite Hmt, (discover_known env e Hs) in Hhi. unfold Prober.baseTunnelMTU, fallbackMTU in *.
  pose proof (wireGuardOverhead_cases (Some e)) as Ho.
  destruct (known_wire env e) as [w|].
  - split; [lia|]. intros w' [= <-]. lia.
  - split; [lia|done].
Qed.

(** No probe can exceed the link. In every state reachable by the prober
    that [runTunnel] starts (baseline 1280, ceiling from path discovery, no
    manual MTU), a probe packet together with the WireGuard encapsulation of the
    outer family fits in 1500 bytes and in the wire MTU the host knows of. *)
Theorem probes_fit_the_wire (env : host_env) (e : UDPAddr) (p : Prober.peerMTUProber) (t : Z) :
  sane_ifaces env ->
  Prober.reachable Prober.baseTunnelMTU (discoverPathMTU env (Some e)) 0 p ->
  Prober.NextProbeMTU p = Some t ->
  t + wireGuardOverhead (Some e) <= 1500
  /\ forall w, known_wire env e = Some w -> t + wireGuardOverhead (Some e) <= w.
Proof. apply probe_within_wire. Qed.

Lemma probes_fit_the_wire_witness :
  (1360 + wireGuardOverhead (Some example_peer) <= 1500
   /\ forall w, known_wire example_env example_peer = Some w ->
        1360 + wireGuardOverhead (Some example_peer) <= w).
Proof.
  apply (probes_fit_the_wire example_env example_peer
    (Prober.newPeerMTUProber Prober.baseTunnelMTU (discoverPathMTU example_env (Some example_peer)) 0)).
  - exact example_env_sane.
  - apply Prober.reach_new.
  - vm_compute. reflexivity.
Defined.

(** The configured MTU: the result is 0 (probe the path) or within
    [1280, 1500]; a non-zero [--mtu] decides alone, whatever the environment
    says; and without it the environment value decides, with an error exactly
    when it is not blank and not an integer in that range. *)
Theorem resolveConfiguredMTU_spec (cliMTU : Z) (envMTU : string) :
  (forall v, resolveConfiguredMTU cliMTU envMTU = Ok v -> v = 0 \/ 1280 <= v <= 1500)
  /\ (cliMTU <> 0 -> to_option (resolveConfiguredMTU cliMTU envMTU)
        = if decide (1280 <= cliMTU <= 1500) then Some cliMTU else None)
  /\ (cliMTU = 0 -> to_option (resolveConfiguredMTU cliMTU envMTU)
        = if decide (trim_space envMTU = EmptyString) then Some 0
          else v ← atoi (trim_space envMTU); if decide (1280 <= v <= 1500) then Some v else None).
Proof.
  assert (forall v, (v <? minConfiguredMTU) || (maxConfiguredMTU <? v)
            = negb (bool_decide (1280 <= v <= 1500))) as Hrange.
  { intros v. unfold minConfiguredMTU, maxConfiguredMTU.
    case_bool_decide; zbool; simpl; (done || lia). }
  unfold resolveConfiguredMTU. split_and!.
  - intros v. rewrite Hrange. destruct (cliMTU =? 0); simpl.
    + case_bool_decide; simpl; [intros [= <-]; by left|].
      destruct (atoi _) as [w|]; [|done]. rewrite Hrange.
      case_bool_decide; simpl; [|done]. intros [= <-]. by right.
    + case_bool_decide; simpl; [|done]. intros [= <-]. by right.
  - intros Hne. rewrite (proj2 (Z.eqb_neq _ _) Hne). simpl. rewrite Hrange.
    case_bool_decide; by case_decide.
  - intros ->. simpl. case_bool_decide; case_decide; try done. simpl.
    destruct (atoi _) as [w|]; simpl; [|done]. rewrite Hrange.
    case_bool_decide; by case_decide.
Qed.

Lemma resolveConfiguredMTU_spec_witness :
  to_option (resolveConfiguredMTU 0 " 1400 ") = Some 1400
  /\ to_option (resolveConfiguredMTU 1300 "junk") = Some 1300.
Proof.
  destruct (resolveConfiguredMTU_spec 0 " 1400 ") as (_ & _ & H0).
  destruct (resolveConfiguredMTU_spec 1300 "junk") as (_ & H1 & _).
  rewrite H0 by reflexivity. rewrite H1 by lia. split; vm_compute; reflexivity.
Defined.

End MTU.
