(* ===== verification/Candidates.v ===== *)
(** Connection candidates ([nomination.go], [main.go]): which local addresses are
    offered, which peer candidates are usable and in what order they are tried,
    the fan-out probe that picks one, and the retry queue kept for later. *)

From S2P Require Import Prelude Lists GoStrings GoNet.
From Stdlib Require Import Ascii.
Open Scope Z_scope.

Module Candidates.

(** ** Data *)

Record candidate := { Type_ : string; Addr : string }.

#[export] Instance candidate_eq_dec : EqDecision candidate.
Proof. solve_decision. Defined.

Inductive networkFamily : Type := familyDual | familyIPv4 | familyIPv6.

#[export] Instance networkFamily_eq_dec : EqDecision networkFamily.
Proof. solve_decision. Defined.

Definition family_String (f : networkFamily) : string :=
  match f with
  | familyIPv4 => "ipv4"
  | familyIPv6 => "ipv6"
  | familyDual => "dual-stack"
  end.

(** The two outer sockets, each by its descriptor when open. *)
Record udpSockets := { V4 : option Z; V6 : option Z }.

Definition is_open (c : option Z) : bool := bool_decide (is_Some c).

(** ** Local candidates *)

Definition interfaceAddrIP (a : netAddr) : list Z :=
  match a with
  | IPNet ip => ip
  | IPAddr ip => ip
  | OtherAddr => []
  end.

Definition isRoutableCandidateIP (ip : list Z) (family : networkFamily) : bool :=
  if negb (is_global_unicast ip) then false
  else
    let isV4 := is_v4 ip in
    if negb isV4 && is_private ip then false
    else if bool_decide (family = familyIPv4) && negb isV4 then false
    else if bool_decide (family = familyIPv6) && isV4 then false
    else true.

Record net_interface := { flag_up : bool; flag_loopback : bool; net_addrs : list netAddr }.

Definition iface_candidate (port : Z) (ip : list Z) : candidate :=
  {| Type_ := "iface"; Addr := join_host_port (ip_string ip) (itoa port) |}.

(** The inner loop body, on the pair of [seen] and [out]. *)
Definition local_candidate_step (port : Z) (family : networkFamily)
    (st : gset string * list candidate) (a : netAddr) : gset string * list candidate :=
  let ip := interfaceAddrIP a in
  if bool_decide (ip = []) || negb (isRoutableCandidateIP ip family) then st
  else
    let c := iface_candidate port ip in
    if bool_decide (Addr c ∈ st.1) then st else ({[Addr c]} ∪ st.1, st.2 ++ [c]).

Definition localCandidates (ifaces : list net_interface) (port : Z) (family : networkFamily)
  : list candidate :=
  (foldl (fun st i =>
      if negb (flag_up i) || flag_loopback i then st
      else foldl (local_candidate_step port family) st (net_addrs i))
    (∅, []) ifaces).2.

Definition validateLocalCandidates (local : list candidate) (family : networkFamily)
  : result string unit :=
  match local with
  | [] => Err ("no viable " ++ family_String family ++ " candidate on this host")%string
  | _ => Ok tt
  end.

(** ** Ranking and filtering *)

(** The address of [netip.ParseAddrPort(c.Addr)], whose error is ignored. *)
Definition score (c : candidate) : Z :=
  let '(a, _, _) := parse_addr_port (Addr c) in
  let s := if bool_decide (Type_ c = "iface") then 0
           else if bool_decide (Type_ c = "reflex") then 10
           else if bool_decide (Type_ c = "turn") then 20
           else 100 in
  if addr_is6 a then s - 2 else s.

Definition rankCandidates (c : list candidate) : list candidate := stable_sort score c.

Definition isPubliclyRoutableCandidateAddr (a : string) : bool :=
  match split_host_port a with
  | None => false
  | Some (host, _) =>
      match parse_ip host with
      | None => false
      | Some ip => is_global_unicast ip && negb (is_private ip)
      end
  end.

Fixpoint localCandidateFamilies_from (haveV4 haveV6 : bool) (local : list candidate) : bool * bool :=
  match local with
  | [] => (haveV4, haveV6)
  | c :: rest =>
      if haveV4 && haveV6 then (haveV4, haveV6)
      else match split_host_port (Addr c) with
      | None => localCandidateFamilies_from haveV4 haveV6 rest
      | Some (host, _) =>
          match parse_ip host with
          | None => localCandidateFamilies_from haveV4 haveV6 rest
          | Some ip => if is_v4 ip then localCandidateFamilies_from true haveV6 rest
                       else localCandidateFamilies_from haveV4 true rest
          end
      end
  end.

Definition localCandidateFamilies (local : list candidate) : bool * bool :=
  localCandidateFamilies_from false false local.

(** The family of a peer candidate: [Some true] for IPv4; brackets are trimmed
    from the host before parsing. *)
Definition peer_family (c : candidate) : option bool :=
  match split_host_port (Addr c) with
  | None => None
  | Some (host, _) => is_v4 <$> parse_ip (trim_bytes ["["%char; "]"%char] host)
  end.

Definition reachable_family (s : udpSockets) (haveV4 haveV6 : bool) (c : candidate) : bool :=
  match peer_family c with
  | None => false
  | Some v4 => (v4 && is_open (V4 s) && haveV4) || (negb v4 && is_open (V6 s) && haveV6)
  end.

(** [s] is the pointer, [None] when nil. *)
Definition compatibleCandidates (s : option udpSockets) (cands local : list candidate)
  : list candidate :=
  match s with
  | None => []
  | Some s =>
      let '(haveLocalV4, haveLocalV6) := localCandidateFamilies local in
      rankCandidates (filter (fun c => reachable_family s haveLocalV4 haveLocalV6 c = true) cands)
  end.

Definition candidatesOfType (candidates : list candidate) (candidateType : string) : list candidate :=
  filter (fun c => Type_ c = candidateType) candidates.

Definition candidateTypeMap (peerCandidates : list candidate) : gmap string string :=
  foldl (fun types c => <[Addr c := Type_ c]> types) ∅ peerCandidates.

Definition guessCandidate (ordered : list candidate) : string :=
  match filter (fun c => isPubliclyRoutableCandidateAddr (Addr c) = true) ordered with
  | c :: _ => Addr c
  | [] => match ordered with c :: _ => Addr c | [] => EmptyString end
  end.

(** ** The retry queue *)

Definition buildCandidateRetryQueue (endpoint : string) (observed : list string)
    (advertised : list candidate) : list string :=
  let skip := fun addr => bool_decide (addr = EmptyString) in
  let st0 := push_all skip ({[endpoint]}, []) observed in
  let pass := fun (public : bool) st =>
    foldl (fun st c => if Bool.eqb (isPubliclyRoutableCandidateAddr (Addr c)) public
                       then push_unseen skip st (Addr c) else st) st advertised in
  (pass false (pass true st0)).2.

(** ** The fan-out probe

    Each candidate with an open socket is a target; [rankByRemote] maps the
    printed remote address of a response to the target's rank. *)

Record target := { t_addr : string; t_remote : string; t_conn : Z }.

Definition target_of (s : udpSockets) (c : candidate) : option target :=
  let '(a, p, ok) := parse_addr_port (Addr c) in
  if negb ok then None
  else match (if addr_is6 a then V6 s else V4 s) with
  | None => None
  | Some conn =>
      let zone := match a with Addr6 _ z => z | _ => EmptyString end in
      let ip := match a with AddrZero => [] | Addr4 b | Addr6 b _ => b end in
      Some {| t_addr := Addr c; t_remote := udp_addr_string ip zone p; t_conn := conn |}
  end.

Definition probe_targets (s : udpSockets) (ordered : list candidate) : list target :=
  omap (target_of s) ordered.

Fixpoint rank_by_remote (i : nat) (ts : list target) (m : gmap string nat) : gmap string nat :=
  match ts with
  | [] => m
  | t :: ts' => rank_by_remote (S i) ts' (<[t_remote t := i]> m)
  end.

(** What wakes the [select]. *)
Inductive probe_event : Type :=
| Response (remote : string)
| GraceFired
| TimerFired.

Record probe_state := { bestRank : option nat; graceArmed : bool }.

Definition target_addr (ts : list target) (rank : nat) : string :=
  match ts !! rank with Some t => t_addr t | None => EmptyString end.

(** One turn of the loop: [inr] is the function's return value. A [GraceFired]
    before the grace timer exists cannot happen (its channel is nil) and is
    ignored. *)
Definition probe_turn (ordered : list candidate) (ts : list target) (ranks : gmap string nat)
    (st : probe_state) (ev : probe_event) : probe_state + string :=
  match ev with
  | Response remote =>
      match ranks !! remote with
      | None => inl st
      | Some O => inr (target_addr ts 0)
      | Some rank =>
          if match bestRank st with None => true | Some b => (rank <? b)%nat end
          then inl {| bestRank := Some rank; graceArmed := true |}
          else inl st
      end
  | GraceFired =>
      if graceArmed st then
        match bestRank st with
        | Some b => inr (target_addr ts b)
        | None => inl st
        end
      else inl st
  | TimerFired =>
      match bestRank st with
      | Some b => inr (target_addr ts b)
      | None => inr (guessCandidate ordered)
      end
  end.

Fixpoint probe_loop (ordered : list candidate) (ts : list target) (ranks : gmap string nat)
    (st : probe_state) (evs : list probe_event) : probe_state + string :=
  match evs with
  | [] => inl st
  | ev :: evs' =>
      match probe_turn ordered ts ranks st ev with
      | inr a => inr a
      | inl st' => probe_loop ordered ts ranks st' evs'
      end
  end.

(** [None] while the loop still waits for an event. *)
Definition probeCandidates (s : option udpSockets) (cands local : list candidate)
    (evs : list probe_event) : option string :=
  let ordered := compatibleCandidates s cands local in
  match s, ordered with
  | None, _ | _, [] => Some (guessCandidate ordered)
  | Some s, _ =>
      let ts := probe_targets s ordered in
      match ts with
      | [] => Some (guessCandidate ordered)
      | _ =>
          match probe_loop ordered ts (rank_by_remote 0 ts ∅)
                  {| bestRank := None; graceArmed := false |} evs with
          | inr a => Some a
          | inl _ => None
          end
      end
  end.

(** ** Specifications and lemmas *)

Definition type_rank (c : candidate) : Z :=
  if bool_decide (Type_ c = "iface") then 0
  else if bool_decide (Type_ c = "reflex") then 1
  else if bool_decide (Type_ c = "turn") then 2
  else 3.

Definition on_ipv6 (c : candidate) : bool := addr_is6 (parse_addr_port (Addr c)).1.1.

(** Interface before reflexive before relay before unknown candidates; within a
    type, IPv6 before IPv4. *)
Definition preferred (a b : candidate) : Prop :=
  type_rank a < type_rank b
  \/ (type_rank a = type_rank b /\ (on_ipv6 a = true \/ on_ipv6 b = false)).

#[export] Instance preferred_dec : RelDecision preferred.
Proof. intros a b. unfold preferred. apply _. Defined.

Lemma score_preferred a b : score a <= score b <-> preferred a b.
Proof.
  unfold preferred, score, type_rank, on_ipv6.
  destruct (parse_addr_port (Addr a)) as [[ia pa] oa], (parse_addr_port (Addr b)) as [[ib pb] ob].
  simpl. destruct (addr_is6 ia), (addr_is6 ib);
    repeat case_bool_decide; split; intros; try lia; intuition (try lia; try done).
Qed.

(** The family of a candidate of our own. *)
Definition local_family (c : candidate) : option bool :=
  match split_host_port (Addr c) with
  | None => None
  | Some (host, _) => is_v4 <$> parse_ip host
  end.

Lemma localCandidateFamilies_from_spec v4 v6 local :
  localCandidateFamilies_from v4 v6 local
  = (v4 || bool_decide (Some true ∈ local_family <$> local),
     v6 || bool_decide (Some false ∈ local_family <$> local)).
Proof.
  revert v4 v6. induction local as [|c local IH]; intros v4 v6.
  { rewrite fmap_nil, !bool_decide_eq_false_2 by apply not_elem_of_nil. by rewrite !orb_false_r. }
  cbn [localCandidateFamilies_from]. rewrite fmap_cons.
  destruct (v4 && v6) eqn:E; [apply andb_true_iff in E as [-> ->]; done|].
  assert (forall b, bool_decide (Some b ∈ local_family c :: (local_family <$> local))
    = bool_decide (local_family c = Some b) || bool_decide (Some b ∈ local_family <$> local)) as Hd.
  { intros b. rewrite <- bool_decide_or. apply bool_decide_ext. rewrite elem_of_cons.
    intuition congruence. }
  rewrite !Hd. destruct (local_family c) as [b|] eqn:El; unfold local_family in El.
  - destruct (split_host_port (Addr c)) as [[host port]|]; [|done].
    destruct (parse_ip host) as [ip|]; [|done]. injection El as El. rewrite El.
    destruct b; rewrite IH; simpl; by rewrite ?orb_true_r.
  - transitivity (localCandidateFamilies_from v4 v6 local); [|apply IH].
    destruct (split_host_port (Addr c)) as [[host port]|]; [|done].
    by destruct (parse_ip host).
Qed.

Definition haveLocal (b : bool) (local : list candidate) : bool :=
  bool_decide (Some b ∈ local_family <$> local).

Lemma localCandidateFamilies_spec local :
  localCandidateFamilies local = (haveLocal true local, haveLocal false local).
Proof. apply localCandidateFamilies_from_spec. Qed.

Lemma haveLocal_spec b local :
  haveLocal b local = true <-> exists l, l ∈ local /\ local_family l = Some b.
Proof. unfold haveLocal. rewrite bool_decide_eq_true, list_elem_of_fmap. naive_solver. Qed.

Lemma is_open_spec c : is_open c = true <-> is_Some c.
Proof. apply bool_decide_eq_true. Qed.

(** *** The retry queue *)

Lemma push_matching (public : bool) skip st (cands : list candidate) :
  foldl (fun st c => if Bool.eqb (isPubliclyRoutableCandidateAddr (Addr c)) public
                     then push_unseen skip st (Addr c) else st) st cands
  = push_all skip st (Addr <$> filter (fun c => isPubliclyRoutableCandidateAddr (Addr c) = public) cands).
Proof.
  revert st. induction cands as [|c cands IH]; intros st; [done|]. cbn [foldl].
  rewrite filter_cons. destruct (Bool.eqb_spec (isPubliclyRoutableCandidateAddr (Addr c)) public).
  - rewrite decide_True by done. rewrite fmap_cons, IH. done.
  - rewrite decide_False by done. apply IH.
Qed.

Lemma push_all_app {A} `{Countable A} skip (st : gset A * list A) xs ys :
  push_all skip st (xs ++ ys) = push_all skip (push_all skip st xs) ys.
Proof. unfold push_all. apply foldl_app. Qed.

(** The sources of the queue in the order of preference. *)
Definition retry_sources (observed : list string) (advertised : list candidate) : list string :=
  observed
  ++ (Addr <$> filter (fun c => isPubliclyRoutableCandidateAddr (Addr c) = true) advertised)
  ++ (Addr <$> filter (fun c => isPubliclyRoutableCandidateAddr (Addr c) = false) advertised).

Lemma buildCandidateRetryQueue_fresh endpoint observed advertised :
  buildCandidateRetryQueue endpoint observed advertised
  = fresh_of (fun a => bool_decide (a = EmptyString)) {[endpoint]} (retry_sources observed advertised).
Proof.
  unfold buildCandidateRetryQueue. cbn zeta. rewrite !push_matching, <- !push_all_app.
  by rewrite push_all_fresh.
Qed.

Lemma elem_of_retry_sources a observed advertised :
  a ∈ retry_sources observed advertised <-> a ∈ observed \/ a ∈ Addr <$> advertised.
Proof.
  unfold retry_sources. rewrite !elem_of_app, !list_elem_of_fmap. split.
  - intros [?|[(c &->& [_ ?]%list_elem_of_filter)|(c & -> & [_ ?]%list_elem_of_filter)]]; eauto.
  - intros [?|(c &->& ?)]; [by left|]. right.
    destruct (isPubliclyRoutableCandidateAddr (Addr c)) eqn:E; [left|right];
      exists c; split; try done; by apply list_elem_of_filter.
Qed.

(** *** The fan-out probe *)

(** The ranks of the responses among the events. *)
Definition heard (ranks : gmap string nat) (evs : list probe_event) : list nat :=
  omap (fun ev => match ev with Response r => ranks !! r | _ => None end) evs.

Definition is_least (r : nat) (l : list nat) : Prop := r ∈ l /\ forall x, x ∈ l -> (r <= x)%nat.

(** What the loop's variables record of the events so far. *)
Definition probe_inv (ranks : gmap string nat) (pre : list probe_event) (st : probe_state) : Prop :=
  match bestRank st with
  | None => heard ranks pre = [] /\ graceArmed st = false
  | Some b => is_least b (heard ranks pre) /\ graceArmed st = true
  end.

Lemma heard_snoc ranks pre ev :
  heard ranks (pre ++ [ev])
  = heard ranks pre ++ match ev with
                       | Response r => match ranks !! r with Some k => [k] | None => [] end
                       | _ => [] end.
Proof.
  unfold heard. rewrite omap_app. f_equal. destruct ev as [r| |]; simpl; [|done|done].
  by destruct (ranks !! r).
Qed.

Lemma is_least_snoc b l k :
  is_least b l -> is_least (if (k <? b)%nat then k else b) (l ++ [k]).
Proof.
  intros [Hin Hmin]. unfold is_least. setoid_rewrite elem_of_app. setoid_rewrite list_elem_of_singleton.
  destruct (Nat.ltb_spec k b); split; auto; intros x [Hx| ->]; try lia; specialize (Hmin x Hx); lia.
Qed.

Lemma is_least_zero l : 0%nat ∈ l -> is_least 0 l.
Proof. split; [done|lia]. Qed.

(** The answer the loop gives after the events [pre]. *)
Definition probe_answer (ordered : list candidate) (ts : list target) (ranks : gmap string nat)
    (pre : list probe_event) (a : string) : Prop :=
  match heard ranks pre with
  | [] => a = guessCandidate ordered
  | _ => exists r, is_least r (heard ranks pre) /\ a = target_addr ts r
  end.

Lemma probe_answer_least ordered ts ranks pre r :
  is_least r (heard ranks pre) -> probe_answer ordered ts ranks pre (target_addr ts r).
Proof.
  intros Hl. unfold probe_answer. destruct (heard ranks pre) eqn:E; [|by exists r].
  destruct Hl as [Hl _]; by apply not_elem_of_nil in Hl.
Qed.

Lemma probe_turn_inv ordered ts ranks pre st ev :
  probe_inv ranks pre st ->
  match probe_turn ordered ts ranks st ev with
  | inl st' => probe_inv ranks (pre ++ [ev]) st' /\ ev <> TimerFired
  | inr a => probe_answer ordered ts ranks (pre ++ [ev]) a
  end.
Proof.
  unfold probe_inv. intros Hinv. pose proof (heard_snoc ranks pre ev) as Hs.
  destruct ev as [r| |]; cbn [probe_turn].
  - destruct (ranks !! r) as [[|k]|] eqn:Er.
    + apply probe_answer_least. rewrite Hs. apply is_least_zero. rewrite elem_of_app. right.
      by apply list_elem_of_singleton.
    + destruct (bestRank st) as [b|] eqn:Eb; destruct Hinv as [Hl Hg].
      * apply (is_least_snoc b _ (S k)) in Hl. destruct (Nat.ltb_spec (S k) b);
          cbn [bestRank graceArmed]; rewrite ?Eb, Hs; done.
      * cbn [bestRank graceArmed]. rewrite Hs, Hl. split; [|done]. split; [|done].
        split; [by apply list_elem_of_singleton|]. intros x Hx. apply list_elem_of_singleton in Hx. lia.
    + rewrite Hs, app_nil_r. done.
  - rewrite app_nil_r in Hs. destruct (graceArmed st) eqn:Eg; [|by rewrite Hs, Eg].
    destruct (bestRank st) as [b|]; [|by destruct Hinv].
    apply probe_answer_least. rewrite Hs. apply Hinv.
  - rewrite app_nil_r in Hs. destruct (bestRank st) as [b|]; destruct Hinv as [Hl _].
    + apply probe_answer_least. by rewrite Hs.
    + unfold probe_answer. by rewrite Hs, Hl.
Qed.

Lemma probe_loop_decides ordered ts ranks evs pre st :
  TimerFired ∈ evs -> probe_inv ranks pre st ->
  exists a mid ev post, probe_loop ordered ts ranks st evs = inr a /\ evs = mid ++ ev :: post
    /\ probe_answer ordered ts ranks (pre ++ mid ++ [ev]) a.
Proof.
  revert pre st. induction evs as [|ev evs IH]; intros pre st Hin Hinv;
    [by apply not_elem_of_nil in Hin|].
  cbn [probe_loop]. pose proof (probe_turn_inv ordered ts ranks pre st ev Hinv) as Ht.
  destruct (probe_turn ordered ts ranks st ev) as [st'|a].
  - destruct Ht as [Hinv' Hne]. apply elem_of_cons in Hin as [<-|Hin]; [done|].
    destruct (IH _ _ Hin Hinv') as (a & mid & ev' & post & Hl & -> & Ha).
    exists a, (ev :: mid), ev', post. split_and!; [done|done|].
    by rewrite <- app_assoc in Ha.
  - exists a, [], ev, evs. done.
Qed.

Lemma rank_by_remote_bound ts i m remote k :
  rank_by_remote i ts m !! remote = Some k -> m !! remote = Some k \/ (i <= k < i + length ts)%nat.
Proof.
  revert i m. induction ts as [|t ts IH]; intros i m Hk; [by left|].
  cbn [rank_by_remote] in Hk. apply IH in Hk as [Hk|Hk]; [|simpl; lia].
  apply lookup_insert_Some in Hk as [[_ <-]|[_ Hk]]; [simpl; lia|by left].
Qed.

Lemma heard_bound ts evs k : k ∈ heard (rank_by_remote 0 ts ∅) evs -> (k < length ts)%nat.
Proof.
  unfold heard. rewrite list_elem_of_omap. intros ([r| |] & _ & Hk); [|done|done].
  apply rank_by_remote_bound in Hk as [Hk|Hk]; [|lia]. by rewrite lookup_empty in Hk.
Qed.

(** *** Where an answer comes from *)

Lemma compatibleCandidates_subset s cands local c :
  c ∈ compatibleCandidates s cands local -> c ∈ cands.
Proof.
  unfold compatibleCandidates. destruct s as [s|]; [|by intros ?%not_elem_of_nil].
  destruct (localCandidateFamilies local). unfold rankCandidates.
  rewrite stable_sort_Permutation, list_elem_of_filter. by intros [_ ?].
Qed.

Lemma guessCandidate_source ordered :
  guessCandidate ordered = EmptyString \/ guessCandidate ordered ∈ Addr <$> ordered.
Proof.
  unfold guessCandidate. destruct (filter _ ordered) as [|c l] eqn:E.
  - destruct ordered as [|c l]; [by left|]. right. rewrite fmap_cons. by left.
  - right. apply list_elem_of_fmap. exists c. split; [done|].
    assert (c ∈ c :: l) as Hc by by left. rewrite <- E in Hc. by apply list_elem_of_filter in Hc as [_ ?].
Qed.

Lemma probe_targets_source s ordered t :
  t ∈ probe_targets s ordered -> t_addr t ∈ Addr <$> ordered.
Proof.
  unfold probe_targets. rewrite list_elem_of_omap. intros (c & Hc & Ht).
  apply list_elem_of_fmap. exists c. split; [|done]. unfold target_of in Ht.
  destruct (parse_addr_port (Addr c)) as [[a p] ok]. destruct ok; [|done].
  destruct (if addr_is6 a then V6 s else V4 s); [|done]. by injection Ht as <-.
Qed.

Lemma target_addr_source s ordered r :
  target_addr (probe_targets s ordered) r = EmptyString
  \/ target_addr (probe_targets s ordered) r ∈ Addr <$> ordered.
Proof.
  unfold target_addr. destruct (probe_targets s ordered !! r) as [t|] eqn:Et; [right|by left].
  eapply probe_targets_source, list_elem_of_lookup_2, Et.
Qed.

Lemma probe_loop_source s ordered ranks st evs a :
  probe_loop ordered (probe_targets s ordered) ranks st evs = inr a ->
  a = EmptyString \/ a ∈ Addr <$> ordered.
Proof.
  pose proof (target_addr_source s ordered) as Ht. pose proof (guessCandidate_source ordered) as Hg.
  revert st. induction evs as [|ev evs IH]; intros st; cbn [probe_loop]; [done|].
  destruct (probe_turn ordered (probe_targets s ordered) ranks st ev) as [st'|b] eqn:E; [apply IH|].
  intros [= <-]. unfold probe_turn in E. destruct ev as [r| |].
  - destruct (ranks !! r) as [[|k]|]; [|by destruct (match bestRank st with None => _ | _ => _ end)|done].
    injection E as <-. apply Ht.
  - destruct (graceArmed st); [|done]. destruct (bestRank st); [|done]. injection E as <-. apply Ht.
  - destruct (bestRank st); injection E as <-; [apply Ht|apply Hg].
Qed.

Lemma probeCandidates_source s cands local evs a :
  probeCandidates s cands local evs = Some a ->
  a = EmptyString \/ a ∈ Addr <$> compatibleCandidates s cands local.
Proof.
  unfold probeCandidates. destruct s as [s|].
  2:{ intros [= <-]. by left. }
  set (ordered := compatibleCandidates (Some s) cands local).
  pose proof (guessCandidate_source ordered) as Hg.
  destruct ordered as [|c l] eqn:Eo; [by intros [= <-]|]. rewrite <- Eo in *.
  destruct (probe_targets s ordered) as [|t ts] eqn:Et; [by intros [= <-]|]. rewrite <- Et.
  destruct (probe_loop _ _ _ _ _) as [st'|b] eqn:E; [done|]. intros [= <-].
  by eapply probe_loop_source.
Qed.

(** *** Local candidates *)

(** The addresses the loops visit. *)
Definition visible_addrs (ifaces : list net_interface) : list netAddr :=
  concat (net_addrs <$> filter (fun i => flag_up i = true /\ flag_loopback i = false) ifaces).

Lemma localCandidates_flat ifaces port family :
  localCandidates ifaces port family
  = (foldl (local_candidate_step port family) (∅, []) (visible_addrs ifaces)).2.
Proof.
  unfold localCandidates, visible_addrs. f_equal. generalize (∅ : gset string, [] : list candidate).
  induction ifaces as [|i ifaces IH]; intros st; [done|]. cbn [foldl]. rewrite filter_cons, IH.
  case_decide as Hd.
  - destruct Hd as [-> ->]. cbn [negb orb]. rewrite fmap_cons. cbn [concat]. by rewrite foldl_app.
  - by destruct (flag_up i), (flag_loopback i); try (destruct Hd; done).
Qed.

(** The candidate an address gives, if any. *)
Definition offered (port : Z) (family : networkFamily) (a : netAddr) (c : candidate) : Prop :=
  interfaceAddrIP a <> [] /\ isRoutableCandidateIP (interfaceAddrIP a) family = true
  /\ c = iface_candidate port (interfaceAddrIP a).

Definition local_inv (st : gset string * list candidate) : Prop :=
  st.1 = list_to_set (Addr <$> st.2) /\ NoDup (Addr <$> st.2)
  /\ forall c, c ∈ st.2 -> Type_ c = "iface".

Lemma local_candidate_step_spec port family st a :
  local_inv st ->
  local_inv (local_candidate_step port family st a)
  /\ forall c, c ∈ (local_candidate_step port family st a).2 <-> c ∈ st.2 \/ offered port family a c.
Proof.
  intros (Hseen & Hnd & Hty). unfold local_candidate_step, offered.
  set (ip := interfaceAddrIP a). set (n := iface_candidate port ip).
  destruct (bool_decide (ip = [])) eqn:Eip.
  { apply bool_decide_eq_true in Eip. simpl. split; [done|]. intuition. }
  apply bool_decide_eq_false in Eip. cbn [orb].
  destruct (isRoutableCandidateIP ip family); cbn [negb]; [|split; [done|intuition done]].
  case_bool_decide as Hin.
  - split; [done|]. intros c. split; [by left|]. intros [?|(_ & _ & ->)]; [done|].
    rewrite Hseen, elem_of_list_to_set, list_elem_of_fmap in Hin. destruct Hin as ([ty ad] & Hn & Hc).
    specialize (Hty _ Hc). simpl in Hn, Hty. subst ty ad. done.
  - cbn [fst snd]. split; [split_and!|].
    + cbn [fst snd]. rewrite fmap_app, list_to_set_app_L, Hseen. simpl. set_solver.
    + cbn [snd]. rewrite fmap_app. apply NoDup_app. split_and!; [done| |apply NoDup_singleton].
      intros x Hx Hx'. apply list_elem_of_singleton in Hx' as ->. apply Hin.
      by rewrite Hseen, elem_of_list_to_set.
    + intros c [Hc|Hc]%elem_of_app; [by apply Hty|]. by apply list_elem_of_singleton in Hc as ->.
    + intros c. rewrite elem_of_app, list_elem_of_singleton. intuition.
Qed.

Lemma local_candidates_fold port family addrs st :
  local_inv st ->
  local_inv (foldl (local_candidate_step port family) st addrs)
  /\ forall c, c ∈ (foldl (local_candidate_step port family) st addrs).2 <->
       c ∈ st.2 \/ exists a, a ∈ addrs /\ offered port family a c.
Proof.
  revert st. induction addrs as [|a addrs IH]; intros st Hst; cbn [foldl].
  { split; [done|]. intros c. split; [by left|]. intros [?|(a & Ha & _)]; [done|].
    by apply not_elem_of_nil in Ha. }
  destruct (local_candidate_step_spec port family st a Hst) as [Hst' Hel].
  destruct (IH _ Hst') as [Hinv Hel']. split; [done|]. intros c. rewrite Hel', Hel.
  setoid_rewrite elem_of_cons. naive_solver.
Qed.

(** ** Properties: ranking and filtering *)

(** Ranking only reorders: every candidate is kept with its multiplicity,
    the result is in order of preference (interface, reflexive, relay, unknown;
    IPv6 first within a type), and candidates of equal preference stay in the
    order the peer listed them. *)
Theorem rankCandidates_correct (cands : list candidate) :
  rankCandidates cands ≡ₚ cands
  /\ StronglySorted preferred (rankCandidates cands)
  /\ forall c, filter (fun d => preferred c d /\ preferred d c) (rankCandidates cands)
             = filter (fun d => preferred c d /\ preferred d c) cands.
Proof.
  split_and!.
  - apply stable_sort_Permutation.
  - eapply StronglySorted_weaken; [|apply stable_sort_Sorted]. intros a b. apply score_preferred.
  - intros c. assert (forall l : list candidate, filter (fun d => preferred c d /\ preferred d c) l
      = filter (fun d => score d = score c) l) as E.
    { intros l. apply list_filter_iff. intros d. rewrite <- !score_preferred. lia. }
    rewrite !E. apply stable_sort_stable.
Qed.

(** A peer candidate is tried exactly when its address parses, the socket
    of its family is open and a local candidate of that family exists; without
    sockets none is. In particular no IPv6 candidate is tried on an IPv4-only
    run or host. *)
Theorem compatibleCandidates_spec (s : udpSockets) (cands local : list candidate) (c : candidate) :
  compatibleCandidates None cands local = []
  /\ (c ∈ compatibleCandidates (Some s) cands local <->
      c ∈ cands /\
      ((peer_family c = Some true /\ is_Some (V4 s) /\ exists l, l ∈ local /\ local_family l = Some true)
       \/ (peer_family c = Some false /\ is_Some (V6 s) /\ exists l, l ∈ local /\ local_family l = Some false))).
Proof.
  split; [done|]. unfold compatibleCandidates. rewrite localCandidateFamilies_spec.
  unfold rankCandidates. rewrite stable_sort_Permutation, list_elem_of_filter.
  rewrite <- !haveLocal_spec, <- !is_open_spec. unfold reachable_family.
  destruct (peer_family c) as [[]|], (is_open (V4 s)), (is_open (V6 s)),
    (haveLocal true local), (haveLocal false local); simpl; naive_solver.
Qed.
(** ** Properties: the fan-out probe and the retry queue *)

(** [C31] The probe always decides by the time its timer fires. What it returns
    is justified by the events up to its decision: the best-ranked candidate
    among those that had responded, which is a target of the probe, or, only
    when none had, the guess. *)
Theorem probeCandidates_decides (s : udpSockets) (cands local : list candidate)
    (evs : list probe_event) :
  TimerFired ∈ evs ->
  let ordered := compatibleCandidates (Some s) cands local in
  let ts := probe_targets s ordered in
  let ranks := rank_by_remote 0 ts ∅ in
  exists a, probeCandidates (Some s) cands local evs = Some a
    /\ ((ts = [] /\ a = guessCandidate ordered)
        \/ exists pre ev post, evs = pre ++ ev :: post
           /\ ((heard ranks (pre ++ [ev]) = [] /\ a = guessCandidate ordered)
               \/ exists r t, is_least r (heard ranks (pre ++ [ev])) /\ ts !! r = Some t /\ a = t_addr t)).
Proof.
  intros Hin. cbn zeta. unfold probeCandidates.
  set (ordered := compatibleCandidates (Some s) cands local).
  set (ts := probe_targets s ordered).
  assert (ts = [] -> exists a, Some (guessCandidate ordered) = Some a /\
    (ts = [] /\ a = guessCandidate ordered)) as Hempty by eauto.
  destruct ordered as [|c0 ordered'] eqn:Eo.
  { eexists. split; [done|]. by left. }
  rewrite <- Eo in *. destruct ts as [|t0 ts'] eqn:Et.
  { eexists. split; [done|]. by left. }
  rewrite <- Et in *. clear Hempty.
  destruct (probe_loop_decides ordered ts (rank_by_remote 0 ts ∅) evs []
    {| bestRank := None; graceArmed := false |} Hin) as (a & pre & ev & post & -> & -> & Ha); [done|].
  eexists. split; [done|]. right. exists pre, ev, post. split; [done|].
  cbn [app] in Ha. unfold probe_answer in Ha.
  destruct (heard _ (pre ++ [ev])) as [|k ks] eqn:Eh; [by left|]. right.
  destruct Ha as (r & Hl & ->). rewrite <- Eh in *. exists r.
  destruct (lookup_lt_is_Some_2 ts r) as [t Ht]; [apply (heard_bound _ (pre ++ [ev])), Hl|].
  exists t. unfold target_addr. by rewrite Ht.
Qed.

(** The retry queue holds each address once, never the endpoint in use nor
    the empty string, and nothing the peer was seen or advertised at is left
    out; observed addresses come first, then publicly routable candidates, then
    the others, each group in its own order. *)
Theorem buildCandidateRetryQueue_spec (endpoint : string) (observed : list string)
    (advertised : list candidate) :
  let queue := buildCandidateRetryQueue endpoint observed advertised in
  NoDup queue
  /\ (forall a, a ∈ queue <-> (a ∈ observed \/ a ∈ Addr <$> advertised)
                            /\ a <> EmptyString /\ a <> endpoint)
  /\ queue `sublist_of` retry_sources observed advertised.
Proof.
  cbn zeta. rewrite buildCandidateRetryQueue_fresh. split_and!; auto with teleport.
  intros a. rewrite elem_of_fresh_of, elem_of_retry_sources, bool_decide_eq_false.
  by rewrite not_elem_of_singleton.
Qed.
(** A relay the peer advertised answers; the public address of the same peer
    does not. *)
Lemma probeCandidates_decides_witness :
  let s := {| V4 := Some 3; V6 := None |} in
  let cands := [{| Type_ := "turn"; Addr := "198.51.100.7:40000" |};
                {| Type_ := "reflex"; Addr := "203.0.113.5:5000" |}] in
  let local := [{| Type_ := "iface"; Addr := "192.168.1.2:51820" |}] in
  let evs := [Response "198.51.100.7:40000"; Response "8.8.8.8:1"; TimerFired] in
  probeCandidates (Some s) cands local evs = Some "198.51.100.7:40000"
  /\ exists a, probeCandidates (Some s) cands local evs = Some a.
Proof.
  cbn zeta. split; [by vm_compute|].
  destruct (probeCandidates_decides {| V4 := Some 3; V6 := None |}
    [{| Type_ := "turn"; Addr := "198.51.100.7:40000" |};
     {| Type_ := "reflex"; Addr := "203.0.113.5:5000" |}]
    [{| Type_ := "iface"; Addr := "192.168.1.2:51820" |}]
    [Response "198.51.100.7:40000"; Response "8.8.8.8:1"; TimerFired]
    ltac:(do 2 right; left)) as (a & Ha & _).
  by exists a.
Defined.

(** The local candidates are exactly the routable addresses, of the chosen
    family, of the interfaces that are up and not loopback, each offered once
    at the outer port. *)
Theorem localCandidates_spec (ifaces : list net_interface) (port : Z) (family : networkFamily) :
  let out := localCandidates ifaces port family in
  NoDup (Addr <$> out)
  /\ forall c, c ∈ out <-> exists a, a ∈ visible_addrs ifaces /\ offered port family a c.
Proof.
  cbn zeta. rewrite localCandidates_flat.
  destruct (local_candidates_fold port family (visible_addrs ifaces) (∅, [])) as [Hinv Hel].
  { split_and!; [done|constructor|]. intros c Hc. by apply not_elem_of_nil in Hc. }
  split; [apply Hinv|]. intros c. rewrite Hel. split; [|by right].
  intros [Hc|?]; [by apply not_elem_of_nil in Hc|done].
Qed.
End Candidates.
