(* ===== verification/Sockets.v ===== *)
(** The outer UDP sockets ([wireguard.go], [nomination.go]): opening and closing
    them, the port they listen on, the probes sent through them, and the stopper
    that hands them from one reader to the next. *)

From stdpp Require Import relations.
From S2P Require Import Prelude GoStrings GoNet Candidates.
From Stdlib Require Import Ascii.
Open Scope Z_scope.

Import Candidates.

Module Sockets.

(** ** Opening *)

(** [b] is what the random source gave. *)
Definition listenPort (b : Z * Z) : Z := 49152 + (Z.lor (Z.shiftl b.1 8) b.2) mod 16384.

Inductive open_err : Type :=
| ListenFailed (e : string)
| NoneAvailable.

(** What is done to the system's sockets. *)
Inductive os_action : Type :=
| Listen4 (port : Z)
| Listen6 (port : Z)
| TuneBuffers (fd : Z)
| CloseSocket (fd : Z).

Definition tuneUDPSocketBuffers (c : option Z) : list os_action :=
  match c with Some fd => [TuneBuffers fd] | None => [] end.

(** [l4] and [l6] are the outcomes of [net.ListenUDP]. The result of each part is
    the socket, or the error to return. *)
Definition listen_v4 (port : Z) (family : networkFamily) (l4 : result string Z)
  : list os_action * result string (option Z) :=
  if bool_decide (family = familyIPv6) then ([], Ok None)
  else ([Listen4 port],
        match l4 with
        | Ok fd => Ok (Some fd)
        | Err e => if bool_decide (family = familyIPv4) then Err e else Ok None
        end).

Definition listen_v6 (port : Z) (family : networkFamily) (v4 : option Z) (l6 : result string Z)
  : list os_action * result string (option Z) :=
  if bool_decide (family = familyIPv4) then ([], Ok None)
  else match l6 with
  | Ok fd => ([Listen6 port], Ok (Some fd))
  | Err e =>
      if bool_decide (family = familyIPv6)
      then (Listen6 port :: match v4 with Some fd => [CloseSocket fd] | None => [] end, Err e)
      else ([Listen6 port], Ok None)
  end.

Definition openUDPSockets (port : Z) (family : networkFamily) (l4 l6 : result string Z)
  : list os_action * result open_err udpSockets :=
  let '(a4, r4) := listen_v4 port family l4 in
  match r4 with
  | Err e => (a4, Err (ListenFailed e))
  | Ok v4 =>
      let '(a6, r6) := listen_v6 port family v4 l6 in
      match r6 with
      | Err e => (a4 ++ a6, Err (ListenFailed e))
      | Ok v6 =>
          if negb (is_open v4) && negb (is_open v6) then (a4 ++ a6, Err NoneAvailable)
          else (a4 ++ a6 ++ tuneUDPSocketBuffers v4 ++ tuneUDPSocketBuffers v6, Ok {| V4 := v4; V6 := v6 |})
      end
  end.

(** [udpSockets.Close]; nil sockets have nothing to close. *)
Definition Close (s : option udpSockets) : list os_action :=
  match s with
  | None => []
  | Some s => (CloseSocket <$> option_list (V4 s)) ++ (CloseSocket <$> option_list (V6 s))
  end.

(** ** Probes to the peer's candidates *)

(** [resolve] is [net.ResolveUDPAddr] on the network and the text; [writes] the
    error of the write. The result is whether the probe was sent, and what was
    written on which socket. *)
Definition sendPeerCandidateProbe (s : option udpSockets) (addr : string)
    (resolve : string -> string -> option (list Z * Z)) (writes : option string) : bool * list (Z * (list Z * Z)) :=
  match s with
  | None => (false, [])
  | Some s =>
      match split_host_port addr with
      | None => (false, [])
      | Some (host, _) =>
          match parse_ip host with
          | None => (false, [])
          | Some ip =>
              let '(conn, network) := if is_v4 ip then (V4 s, "udp4"%string) else (V6 s, "udp6"%string) in
              match conn with
              | None => (false, [])
              | Some fd =>
                  match resolve network addr with
                  | None => (false, [])
                  | Some remote => match writes with Some _ => (false, []) | None => (true, [(fd, remote)]) end
                  end
              end
          end
      end
  end.

(** What wakes the goroutine of [startPeerCandidateProbes]; the keep-alive ticker
    runs after the burst only. *)
Inductive probe_wakeup : Type :=
| BurstTick
| BurstOver
| KeepAliveTick
| Stopped.

(** The times [send] is called; [burst] is the first of its two loops. *)
Fixpoint probe_sends (burst : bool) (evs : list probe_wakeup) : nat :=
  match evs with
  | [] => 0
  | Stopped :: _ => 0
  | BurstOver :: evs' => probe_sends false evs'
  | BurstTick :: evs' => if burst then S (probe_sends burst evs') else probe_sends burst evs'
  | KeepAliveTick :: evs' => if burst then probe_sends burst evs' else S (probe_sends burst evs')
  end.

(** The candidates a probe is tried to, in order. *)
Definition startPeerCandidateProbes (s : option udpSockets) (candidates : list candidate) (evs : list probe_wakeup)
  : list string :=
  match s, candidates with
  | None, _ | _, [] => []
  | Some _, _ => concat (replicate (S (probe_sends true evs)) (Addr <$> candidates))
  end.

(** ** udpReadStopper

    Its goroutines and its [Stop] run side by side. A reader is where its code
    is: at the check of [done], in the read, busy with a packet, or gone. *)
Inductive reader : Type :=
| AtCheck
| InRead
| Busy
| Gone.

(** Where [Stop] is: not called, with [done] closed, with the deadline of the
    first socket set, with both set (it waits for the readers), with the first
    deadline cleared, and returned. *)
Inductive stop_at : Type :=
| NotCalled
| DoneClosed
| Deadline4
| Waiting
| Cleared4
| Returned.

#[export] Instance reader_eq_dec : EqDecision reader.
Proof. solve_decision. Defined.
#[export] Instance stop_at_eq_dec : EqDecision stop_at.
Proof. solve_decision. Defined.

(** The two sockets and their readers; a socket that is not open has none, which
    is [Gone]. [late4], [late6]: the read deadline is in the past. *)
Record udpReadStopper := {
  r4 : reader; r6 : reader; late4 : bool; late6 : bool; done : bool; at_ : stop_at;
}.

(** [newUDPReadStopper] followed by [start] for the open sockets. *)
Definition started (s : udpSockets) : udpReadStopper :=
  {| r4 := if is_open (V4 s) then AtCheck else Gone; r6 := if is_open (V6 s) then AtCheck else Gone;
     late4 := false; late6 := false; done := false; at_ := NotCalled |}.

(** One step of a reader, [readUDPPacket] and the loop around it: [late] is its
    socket's deadline, [closed] the channel. A read whose deadline has passed
    fails; another waits for a packet, or fails for a reason of its own. *)
Inductive reader_step (late closed : bool) : reader -> reader -> Prop :=
| check_open : closed = false -> reader_step late closed AtCheck InRead
| check_closed : closed = true -> reader_step late closed AtCheck Gone
| read_late : late = true -> reader_step late closed InRead Gone
| read_packet : late = false -> reader_step late closed InRead Busy
| read_fails : late = false -> reader_step late closed InRead Gone
| handled : reader_step late closed Busy AtCheck.

Definition with_readers (u : udpReadStopper) (a b : reader) : udpReadStopper :=
  {| r4 := a; r6 := b; late4 := late4 u; late6 := late6 u; done := done u; at_ := at_ u |}.

Inductive step : udpReadStopper -> udpReadStopper -> Prop :=
| step_r4 u r : reader_step (late4 u) (done u) (r4 u) r -> step u (with_readers u r (r6 u))
| step_r6 u r : reader_step (late6 u) (done u) (r6 u) r -> step u (with_readers u (r4 u) r)
| step_close u : at_ u = NotCalled ->
    step u {| r4 := r4 u; r6 := r6 u; late4 := late4 u; late6 := late6 u; done := true; at_ := DoneClosed |}
| step_deadline4 u : at_ u = DoneClosed ->
    step u {| r4 := r4 u; r6 := r6 u; late4 := true; late6 := late6 u; done := done u; at_ := Deadline4 |}
| step_deadline6 u : at_ u = Deadline4 ->
    step u {| r4 := r4 u; r6 := r6 u; late4 := late4 u; late6 := true; done := done u; at_ := Waiting |}
| step_clear4 u : at_ u = Waiting -> r4 u = Gone -> r6 u = Gone ->
    step u {| r4 := r4 u; r6 := r6 u; late4 := false; late6 := late6 u; done := done u; at_ := Cleared4 |}
| step_clear6 u : at_ u = Cleared4 ->
    step u {| r4 := r4 u; r6 := r6 u; late4 := late4 u; late6 := false; done := done u; at_ := Returned |}.

(** [Stop] called a second time waits for the first in [stopOnce.Do] and does
    nothing itself. *)

(** ** Properties of opening and probing *)

(** What is left open by a list of actions, given the descriptors of the sockets. *)
Definition left_open (l4 l6 : result string Z) (acts : list os_action) : list Z :=
  foldl (fun fds a => match a with
    | Listen4 _ => match l4 with Ok fd => fds ++ [fd] | Err _ => fds end
    | Listen6 _ => match l6 with Ok fd => fds ++ [fd] | Err _ => fds end
    | CloseSocket fd => filter (fun x => x <> fd) fds
    | TuneBuffers _ => fds
    end) [] acts.

(** Opening the sockets gives what the family asks for and leaks nothing.
    On success the sockets are the ones that could be bound, at least one, none
    outside the family, and exactly they are open, with tuned buffers; with one
    family it fails exactly when its socket cannot be bound, with both when
    neither can; and after a failure no socket is left open. *)
Theorem open_sockets_spec (port : Z) (family : networkFamily) (l4 l6 : result string Z) :
  let '(acts, r) := openUDPSockets port family l4 l6 in
  match r with
  | Ok s => V4 s = (if decide (family = familyIPv6) then None else to_option l4)
      /\ V6 s = (if decide (family = familyIPv4) then None else to_option l6)
      /\ (is_Some (V4 s) \/ is_Some (V6 s))
      /\ left_open l4 l6 acts = option_list (V4 s) ++ option_list (V6 s)
      /\ forall fd, TuneBuffers fd ∈ acts <-> fd ∈ option_list (V4 s) ++ option_list (V6 s)
  | Err _ => left_open l4 l6 acts = []
      /\ (family <> familyIPv6 -> is_ok l4 = false) /\ (family <> familyIPv4 -> is_ok l6 = false)
  end.
Proof.
  destruct family, l4 as [fd4|e4], l6 as [fd6|e6]; cbn;
    rewrite ?decide_True, ?decide_False by done; split_and!; try done; try (by intros); try (by left); try (by right);
    set_solver.
Qed.

(** Closing the sockets that opening left leaves none. *)
Lemma close_leaves_none l4 l6 acts s :
  left_open l4 l6 acts = option_list (V4 s) ++ option_list (V6 s) -> left_open l4 l6 (acts ++ Close (Some s)) = [].
Proof.
  unfold left_open. rewrite foldl_app. intros ->. destruct s as [[a|] [b|]]; cbn; rewrite ?filter_cons;
    repeat (case_decide || rewrite filter_cons || rewrite filter_nil); congruence.
Qed.

(** The port is one of the dynamic range. *)
Lemma listenPort_bounds b : 49152 <= listenPort b <= 65535.
Proof. unfold listenPort. pose proof (Z.mod_pos_bound (Z.lor (Z.shiftl b.1 8) b.2) 16384 ltac:(lia)). lia. Qed.

Lemma probe_sends_burst n evs : probe_sends true (replicate n BurstTick ++ evs) = (n + probe_sends true evs)%nat.
Proof. induction n as [|n IH]; [done|]. cbn. by rewrite IH. Qed.

Lemma probe_sends_keep n evs : probe_sends false (replicate n KeepAliveTick ++ evs) = (n + probe_sends false evs)%nat.
Proof. induction n as [|n IH]; [done|]. cbn. by rewrite IH. Qed.

(** Where a probe goes: through the socket of the address's family, to what the
    resolver made of it. *)
Definition probe_of (s : udpSockets) (resolve : string -> string -> option (list Z * Z)) (addr : string)
    (fd : Z) (remote : list Z * Z) : Prop :=
  exists host p ip, split_host_port addr = Some (host, p) /\ parse_ip host = Some ip
    /\ (if is_v4 ip then V4 s = Some fd /\ resolve "udp4"%string addr = Some remote
        else V6 s = Some fd /\ resolve "udp6"%string addr = Some remote).

Lemma candidate_probe_spec (s : udpSockets) addr resolve writes :
  let '(sent, out) := sendPeerCandidateProbe (Some s) addr resolve writes in
  (sent = true <-> out <> [])
  /\ forall fd remote, (fd, remote) ∈ out -> writes = None /\ probe_of s resolve addr fd remote.
Proof.
  unfold sendPeerCandidateProbe, probe_of.
  destruct (split_host_port addr) as [[host p]|] eqn:Es; [|by split; [|intros ? ? ?%not_elem_of_nil]].
  destruct (parse_ip host) as [ip|] eqn:Ei; [|by split; [|intros ? ? ?%not_elem_of_nil]].
  destruct (is_v4 ip) eqn:Ev.
  1: destruct (V4 s) as [fd|] eqn:E4; [|by split; [|intros ? ? ?%not_elem_of_nil]].
  2: destruct (V6 s) as [fd|] eqn:E6; [|by split; [|intros ? ? ?%not_elem_of_nil]].
  all: destruct (resolve _ addr) as [remote|] eqn:Er; [|by split; [|intros ? ? ?%not_elem_of_nil]].
  all: destruct writes; [by split; [|intros ? ? ?%not_elem_of_nil]|]; split; [done|].
  all: intros fd' remote' [= -> ->]%list_elem_of_singleton; split; [done|]; exists host, p, ip; by rewrite Ev.
Qed.

(** The peer's candidates are probed until the probing is stopped, and not
    after. Every round probes all candidates in order: one round at once, one per
    tick of the burst, one per tick of the keep-alive that follows it; whatever
    comes after the stop is ignored. A probe goes to the address named, through
    the socket of its family, and is reported as sent only if it was written. *)
Theorem peer_probes_spec (s : udpSockets) (candidates : list candidate) (n m : nat) (rest : list probe_wakeup) :
  let rounds k := concat (replicate k (Addr <$> candidates)) in
  startPeerCandidateProbes (Some s) candidates (replicate n BurstTick ++ Stopped :: rest) = rounds (1 + n)%nat
  /\ startPeerCandidateProbes (Some s) candidates
       (replicate n BurstTick ++ BurstOver :: replicate m KeepAliveTick ++ Stopped :: rest) = rounds (1 + n + m)%nat
  /\ forall addr resolve writes,
       let '(sent, out) := sendPeerCandidateProbe (Some s) addr resolve writes in
       (sent = true <-> out <> [])
       /\ forall fd remote, (fd, remote) ∈ out -> writes = None /\ probe_of s resolve addr fd remote.
Proof.
  intros rounds.
  assert (forall evs k, probe_sends true evs = k -> startPeerCandidateProbes (Some s) candidates evs = rounds (S k)) as Hstart.
  { intros evs k <-. unfold startPeerCandidateProbes, rounds. destruct candidates; [|done].
    by induction (S (probe_sends true evs)) as [|j IH]; [|cbn]. }
  split_and!.
  - apply Hstart. rewrite probe_sends_burst. cbn. lia.
  - apply (Hstart _ (n + m)%nat). rewrite probe_sends_burst. cbn [probe_sends]. rewrite probe_sends_keep. cbn [probe_sends]. lia.
  - intros addr resolve writes. apply candidate_probe_spec.
Qed.

(** ** Properties of the stopper *)

Definition reachable (s : udpSockets) (u : udpReadStopper) : Prop := rtc step (started s) u.

(** What holds at every step. *)
Definition stop_inv (u : udpReadStopper) : Prop :=
  done u = bool_decide (at_ u <> NotCalled)
  /\ late4 u = bool_decide (at_ u ∈ [Deadline4; Waiting])
  /\ late6 u = bool_decide (at_ u ∈ [Waiting; Cleared4])
  /\ (at_ u ∈ [Cleared4; Returned] -> r4 u = Gone /\ r6 u = Gone).

Lemma stop_inv_step u u' : stop_inv u -> step u u' -> stop_inv u'.
Proof.
  intros (Hd & H4 & H6 & Hg) Hs. unfold stop_inv. destruct Hs as [u r Hr|u r Hr|u Ha|u Ha|u Ha|u Ha Hg4 Hg6|u Ha]; cbn.
  1, 2: split_and!; try done; intros Hin; destruct (Hg Hin) as [E4 E6]; rewrite ?E4, ?E6 in Hr; inversion Hr.
  all: rewrite Ha in *; cbn in *; split_and!; try done; try (by intros Hin; set_solver).
Qed.

Lemma reachable_inv s u : reachable s u -> stop_inv u.
Proof.
  intros Hr. refine (rtc_ind_r (fun u => stop_inv u) _ _ _ u Hr); [|by intros ? ? _ ? ?; eapply stop_inv_step].
  split_and!; try done. cbn. set_solver.
Qed.

(** When the stopper has returned, the sockets are free. No reader is left, no
    read deadline is left behind, and nothing of it will ever run again, so that
    whoever reads the sockets next loses no packet to it. *)
Theorem stop_is_final (s : udpSockets) (u : udpReadStopper) :
  reachable s u -> at_ u = Returned ->
  r4 u = Gone /\ r6 u = Gone /\ late4 u = false /\ late6 u = false /\ forall u', ~ step u u'.
Proof.
  intros (Hd & H4 & H6 & Hg)%reachable_inv Ha. rewrite Ha in *. destruct Hg as [Hg4 Hg6]; [set_solver|].
  split_and!; try done. intros u' Hs. destruct Hs as [? ? Hr|? ? Hr| | | | |]; try congruence;
    rewrite ?Hg4, ?Hg6 in Hr; inversion Hr.
Qed.

Definition reader_left (r : reader) : nat :=
  match r with InRead => 3 | Busy => 2 | AtCheck => 1 | Gone => 0 end.
Definition stop_left (a : stop_at) : nat :=
  match a with NotCalled => 5 | DoneClosed => 4 | Deadline4 => 3 | Waiting => 2 | Cleared4 => 1 | Returned => 0 end.
Definition steps_left (u : udpReadStopper) : nat := reader_left (r4 u) + reader_left (r6 u) + stop_left (at_ u).

Lemma closed_step u u' : stop_inv u -> done u = true -> step u u' -> done u' = true /\ (steps_left u' < steps_left u)%nat.
Proof.
  intros (Hd & _) Hc Hs. unfold steps_left.
  destruct Hs as [u r Hr|u r Hr|u Ha|u Ha|u Ha|u Ha ? ?|u Ha]; cbn; (split; [try done|]).
  1, 2: destruct Hr; cbn; try congruence; lia.
  all: rewrite Ha; cbn; try lia.
Qed.

(** Until it has returned, something can happen. *)
Lemma stop_progress u : stop_inv u -> done u = true -> at_ u <> Returned -> exists u', step u u'.
Proof.
  intros (Hd & H4 & H6 & Hg) Hc Hne. destruct (at_ u) eqn:Ha.
  - rewrite Hd in Hc. done.
  - eexists. by apply step_deadline4.
  - eexists. by apply step_deadline6.
  - assert (late4 u = true /\ late6 u = true) as [L4 L6] by by rewrite H4, H6.
    destruct (r4 u) eqn:E4.
    + eexists. eapply step_r4. rewrite E4, Hc. by apply check_closed.
    + eexists. eapply step_r4. rewrite E4, L4. by apply read_late.
    + eexists. eapply step_r4. rewrite E4. apply handled.
    + destruct (r6 u) eqn:E6.
      * eexists. eapply step_r6. rewrite E6, Hc. by apply check_closed.
      * eexists. eapply step_r6. rewrite E6, L6. by apply read_late.
      * eexists. eapply step_r6. rewrite E6. apply handled.
      * eexists. by apply step_clear4.
  - eexists. by apply step_clear6.
  - done.
Qed.

(** [C25] Stopping always comes to an end, however the readers and the packets that
    still arrive are interleaved with it. Once it has closed its channel, at most
    ten more steps are taken, by the readers and by itself together; and as long
    as it has not returned, there is one to take. *)
Theorem stop_terminates (s : udpSockets) (u : udpReadStopper) :
  reachable s u -> done u = true ->
  (forall n u', nsteps step n u u' -> (n <= 10)%nat)
  /\ (forall u', rtc step u u' -> at_ u' = Returned \/ exists u'', step u' u'').
Proof.
  intros Hi%reachable_inv Hc.
  assert (forall n u', nsteps step n u u' -> (n + steps_left u' <= steps_left u)%nat /\ stop_inv u' /\ done u' = true) as Hn.
  { intros n. induction n as [|n IH] using nat_ind; intros u' Hs.
    - by inversion Hs; subst.
    - apply nsteps_inv_r in Hs as (v & Hv & Hvu). destruct (IH v Hv) as (Hle & Hvi & Hvd).
      destruct (closed_step v u' Hvi Hvd Hvu) as [? ?]. split_and!; [lia|by eapply stop_inv_step|done]. }
  split.
  - intros n u' Hs. apply Hn in Hs as [Hle _]. unfold steps_left in Hle. destruct Hi as (Hd & _).
    assert (stop_left (at_ u) <= 4)%nat by (destruct (at_ u); cbn; try lia; rewrite Hd in Hc; done).
    assert (forall r, reader_left r <= 3)%nat as Hr by (intros []; cbn; lia).
    pose proof (Hr (r4 u)). pose proof (Hr (r6 u)). lia.
  - intros u' [n Hs]%rtc_nsteps_1. destruct (Hn n u' Hs) as (_ & Hui & Hud).
    destruct (decide (at_ u' = Returned)); [by left|]. right. by apply stop_progress.
Qed.

(** *** Concrete runs *)

Definition two_sockets : udpSockets := {| V4 := Some 3; V6 := Some 4 |}.

(** A run in which a packet arrives while [Stop] is under way. *)
Definition after_run : udpReadStopper :=
  {| r4 := Gone; r6 := Gone; late4 := false; late6 := false; done := true; at_ := Returned |}.

(** Both readers wait for packets when [Stop] is called. *)
Definition closing : udpReadStopper :=
  {| r4 := InRead; r6 := InRead; late4 := false; late6 := false; done := true; at_ := DoneClosed |}.

Lemma sample_closing : reachable two_sockets closing.
Proof.
  unfold reachable, started, closing. cbn.
  eapply rtc_l; [by apply step_r4, check_open|]. cbn.
  eapply rtc_l; [by apply step_r6, check_open|]. cbn.
  eapply rtc_l; [by apply step_close|]. cbn. apply rtc_refl.
Qed.

Lemma sample_run : reachable two_sockets after_run.
Proof.
  unfold reachable. etransitivity; [apply sample_closing|]. unfold closing, after_run.
  eapply rtc_l; [by apply step_r4, read_packet|]. cbn.
  eapply rtc_l; [by apply step_deadline4|]. cbn.
  eapply rtc_l; [apply step_r4, handled|]. cbn.
  eapply rtc_l; [by apply step_r4, check_closed|]. cbn.
  eapply rtc_l; [by apply step_deadline6|]. cbn.
  eapply rtc_l; [by apply step_r6, read_late|]. cbn.
  eapply rtc_l; [by apply step_clear4|]. cbn.
  eapply rtc_l; [by apply step_clear6|]. cbn. apply rtc_refl.
Qed.

Lemma stop_is_final_witness : r4 after_run = Gone /\ forall u', ~ step after_run u'.
Proof.
  destruct (stop_is_final two_sockets after_run sample_run eq_refl) as (H4 & _ & _ & _ & Hno). split; [exact H4|exact Hno].
Defined.

Lemma stop_terminates_witness : (exists u, step closing u) /\ ~ nsteps step 11 closing after_run.
Proof.
  destruct (stop_terminates two_sockets closing sample_closing eq_refl) as [Hn Hp]. split.
  - destruct (Hp closing (rtc_refl _ _)) as [?|?]; [discriminate|assumption].
  - intros Hs. apply Hn in Hs. lia.
Defined.

End Sockets.
