(* ===== verification/Nomination.v ===== *)
(** Master-driven nomination ([nomination.go]): the tracker that follows the
    console's wait countdown per remote tuple, as any sequence of its methods. *)

From S2P Require Import Prelude Lists GoStrings GoNet GoJson.
From Stdlib Require Import Ascii.
Open Scope Z_scope.

Module Nomination.

(** ** The tracker *)

Definition nominationWaitSequence : list Z := [2000; 1000; 500; 250; 125].

Record nominationPair := { nextWait : nat }.

(** [closed] is whether the channel [selectedCh] has been closed. *)
Record nominationTracker := {
  pairs : gmap string nominationPair;
  active : bool;
  selected : string;
  closed : bool;
}.

Definition newNominationTracker : nominationTracker :=
  {| pairs := ∅; active := false; selected := EmptyString; closed := false |}.

(** [t.selected = addr; close(t.selectedCh)]: closing a closed channel panics,
    which is [None]. *)
Definition select_addr (t : nominationTracker) (addr : string) : option nominationTracker :=
  if closed t then None
  else Some {| pairs := pairs t; active := active t; selected := addr; closed := true |}.

Definition set_pair (t : nominationTracker) (addr : string) (p : nominationPair) : nominationTracker :=
  {| pairs := <[addr := p]> (pairs t); active := active t; selected := selected t; closed := closed t |}.

(** The mutex makes each method one atomic step. *)
Definition observe (t : nominationTracker) (addr : string) (waitMs : Z)
  : option (nominationTracker * bool) :=
  let p := default {| nextWait := 0 |} (pairs t !! addr) in
  let t := set_pair t addr p in
  if negb (bool_decide (selected t = EmptyString))
     || (length nominationWaitSequence <=? nextWait p)%nat
  then Some (t, false)
  else if negb (waitMs =? nth (nextWait p) nominationWaitSequence 0) then Some (t, false)
  else
    let p := {| nextWait := S (nextWait p) |} in
    let t := set_pair t addr p in
    if (nextWait p =? length nominationWaitSequence)%nat then
      if negb (active t) then Some (t, false)
      else (fun t => (t, true)) <$> select_addr t addr
    else Some (t, false).

(** The [range] over the pairs, in the order the runtime visits them. *)
Fixpoint activate_scan (t : nominationTracker) (order : list (string * nominationPair))
  : option nominationTracker :=
  match order with
  | [] => Some t
  | (addr, p) :: order' =>
      if (nextWait p =? length nominationWaitSequence)%nat then select_addr t addr
      else activate_scan t order'
  end.

Definition activate (t : nominationTracker) (order : list (string * nominationPair))
  : option nominationTracker :=
  if active t then Some t
  else activate_scan {| pairs := pairs t; active := true; selected := selected t; closed := closed t |} order.

Definition selectedEndpoint (t : nominationTracker) : string := selected t.

(** What ends the wait: the tracker as it is when [selectedCh] is found closed,
    the timer, or the context. *)
Inductive selection_event : Type :=
| SelectedCh (now : nominationTracker)
| SelectionTimeout
| SelectionCancelled.

Definition waitForSelection (t : nominationTracker) (ev : selection_event) : string :=
  if negb (bool_decide (selectedEndpoint t = EmptyString)) then selectedEndpoint t
  else match ev with
  | SelectedCh now => selectedEndpoint now
  | SelectionTimeout | SelectionCancelled => EmptyString
  end.

(** ** Histories of the tracker *)

Inductive nomination_event : Type :=
| Observed (addr : string) (waitMs : Z)
| Activated.

(** [tracked h t]: the calls [h], oldest first, lead a new tracker to [t]. The
    remote tuples are printed socket addresses, never the empty string. *)
Inductive tracked : list nomination_event -> nominationTracker -> Prop :=
| tracked_new : tracked [] newNominationTracker
| tracked_observe h t addr waitMs t' b :
    tracked h t -> addr <> EmptyString -> observe t addr waitMs = Some (t', b) ->
    tracked (h ++ [Observed addr waitMs]) t'
| tracked_activate h t order t' :
    tracked h t -> order ≡ₚ map_to_list (pairs t) -> activate t order = Some t' ->
    tracked (h ++ [Activated]) t'.

(** The wait values one tuple sent. *)
Definition waits_of (addr : string) (h : list nomination_event) : list Z :=
  omap (fun ev => match ev with
                  | Observed a w => if decide (a = addr) then Some w else None
                  | Activated => None
                  end) h.

(** The specification: a tuple is nominated once it has counted down through
    the sequence, other values in between notwithstanding. *)
Definition nominated (addr : string) (h : list nomination_event) : Prop :=
  addr <> EmptyString /\ nominationWaitSequence `sublist_of` waits_of addr h.

(** ** Lemmas *)

Lemma waits_of_app addr h1 h2 : waits_of addr (h1 ++ h2) = waits_of addr h1 ++ waits_of addr h2.
Proof. apply omap_app. Qed.

Lemma waits_of_observed addr a w : waits_of addr [Observed a w] = if decide (a = addr) then [w] else [].
Proof. unfold waits_of. simpl. by destruct (decide (a = addr)). Qed.

Lemma nominated_mono addr h ev : nominated addr h -> nominated addr (h ++ [ev]).
Proof.
  intros [Hne Hs]. split; [done|]. rewrite waits_of_app. by apply sublist_inserts_r.
Qed.

(** Only a tuple that was heard from is nominated. *)
Lemma nominated_observed addr h : nominated addr h -> exists w, Observed addr w ∈ h.
Proof.
  intros [_ Hs]. destruct (waits_of addr h) as [|w ws] eqn:E; [by inversion Hs|].
  assert (w ∈ waits_of addr h) as Hw by (rewrite E; by left).
  apply list_elem_of_omap in Hw as ([a w'|] & Hin & Hw); [|done].
  destruct (decide (a = addr)) as [->|]; [|done]. injection Hw as ->. by exists w.
Qed.

(** Where a tuple's cursor stands. *)
Definition cursor (t : nominationTracker) (addr : string) : nat :=
  nextWait (default {| nextWait := 0 |} (pairs t !! addr)).

Lemma cursor_set_pair t addr p a :
  cursor (set_pair t addr p) a = if decide (addr = a) then nextWait p else cursor t a.
Proof.
  unfold cursor, set_pair. simpl. destruct (decide (addr = a)) as [->|Hne].
  - by rewrite lookup_insert_eq.
  - by rewrite lookup_insert_ne.
Qed.

Record tracker_inv (h : list nomination_event) (t : nominationTracker) : Prop := {
  inv_active : active t = true <-> Activated ∈ h;
  inv_closed : closed t = true <-> selected t <> EmptyString;
  inv_selected : selected t <> EmptyString -> active t = true /\ nominated (selected t) h;
  inv_cursor : selected t = EmptyString ->
    forall a, drop (cursor t a) nominationWaitSequence = advance nominationWaitSequence (waits_of a h);
  inv_waiting : selected t = EmptyString -> active t = true ->
    forall a, a <> EmptyString -> (cursor t a < length nominationWaitSequence)%nat;
  inv_bound : forall a, (cursor t a <= length nominationWaitSequence)%nat;
  inv_keys : pairs t !! EmptyString = None;
}.

Lemma inv_new : tracker_inv [] newNominationTracker.
Proof.
  split; simpl; try done; try (intros; unfold cursor; simpl; rewrite lookup_empty; simpl; (lia || done)).
  split; [done|]. intros H. by apply not_elem_of_nil in H.
Qed.
Lemma advance_one n w :
  (n < length nominationWaitSequence)%nat ->
  advance (drop n nominationWaitSequence) [w]
  = if w =? nth n nominationWaitSequence 0 then drop (S n) nominationWaitSequence
    else drop n nominationWaitSequence.
Proof.
  intros Hn. destruct (lookup_lt_is_Some_2 _ _ Hn) as [x Hx].
  rewrite (drop_S _ _ _ Hx), (nth_lookup_Some _ _ _ _ Hx). simpl.
  destruct (Z.eqb_spec w x); [by rewrite decide_True|by rewrite decide_False].
Qed.

Lemma advance_observed h addr w n a :
  drop n nominationWaitSequence = advance nominationWaitSequence (waits_of a h) ->
  advance nominationWaitSequence (waits_of a (h ++ [Observed addr w]))
  = if decide (addr = a) then advance (drop n nominationWaitSequence) [w]
    else drop n nominationWaitSequence.
Proof.
  intros Hd. rewrite waits_of_app, advance_app, <- Hd, waits_of_observed. by destruct (decide (addr = a)).
Qed.

Lemma not_activated h addr w : Activated ∈ h ++ [Observed addr w] <-> Activated ∈ h.
Proof. rewrite elem_of_app, list_elem_of_singleton. naive_solver. Qed.

(** A request that moves no cursor. *)
Lemma inv_idle h t addr w :
  tracker_inv h t -> addr <> EmptyString ->
  (selected t = EmptyString ->
     advance (drop (cursor t addr) nominationWaitSequence) [w] = drop (cursor t addr) nominationWaitSequence) ->
  tracker_inv (h ++ [Observed addr w]) (set_pair t addr {| nextWait := cursor t addr |}).
Proof.
  intros [Ha Hc Hs Hcu Hw Hb Hk] Hne Hidle.
  assert (forall a, cursor (set_pair t addr {| nextWait := cursor t addr |}) a = cursor t a) as Hcur.
  { intros a. rewrite cursor_set_pair. by case_decide; subst. }
  split; rewrite ?not_activated; try done.
  - intros Hsel. destruct (Hs Hsel). split; [done|]. by apply nominated_mono.
  - intros Hsel a. rewrite Hcur, (advance_observed _ _ _ _ _ (Hcu Hsel a)).
    case_decide; subst; [|done]. by rewrite Hidle.
  - intros Hsel Hact a Hna. rewrite Hcur. by apply Hw.
  - intros a. by rewrite Hcur.
  - simpl. by rewrite lookup_insert_ne.
Qed.

(** The cursor has reached the end exactly when the tuple is nominated. *)
Lemma cursor_done h t a :
  tracker_inv h t -> selected t = EmptyString -> a <> EmptyString ->
  cursor t a = length nominationWaitSequence <-> nominated a h.
Proof.
  intros Hi Hsel Hne. pose proof (inv_cursor _ _ Hi Hsel a) as Hd. pose proof (inv_bound _ _ Hi a) as Hb.
  unfold nominated. rewrite <- advance_sublist, <- Hd. split.
  - intros ->. split; [done|]. by rewrite drop_all.
  - intros [_ Hn]. apply (f_equal length) in Hn. rewrite length_drop in Hn. simpl in *. lia.
Qed.

(** A request that moves its cursor. *)
Section moving.
Context (h : list nomination_event) (t : nominationTracker) (addr : string) (w : Z).
Context (Hi : tracker_inv h t) (Hne : addr <> EmptyString) (Hsel : selected t = EmptyString).
Context (Hlt : (cursor t addr < length nominationWaitSequence)%nat).
Context (Hmv : advance (drop (cursor t addr) nominationWaitSequence) [w]
               = drop (S (cursor t addr)) nominationWaitSequence).

Let t1 := set_pair t addr {| nextWait := S (cursor t addr) |}.

Lemma moved_cursor a : cursor t1 a = if decide (addr = a) then S (cursor t addr) else cursor t a.
Proof. apply cursor_set_pair. Qed.

Lemma moved_advance a :
  drop (cursor t1 a) nominationWaitSequence
  = advance nominationWaitSequence (waits_of a (h ++ [Observed addr w])).
Proof.
  rewrite moved_cursor, (advance_observed _ _ _ _ _ (inv_cursor _ _ Hi Hsel a)).
  case_decide; subst; done.
Qed.

Lemma moved_bound a : (cursor t1 a <= length nominationWaitSequence)%nat.
Proof. rewrite moved_cursor. pose proof (inv_bound _ _ Hi a). case_decide; lia. Qed.

Lemma moved_keys : pairs t1 !! EmptyString = None.
Proof. simpl. rewrite lookup_insert_ne by done. apply Hi. Qed.

Lemma inv_moved :
  active t = false \/ (S (cursor t addr) < length nominationWaitSequence)%nat ->
  tracker_inv (h ++ [Observed addr w]) t1.
Proof.
  intros Hor. pose proof Hi as [Ha Hc Hs Hcu Hw Hb Hk].
  split; rewrite ?not_activated; try done.
  - intros _ a. apply moved_advance.
  - intros _ Hact a Hna. rewrite moved_cursor. simpl in Hact.
    destruct Hor as [Hor|Hor]; [congruence|]. case_decide; [done|]. by apply Hw.
  - apply moved_bound.
  - apply moved_keys.
Qed.

Lemma inv_moved_select :
  active t = true -> S (cursor t addr) = length nominationWaitSequence ->
  tracker_inv (h ++ [Observed addr w])
    {| pairs := pairs t1; active := active t; selected := addr; closed := true |}.
Proof.
  intros Hact Hend. pose proof Hi as [Ha Hc Hs Hcu Hw Hb Hk].
  split; rewrite ?not_activated; try done.
  - intros _. split; [done|]. split; [done|]. simpl. rewrite <- advance_sublist, <- moved_advance.
    rewrite moved_cursor, decide_True by done. by rewrite Hend, drop_all.
  - intros a. apply moved_bound.
  - apply moved_keys.
Qed.
End moving.

Lemma set_pair_twice t addr p q : set_pair (set_pair t addr p) addr q = set_pair t addr q.
Proof. unfold set_pair. simpl. by rewrite insert_insert_eq. Qed.

Lemma inv_open h t : tracker_inv h t -> selected t = EmptyString -> closed t = false.
Proof. intros Hi Hsel. destruct (closed t) eqn:E; [|done]. by apply Hi in E. Qed.

Lemma observe_inv h t addr w :
  tracker_inv h t -> addr <> EmptyString ->
  exists t' b, observe t addr w = Some (t', b) /\ tracker_inv (h ++ [Observed addr w]) t'
    /\ (b = true <-> selected t = EmptyString /\ selected t' <> EmptyString)
    /\ (selected t <> EmptyString -> selected t' = selected t).
Proof.
  intros Hi Hne. unfold observe.
  set (p := default {| nextWait := 0 |} (pairs t !! addr)).
  assert (p = {| nextWait := cursor t addr |}) as Hp by (unfold cursor; fold p; by destruct p).
  assert (nextWait p = cursor t addr) as Hn by by rewrite Hp. rewrite Hn.
  pose proof (inv_bound _ _ Hi addr) as Hb.
  pose proof (fun H => inv_idle h t addr w Hi Hne H) as Hidle.
  destruct (decide (selected t = EmptyString)) as [Hsel|Hsel].
  2:{ rewrite bool_decide_false by done. cbn [negb orb]. eexists _, _. split; [done|].
      rewrite Hp. split; [by apply Hidle|]. simpl. naive_solver. }
  rewrite (bool_decide_true (selected _ = EmptyString)) by done. cbn [negb orb].
  destruct (Nat.leb_spec (length nominationWaitSequence) (cursor t addr)) as [Hge|Hlt].
  { eexists _, _. split; [done|]. rewrite Hp. split; [apply Hidle; intros _|simpl; naive_solver].
    rewrite drop_ge by lia. apply advance_nil. }
  pose proof (advance_one (cursor t addr) w Hlt) as Hone.
  destruct (w =? nth (cursor t addr) nominationWaitSequence 0); cbn [negb].
  2:{ eexists _, _. split; [done|]. rewrite Hp. split; [by apply Hidle|simpl; naive_solver]. }
  rewrite set_pair_twice. set (t1 := set_pair t addr _). cbn [nextWait].
  destruct (Nat.eqb_spec (S (cursor t addr)) (length nominationWaitSequence)) as [Hend|Hend].
  2:{ eexists _, _. split; [done|]. split; [apply inv_moved; auto; right; lia|simpl; naive_solver]. }
  change (active t1) with (active t). destruct (active t) eqn:Hact; cbn [negb].
  2:{ eexists _, _. split; [done|]. split; [apply inv_moved; auto|simpl; naive_solver]. }
  unfold select_addr. change (closed t1) with (closed t). rewrite (inv_open _ _ Hi Hsel).
  eexists _, _. split; [done|]. change (active t1) with (active t).
  split; [by apply inv_moved_select|simpl; naive_solver].
Qed.

(** *** Activation *)

Lemma activate_scan_spec t order :
  match activate_scan t order with
  | None => closed t = true
  | Some t' =>
      (t' = t /\ forall a p, (a, p) ∈ order -> nextWait p <> length nominationWaitSequence)
      \/ exists a p, (a, p) ∈ order /\ nextWait p = length nominationWaitSequence
           /\ t' = {| pairs := pairs t; active := active t; selected := a; closed := true |}
  end.
Proof.
  induction order as [|[a p] order IH]; cbn [activate_scan].
  { left. split; [done|]. intros a p H. by apply not_elem_of_nil in H. }
  destruct (Nat.eqb_spec (nextWait p) (length nominationWaitSequence)) as [He|He].
  - unfold select_addr. destruct (closed t); [done|]. right. exists a, p. rewrite elem_of_cons. auto.
  - destruct (activate_scan t order) as [t'|]; [|done].
    setoid_rewrite elem_of_cons. naive_solver.
Qed.

Lemma activate_inv h t order :
  tracker_inv h t -> order ≡ₚ map_to_list (pairs t) ->
  exists t', activate t order = Some t' /\ tracker_inv (h ++ [Activated]) t'
    /\ (selected t <> EmptyString -> selected t' = selected t).
Proof.
  intros Hi Hord. pose proof Hi as [Ha Hc Hs Hcu Hw Hb Hk]. unfold activate.
  assert (forall a, waits_of a (h ++ [Activated]) = waits_of a h) as Hwaits.
  { intros a. rewrite waits_of_app. simpl. apply app_nil_r. }
  assert (forall a, nominated a (h ++ [Activated]) <-> nominated a h) as Hnom.
  { intros a. unfold nominated. by rewrite Hwaits. }
  assert (Activated ∈ h ++ [Activated]) as Hin by (rewrite elem_of_app, list_elem_of_singleton; auto).
  destruct (active t) eqn:Hact.
  { eexists. split; [done|]. split; [|done].
    split; try done.
    - intros Hne. destruct (Hs Hne). rewrite Hact. by rewrite Hnom.
    - intros Hse a. rewrite Hwaits. by apply Hcu.
    - auto. }
  assert (selected t = EmptyString) as Hsel.
  { destruct (decide (selected t = EmptyString)) as [|Hsel]; [done|]. destruct (Hs Hsel). congruence. }
  set (t1 := {| pairs := pairs t; active := true; selected := selected t; closed := closed t |}).
  pose proof (activate_scan_spec t1 order) as Hscan.
  destruct (activate_scan t1 order) as [t'|]; [|simpl in Hscan; rewrite (inv_open _ _ Hi Hsel) in Hscan; done].
  assert (forall a p, (a, p) ∈ order <-> pairs t !! a = Some p) as Hmem.
  { intros a p. rewrite Hord. apply elem_of_map_to_list. }
  exists t'. split; [done|]. split; [|done].
  destruct Hscan as [[-> Hnone]|(a & p & Hap & Hend & ->)].
  - split; try done; [intros _ a; rewrite Hwaits; by apply Hcu|].
    intros _ _ a Hna. specialize (Hb a). change (cursor t1 a) with (cursor t a).
    destruct (pairs t !! a) as [p|] eqn:Ep.
    + specialize (Hnone a p (proj2 (Hmem a p) Ep)). unfold cursor in *. rewrite Ep in *. simpl in *. lia.
    + unfold cursor. rewrite Ep. simpl. lia.
  - apply Hmem in Hap.
    assert (a <> EmptyString) as Hna by (intros ->; congruence).
    assert (nominated a h) as Hn.
    { apply (cursor_done h t a Hi Hsel Hna). unfold cursor. by rewrite Hap. }
    split; try done. intros _. by rewrite Hnom.
Qed.

Lemma tracked_inv h t : tracked h t -> tracker_inv h t.
Proof.
  induction 1 as [|h t addr w t' b Ht IH Hne Hob|h t order t' Ht IH Hord Hact]; [apply inv_new| |].
  - destruct (observe_inv h t addr w IH Hne) as (t2 & b2 & Hob2 & Hi & _).
    rewrite Hob in Hob2. by injection Hob2 as -> ->.
  - destruct (activate_inv h t order IH Hord) as (t2 & Hact2 & Hi & _).
    rewrite Hact in Hact2. by injection Hact2 as ->.
Qed.
(** ** Properties of the tracker *)

(** [C3] The tracker implements its specification: whatever the order of calls,
    it has an endpoint exactly when it has been activated and some tuple has
    counted down through 2000, 1000, 500, 250, 125 ms, before or after
    activation; the endpoint is such a tuple, and the channel that wakes the
    waiters is closed exactly when there is an endpoint. *)
Theorem nomination_spec (h : list nomination_event) (t : nominationTracker) :
  tracked h t ->
  (selectedEndpoint t <> EmptyString <-> Activated ∈ h /\ exists a, nominated a h)
  /\ (selectedEndpoint t <> EmptyString -> nominated (selectedEndpoint t) h)
  /\ (closed t = true <-> selectedEndpoint t <> EmptyString).
Proof.
  intros Ht. pose proof (tracked_inv h t Ht) as Hi. pose proof Hi as [Ha Hc Hs _ Hw _ _].
  unfold selectedEndpoint. split_and!; [|by intros H; apply Hs|done]. rewrite <- Ha. split.
  - intros H. destruct (Hs H) as [? ?]. eauto.
  - intros [Hact (a & Hn)] Hsel. pose proof (proj1 Hn) as Hna.
    apply (cursor_done h t a Hi Hsel Hna) in Hn. specialize (Hw Hsel Hact a Hna). lia.
Qed.

(** Running a history, the map visited in the order of its keys. *)
Definition replay_step (t : nominationTracker) (ev : nomination_event) : option nominationTracker :=
  match ev with
  | Observed addr w => fst <$> observe t addr w
  | Activated => activate t (map_to_list (pairs t))
  end.

Definition replay (h : list nomination_event) : option nominationTracker :=
  foldl (fun ot ev => ot ≫= fun t => replay_step t ev) (Some newNominationTracker) h.

Definition real_event (ev : nomination_event) : Prop :=
  match ev with Observed addr _ => addr <> EmptyString | Activated => True end.

Lemma replay_tracked h t : replay h = Some t -> Forall real_event h -> tracked h t.
Proof.
  revert t. induction h as [|ev h IH] using rev_ind; intros t Hr Hreal.
  { injection Hr as <-. constructor. }
  unfold replay in Hr. rewrite foldl_app in Hr. fold (replay h) in Hr. cbn [foldl] in Hr.
  apply Forall_app in Hreal as [Hreal Hev]. apply Forall_cons in Hev as [Hev _].
  apply bind_Some in Hr as (t0 & Ht0 & Hr). specialize (IH _ Ht0 Hreal).
  destruct ev as [addr w|]; cbn [replay_step] in Hr.
  - apply fmap_Some in Hr as ([t' b] & Hob & ->). eapply tracked_observe; eauto.
  - eapply tracked_activate; eauto.
Qed.

(** The countdown of one peer before activation, a stray value of another. *)
Definition example_history : list nomination_event :=
  [Observed "203.0.113.5:5000" 2000; Observed "203.0.113.5:5000" 1000;
   Observed "198.51.100.7:9" 42; Activated; Observed "203.0.113.5:5000" 500;
   Observed "203.0.113.5:5000" 250; Observed "203.0.113.5:5000" 125].

Definition example_tracker : nominationTracker :=
  {| pairs := {["203.0.113.5:5000" := {| nextWait := 5 |}; "198.51.100.7:9" := {| nextWait := 0 |}]};
     active := true; selected := "203.0.113.5:5000"; closed := true |}.

Lemma example_tracked : tracked example_history example_tracker.
Proof. apply replay_tracked; [by vm_compute|]. by repeat constructor. Qed.

Lemma nomination_spec_witness :
  tracked example_history example_tracker /\ nominated "203.0.113.5:5000" example_history.
Proof.
  split; [apply example_tracked|].
  exact (proj1 (proj2 (nomination_spec example_history example_tracker example_tracked)) ltac:(done)).
Defined.

(** No sequence of calls closes the selection channel twice, whatever
    order the runtime visits the pairs in: every call returns, an endpoint once
    selected is never replaced, and [observe] reports a selection exactly when
    it made it. *)
Theorem nomination_never_panics (h : list nomination_event) (t : nominationTracker) :
  tracked h t ->
  (forall addr waitMs, addr <> EmptyString ->
     exists t' b, observe t addr waitMs = Some (t', b)
       /\ (selectedEndpoint t <> EmptyString -> selectedEndpoint t' = selectedEndpoint t)
       /\ (b = true <-> selectedEndpoint t = EmptyString /\ selectedEndpoint t' <> EmptyString))
  /\ (forall order, order ≡ₚ map_to_list (pairs t) ->
     exists t', activate t order = Some t'
       /\ (selectedEndpoint t <> EmptyString -> selectedEndpoint t' = selectedEndpoint t)).
Proof.
  intros Ht. pose proof (tracked_inv h t Ht) as Hi. split.
  - intros addr w Hne. destruct (observe_inv h t addr w Hi Hne) as (t' & b & ? & _ & ? & ?). eauto.
  - intros order Hord. destruct (activate_inv h t order Hi Hord) as (t' & ? & _ & ?). eauto.
Qed.

Lemma nomination_never_panics_witness :
  tracked example_history example_tracker
  /\ exists t' b, observe example_tracker "198.51.100.7:9" 2000 = Some (t', b).
Proof.
  split; [apply example_tracked|].
  destruct (proj1 (nomination_never_panics example_history example_tracker example_tracked)
              "198.51.100.7:9" 2000 ltac:(done)) as (t' & b & H & _).
  by exists t', b.
Defined.
End Nomination.
