(* ===== verification/Stun.v ===== *)
(** STUN on the outer sockets ([stun.go], parts of [nomination.go] and
    [session.go]): classifying packets, answering the console's authenticated
    Binding Requests, feeding the nomination tracker, and the listener that does
    so before the tunnel exists. The message codec and the integrity check are
    the pion/stun library's, an interface here. *)

From S2P Require Import Prelude Lists GoStrings GoNet GoJson Nomination.
From Stdlib Require Import Ascii.
Open Scope Z_scope.

Import Nomination.

(** ** The pion/stun library

    [decode] is [Message.Decode], [check m secret] is
    [NewShortTermIntegrity(secret).Check(m) == nil], [data_attr] is
    [Get(AttrData)], and [build_success]/[build_probe] are [MustBuild] of a
    Binding Success / Binding Request, with the secret when there is one. *)
Class PionStun := {
  message : Type;
  decode : string -> option message;
  is_binding_request : message -> bool;
  type_string : message -> string;
  transaction_id : message -> string;
  data_attr : message -> option string;
  check : message -> string -> bool;
  build_success : string -> option string -> string;
  build_probe : string -> option string -> string;
  xor_mapped : message -> option (list Z * Z);
}.

Module Stun.
Section pion.
Context `{PionStun}.

Definition parseStunMessage (data : string) : option message := decode data.

Definition parseXorMapped (data : string) : option string :=
  msg ← decode data;
  '(ip, port) ← xor_mapped msg;
  Some (join_host_port (ip_string ip) (itoa port)).

Definition byte_nth (i : nat) (s : string) : Z :=
  match String.get i s with Some c => byte_of c | None => 0 end.

(** [binary.BigEndian.Uint32(data[i:i+4])]. *)
Definition be_uint32 (i : nat) (s : string) : Z :=
  Z.lor (Z.shiftl (byte_nth i s) 24) (Z.lor (Z.shiftl (byte_nth (i + 1) s) 16)
    (Z.lor (Z.shiftl (byte_nth (i + 2) s) 8) (byte_nth (i + 3) s))).

(** 0x2112A442. *)
Definition magic_cookie : Z := 554869826.

Definition isSTUN (data : string) : bool :=
  (20 <=? strlen data)
  && ((byte_nth 0 data =? 0) || (byte_nth 0 data =? 1))
  && (be_uint32 4 data =? magic_cookie).

Definition secret_opt (secret : string) : option string :=
  match secret with EmptyString => None | _ => Some secret end.

Definition validStunIntegrity (msg : message) (secret : string) : bool :=
  negb (bool_decide (secret = EmptyString)) && check msg secret.

Definition stunBindingSuccess (req : message) (secret : string) : string :=
  build_success (transaction_id req) (secret_opt secret).

(** [tx] is the random transaction id. *)
Definition stunBindingProbe (tx secret : string) : string := build_probe tx (secret_opt secret).

(** The wait of the DATA attribute, a JSON document. *)
Definition stunNominationWait (msg : message) : option Z :=
  raw ← data_attr msg;
  doc ← parse_json raw;
  members ← as_members doc;
  store_int 0 (field_values "wait" members).

Definition stunNetwork (is4 is6 : bool) : result string string :=
  if is4 then Ok "udp4"%string
  else if is6 then Ok "udp6"%string
  else Err "a reflexive candidate requires an address family"%string.

(** ** The responder *)

Record outcome := {
  o_response : option string;
  o_accepted : bool;
  o_sent : list (string * string);  (* remote, packet *)
  o_tracker : option nominationTracker;
}.

(** [conn] is whether there is a socket, [tracker] the pointer; [None] is a
    panic of [observe]. A failed write is ignored. *)
Definition respondToStunBindingRequestAddrPort (conn : bool) (msg : message) (ap : addr * Z)
    (secret : string) (tracker : option nominationTracker) : option outcome :=
  let remote := addr_port_string ap.1 ap.2 in
  if negb (validStunIntegrity msg secret) then
    Some {| o_response := None; o_accepted := false; o_sent := []; o_tracker := tracker |}
  else
    let resp := stunBindingSuccess msg secret in
    let sent := if conn then [(remote, resp)] else [] in
    match tracker with
    | None => Some {| o_response := Some resp; o_accepted := true; o_sent := sent; o_tracker := None |}
    | Some t =>
        match stunNominationWait msg with
        | None => Some {| o_response := Some resp; o_accepted := true; o_sent := sent; o_tracker := Some t |}
        | Some waitMs =>
            '(t', _) ← observe t remote waitMs;
            Some {| o_response := Some resp; o_accepted := true; o_sent := sent; o_tracker := Some t' |}
        end
    end.

(** [UDPAddr.AddrPort]: a 4-byte address is IPv4, a 16-byte one IPv6 with its
    zone (4-in-6 included), anything else the zero address; the port is cut to
    16 bits. *)
Definition udp_addr_port (a : UDPAddr) : addr * Z :=
  let na := if (length (IP a) =? 4)%nat then Addr4 (IP a)
            else if (length (IP a) =? 16)%nat then Addr6 (IP a) (Zone a)
            else AddrZero in
  (na, Port a mod 2 ^ 16).

(** [a] is the pointer. *)
Definition respondToStunBindingRequest (conn : bool) (msg : message) (a : option UDPAddr)
    (secret : string) (tracker : option nominationTracker) : option outcome :=
  match a with
  | None => Some {| o_response := None; o_accepted := false; o_sent := []; o_tracker := tracker |}
  | Some a => respondToStunBindingRequestAddrPort conn msg (udp_addr_port a) secret tracker
  end.

(** ** Packet logs *)

Record packetLog := {
  Direction : string;
  LogAddr : string;
  Length : Z;
  PrefixHex : string;
  STUN : bool;
  STUNType : string;
}.

Fixpoint hex_encode (s : string) : string :=
  match s with
  | EmptyString => EmptyString
  | String c s' => (chr (hex_lower (byte_of c / 16)) ++ chr (hex_lower (byte_of c mod 16)) ++ hex_encode s')%string
  end.

Definition udp_string (a : UDPAddr) : string := udp_addr_string (IP a) (Zone a) (Port a).

Definition logPacket (direction : string) (a : option UDPAddr) (data : string) : packetLog :=
  let prefixLen := if 12 <? strlen data then 12 else strlen data in
  {| Direction := direction;
     LogAddr := match a with Some a => udp_string a | None => EmptyString end;
     Length := strlen data;
     PrefixHex := hex_encode (str_take (Z.to_nat prefixLen) data);
     STUN := bool_decide (is_Some (parseStunMessage data));
     STUNType := match parseStunMessage data with Some m => type_string m | None => EmptyString end |}.

(** ** The early listener *)

Record earlyNominationListener := {
  stunSecret : string;
  nomination : nominationTracker;
  logs : list packetLog;
  allowed : option (gset string);
}.

Definition newEarlyNominationListener (secret : string) (t : nominationTracker) : earlyNominationListener :=
  {| stunSecret := secret; nomination := t; logs := []; allowed := None |}.

Definition restrictToCandidates (l : earlyNominationListener) (addrs : list string) : earlyNominationListener :=
  {| stunSecret := stunSecret l; nomination := nomination l; logs := logs l;
     allowed := Some (list_to_set addrs) |}.

Definition allows (l : earlyNominationListener) (a : string) : bool :=
  match allowed l with
  | None => true
  | Some s => bool_decide (a ∈ s)
  end.

Definition maxEarlyNominationLogs : Z := 500.

Definition appendLog (l : earlyNominationListener) (p : packetLog) : earlyNominationListener :=
  let kept := if maxEarlyNominationLogs <=? Z.of_nat (length (logs l)) then drop 1 (logs l) else logs l in
  {| stunSecret := stunSecret l; nomination := nomination l; logs := kept ++ [p]; allowed := allowed l |}.

Definition set_nomination (l : earlyNominationListener) (t : nominationTracker) : earlyNominationListener :=
  {| stunSecret := stunSecret l; nomination := t; logs := logs l; allowed := allowed l |}.

(** The body of [readLoop] on one packet: the new state and what was sent. *)
Definition read_packet (l : earlyNominationListener) (a : UDPAddr) (data : string)
  : option (earlyNominationListener * list (string * string)) :=
  if negb (allows l (udp_string a)) then Some (l, [])
  else
    let l := appendLog l (logPacket "in" (Some a) data) in
    match parseStunMessage data with
    | None => Some (l, [])
    | Some msg =>
        if negb (is_binding_request msg) then Some (l, [])
        else
          o ← respondToStunBindingRequest true msg (Some a) (stunSecret l) (Some (nomination l));
          let l := set_nomination l (default (nomination l) (o_tracker o)) in
          if negb (o_accepted o) then Some (l, o_sent o)
          else match o_response o with
          | None => Some (l, o_sent o)
          | Some resp => Some (appendLog l (logPacket "out" (Some a) resp), o_sent o)
          end
    end.

(** Packets in the order the loops of the two sockets read them. *)
Fixpoint read_packets (l : earlyNominationListener) (ps : list (UDPAddr * string))
  : option (earlyNominationListener * list (string * string)) :=
  match ps with
  | [] => Some (l, [])
  | (a, data) :: ps' =>
      '(l1, sent1) ← read_packet l a data;
      '(l2, sent2) ← read_packets l1 ps';
      Some (l2, sent1 ++ sent2)
  end.

Definition Logs (l : earlyNominationListener) : list packetLog := logs l.

(** ** What the listener may act on *)

(** A packet that is acted on: from an allowed tuple, a Binding Request, and
    authenticated with the session secret. *)
Definition genuine (l : earlyNominationListener) (p : UDPAddr * string) : option message :=
  if negb (allows l (udp_string p.1)) then None
  else
    m ← decode p.2;
    if is_binding_request m && validStunIntegrity m (stunSecret l) then Some m else None.

Definition remote_of (a : UDPAddr) : string :=
  let ap := udp_addr_port a in addr_port_string ap.1 ap.2.

Definition reply_to (l : earlyNominationListener) (p : UDPAddr * string) : option (string * string) :=
  m ← genuine l p; Some (remote_of p.1, stunBindingSuccess m (stunSecret l)).

Definition request_of (l : earlyNominationListener) (p : UDPAddr * string) : option nomination_event :=
  m ← genuine l p; w ← stunNominationWait m; Some (Observed (remote_of p.1) w).

Definition entries_of (l : earlyNominationListener) (p : UDPAddr * string) : list packetLog :=
  if negb (allows l (udp_string p.1)) then []
  else logPacket "in" (Some p.1) p.2
       :: match genuine l p with
          | Some m => [logPacket "out" (Some p.1) (stunBindingSuccess m (stunSecret l))]
          | None => []
          end.

(** ** Lemmas *)

Lemma addr_port_string_nonempty a p : addr_port_string a p <> EmptyString.
Proof. destruct a as [|b|b z]; [done| |done]. cbn [addr_port_string]. by destruct (addr_string (Addr4 b)). Qed.

Lemma appendLog_logs l p :
  (length (logs l) <= 500)%nat -> logs (appendLog l p) = last_n 500 (logs l ++ [p]).
Proof.
  intros Hl. rewrite last_n_snoc, last_n_all by lia. unfold appendLog, maxEarlyNominationLogs. cbn [logs].
  by destruct (Z.leb_spec 500 (Z.of_nat (length (logs l)))), (Nat.leb_spec 500 (length (logs l))); try lia.
Qed.

(** The configuration of a listener does not change while it reads. *)
Definition same_config (l l' : earlyNominationListener) : Prop :=
  stunSecret l' = stunSecret l /\ allowed l' = allowed l.

Lemma same_config_genuine l l' p : same_config l l' -> genuine l' p = genuine l p.
Proof. intros [Hs Ha]. unfold genuine, allows. by rewrite Hs, Ha. Qed.

(** A listener state: the tracker's history, and the log within its bound. *)
Definition listening (h : list nomination_event) (l : earlyNominationListener) : Prop :=
  tracked h (nomination l) /\ (length (logs l) <= 500)%nat.

Lemma respond_ap_tracked h m ap secret t :
  tracked h t ->
  let remote := addr_port_string ap.1 ap.2 in
  exists o, respondToStunBindingRequestAddrPort true m ap secret (Some t) = Some o
    /\ (validStunIntegrity m secret = false ->
         o = {| o_response := None; o_accepted := false; o_sent := []; o_tracker := Some t |})
    /\ (validStunIntegrity m secret = true ->
         exists t', o = {| o_response := Some (stunBindingSuccess m secret); o_accepted := true;
                           o_sent := [(remote, stunBindingSuccess m secret)]; o_tracker := Some t' |}
           /\ tracked (h ++ match stunNominationWait m with
                            | Some w => [Observed remote w] | None => [] end) t').
Proof.
  intros Ht. unfold respondToStunBindingRequestAddrPort.
  cbn zeta. destruct ap as [na p]. cbn [fst snd].
  destruct (validStunIntegrity m secret); cbn [negb]; [|by eexists].
  destruct (stunNominationWait m) as [w|].
  - destruct (observe_inv h t (addr_port_string na p) w (tracked_inv h t Ht)
      (addr_port_string_nonempty na p)) as (t' & b & Hob & _). rewrite Hob.
    eexists. split; [done|]. split; [done|]. intros _. exists t'. split; [done|].
    eapply tracked_observe; eauto using addr_port_string_nonempty.
  - eexists. split; [done|]. split; [done|]. intros _. exists t. by rewrite app_nil_r.
Qed.

Lemma respond_tracked h m a secret t :
  tracked h t ->
  exists o, respondToStunBindingRequest true m (Some a) secret (Some t) = Some o
    /\ (validStunIntegrity m secret = false ->
         o = {| o_response := None; o_accepted := false; o_sent := []; o_tracker := Some t |})
    /\ (validStunIntegrity m secret = true ->
         exists t', o = {| o_response := Some (stunBindingSuccess m secret); o_accepted := true;
                           o_sent := [(remote_of a, stunBindingSuccess m secret)]; o_tracker := Some t' |}
           /\ tracked (h ++ match stunNominationWait m with
                            | Some w => [Observed (remote_of a) w] | None => [] end) t').
Proof. apply respond_ap_tracked. Qed.

Lemma read_packet_spec h l p :
  listening h l ->
  exists l', read_packet l p.1 p.2 = Some (l', option_list (reply_to l p))
    /\ same_config l l'
    /\ listening (h ++ option_list (request_of l p)) l'
    /\ logs l' = last_n 500 (logs l ++ entries_of l p).
Proof.
  intros [Ht Hl]. destruct p as [a data]. unfold read_packet, reply_to, request_of, entries_of, genuine.
  cbn [fst snd]. destruct (allows l (udp_string a)); cbn [negb].
  2:{ exists l. unfold listening. rewrite !app_nil_r, last_n_all by done. done. }
  set (l1 := appendLog l (logPacket "in" (Some a) data)).
  assert (logs l1 = last_n 500 (logs l ++ [logPacket "in" (Some a) data])) as Hl1 by by apply appendLog_logs.
  assert (length (logs l1) <= 500)%nat as Hlen by (rewrite Hl1; apply last_n_length).
  unfold parseStunMessage. destruct (decode data) as [m|]; cbn [mbind option_bind].
  2:{ exists l1. unfold listening. rewrite app_nil_r. done. }
  destruct (is_binding_request m); cbn [negb andb].
  2:{ exists l1. unfold listening. rewrite app_nil_r. done. }
  destruct (respond_tracked h m a (stunSecret l1) (nomination l1) Ht) as (o & -> & Hbad & Hgood).
  change (stunSecret l1) with (stunSecret l) in *. cbn [mbind option_bind].
  destruct (validStunIntegrity m (stunSecret l)).
  - destruct (Hgood eq_refl) as (t' & -> & Ht'). cbn [o_accepted o_response o_sent o_tracker negb default].
    eexists. split; [done|]. split; [done|].
    assert (forall q, logs (appendLog (set_nomination l1 t') q) = last_n 500 (logs l ++ [logPacket "in" (Some a) data; q])) as Hq.
    { intros q. rewrite appendLog_logs by done. change (logs (set_nomination l1 t')) with (logs l1).
      rewrite Hl1, last_n_app, <- app_assoc. done. }
    split; [|apply Hq]. split; [|rewrite Hq; apply last_n_length].
    cbn [mbind option_bind]. by destruct (stunNominationWait m).
  - rewrite (Hbad eq_refl). cbn [o_accepted o_response o_sent o_tracker negb default].
    eexists. split; [done|]. split; [done|]. unfold listening. simpl. rewrite app_nil_r. done.
Qed.

Lemma same_config_reply l l' p :
  same_config l l' ->
  reply_to l' p = reply_to l p /\ request_of l' p = request_of l p /\ entries_of l' p = entries_of l p.
Proof.
  intros Hc. pose proof (same_config_genuine l l' p Hc) as Hg. destruct Hc as [Hs Ha].
  unfold reply_to, request_of, entries_of, allows. by rewrite Hg, Hs, Ha.
Qed.

Lemma read_packets_spec l0 h l ps :
  same_config l0 l -> listening h l ->
  exists l', read_packets l ps = Some (l', omap (reply_to l0) ps)
    /\ listening (h ++ omap (request_of l0) ps) l'
    /\ logs l' = last_n 500 (logs l ++ concat (entries_of l0 <$> ps)).
Proof.
  revert h l. induction ps as [|p ps IH]; intros h l Hc0 Hl.
  { exists l. simpl. rewrite !app_nil_r, last_n_all by apply Hl. done. }
  destruct (read_packet_spec h l p Hl) as (l1 & H1 & Hc & Hl1 & Hlog).
  destruct (same_config_reply l0 l p Hc0) as (Hr & Hq & He). rewrite Hr, Hq, He in *.
  assert (same_config l0 l1) as Hc1 by (destruct Hc0, Hc; split; congruence).
  destruct (IH _ _ Hc1 Hl1) as (l2 & H2 & Hl2 & Hlog2).
  exists l2. destruct p as [a data]. cbn [fst snd] in H1. cbn [read_packets].
  rewrite H1. cbn [mbind option_bind]. rewrite H2. cbn [mbind option_bind].
  rewrite Hlog, last_n_app, <- app_assoc in Hlog2. rewrite <- app_assoc in Hl2.
  change (omap ?f (?x :: ?xs)) with (omap f ([x] ++ xs)). rewrite !omap_app.
  replace (omap (reply_to l0) [(a, data)]) with (option_list (reply_to l0 (a, data)))
    by (simpl; by destruct (reply_to l0 (a, data))).
  replace (omap (request_of l0) [(a, data)]) with (option_list (request_of l0 (a, data)))
    by (simpl; by destruct (request_of l0 (a, data))).
  done.
Qed.

Lemma read_packet_config l a data l' sent :
  read_packet l a data = Some (l', sent) -> same_config l l'.
Proof.
  unfold read_packet. destruct (negb (allows l (udp_string a))); [by intros [= <- _]|]. cbn zeta.
  destruct (parseStunMessage data) as [m|]; [|by intros [= <- _]].
  destruct (negb (is_binding_request m)); [by intros [= <- _]|].
  intros (o & _ & Ho)%bind_Some. destruct (negb (o_accepted o)); [by injection Ho as <- _|].
  destruct (o_response o); by injection Ho as <- _.
Qed.

Lemma read_packets_config l ps l' sent : read_packets l ps = Some (l', sent) -> same_config l l'.
Proof.
  revert l sent. induction ps as [|[a data] ps IH]; intros l sent; cbn [read_packets]; [by intros [= <- _]|].
  intros ([l1 s1] & H1 & ([l2 s2] & H2 & [= <- _])%bind_Some)%bind_Some.
  apply read_packet_config in H1 as [? ?]. apply IH in H2 as [? ?]. split; congruence.
Qed.

(** ** The classifier *)

Lemma byte_nth_range i s : 0 <= byte_nth i s < 256.
Proof. unfold byte_nth. destruct (String.get i s); [apply byte_of_range|lia]. Qed.

Lemma be_uint32_sum i s :
  be_uint32 i s = byte_nth i s * 2 ^ 24 + byte_nth (i + 1) s * 2 ^ 16
                  + byte_nth (i + 2) s * 2 ^ 8 + byte_nth (i + 3) s.
Proof.
  unfold be_uint32. pose proof (byte_nth_range i s). pose proof (byte_nth_range (i + 1) s).
  pose proof (byte_nth_range (i + 2) s). pose proof (byte_nth_range (i + 3) s).
  rewrite (lor_shiftl_add _ _ 8), (lor_shiftl_add _ _ 16), (lor_shiftl_add _ _ 24) by lia. lia.
Qed.

(** ** Properties *)

(** A datagram is taken for STUN exactly when it has a full header, a
    first byte of 0 or 1 and the bytes of the magic cookie. So no WireGuard
    response, cookie or data message (first byte 2, 3 or 4) is, and a handshake
    initiation only when its sender index is the cookie. *)
Lemma isSTUN_spec (data : string) :
  isSTUN data = true <->
  20 <= strlen data /\ (byte_nth 0 data = 0 \/ byte_nth 0 data = 1)
  /\ byte_nth 4 data = 33 /\ byte_nth 5 data = 18 /\ byte_nth 6 data = 164 /\ byte_nth 7 data = 66.
Proof.
  unfold isSTUN. rewrite be_uint32_sum, !andb_true_iff, orb_true_iff, !Z.eqb_eq, Z.leb_le.
  pose proof (byte_nth_range 4 data). pose proof (byte_nth_range 5 data).
  pose proof (byte_nth_range 6 data). pose proof (byte_nth_range 7 data).
  change (4 + 1)%nat with 5%nat. change (4 + 2)%nat with 6%nat. change (4 + 3)%nat with 7%nat.
  unfold magic_cookie. lia.
Qed.

(** [C7] The early listener acts only on genuine packets, and on every one of
    them. Whatever arrives, it never fails; it replies exactly to the
    authenticated Binding Requests of allowed tuples, each reply going to the
    request's source; the tracker sees exactly the waits of those requests, in
    their order; and the log holds the last 500 entries. *)
Theorem early_listener_spec (h : list nomination_event) (l : earlyNominationListener)
    (ps : list (UDPAddr * string)) :
  tracked h (nomination l) -> (length (logs l) <= 500)%nat ->
  exists l', read_packets l ps = Some (l', omap (reply_to l) ps)
    /\ tracked (h ++ omap (request_of l) ps) (nomination l')
    /\ Logs l' = last_n 500 (Logs l ++ concat (entries_of l <$> ps))
    /\ (length (Logs l') <= 500)%nat.
Proof.
  intros Ht Hl. destruct (read_packets_spec l h l ps) as (l' & Hr & [Ht' Hl'] & Hlog); [done|done|].
  exists l'. done.
Qed.

(** The wait of a nomination request is the number its DATA names; no DATA
    and text that is not JSON are no nomination, and [{}] counts as a wait of
    zero, which is no step of the countdown. *)
Theorem stunNominationWait_spec (m : message) (w : Z) :
  (data_attr m = None -> stunNominationWait m = None)
  /\ (forall raw, data_attr m = Some raw -> parse_json raw = None -> stunNominationWait m = None)
  /\ (data_attr m = Some "{}"%string -> stunNominationWait m = Some 0)
  /\ (0 <= w -> in_int64 w -> data_attr m = Some (json_object [("wait"%string, itoa w)]) ->
      stunNominationWait m = Some w).
Proof.
  unfold stunNominationWait. split_and!.
  - by intros ->.
  - intros raw -> Hp. simpl. by rewrite Hp.
  - by intros ->.
  - intros Hw0 Hw ->. cbn [mbind option_bind].
    rewrite (parse_json_object [("wait"%string, itoa w)] [("wait"%string, JNum (itoa w))]); [|
      constructor; [|constructor]; split_and!; [done|done|by apply encodes_itoa]|done].
    simpl. by rewrite atoi_itoa.
Qed.

End pion.

(** A small codec to evaluate the listener with: "R" marks a Binding Request,
    then comes the secret it is signed with, a semicolon, and DATA. *)
Definition toy_stun : PionStun := {|
  message := string * string;
  decode := fun s => match s with String "R" r => cut_byte ";" r | _ => None end;
  is_binding_request := fun _ => true;
  type_string := fun _ => "Binding request"%string;
  transaction_id := fun _ => "tx"%string;
  data_attr := fun m => match m.2 with EmptyString => None | d => Some d end;
  check := fun m secret => String.eqb m.1 secret;
  build_success := fun tx secret => (tx ++ default EmptyString secret)%string;
  build_probe := fun tx secret => (tx ++ default EmptyString secret)%string;
  xor_mapped := fun _ => None;
|}.

Definition toy_listener : earlyNominationListener :=
  newEarlyNominationListener "s" newNominationTracker.

Definition toy_peer : UDPAddr := {| IP := [203; 0; 113; 5]; Port := 5000; Zone := EmptyString |}.

Definition toy_wait : string := ("Rs;" ++ json_object [("wait", itoa 2000)])%string.

(** The forged request is logged and ignored, the genuine one answered. *)
Lemma early_listener_spec_witness :
  omap (@reply_to toy_stun toy_listener) [(toy_peer, "Rx;"%string); (toy_peer, toy_wait)]
    = [("203.0.113.5:5000"%string, "txs"%string)]
  /\ exists l', @read_packets toy_stun toy_listener [(toy_peer, "Rx;"%string); (toy_peer, toy_wait)]
       = Some (l', omap (@reply_to toy_stun toy_listener) [(toy_peer, "Rx;"%string); (toy_peer, toy_wait)]).
Proof.
  split; [by vm_compute|].
  destruct (@early_listener_spec toy_stun [] toy_listener [(toy_peer, "Rx;"%string); (toy_peer, toy_wait)]
    tracked_new ltac:(simpl; lia)) as (l' & Hl' & _).
  by exists l'.
Defined.

Lemma stunNominationWait_spec_witness :
  @stunNominationWait toy_stun (EmptyString, "{}"%string) = Some 0
  /\ @stunNominationWait toy_stun (EmptyString, json_object [("wait"%string, itoa 125)]) = Some 125.
Proof.
  split; [apply (proj1 (proj2 (proj2 (@stunNominationWait_spec toy_stun (EmptyString, "{}"%string) 0)))); done|].
  apply (@stunNominationWait_spec toy_stun _ 125); [lia|unfold in_int64, int64_min, int64_max; lia|done].
Defined.
End Stun.
