(* ===== verification/Ice.v ===== *)
(** The ICE configuration ([stun.go], [main.go]): reading its URLs, the
    server-reflexive candidates found through its STUN server, what TURN-only
    mode needs of it, and the two exchanges with the API around it. *)

From S2P Require Import Prelude Lists GoStrings GoNet GoUrl Api Candidates Stun.
From Stdlib Require Import Ascii.
Open Scope Z_scope.

Import Api Candidates Stun.

Module Ice.

Record iceServer := { URLs : list string; Username : string; Credential : string }.

(** ** URLs *)

(** [strings.Replace(rawURL, ":", "://", 1)]. *)
Definition console_form (rawURL : string) : string :=
  match cut_byte ":" rawURL with
  | Some (l, r) => (l ++ "://" ++ r)%string
  | None => rawURL
  end.

Definition parseConsoleICEURL (rawURL : string) : option url := parse_url (console_form rawURL).

(** The body of both loops, for a URL that passes the test. *)
Definition server_address (u : url) : string :=
  let p := port u in
  join_host_port (hostname u) (if bool_decide (p = EmptyString) then "3478" else p).

Definition stun_url (rawURL : string) : option string :=
  u ← parseConsoleICEURL rawURL;
  if negb (bool_decide (scheme u = "stun"%string)) || bool_decide (hostname u = EmptyString) then None
  else Some (server_address u).

Definition turn_url (rawURL : string) : option string :=
  u ← parseConsoleICEURL rawURL;
  if negb (bool_decide (scheme u = "turn"%string)) || bool_decide (hostname u = EmptyString)
     || negb (bool_decide (query_get (query u) "transport" = "udp"%string)) then None
  else Some (server_address u).

(** The first URL of the list that passes; [f] is the test and the address. *)
Fixpoint first_server (f : string -> option string) (ice : list iceServer) : option string :=
  match ice with
  | [] => None
  | s :: ice' =>
      (fix urls (l : list string) :=
         match l with
         | [] => first_server f ice'
         | rawURL :: l' => match f rawURL with Some a => Some a | None => urls l' end
         end) (URLs s)
  end.

Definition stunServerFromIce : list iceServer -> option string := first_server stun_url.
Definition turnServerFromIce : list iceServer -> option string := first_server turn_url.

Inductive turn_err : Type :=
| NoStunURL
| NoTurnURL
| NoReflexCandidate.

Definition validateTurnPrerequisites (ice : list iceServer) (local : list candidate) : result turn_err unit :=
  match stunServerFromIce ice with
  | None => Err NoStunURL
  | Some _ =>
      match turnServerFromIce ice with
      | None => Err NoTurnURL
      | Some _ =>
          if existsb (fun c => bool_decide (Type_ c = "reflex"%string)) local then Ok tt
          else Err NoReflexCandidate
      end
  end.

(** ** Server-reflexive candidates *)

Inductive reflex_err : Type :=
| NoFamily (message : string)
| NoSocketFor (network : string)
| NoStunEndpoint
| ResolveFailed (message : string)
| NoAAAA (server message : string)
| SocketFailed (message : string).

(** What is done to the socket. *)
Inductive socket_action : Type :=
| ArmReadDeadline (timeout : Z)
| ClearReadDeadline
| SendRequest (server : string).

(** A read: a packet with the text of its source, or an error, the deadline's
    among them. *)
Inductive socket_read : Type :=
| Packet (data from : string)
| ReadFails (message : string).

(** What resolving the server's name gives: an address, as text, or an error,
    and whether it says that there is no such record. *)
Record reflex_env := {
  f_resolve : string -> string -> result (string * bool) string;
  f_arm : option string;
  f_write : option string;
  f_reads : list socket_read;
}.

Section pion.
Context `{PionStun}.

(** The read loop; [None] while it waits. *)
Fixpoint read_reflexive (server : string) (reads : list socket_read) : option (result reflex_err candidate) :=
  match reads with
  | [] => None
  | ReadFails e :: _ => Some (Err (SocketFailed e))
  | Packet data from :: reads' =>
      if negb (bool_decide (from = server)) then read_reflexive server reads'
      else match parseXorMapped data with
      | None => read_reflexive server reads'
      | Some mapped => Some (Ok {| Type_ := "reflex"; Addr := mapped |})
      end
  end.

Definition reflexiveCandidateFromConnWithTimeout (conn : option Z) (ice : list iceServer) (family : networkFamily)
    (timeout : Z) (e : reflex_env) : list socket_action * option (result reflex_err candidate) :=
  match stunNetwork (bool_decide (family = familyIPv4)) (bool_decide (family = familyIPv6)) with
  | Err m => ([], Some (Err (NoFamily m)))
  | Ok network =>
      if negb (is_open conn) then ([], Some (Err (NoSocketFor network)))
      else match stunServerFromIce ice with
      | None => ([], Some (Err NoStunEndpoint))
      | Some stunServer =>
          match f_resolve e network stunServer with
          | Err (m, notFound) =>
              ([], Some (Err (if bool_decide (family = familyIPv6) && notFound then NoAAAA stunServer m else ResolveFailed m)))
          | Ok addr =>
              match f_arm e with
              | Some m => ([ArmReadDeadline timeout], Some (Err (SocketFailed m)))
              | None =>
                  match f_write e with
                  | Some m => ([ArmReadDeadline timeout; SendRequest addr; ClearReadDeadline], Some (Err (SocketFailed m)))
                  | None =>
                      match read_reflexive addr (f_reads e) with
                      | None => ([ArmReadDeadline timeout; SendRequest addr], None)
                      | Some r => ([ArmReadDeadline timeout; SendRequest addr; ClearReadDeadline], Some r)
                      end
                  end
              end
          end
      end
  end.

Definition reflexiveCandidateFromConn (conn : option Z) (ice : list iceServer) (family : networkFamily) (e : reflex_env) :=
  reflexiveCandidateFromConnWithTimeout conn ice family 5000000000 e.

(** ** gatherLocalCandidates

    [None] while a reflexive candidate is waited for. *)
Definition append_reflex (local : list candidate) (r : result reflex_err candidate) : list candidate :=
  match r with Ok c => local ++ [c] | Err _ => local end.

Definition gatherLocalCandidates (sockets : udpSockets) (ifaces : list net_interface) (port : Z) (family : networkFamily)
    (ice : list iceServer) (e4 e6 : reflex_env) : option (list candidate) :=
  let local := localCandidates ifaces port family in
  local ← (if negb (bool_decide (family = familyIPv6)) then
             r ← (reflexiveCandidateFromConn (V4 sockets) ice familyIPv4 e4).2; Some (append_reflex local r)
           else Some local);
  if negb (bool_decide (family = familyIPv4)) then
    r ← (reflexiveCandidateFromConn (V6 sockets) ice familyIPv6 e6).2; Some (append_reflex local r)
  else Some local.

End pion.

(** ** The exchanges with the API

    A request is posted, its answer polled for, and the request deleted, whatever
    that gives. *)

Inductive api_action : Type :=
| Post (request_type : string)
| Poll (requestID want : string)
| Delete (path : string).

Inductive exchange_err (E : Type) : Type :=
| ApiError (e : E)
| TimedOut (what : string).
Arguments ApiError {E} e.
Arguments TimedOut {E} what.

Section api.
(** Errors; the id of a posted request; the outcome of the poll, [None] when
    nothing came. *)
Context {E : Type}.

Definition fetchICEConfiguration {I : Type} (posted : result E string) (polled : result E (option (list I)))
  : list api_action * result (exchange_err E) (list I) :=
  let post := [Post "GET_ICE_CONFIGURATION"] in
  match posted with
  | Err e => (post, Err (ApiError e))
  | Ok id =>
      let asked := post ++ [Poll id "ICE_CONFIGURATION"] in
      match polled with
      | Err e => (asked, Err (ApiError e))
      | Ok poll =>
          match default [] poll with
          | [] => (asked, Err (TimedOut "ICE_CONFIGURATION"))
          | ice => (asked ++ [Delete ("/" ++ id)%string], Ok ice)
          end
      end
  end.

Definition connectAndAwaitResponse {R : Type} (posted : result E string) (polled : result E (option R))
  : list api_action * result (exchange_err E) R :=
  let post := [Post "CONNECT"] in
  match posted with
  | Err e => (post, Err (ApiError e))
  | Ok id =>
      let asked := post ++ [Poll id "CONNECT_RESPONSE"] in
      match polled with
      | Err e => (asked, Err (ApiError e))
      | Ok None => (asked, Err (TimedOut "CONNECT_RESPONSE"))
      | Ok (Some connResp) => (asked ++ [Delete ("/" ++ id)%string], Ok connResp)
      end
  end.

End api.

(** ** Properties *)

Lemma first_server_flat f ice : first_server f ice = head (omap f (concat (URLs <$> ice))).
Proof.
  induction ice as [|s ice IH]; [done|]. cbn [first_server]. rewrite fmap_cons. cbn [concat]. rewrite omap_app.
  induction (URLs s) as [|u us IHu]; [done|]. cbn [omap list_omap app].
  destruct (f u); [done|]. apply IHu.
Qed.


Definition all_urls (ice : list iceServer) : list string := concat (URLs <$> ice).

(** A URL of a plain host, with a port or without. *)
Section plain.
Context (h pt p : string).
Context (Hh : all_bytes unreserved h = true) (Hne : h <> EmptyString) (Hpt : port_text pt p).

Lemma console_url sch t q :
  sch ∈ ["stun"; "stuns"; "turn"; "turns"]%string -> query_text t q ->
  parseConsoleICEURL (sch ++ ":" ++ (h ++ pt) ++ t) = Some (host_url sch (h ++ pt) q).
Proof.
  intros Hsch Ht. unfold parseConsoleICEURL.
  assert (console_form (sch ++ ":" ++ (h ++ pt) ++ t) = (sch ++ ":" ++ "//" ++ (h ++ pt) ++ t)%string) as ->
    by (clear -Hsch; repeat (apply elem_of_cons in Hsch as [-> |Hsch]; [reflexivity|]); by apply not_elem_of_nil in Hsch).
  by apply (parse_host_url sch h pt p).
Qed.

Definition plain_address : string := join_host_port h (if bool_decide (p = EmptyString) then "3478" else p).

Lemma plain_server sch q : server_address (host_url sch (h ++ pt) q) = plain_address.
Proof. destruct (host_url_parts sch h pt p q Hh Hpt) as [Ha Hb]. unfold server_address. by rewrite Ha, Hb. Qed.

Lemma stun_url_plain : stun_url ("stun:" ++ (h ++ pt)) = Some plain_address.
Proof.
  unfold stun_url. rewrite <- (append_empty_r (h ++ pt)). change ("stun:" ++ ?x)%string with ("stun" ++ ":" ++ x)%string.
  rewrite (console_url "stun" EmptyString EmptyString); [|by left|constructor]. cbn [mbind option_bind scheme host_url].
  destruct (host_url_parts "stun" h pt p EmptyString Hh Hpt) as [-> _].
  rewrite bool_decide_true, (bool_decide_false (h = EmptyString)) by done. cbn [negb orb]. by rewrite plain_server.
Qed.

Lemma turn_url_plain t q : query_text t q ->
  turn_url ("turn:" ++ (h ++ pt) ++ t)
  = if bool_decide (query_get (query (host_url "turn" (h ++ pt) q)) "transport" = "udp"%string)
    then Some plain_address else None.
Proof.
  intros Ht. unfold turn_url. change ("turn:" ++ ?x)%string with ("turn" ++ ":" ++ x)%string.
  rewrite (console_url "turn" t q); [|right; right; by left|done]. cbn [mbind option_bind scheme host_url].
  destruct (host_url_parts "turn" h pt p q Hh Hpt) as [-> _].
  rewrite bool_decide_true, (bool_decide_false (h = EmptyString)) by done. cbn [negb orb].
  case_bool_decide; cbn [negb]; by rewrite ?plain_server.
Qed.

Lemma other_scheme sch t q : sch ∈ ["stuns"; "turn"; "turns"]%string -> query_text t q ->
  stun_url (sch ++ ":" ++ (h ++ pt) ++ t) = None
  /\ (sch <> "turn"%string -> turn_url (sch ++ ":" ++ (h ++ pt) ++ t) = None).
Proof.
  intros Hsch Ht. unfold stun_url, turn_url. rewrite (console_url sch t q); [|set_solver|done].
  cbn [mbind option_bind scheme host_url].
  repeat (apply elem_of_cons in Hsch as [-> |Hsch]; [by split|]). by apply not_elem_of_nil in Hsch.
Qed.

End plain.

(** The servers are read from the console's ICE URLs as the console means
    them. The STUN (TURN) server is the first URL in the lists that qualifies,
    none when there is none; [stun:host] and [stun:host:port] qualify, the
    former with port 3478; [turn:host:port] qualifies exactly when its query says
    [transport=udp]; and no URL of the schemes [stuns] and [turns] is ever used. *)
Theorem ice_servers_spec (ice : list iceServer) (h pt p : string) :
  (forall a, stunServerFromIce ice = Some a <-> first_taken stun_url (all_urls ice) a)
  /\ (stunServerFromIce ice = None <-> Forall (fun u => stun_url u = None) (all_urls ice))
  /\ (forall a, turnServerFromIce ice = Some a <-> first_taken turn_url (all_urls ice) a)
  /\ (turnServerFromIce ice = None <-> Forall (fun u => turn_url u = None) (all_urls ice))
  /\ (all_bytes unreserved h = true -> h <> EmptyString -> port_text pt p ->
      let a := join_host_port h (if bool_decide (p = EmptyString) then "3478" else p) in
      stun_url ("stun:" ++ (h ++ pt)) = Some a
      /\ turn_url ("turn:" ++ (h ++ pt) ++ "?transport=udp") = Some a
      /\ turn_url ("turn:" ++ (h ++ pt) ++ "?transport=tcp") = None
      /\ turn_url ("turn:" ++ (h ++ pt) ++ "") = None
      /\ forall sch, sch ∈ ["stuns"; "turns"]%string ->
           Forall (fun t => stun_url (sch ++ ":" ++ (h ++ pt) ++ t) = None /\ turn_url (sch ++ ":" ++ (h ++ pt) ++ t) = None)
             [""; "?transport=udp"]%string).
Proof.
  unfold stunServerFromIce, turnServerFromIce. setoid_rewrite first_server_flat. fold (all_urls ice).
  split; [intros; apply head_omap_Some|]. split; [apply head_omap_None|].
  split; [intros; apply head_omap_Some|]. split; [apply head_omap_None|].
  intros Hh Hne Hpt. cbn zeta.
  assert (query_text "?transport=udp" "transport=udp" /\ query_text "?transport=tcp" "transport=tcp") as [Hu Ht]
    by (split; constructor; done).
  split; [by apply stun_url_plain|]. split_and!.
  - rewrite (turn_url_plain h pt p Hh Hne Hpt _ _ Hu). rewrite bool_decide_true by by vm_compute. done.
  - rewrite (turn_url_plain h pt p Hh Hne Hpt _ _ Ht). rewrite bool_decide_false by by vm_compute. done.
  - rewrite (turn_url_plain h pt p Hh Hne Hpt _ _ no_query). rewrite bool_decide_false by by vm_compute. done.
  - intros sch Hsch. assert (sch ∈ ["stuns"; "turn"; "turns"]%string /\ sch <> "turn"%string) as [Hin Hno].
    { repeat (apply elem_of_cons in Hsch as [-> |Hsch]; [split; [set_solver|done]|]). by apply not_elem_of_nil in Hsch. }
    apply Forall_cons. split; [|apply Forall_cons; split; [|constructor]].
    + destruct (other_scheme h pt p Hh Hne Hpt sch _ _ Hin no_query) as [? Hturn]. by split; [|apply Hturn].
    + destruct (other_scheme h pt p Hh Hne Hpt sch _ _ Hin Hu) as [? Hturn]. by split; [|apply Hturn].
Qed.

Section reflexive.
Context `{PionStun}.

(** The reads that count: packets from the server, by the address they map. *)
Definition mapped_by (server : string) (r : socket_read) : option (result reflex_err candidate) :=
  match r with
  | ReadFails e => Some (Err (SocketFailed e))
  | Packet data from =>
      if decide (from = server) then a ← parseXorMapped data; Some (Ok {| Type_ := "reflex"; Addr := a |}) else None
  end.

Lemma read_reflexive_head server reads : read_reflexive server reads = head (omap (mapped_by server) reads).
Proof.
  induction reads as [|[data from|e] reads IH]; cbn [read_reflexive omap list_omap mapped_by]; [done| |done].
  case_bool_decide as Hf; case_decide; try done; cbn [negb].
  destruct (parseXorMapped data); [done|]. apply IH.
Qed.

(** Whether the socket is left with a read deadline. *)
Definition deadline_left (acts : list socket_action) : bool :=
  foldl (fun armed a => match a with ArmReadDeadline _ => true | ClearReadDeadline => false | _ => armed end) false acts.

(** What a read maps to is of type reflex. *)
Lemma mapped_type server x c : mapped_by server x = Some (Ok c) -> Type_ c = "reflex"%string.
Proof.
  destruct x as [data from|]; [|done]. cbn. case_decide; [|done]. intros (a & _ & [= <-])%bind_Some. done.
Qed.

Lemma reflexive_type conn ice family timeout e c :
  (reflexiveCandidateFromConnWithTimeout conn ice family timeout e).2 = Some (Ok c) -> Type_ c = "reflex"%string.
Proof.
  unfold reflexiveCandidateFromConnWithTimeout. repeat case_match; try done. cbn [snd]. intros [= ->].
  rewrite read_reflexive_head in *.
  match goal with Hh : head _ = Some _ |- _ => apply head_omap_Some in Hh as (? & x & ? & _ & _ & Hx) end.
  by eapply mapped_type.
Qed.

(** Discovery through STUN takes nothing from strangers and gives the socket
    back as it was. A candidate found is of type reflex and has the address that
    the first readable answer of the asked server itself maps, whatever other
    packets come before; the answer is decided by the first such packet or read
    error, and until then nothing is decided; and when it returns after arming the
    read deadline, that deadline is cleared, so that WireGuard later reads without
    one. *)
Theorem reflexive_spec (conn : option Z) (ice : list iceServer) (family : networkFamily) (timeout : Z) (e : reflex_env) :
  let '(acts, r) := reflexiveCandidateFromConnWithTimeout conn ice family timeout e in
  (forall c, r = Some (Ok c) -> exists network server addr,
      family <> familyDual /\ is_open conn = true /\ stunServerFromIce ice = Some server
      /\ f_resolve e network server = Ok addr
      /\ acts = [ArmReadDeadline timeout; SendRequest addr; ClearReadDeadline]
      /\ first_taken (mapped_by addr) (f_reads e) (Ok c) /\ Type_ c = "reflex"%string)
  /\ (r = None -> exists addr, acts = [ArmReadDeadline timeout; SendRequest addr]
      /\ Forall (fun x => mapped_by addr x = None) (f_reads e))
  /\ (r <> None -> f_arm e = None -> deadline_left acts = false).
Proof.
  unfold reflexiveCandidateFromConnWithTimeout.
  destruct (stunNetwork _ _) as [network|m] eqn:En; [|by split_and!].
  destruct (is_open conn) eqn:Eo; cbn [negb]; [|by split_and!].
  destruct (stunServerFromIce ice) as [server|] eqn:Es; [|by split_and!].
  destruct (f_resolve e network server) as [addr|[m nf]] eqn:Er; [|by split_and!].
  destruct (f_arm e) eqn:Ea; [by split_and!|]. destruct (f_write e); [by split_and!|].
  rewrite read_reflexive_head. destruct (head _) as [r|] eqn:Eh.
  - split_and!; [|done|done]. intros c [= ->]. apply head_omap_Some in Eh.
    exists network, server, addr. split_and!; try done; [by intros ->|].
    destruct Eh as (pre & x & post & _ & _ & Hx). by eapply mapped_type.
  - split_and!; [done| |done]. intros _. exists addr. split; [done|]. by apply head_omap_None.
Qed.

(** Gathering never fails, and offers exactly the interface candidates
    followed by the reflexive ones that were found, for the enabled families:
    with IPv4 alone nothing is asked over IPv6, and conversely; the order is
    interfaces, IPv4, IPv6. *)
Theorem gather_spec (sockets : udpSockets) (ifaces : list net_interface) (port : Z) (family : networkFamily)
    (ice : list iceServer) (e4 e6 : reflex_env) (out : list candidate) :
  gatherLocalCandidates sockets ifaces port family ice e4 e6 = Some out ->
  let found c f e := match (reflexiveCandidateFromConn c ice f e).2 with Some (Ok a) => [a] | _ => [] end in
  out = localCandidates ifaces port family
        ++ (if decide (family = familyIPv6) then [] else found (V4 sockets) familyIPv4 e4)
        ++ (if decide (family = familyIPv4) then [] else found (V6 sockets) familyIPv6 e6)
  /\ (forall c, c ∈ out -> c ∈ localCandidates ifaces port family \/ Type_ c = "reflex"%string).
Proof.
  intros Hg found. unfold gatherLocalCandidates in Hg.
  assert (forall local r, append_reflex local r = local ++ match Some r with Some (Ok a) => [a] | _ => [] end) as Happ
    by (intros local [c|]; [done|by rewrite app_nil_r]).
  assert (out = localCandidates ifaces port family
        ++ (if decide (family = familyIPv6) then [] else found (V4 sockets) familyIPv4 e4)
        ++ (if decide (family = familyIPv4) then [] else found (V6 sockets) familyIPv6 e6)) as Hout.
  { apply bind_Some in Hg as (local & Hlocal & Hg). rewrite app_assoc.
    assert (local = localCandidates ifaces port family
        ++ (if decide (family = familyIPv6) then [] else found (V4 sockets) familyIPv4 e4)) as <-.
    { destruct (decide (family = familyIPv6)); [rewrite bool_decide_true in Hlocal by done|rewrite bool_decide_false in Hlocal by done];
        cbn [negb] in Hlocal.
      - injection Hlocal as <-. by rewrite app_nil_r.
      - apply bind_Some in Hlocal as (r & Hr & [= <-]). unfold found. by rewrite Hr, Happ. }
    destruct (decide (family = familyIPv4)); [rewrite bool_decide_true in Hg by done|rewrite bool_decide_false in Hg by done];
      cbn [negb] in Hg.
    - injection Hg as <-. by rewrite app_nil_r.
    - apply bind_Some in Hg as (r & Hr & [= <-]). unfold found. by rewrite Hr, Happ. }
  split; [done|]. intros c. rewrite Hout, !elem_of_app.
  assert (forall s f e, c ∈ found s f e -> Type_ c = "reflex"%string) as Hf.
  { intros s f e. unfold found, reflexiveCandidateFromConn.
    destruct (reflexiveCandidateFromConnWithTimeout s ice f 5000000000 e).2 as [[a|]|] eqn:Er; [|by intros ?%not_elem_of_nil..].
    intros ->%list_elem_of_singleton. by apply reflexive_type in Er. }
  intros [?|[Hc|Hc]]; [by left| |]; right; case_decide; try (by apply not_elem_of_nil in Hc); by apply Hf in Hc.
Qed.

(** TURN-only mode starts exactly with a STUN URL, a TURN URL over UDP and a
    reflexive candidate; for candidates gathered from the same configuration the
    last means that some socket got an answer from the STUN server. *)
Theorem turn_prerequisites_spec (ice : list iceServer) (local : list candidate) :
  (validateTurnPrerequisites ice local = Ok tt
     <-> is_Some (stunServerFromIce ice) /\ is_Some (turnServerFromIce ice)
         /\ exists c, c ∈ local /\ Type_ c = "reflex"%string)
  /\ forall sockets ifaces port family e4 e6,
       gatherLocalCandidates sockets ifaces port family ice e4 e6 = Some local ->
       validateTurnPrerequisites ice local = Ok tt ->
       exists conn f e c, (conn, f, e) ∈ [(V4 sockets, familyIPv4, e4); (V6 sockets, familyIPv6, e6)]
         /\ (reflexiveCandidateFromConn conn ice f e).2 = Some (Ok c) /\ c ∈ local.
Proof.
  assert (validateTurnPrerequisites ice local = Ok tt
     <-> is_Some (stunServerFromIce ice) /\ is_Some (turnServerFromIce ice)
         /\ exists c, c ∈ local /\ Type_ c = "reflex"%string) as Hiff.
  { unfold validateTurnPrerequisites. destruct (stunServerFromIce ice); [|split; [done|by intros [[? ?] _]]].
    destruct (turnServerFromIce ice); [|split; [done|by intros (_ & [? ?] & _)]].
    destruct (existsb _ local) eqn:E.
    - split; [|done]. intros _. split_and!; [done..|]. apply existsb_exists in E as (c & Hc & Ht%bool_decide_eq_true).
      exists c. by rewrite list_elem_of_In.
    - split; [done|]. intros (_ & _ & c & Hc & Ht). enough (existsb (fun c => bool_decide (Type_ c = "reflex"%string)) local = true)
        by congruence. apply existsb_exists. exists c. split; [by apply list_elem_of_In|by apply bool_decide_eq_true]. }
  split; [exact Hiff|]. intros sockets ifaces port family e4 e6 Hg (_ & _ & c & Hc & Ht)%Hiff.
  destruct (gather_spec sockets ifaces port family ice e4 e6 local Hg) as [Hout _]. pose proof Hc as Hin. rewrite Hout in Hc.
  apply elem_of_app in Hc as [Hc|Hc].
  { destruct (localCandidates_spec ifaces port family) as [_ Hl]. apply Hl in Hc as (a & _ & Ho).
    destruct Ho as (_ & _ & ->). done. }
  assert (forall conn f e, c ∈ match (reflexiveCandidateFromConn conn ice f e).2 with Some (Ok a) => [a] | _ => [] end ->
    (reflexiveCandidateFromConn conn ice f e).2 = Some (Ok c)) as Hfound.
  { intros conn f e. destruct (reflexiveCandidateFromConn conn ice f e).2 as [[a|]|]; [|by intros ?%not_elem_of_nil..].
    by intros ->%list_elem_of_singleton. }
  clear Hout. apply elem_of_app in Hc as [Hc|Hc]; case_decide; try (by apply not_elem_of_nil in Hc).
  - exists (V4 sockets), familyIPv4, e4, c. split_and!; [by left|by apply Hfound|done].
  - exists (V6 sockets), familyIPv6, e6, c. split_and!; [right; by left|by apply Hfound|done].
Qed.

End reflexive.

(** The exchanges around the ICE configuration and the connection ask in
    order, once each, and clean up after an answer. Each posts its request and
    polls only for the id it was given; what it returns is what the poll
    returned, never an empty configuration; and the request is deleted exactly
    when there is an answer. *)
Theorem exchanges_spec {E R : Type} (posted : result E string) (polled_ice : result E (option (list iceServer)))
    (polled : result E (option R)) :
  (let '(acts, r) := fetchICEConfiguration posted polled_ice in
   match r with
   | Ok ice => ice <> [] /\ polled_ice = Ok (Some ice) /\ exists id, posted = Ok id
       /\ acts = [Post "GET_ICE_CONFIGURATION"; Poll id "ICE_CONFIGURATION"; Delete ("/" ++ id)%string]
   | Err _ => forall path, Delete path ∉ acts
   end)
  /\ (let '(acts, r) := connectAndAwaitResponse posted polled in
      match r with
      | Ok resp => polled = Ok (Some resp) /\ exists id, posted = Ok id
          /\ acts = [Post "CONNECT"; Poll id "CONNECT_RESPONSE"; Delete ("/" ++ id)%string]
      | Err _ => forall path, Delete path ∉ acts
      end).
Proof.
  unfold fetchICEConfiguration, connectAndAwaitResponse. split.
  - destruct posted as [id|e]; [|set_solver]. destruct polled_ice as [[[|s ice]|]|e]; cbn; set_solver.
  - destruct posted as [id|e]; [|set_solver]. destruct polled as [[resp|]|e]; cbn; set_solver.
Qed.

(** *** Concrete runs *)

Definition sample_ice : list iceServer :=
  [{| URLs := ["turns:relay.example:443?transport=udp"; "turn:relay.example:3479?transport=tcp"]; Username := ""; Credential := "" |};
   {| URLs := ["stun:[2001:db8::1]"; "turn:relay.example?transport=udp"]; Username := ""; Credential := "" |}]%string.

Example sample_servers :
  stunServerFromIce sample_ice = Some "[2001:db8::1]:3478"%string
  /\ turnServerFromIce sample_ice = Some "relay.example:3478"%string
  /\ stun_url "stun:host:80:90" = None /\ stun_url "stun:[host]:80" = None
  /\ stun_url "STUN:192.0.2.7:19302" = Some "192.0.2.7:19302"%string.
Proof. by vm_compute. Qed.

(** The codec of the listener, with an address in every message. *)
Definition mapping_stun : PionStun := {|
  message := string * string;
  decode := @decode toy_stun;
  is_binding_request := fun _ => false;
  type_string := @type_string toy_stun;
  transaction_id := @transaction_id toy_stun;
  data_attr := @data_attr toy_stun;
  check := @check toy_stun;
  build_success := @build_success toy_stun;
  build_probe := @build_probe toy_stun;
  xor_mapped := fun _ => Some (v4_16 203 0 113 9, 41000);
|}.

Definition answering : reflex_env := {|
  f_resolve := fun _ _ => Ok "192.0.2.7:3478"%string;
  f_arm := None;
  f_write := None;
  f_reads := [Packet "R;" "198.51.100.1:9"; Packet "junk" "192.0.2.7:3478"; Packet "R;" "192.0.2.7:3478"]%string;
|}.

Definition silent : reflex_env := {|
  f_resolve := fun _ _ => Err ("no such host"%string, true); f_arm := None; f_write := None; f_reads := [] |}.

Definition both_sockets : udpSockets := {| V4 := Some 3; V6 := Some 4 |}.

Definition reflexed : candidate := {| Type_ := "reflex"; Addr := "203.0.113.9:41000" |}.

Lemma gather_spec_witness :
  reflexed ∈ default [] (@gatherLocalCandidates mapping_stun both_sockets [] 51820 familyDual sample_ice answering silent)
  /\ Type_ reflexed = "reflex"%string.
Proof.
  assert (@gatherLocalCandidates mapping_stun both_sockets [] 51820 familyDual sample_ice answering silent = Some [reflexed])
    as Hg by by vm_compute.
  destruct (@gather_spec mapping_stun both_sockets [] 51820 familyDual sample_ice answering silent [reflexed] Hg) as [_ Ht].
  rewrite Hg. cbn [default]. split; [by left|]. by destruct (Ht reflexed ltac:(by left)) as [?%not_elem_of_nil|].
Defined.

Lemma turn_prerequisites_spec_witness :
  validateTurnPrerequisites sample_ice [reflexed] = Ok tt
  /\ exists conn f e c, (conn, f, e) ∈ [(V4 both_sockets, familyIPv4, answering); (V6 both_sockets, familyIPv6, silent)]
       /\ (@reflexiveCandidateFromConn mapping_stun conn sample_ice f e).2 = Some (Ok c) /\ c ∈ [reflexed].
Proof.
  destruct (@turn_prerequisites_spec mapping_stun sample_ice [reflexed]) as [_ H].
  assert (validateTurnPrerequisites sample_ice [reflexed] = Ok tt) as Hok by by vm_compute.
  split; [exact Hok|]. apply (H both_sockets [] 51820 familyDual answering silent); [by vm_compute|exact Hok].
Defined.

Lemma ice_servers_spec_witness :
  stun_url "stun:stun.example:19302" = Some "stun.example:19302"%string
  /\ turn_url "turn:stun.example:19302?transport=udp" = Some "stun.example:19302"%string.
Proof.
  destruct (ice_servers_spec [] "stun.example" ":19302" "19302") as (_ & _ & _ & _ & H).
  destruct H as (Hs & Ht & _); [by vm_compute|done|by apply with_port|].
  split; [exact Hs|exact Ht].
Defined.

End Ice.
