(* ===== verification/Negotiate.v ===== *)
(** Choosing the WireGuard endpoint ([main.go]): the nominated tuple, else the
    first tuple a Binding Request was seen from, else the fan-out probe; then the
    queue kept for the retry loop. *)

From S2P Require Import Prelude Lists GoStrings GoNet GoJson GoTime Candidates Nomination Stun.
From Stdlib Require Import Ascii.
Open Scope Z_scope.

Import Candidates Nomination Stun.

Module Negotiate.

Section negotiate.
Context `{PionStun}.

(** ** resolveNominatedEndpoint *)

Inductive selection_outcome : Type :=
| SelectionArrived
| SelectionTimedOut
| SelectionAborted.

Inductive mode : Type :=
| ModeOverride
| ModePerTupleNomination
| ModeInboundBindingRequest
| ModeFallbackProbe.

(** [negotiateEndpoint]'s errors: the context's, and no endpoint at all. *)
Inductive negotiate_error : Type :=
| ContextEnded
| NoEndpoint.

Definition inbound_request (p : packetLog) : bool :=
  bool_decide (Direction p = "in"%string) && STUN p && bool_decide (STUNType p = "Binding request"%string).

(** The loop over the logged packets: the queue with its [seen] map, the
    endpoint and whether this loop chose it. *)
Record scan := {
  scan_queue : gset string * list string;
  scan_endpoint : string;
  scan_inbound : bool;
}.

Definition scan_packet (st : scan) (p : packetLog) : scan :=
  if inbound_request p then
    {| scan_queue := push_unseen (fun _ => false) (scan_queue st) (LogAddr p);
       scan_endpoint := if bool_decide (scan_endpoint st = EmptyString) then LogAddr p else scan_endpoint st;
       scan_inbound := bool_decide (scan_endpoint st = EmptyString) || scan_inbound st |}
  else st.

(** What the run meets: the order in which [activate] visits the pairs, how the
    wait for a selection ends and the listener's state then, the context after
    the wait, the events of the fallback probe, and the context after it. *)
Record resolve_env := {
  v_order : list (string * nominationPair);
  v_selection : selection_outcome;
  v_listener : earlyNominationListener;
  v_live : bool;
  v_probe : list probe_event;
  v_live_after_probe : bool;
}.

Definition selection_of (env : resolve_env) : selection_event :=
  match v_selection env with
  | SelectionArrived => SelectedCh (nomination (v_listener env))
  | SelectionTimedOut => SelectionTimeout
  | SelectionAborted => SelectionCancelled
  end.

(** [None]: a panic of [activate], or the probe still waits. *)
Definition resolveNominatedEndpoint (s : option udpSockets) (peerCandidates local : list candidate)
    (t : nominationTracker) (env : resolve_env)
  : option (result negotiate_error (string * mode * list string)) :=
  t ← activate t (v_order env);
  let endpoint := waitForSelection t (selection_of env) in
  if negb (v_live env) then Some (Err ContextEnded)
  else
    let st := foldl scan_packet
      {| scan_queue := (∅, []); scan_endpoint := endpoint; scan_inbound := false |}
      (Logs (v_listener env)) in
    let queue := (scan_queue st).2 in
    if bool_decide (scan_endpoint st = EmptyString) then
      answer ← probeCandidates s peerCandidates local (v_probe env);
      if negb (v_live_after_probe env) then Some (Err ContextEnded)
      else Some (Ok (answer, ModeFallbackProbe, queue))
    else Some (Ok (scan_endpoint st,
                   if scan_inbound st then ModeInboundBindingRequest else ModePerTupleNomination, queue)).

(** ** negotiateEndpoint *)

Record negotiated := {
  n_endpoint : string;
  n_mode : mode;
  n_queue : list string;
  n_types : gmap string string;
}.

(** [advertised] are the candidates of the CONNECT_RESPONSE. *)
Definition peer_candidates (forceTurn : bool) (s : option udpSockets) (advertised local : list candidate)
  : list candidate :=
  if forceTurn then compatibleCandidates s (candidatesOfType advertised "turn") local else advertised.

Definition negotiateEndpoint (endpointOverride : string) (forceTurn : bool) (s : option udpSockets)
    (advertised local : list candidate) (t : nominationTracker) (env : resolve_env)
  : option (result negotiate_error negotiated) :=
  let peerCandidates := peer_candidates forceTurn s advertised local in
  resolved ← (if bool_decide (endpointOverride = EmptyString)
              then resolveNominatedEndpoint s peerCandidates local t env
              else Some (Ok (endpointOverride, ModeOverride, [])));
  match resolved with
  | Err e => Some (Err e)
  | Ok (endpoint, m, queue) =>
      if bool_decide (endpoint = EmptyString) then Some (Err NoEndpoint)
      else Some (Ok {| n_endpoint := endpoint; n_mode := m;
                       n_queue := buildCandidateRetryQueue endpoint queue
                                    (compatibleCandidates s peerCandidates local);
                       n_types := candidateTypeMap peerCandidates |})
  end.

(** ** Lemmas *)

(** The addresses the log shows Binding Requests from, in order. *)
Definition inbound_addrs (logs : list packetLog) : list string :=
  LogAddr <$> filter (fun p => inbound_request p = true) logs.

Lemma scan_spec st logs :
  let st' := foldl scan_packet st logs in
  scan_queue st' = push_all (fun _ => false) (scan_queue st) (inbound_addrs logs)
  /\ (scan_endpoint st <> EmptyString ->
      scan_endpoint st' = scan_endpoint st /\ scan_inbound st' = scan_inbound st)
  /\ (scan_endpoint st = EmptyString -> Forall (fun a => a <> EmptyString) (inbound_addrs logs) ->
      scan_endpoint st' = default EmptyString (head (inbound_addrs logs))
      /\ (inbound_addrs logs <> [] -> scan_inbound st' = true)).
Proof.
  cbn zeta. revert st. induction logs as [|p logs IH]; intros st; [done|].
  change (foldl scan_packet st (p :: logs)) with (foldl scan_packet (scan_packet st p) logs).
  unfold inbound_addrs. rewrite filter_cons. destruct (inbound_request p) eqn:Ep.
  2:{ rewrite decide_False by done. replace (scan_packet st p) with st; [apply IH|].
      unfold scan_packet. by rewrite Ep. }
  rewrite decide_True, fmap_cons by done. fold (inbound_addrs logs).
  assert (scan_packet st p = {| scan_queue := push_unseen (fun _ => false) (scan_queue st) (LogAddr p);
      scan_endpoint := if bool_decide (scan_endpoint st = EmptyString) then LogAddr p else scan_endpoint st;
      scan_inbound := bool_decide (scan_endpoint st = EmptyString) || scan_inbound st |}) as ->
    by (unfold scan_packet; by rewrite Ep).
  match goal with |- context [foldl scan_packet ?s1 logs] => destruct (IH s1) as (Hq & Hne & _) end.
  cbn [scan_queue scan_endpoint scan_inbound] in *. split; [exact Hq|]. split.
  - intros Hs. rewrite bool_decide_false in * by done. by apply Hne.
  - intros Hs Hall. apply Forall_cons in Hall as [Hp _]. rewrite bool_decide_true in * by done.
    by destruct (Hne Hp) as [-> ->].
Qed.

(** *** The printed forms of a source agree *)

(** What a UDP socket reports as a source: IPv4 on the one socket, IPv6 that is
    no mapped IPv4 on the other. *)
Definition socket_source (a : UDPAddr) : Prop :=
  0 <= Port a < 2 ^ 16
  /\ ((length (IP a) = 4%nat /\ Zone a = EmptyString)
      \/ (length (IP a) = 16%nat /\ to4 (IP a) = None)).

Lemma v6_string_colon b : length b = 16%nat -> has_byte ":" (v6_string b) = true.
Proof.
  intros Hb. unfold v6_string. destruct (longest_zeros 0 (group_values b) (0%nat, 0%nat)) as [st l].
  assert (exists x y r, group_values b = x :: y :: r) as (x & y & r & Hg).
  { do 4 (destruct b as [|? b]; [done|]). by eexists _, _, _. }
  destruct (l =? 0)%nat.
  - rewrite Hg. unfold colon_hex. rewrite !fmap_cons.
    match goal with |- context [String.concat ":" (?a :: ?b :: ?c)] =>
      change (String.concat ":" (a :: b :: c)) with (a ++ ":" ++ String.concat ":" (b :: c))%string end.
    by rewrite !has_byte_append, orb_true_r.
  - by rewrite !has_byte_append, orb_true_r.
Qed.

Lemma remote_of_source a : socket_source a -> remote_of a = udp_string a.
Proof.
  intros [Hp Hf]. unfold remote_of, udp_addr_port, udp_string, udp_addr_string.
  rewrite (Z.mod_small (Port a)) by done. destruct Hf as [[Hl Hz]|[Hl H4]]; rewrite Hl; cbn [Nat.eqb fst snd].
  - rewrite Hz. unfold join_host_port, ip_string. cbn [addr_port_string addr_string].
    assert (to4 (IP a) = Some (IP a)) as -> by (unfold to4; by rewrite Hl).
    destruct (IP a) as [|b bs]; [done|]. by rewrite v4_string_no_colon.
  - unfold addr_port_string, addr_string. rewrite H4. unfold ip_string. rewrite H4.
    pose proof (v6_string_colon (IP a) Hl) as Hc. destruct (IP a) as [|b bs]; [done|].
    unfold join_host_port. destruct (Zone a) as [|z zs]; rewrite ?has_byte_append, Hc; cbn [orb].
    + done.
    + done.
Qed.

(** *** TURN-only negotiation *)

(** The listener's inputs are confined to [ok]: every tuple the tracker heard
    and every inbound entry of the log. *)
Definition confined (ok : list string) (h : list nomination_event) (logs : list packetLog) : Prop :=
  (forall a w, Observed a w ∈ h -> a ∈ ok) /\ (forall p, p ∈ logs -> inbound_request p = true -> LogAddr p ∈ ok).

Lemma genuine_allowed l p m : genuine l p = Some m -> allows l (udp_string p.1) = true.
Proof. unfold genuine. by destruct (allows l (udp_string p.1)). Qed.

Lemma entries_inbound l p e :
  e ∈ entries_of l p -> inbound_request e = true ->
  LogAddr e = udp_string p.1 /\ allows l (udp_string p.1) = true.
Proof.
  unfold entries_of. destruct (allows l (udp_string p.1)); cbn [negb]; [|by intros ?%not_elem_of_nil].
  intros [-> |He]%elem_of_cons Hin; [done|].
  destruct (genuine l p); [|by apply not_elem_of_nil in He]. by apply list_elem_of_singleton in He as ->.
Qed.

Lemma requests_confined l ok ps a w :
  allowed l = Some (list_to_set ok) -> Forall (fun p => socket_source p.1) ps ->
  Observed a w ∈ omap (request_of l) ps -> a ∈ ok.
Proof.
  intros Hal Hps Hin. apply list_elem_of_omap in Hin as (p & Hp & Hr).
  rewrite Forall_forall in Hps. specialize (Hps p Hp). unfold request_of in Hr.
  destruct (genuine l p) as [m|] eqn:Eg; [|done]. apply genuine_allowed in Eg.
  cbn in Hr. destruct (stunNominationWait m); [|done]. injection Hr as <- _.
  rewrite remote_of_source by done. unfold allows in Eg. rewrite Hal, bool_decide_eq_true in Eg.
  by apply elem_of_list_to_set in Eg.
Qed.

Lemma entries_confined l ok ps e :
  allowed l = Some (list_to_set ok) -> e ∈ concat (entries_of l <$> ps) ->
  inbound_request e = true -> LogAddr e ∈ ok.
Proof.
  intros Hal He Hin. apply list_elem_of_In, in_concat in He as (es & Hm & Hes).
  apply list_elem_of_In in Hm, Hes. apply list_elem_of_fmap in Hm as (p & -> & _). destruct (entries_inbound l p e Hes Hin) as [-> Hok].
  unfold allows in Hok. rewrite Hal, bool_decide_eq_true in Hok. by apply elem_of_list_to_set in Hok.
Qed.

Lemma elem_of_last_n {A} n (l : list A) x : x ∈ last_n n l -> x ∈ l.
Proof. unfold last_n. intros Hx. rewrite <- (take_drop (length l - n) l). apply elem_of_app. by right. Qed.

(** Reading keeps the inputs confined. *)
Lemma read_packets_confined ok l0 h l ps :
  same_config l0 l -> allowed l0 = Some (list_to_set ok) -> Forall (fun p => socket_source p.1) ps ->
  listening h l -> confined ok h (logs l) ->
  forall l' sent, read_packets l ps = Some (l', sent) ->
  exists h', listening h' l' /\ confined ok h' (logs l') /\ (forall ev, ev ∈ h -> ev ∈ h').
Proof.
  intros Hc Hal Hps Hl [Hobs Hlog] l' sent Hr.
  destruct (read_packets_spec l0 h l ps Hc Hl) as (l2 & Hr2 & Hl2 & Hlogs). rewrite Hr in Hr2.
  injection Hr2 as <- _. eexists. split; [exact Hl2|]. split.
  - split.
    + intros a w [Hin|Hin]%elem_of_app; [by eapply Hobs|by eapply requests_confined].
    + intros p Hp Hin. rewrite Hlogs in Hp. apply elem_of_last_n, elem_of_app in Hp as [Hp|Hp]; [by apply Hlog|].
      by eapply entries_confined.
  - intros ev Hev. apply elem_of_app. by left.
Qed.

Lemma selected_confined (ok : list string) h t logs :
  tracked h t -> confined ok h logs -> selectedEndpoint t <> EmptyString -> selectedEndpoint t ∈ ok.
Proof.
  intros Ht [Hobs _] Hs. destruct (inv_selected _ _ (tracked_inv h t Ht) Hs) as [_ Hn].
  destruct (nominated_observed _ _ Hn) as [w Hw]. by eapply Hobs.
Qed.

Lemma wait_confined (ok : list string) h1 h2 t1 t2 logs1 logs2 out env :
  tracked h1 t1 -> confined ok h1 logs1 -> tracked h2 t2 -> confined ok h2 logs2 ->
  nomination (v_listener env) = t2 -> out = waitForSelection t1 (selection_of env) ->
  out <> EmptyString -> out ∈ ok.
Proof.
  intros Ht1 Hc1 Ht2 Hc2 Hn -> Hne. unfold waitForSelection in *.
  destruct (bool_decide (selectedEndpoint t1 = EmptyString)) eqn:E; cbn [negb] in *.
  - unfold selection_of in *. destruct (v_selection env); cbn in *; [|done|done]. rewrite Hn in *.
    by eapply selected_confined.
  - apply bool_decide_eq_false in E. by eapply selected_confined.
Qed.

(** The scan's choice and queue stay within the log's inbound addresses. *)
Lemma scan_confined (ok : list string) logs st :
  (forall p, p ∈ logs -> inbound_request p = true -> LogAddr p ∈ ok) ->
  (scan_endpoint st = EmptyString \/ scan_endpoint st ∈ ok) ->
  (forall a, a ∈ (scan_queue st).2 -> a ∈ ok) ->
  let st' := foldl scan_packet st logs in
  (scan_endpoint st' = EmptyString \/ scan_endpoint st' ∈ ok) /\ (forall a, a ∈ (scan_queue st').2 -> a ∈ ok).
Proof.
  cbn zeta. revert st. induction logs as [|p logs IH]; intros st Hlogs He Hq; [done|]. cbn [foldl].
  apply IH.
  - intros q Hq'. apply Hlogs. by right.
  - unfold scan_packet. destruct (inbound_request p) eqn:E; [|done]. cbn [scan_endpoint].
    case_bool_decide; [|done]. right. apply Hlogs; [by left|done].
  - unfold scan_packet. destruct (inbound_request p) eqn:E; [|done]. cbn [scan_queue].
    unfold push_unseen. cbn [orb]. case_bool_decide; [done|]. cbn [snd].
    intros a [Ha|Ha]%elem_of_app; [by apply Hq|]. apply list_elem_of_singleton in Ha as ->.
    apply Hlogs; [by left|done].
Qed.

Lemma resolve_confined (ok : list string) s peer local t t1 h1 h2 logs1 env r m q :
  activate t (v_order env) = Some t1 -> tracked h1 t1 -> confined ok h1 logs1 ->
  tracked h2 (nomination (v_listener env)) -> confined ok h2 (logs (v_listener env)) ->
  (forall c, c ∈ peer -> Addr c ∈ ok) ->
  resolveNominatedEndpoint s peer local t env = Some (Ok (r, m, q)) ->
  (r = EmptyString \/ r ∈ ok) /\ (forall a, a ∈ q -> a ∈ ok).
Proof.
  intros Ha Ht1 Hc1 Ht2 Hc2 Hpeer. unfold resolveNominatedEndpoint. rewrite Ha. cbn [mbind option_bind].
  destruct (v_live env); cbn [negb]; [|done].
  set (e0 := waitForSelection t1 (selection_of env)).
  assert (e0 = EmptyString \/ e0 ∈ ok) as He0.
  { destruct (decide (e0 = EmptyString)) as [?|Hne]; [by left|right].
    exact (wait_confined ok h1 h2 t1 _ logs1 _ e0 env Ht1 Hc1 Ht2 Hc2 eq_refl eq_refl Hne). }
  destruct (scan_confined ok (Logs (v_listener env))
    {| scan_queue := (∅, []); scan_endpoint := e0; scan_inbound := false |}) as [He Hq];
    [apply Hc2|done|by intros a ?%not_elem_of_nil|].
  set (st := foldl scan_packet _ _) in *. case_bool_decide as Hempty.
  - destruct (probeCandidates s peer local (v_probe env)) as [a|] eqn:Ep; [|done]. cbn [mbind option_bind].
    destruct (v_live_after_probe env); cbn [negb]; [|done]. intros [= <- <- <-]. split; [|done].
    apply probeCandidates_source in Ep as [?|Hin]; [by left|right].
    apply list_elem_of_fmap in Hin as (c & -> & Hc). by apply Hpeer, (compatibleCandidates_subset s _ local).
  - intros [= <- <- <-]. by split.
Qed.

(** ** Properties *)

(** How the endpoint is chosen when a tuple is at hand, and how it is labelled:
    the nominated one first, else the first a Binding Request came from. *)
Definition choice (nominated : string) (inbound : list string) : option (string * mode) :=
  if decide (nominated = EmptyString) then (fun a => (a, ModeInboundBindingRequest)) <$> head inbound
  else Some (nominated, ModePerTupleNomination).

(** [C4] The order of the selection, while the context lives and when every logged
    packet has an address. A nominated tuple wins, then the first tuple a Binding
    Request was logged from, and only without both is the fan-out probe's answer
    taken; an empty answer is the one error. The queue for retries is every other
    logged tuple, in the order of first sight; then the other compatible candidates
    with a publicly routable address; then the rest of the compatible candidates.
    Each of the two groups of candidates is in rank order, so a relay comes last
    within its group only, and the queue repeats nothing and leaves the chosen
    endpoint out. *)
Theorem negotiate_spec (forceTurn : bool) (s : option udpSockets) (advertised local : list candidate)
    (t t1 : nominationTracker) (env : resolve_env) :
  let peer := peer_candidates forceTurn s advertised local in
  let inbound := inbound_addrs (Logs (v_listener env)) in
  let outcome e m :=
    {| n_endpoint := e; n_mode := m; n_types := candidateTypeMap peer;
       n_queue := fresh_of (fun a => bool_decide (a = EmptyString)) {[e]}
                    (retry_sources (fresh_of (fun _ => false) ∅ inbound) (compatibleCandidates s peer local)) |} in
  activate t (v_order env) = Some t1 -> v_live env = true -> Forall (fun a => a <> EmptyString) inbound ->
  match choice (waitForSelection t1 (selection_of env)) inbound with
  | Some (e, m) => negotiateEndpoint EmptyString forceTurn s advertised local t env = Some (Ok (outcome e m))
  | None =>
      inbound = [] /\
      forall a, probeCandidates s peer local (v_probe env) = Some a -> v_live_after_probe env = true ->
      negotiateEndpoint EmptyString forceTurn s advertised local t env
      = Some (if decide (a = EmptyString) then Err NoEndpoint else Ok (outcome a ModeFallbackProbe))
  end.
Proof.
  intros peer inbound outcome Hact Hlive Hne.
  unfold negotiateEndpoint, resolveNominatedEndpoint. rewrite bool_decide_true by done. fold peer.
  rewrite Hact, Hlive. cbn [mbind option_bind negb].
  set (nominated := waitForSelection t1 (selection_of env)).
  destruct (scan_spec {| scan_queue := (∅, []); scan_endpoint := nominated; scan_inbound := false |}
    (Logs (v_listener env))) as (Hq & Hnom & Hfirst). fold inbound in Hq, Hfirst. cbn [scan_endpoint scan_queue] in *.
  set (st := foldl scan_packet _ _) in *. rewrite Hq, push_all_fresh. cbn [snd app].
  unfold choice. destruct (decide (nominated = EmptyString)) as [E|E].
  - destruct (Hfirst E Hne) as [He Hi]. destruct inbound as [|a rest] eqn:Ein; cbn [head fmap option_fmap option_map].
    + split; [done|]. intros a Hp Hl. rewrite He, Hp, Hl, bool_decide_true by done. cbn [mbind option_bind negb].
      case_bool_decide as Ha; [by rewrite decide_True|]. rewrite decide_False by done.
      by rewrite buildCandidateRetryQueue_fresh.
    + apply Forall_cons in Hne as [Ha _]. rewrite He, (Hi ltac:(done)). cbn [head default].
      rewrite !bool_decide_false by done. cbn [mbind option_bind].
      rewrite bool_decide_false by done. by rewrite buildCandidateRetryQueue_fresh.
  - destruct (Hnom E) as [-> Hsi]. cbn [scan_inbound] in Hsi. rewrite Hsi.
    rewrite !bool_decide_false by done. cbn [mbind option_bind].
    rewrite bool_decide_false by done. by rewrite buildCandidateRetryQueue_fresh.
Qed.

(** In TURN-only mode no direct path is ever taken: with the listener
    restricted to the compatible relay candidates, whatever packets arrive
    before and after activation and however the wait ends, the endpoint and
    every address kept for retries is one of those relay candidates. *)
Theorem turn_only (s : option udpSockets) (advertised local : list candidate) (secret : string)
    (ps1 ps2 : list (UDPAddr * string)) (l1 l2 : earlyNominationListener)
    (sent1 sent2 : list (string * string)) (t1 : nominationTracker) (env : resolve_env) (n : negotiated) :
  let relays := compatibleCandidates s (candidatesOfType advertised "turn") local in
  let l0 := restrictToCandidates (newEarlyNominationListener secret newNominationTracker) (Addr <$> relays) in
  Forall (fun p => socket_source p.1) (ps1 ++ ps2) ->
  read_packets l0 ps1 = Some (l1, sent1) ->
  v_order env ≡ₚ map_to_list (pairs (nomination l1)) ->
  activate (nomination l1) (v_order env) = Some t1 ->
  read_packets (set_nomination l1 t1) ps2 = Some (l2, sent2) ->
  v_listener env = l2 ->
  negotiateEndpoint EmptyString true s advertised local (nomination l1) env = Some (Ok n) ->
  n_endpoint n ∈ Addr <$> relays /\ (forall a, a ∈ n_queue n -> a ∈ Addr <$> relays)
  /\ forall c, c ∈ relays -> Type_ c = "turn"%string.
Proof.
  intros relays l0 Hps Hr1 Hord Hact Hr2 Henv. apply Forall_app in Hps as [Hps1 Hps2].
  set (ok := Addr <$> relays) in *.
  assert (listening [] l0) as Hl0 by (split; [constructor|simpl; lia]).
  assert (confined ok [] (logs l0)) as Hc0 by (split; [by intros a w ?%not_elem_of_nil|by intros p ?%not_elem_of_nil]).
  destruct (read_packets_confined ok l0 [] l0 ps1 ltac:(done) eq_refl Hps1 Hl0 Hc0 l1 sent1 Hr1)
    as (h1 & [Ht1 Hlen1] & Hc1 & _).
  assert (tracked (h1 ++ [Activated]) t1) as Ht1' by by eapply tracked_activate.
  assert (confined ok (h1 ++ [Activated]) (logs (set_nomination l1 t1))) as Hc1'.
  { destruct Hc1 as [Ho Hlg]. split; [|exact Hlg]. intros a w [Hin|Hin]%elem_of_app; [by eapply Ho|].
    by apply list_elem_of_singleton in Hin. }
  assert (same_config l0 (set_nomination l1 t1)) as Hsc.
  { destruct (read_packets_config l0 ps1 l1 sent1 Hr1) as [H1 H2]. by split. }
  destruct (read_packets_confined ok l0 _ _ ps2 Hsc eq_refl Hps2 (conj Ht1' Hlen1) Hc1' l2 sent2 Hr2)
    as (h2 & [Ht2 _] & Hc2 & _).
  assert (forall c, c ∈ relays -> Addr c ∈ ok) as Hrel.
  { intros c Hc. apply list_elem_of_fmap. by exists c. }
  unfold negotiateEndpoint. rewrite bool_decide_true by done. cbn [peer_candidates]. fold relays.
  destruct (resolveNominatedEndpoint s relays local (nomination l1) env) as [[[[r m] q]|e]|] eqn:Eres;
    cbn [mbind option_bind]; [|done|done].
  rewrite <- Henv in Ht2, Hc2.
  destruct (resolve_confined ok s relays local (nomination l1) t1 _ h2 _ env r m q Hact Ht1' Hc1' Ht2 Hc2 Hrel Eres)
    as [Hr Hq].
  case_bool_decide as Hne; [done|]. intros [= <-]. cbn [n_endpoint n_queue]. destruct Hr as [?|Hr]; [done|].
  split; [done|]. split.
  - intros a. rewrite buildCandidateRetryQueue_fresh, elem_of_fresh_of, elem_of_retry_sources.
    intros [[Ha|Ha] _]; [by apply Hq|]. apply list_elem_of_fmap in Ha as (c & -> & Hc).
    by apply Hrel, (compatibleCandidates_subset s _ local).
  - intros c Hc. apply compatibleCandidates_subset in Hc.
    unfold candidatesOfType in Hc. by apply list_elem_of_filter in Hc as [? _].
Qed.
End negotiate.

(** *** Concrete runs *)

Definition toy_sockets : option udpSockets := Some {| V4 := Some 3; V6 := None |}.
Definition toy_relay : candidate := {| Type_ := "turn"; Addr := "203.0.113.5:5000" |}.
Definition toy_advertised : list candidate :=
  [{| Type_ := "reflex"; Addr := "198.51.100.9:6000" |}; toy_relay].
Definition toy_local : list candidate := [{| Type_ := "iface"; Addr := "192.168.1.2:51820" |}].

Definition toy_packet (w : Z) : UDPAddr * string :=
  (toy_peer, ("Rs;" ++ json_object [("wait", itoa w)])%string).

(** A forged request of another tuple, then the relay's countdown. *)
Definition toy_packets : list (UDPAddr * string) :=
  ({| IP := [198; 51; 100; 9]; Port := 6000; Zone := EmptyString |}, "Rx;"%string)
  :: (toy_packet <$> nominationWaitSequence).

Definition toy_env (l : earlyNominationListener) : resolve_env :=
  {| v_order := []; v_selection := SelectionArrived; v_listener := l; v_live := true;
     v_probe := [TimerFired]; v_live_after_probe := true |}.

Definition toy_run (l0 : earlyNominationListener) : earlyNominationListener :=
  match activate (nomination l0) [] with
  | Some t1 => match @read_packets toy_stun (set_nomination l0 t1) toy_packets with
               | Some (l, _) => l | None => l0 end
  | None => l0
  end.

Definition toy_confined : earlyNominationListener :=
  restrictToCandidates (newEarlyNominationListener "s" newNominationTracker) [Addr toy_relay].

Definition toy_outcome : negotiated :=
  {| n_endpoint := "203.0.113.5:5000"; n_mode := ModePerTupleNomination; n_queue := [];
     n_types := {["203.0.113.5:5000" := "turn"]} |}.

Lemma toy_packets_sources : Forall (fun p => socket_source p.1) toy_packets.
Proof.
  apply Forall_forall. intros p Hp. repeat apply elem_of_cons in Hp as [-> |Hp]; try by apply not_elem_of_nil in Hp.
  all: split; [cbn; lia|by left].
Qed.

(** The relay's countdown selects the relay. *)
Lemma turn_only_witness :
  @negotiateEndpoint EmptyString true toy_sockets toy_advertised toy_local newNominationTracker
    (toy_env (toy_run toy_confined)) = Some (Ok toy_outcome)
  /\ n_endpoint toy_outcome ∈ ["203.0.113.5:5000"%string].
Proof.
  assert (@negotiateEndpoint EmptyString true toy_sockets toy_advertised toy_local newNominationTracker
    (toy_env (toy_run toy_confined)) = Some (Ok toy_outcome)) as Hn by by vm_compute.
  split; [exact Hn|].
  destruct (@turn_only toy_stun toy_sockets toy_advertised toy_local "s"%string [] toy_packets
    toy_confined (toy_run toy_confined) [] (omap (@reply_to toy_stun toy_confined) toy_packets)
    {| pairs := ∅; active := true; selected := EmptyString; closed := false |}
    (toy_env (toy_run toy_confined)) toy_outcome) as [He _].
  - apply toy_packets_sources.
  - by vm_compute.
  - done.
  - by vm_compute.
  - by vm_compute.
  - done.
  - exact Hn.
  - exact He.
Defined.

(** Without a nomination, a request whose integrity check fails decides the
    endpoint: the log keeps packets from before their authentication. *)
Definition forged_log : earlyNominationListener :=
  match @read_packets toy_stun toy_listener [(toy_peer, "Rx;"%string)] with
  | Some (l, _) => l | None => toy_listener end.

Definition timed_out : resolve_env :=
  {| v_order := []; v_selection := SelectionTimedOut; v_listener := forged_log; v_live := true;
     v_probe := [TimerFired]; v_live_after_probe := true |}.

Lemma negotiate_spec_witness :
  @validStunIntegrity toy_stun ("x"%string, EmptyString) (stunSecret toy_listener) = false
  /\ inbound_addrs (Logs forged_log) = ["203.0.113.5:5000"%string]
  /\ negotiateEndpoint EmptyString false toy_sockets [] toy_local newNominationTracker timed_out
     = Some (Ok {| n_endpoint := "203.0.113.5:5000"; n_mode := ModeInboundBindingRequest;
                   n_queue := []; n_types := ∅ |}).
Proof.
  split; [by vm_compute|]. split; [by vm_compute|].
  refine (eq_trans (negotiate_spec false toy_sockets [] toy_local newNominationTracker
    {| pairs := ∅; active := true; selected := EmptyString; closed := false |} timed_out _ _ _) _).
  - by vm_compute.
  - done.
  - by repeat constructor.
  - by vm_compute.
Defined.

End Negotiate.
