(* ===== verification/Client.v ===== *)
(** The client's life ([main.go]): getting a session, one connection attempt
    after another, and the backoff between them. *)

From S2P Require Import Prelude Lists GoStrings GoNet GoTime Candidates Nomination Stun Negotiate.
Open Scope Z_scope.

Import Candidates Nomination Stun Negotiate.

Module Client.

(** An error, by whether [errors.Is] finds [context.Canceled] in it. *)
Inductive client_err : Type :=
| Canceled
| Failed (message : string).

Definition is_canceled (err : option client_err) : bool :=
  match err with Some Canceled => true | _ => false end.

(** The flags the connection uses. *)
Record cliFlags := {
  invite : string; endpointOverride : string; forceTurn : bool; printConfig : bool;
  family : networkFamily; sessionFile : string;
}.

(** [Access] is the id of the pairing request, while it is still to be deleted. *)
Record sessionResult := { Token : string; Secret : string; DeviceToken : string; Access : option string }.

(** ** establishSession

    What the pairing meets: the answer to REQUEST_ACCESS (its request id), the
    outcome of the poll, [None] when nothing came (else the token and the secret
    of the response), the context afterwards, and whether the file was saved. *)
Record pairing_env := {
  pe_loaded : result client_err (string * string);
  pe_device_token : string;
  pe_access : result client_err string;
  pe_poll : result client_err (option (string * string));
  pe_ctx : option client_err;
}.

Inductive pairing_action : Type :=
| LoadSession
| RequestAccess
| PollAccess (requestID : string)
| SaveSession (token secret : string).

Definition timed_out_access : client_err := Failed "timed out waiting for ACCESS_GRANTED".

(** A failing save is only logged. *)
Definition establishSession (flags : cliFlags) (e : pairing_env)
  : list pairing_action * result client_err sessionResult :=
  if bool_decide (invite flags = EmptyString) then
    ([LoadSession],
     match pe_loaded e with
     | Err err => Err err
     | Ok (token, secret) =>
         Ok {| Token := token; Secret := secret; DeviceToken := EmptyString; Access := None |}
     end)
  else match pe_access e with
  | Err err => ([RequestAccess], Err err)
  | Ok id =>
      let asked := [RequestAccess; PollAccess id] in
      match pe_poll e with
      | Err err => (asked, Err err)
      | Ok poll =>
          let '(token, secret) := default (EmptyString, EmptyString) poll in
          if bool_decide (token = EmptyString) then (asked, Err timed_out_access)
          else match pe_ctx e with
          | Some err => (asked, Err err)
          | None =>
              (asked ++ (if bool_decide (sessionFile flags = EmptyString) then [] else [SaveSession token secret]),
               Ok {| Token := token; Secret := secret; DeviceToken := pe_device_token e; Access := Some id |})
          end
      end
  end.

(** ** runConnectionAttempt *)

Record connectionAttemptResult := { printedConfig : bool; tunnelStarted : bool; tunnelDuration : Z }.

Definition no_tunnel : connectionAttemptResult :=
  {| printedConfig := false; tunnelStarted := false; tunnelDuration := 0 |}.

Inductive attempt_action : Type :=
| OpenSockets
| CloseSockets
| StartListener (allowed : option (gset string))
| StopListener
| SendConnect
| DeleteAccess (requestID : string)
| PrintConfig (endpoint : string)
| RunTunnel (endpoint : string) (queue : list string).

(** What one attempt meets, call by call: the errors of the key pair and of the
    ICE configuration, the sockets, the candidates gathered, the error of the
    TURN prerequisites, the candidates of the CONNECT_RESPONSE, the nomination
    so far and the rest of the negotiation, and how a tunnel to an endpoint with a
    queue ends, [None] while it is up. *)
Record attempt_env := {
  a_keys : option client_err;
  a_ice : option client_err;
  a_sockets : result client_err udpSockets;
  a_local : list candidate;
  a_turn_ready : option client_err;
  a_secret : string;
  a_connect : result client_err (list candidate);
  a_nomination : nominationTracker;
  a_resolve : resolve_env;
  a_tunnel : string -> list string -> option (option client_err);
  a_duration : Z;
}.

Definition attempt_outcome : Type :=
  list attempt_action * sessionResult * connectionAttemptResult * option client_err.

Definition failed_with (session : sessionResult) (err : client_err) : attempt_outcome :=
  ([], session, no_tunnel, Some err).

(** Actions done before the rest, and the deferred ones after it. *)
Definition bracket (before : list attempt_action) (rest : attempt_outcome) (after : list attempt_action)
  : attempt_outcome :=
  let '(acts, session, r, err) := rest in (before ++ acts ++ after, session, r, err).

Definition no_relay : client_err :=
  Failed "--turn requested, but the console advertised no compatible TURN relay candidate".

Definition negotiation_err (e : negotiate_error) : client_err :=
  match e with
  | ContextEnded => Canceled
  | NoEndpoint => Failed "no endpoint candidate available"
  end.

(** With the endpoint chosen and the listener stopped; [ended] is how the tunnel
    ended. *)
Definition use_endpoint (flags : cliFlags) (session : sessionResult) (e : attempt_env) (n : negotiated)
    (ended : option client_err) : attempt_outcome :=
  let '(deleted, session) :=
    match Access session with
    | Some id => ([DeleteAccess id], {| Token := Token session; Secret := Secret session;
                                        DeviceToken := DeviceToken session; Access := None |})
    | None => ([], session)
    end in
  if printConfig flags then
    (deleted ++ [PrintConfig (n_endpoint n)], session,
     {| printedConfig := true; tunnelStarted := false; tunnelDuration := 0 |}, None)
  else
    (deleted ++ [RunTunnel (n_endpoint n) (n_queue n)], session,
     {| printedConfig := false; tunnelStarted := true; tunnelDuration := a_duration e |}, ended).

(** The negotiation, which runs beside the started listener and leaves it
    stopped, whether by [negotiateEndpoint] or by the deferred [Stop]. *)
Definition negotiate_and_use (flags : cliFlags) (session : sessionResult) (e : attempt_env)
    (sockets : udpSockets) (advertised : list candidate) : option attempt_outcome :=
  negotiated ← negotiateEndpoint (endpointOverride flags) (forceTurn flags) (Some sockets) advertised
                 (a_local e) (a_nomination e) (a_resolve e);
  match negotiated with
  | Err err => Some (bracket [] (failed_with session (negotiation_err err)) [StopListener])
  | Ok n =>
      ended ← (if printConfig flags then Some None else a_tunnel e (n_endpoint n) (n_queue n));
      Some (bracket [StopListener] (use_endpoint flags session e n ended) [])
  end.

(** Once the local candidates are known: CONNECT, with the listener started
    before it or, in TURN-only mode, after it and for the relays alone. *)
Definition connect_and_negotiate (flags : cliFlags) (session : sessionResult) (e : attempt_env)
    (sockets : udpSockets) : option attempt_outcome :=
  if forceTurn flags then
    match a_connect e with
    | Err err => Some (bracket [SendConnect] (failed_with session err) [])
    | Ok advertised =>
        match compatibleCandidates (Some sockets) (candidatesOfType advertised "turn") (a_local e) with
        | [] => Some (bracket [SendConnect] (failed_with session no_relay) [])
        | relays =>
            rest ← negotiate_and_use flags session e sockets advertised;
            let l := restrictToCandidates (newEarlyNominationListener (a_secret e) (a_nomination e)) (Addr <$> relays) in
            Some (bracket [SendConnect; StartListener (allowed l)] rest [])
        end
    end
  else
    match a_connect e with
    | Err err => Some (bracket [StartListener None; SendConnect] (failed_with session err) [StopListener])
    | Ok advertised =>
        rest ← negotiate_and_use flags session e sockets advertised;
        Some (bracket [StartListener None; SendConnect] rest [])
    end.

(** [None] while the negotiation still waits or the tunnel is up. *)
Definition runConnectionAttempt (flags : cliFlags) (session : sessionResult) (e : attempt_env)
  : option attempt_outcome :=
  match a_keys e with
  | Some err => Some (failed_with session err)
  | None =>
  match a_ice e with
  | Some err => Some (failed_with session err)
  | None =>
  match a_sockets e with
  | Err err => Some (failed_with session err)
  | Ok sockets =>
      rest ← (match validateLocalCandidates (a_local e) (family flags) with
              | Err message => Some (failed_with session (Failed message))
              | Ok _ =>
                  match (if forceTurn flags then a_turn_ready e else None) with
                  | Some err => Some (failed_with session err)
                  | None => connect_and_negotiate flags session e sockets
                  end
              end);
      Some (bracket [OpenSockets] rest [CloseSockets])
  end end end.

(** ** runClient

    One turn of the loop: the context's error before it, the attempt, and the
    context's error when it ends the wait. *)
Record client_turn := { ct_ctx : option client_err; ct_env : attempt_env; ct_wait : option client_err }.

Definition maxReconnectBackoff : Z := 30 * Second.

Inductive client_action : Type :=
| Did (act : attempt_action)
| Waited (backoff : Z).

(** The actions, and what the function returns; [None] when more turns are to
    come or an attempt still waits. *)
Fixpoint client_loop (flags : cliFlags) (session : sessionResult) (reconnectBackoff : Z) (turns : list client_turn)
  : list client_action * option (option client_err) :=
  match turns with
  | [] => ([], None)
  | tr :: turns' =>
      match ct_ctx tr with
      | Some err => ([], Some (Some err))
      | None =>
          match runConnectionAttempt flags session (ct_env tr) with
          | None => ([], None)
          | Some (acts, session, result, err) =>
              let acts := Did <$> acts in
              if printedConfig result then (acts, Some None)
              else if is_canceled err then (acts, Some err)
              else if negb (tunnelStarted result) then (acts, Some err)
              else
                let backoff := if 5 * Minute <=? tunnelDuration result then 2 * Second else reconnectBackoff in
                match ct_wait tr with
                | Some err => (acts ++ [Waited backoff], Some (Some err))
                | None =>
                    let doubled := backoff *i 2 in
                    let next := if maxReconnectBackoff <? doubled then maxReconnectBackoff else doubled in
                    let '(rest, r) := client_loop flags session next turns' in
                    (acts ++ Waited backoff :: rest, r)
                end
          end
      end
  end.

Definition runClient (flags : cliFlags) (session : result client_err sessionResult) (turns : list client_turn)
  : list client_action * option (option client_err) :=
  match session with
  | Err err => ([], Some (Some err))
  | Ok session => client_loop flags session (2 * Second) turns
  end.

(** ** The protocol of an attempt

    What must hold when an action is done: the sockets are open for everything,
    the listener is the only reader while it runs, so it is stopped before the
    tunnel takes the sockets over and before they are closed; it starts before
    CONNECT, or in TURN-only mode after it and restricted. *)

Record phase := { is_open : bool; is_listening : bool; is_connected : bool }.

Definition idle : phase := {| is_open := false; is_listening := false; is_connected := false |}.

Definition legal (turn : bool) (ph : phase) (act : attempt_action) : option phase :=
  match act with
  | OpenSockets =>
      if is_open ph then None else Some {| is_open := true; is_listening := false; is_connected := false |}
  | CloseSockets => if is_open ph && negb (is_listening ph) then Some idle else None
  | StartListener restricted =>
      if is_open ph && negb (is_listening ph) && Bool.eqb (is_connected ph) turn
         && Bool.eqb turn (bool_decide (is_Some restricted))
      then Some {| is_open := true; is_listening := true; is_connected := is_connected ph |} else None
  | StopListener =>
      if is_listening ph then Some {| is_open := is_open ph; is_listening := false; is_connected := is_connected ph |}
      else None
  | SendConnect =>
      if is_open ph && negb (is_connected ph) && Bool.eqb (is_listening ph) (negb turn)
      then Some {| is_open := true; is_listening := is_listening ph; is_connected := true |} else None
  | DeleteAccess _ | PrintConfig _ | RunTunnel _ _ =>
      if is_open ph && is_connected ph && negb (is_listening ph) then Some ph else None
  end.

Fixpoint follow (turn : bool) (ph : phase) (acts : list attempt_action) : option phase :=
  match acts with
  | [] => Some ph
  | act :: rest => ph' ← legal turn ph act; follow turn ph' rest
  end.

Lemma follow_app turn ph a1 a2 : follow turn ph (a1 ++ a2) = follow turn ph a1 ≫= fun ph' => follow turn ph' a2.
Proof.
  revert ph. induction a1 as [|act a1 IH]; intros ph; [done|]. cbn [follow app].
  destruct (legal turn ph act); [apply IH|done].
Qed.

(** What the result says of the actions. *)
Definition reported (acts : list attempt_action) (r : connectionAttemptResult) (err : option client_err) : Prop :=
  (tunnelStarted r = true <-> exists ep q, RunTunnel ep q ∈ acts)
  /\ (printedConfig r = true <-> exists ep, PrintConfig ep ∈ acts)
  /\ (err = None -> tunnelStarted r = true \/ printedConfig r = true)
  /\ (printedConfig r = true -> err = None /\ tunnelStarted r = false).

Definition marks (act : attempt_action) : bool :=
  match act with RunTunnel _ _ | PrintConfig _ => true | _ => false end.

(** Other actions around the rest do not change what the result says. *)
Lemma reported_bracket pre rest post :
  Forall (fun a => marks a = false) (pre ++ post) ->
  reported rest.1.1.1 rest.1.2 rest.2 ->
  reported (bracket pre rest post).1.1.1 (bracket pre rest post).1.2 (bracket pre rest post).2.
Proof.
  destruct rest as [[[acts s] r] err]. cbn. intros Hm. apply Forall_app in Hm as [Hpre Hpost].
  rewrite Forall_forall in Hpre, Hpost.
  assert (forall a, marks a = true -> a ∈ pre ++ acts ++ post <-> a ∈ acts) as Hin.
  { intros a Ha. rewrite !elem_of_app. split; [|by auto].
    intros [Hx|[Hx|Hx]]; [|done|]; [apply Hpre in Hx|apply Hpost in Hx]; congruence. }
  unfold reported. intros (H1 & H2 & H3). split_and!; [| |apply H3..].
  - rewrite H1. split; intros (ep & q & Hx); exists ep, q; by apply Hin.
  - rewrite H2. split; intros (ep & Hx); exists ep; by apply Hin.
Qed.

Lemma reported_failed err : reported [] no_tunnel (Some err).
Proof.
  unfold reported. cbn. split_and!; [..|done|done].
  - split; [done|]. by intros (ep & q & ?%not_elem_of_nil).
  - split; [done|]. by intros (ep & ?%not_elem_of_nil).
Qed.

(** An outcome that takes the sockets from one phase to another. *)
Definition moves (turn : bool) (from to : phase) (o : attempt_outcome) : Prop :=
  follow turn from o.1.1.1 = Some to /\ reported o.1.1.1 o.1.2 o.2.

Lemma moves_bracket turn p0 p1 p2 p3 pre rest post :
  Forall (fun a => marks a = false) (pre ++ post) ->
  follow turn p0 pre = Some p1 -> moves turn p1 p2 rest -> follow turn p2 post = Some p3 ->
  moves turn p0 p3 (bracket pre rest post).
Proof.
  intros Hm H1 [H2 Hr] H3. split; [|by apply reported_bracket].
  destruct rest as [[[acts s] r] err]. cbn in *.
  rewrite !follow_app, H1. cbn. rewrite follow_app, H2. cbn. exact H3.
Qed.

Lemma moves_failed turn ph session err : moves turn ph ph (failed_with session err).
Proof. split; [done|apply reported_failed]. Qed.

Definition quiet_phase (connected : bool) : phase :=
  {| is_open := true; is_listening := false; is_connected := connected |}.
Definition listening_phase (connected : bool) : phase :=
  {| is_open := true; is_listening := true; is_connected := connected |}.

Lemma use_endpoint_moves turn flags session e n ended :
  moves turn (quiet_phase true) (quiet_phase true) (use_endpoint flags session e n ended).
Proof.
  assert (forall dels x, (dels = [] \/ exists id, dels = [DeleteAccess id]) -> marks x = true ->
    follow turn (quiet_phase true) (dels ++ [x]) = Some (quiet_phase true)) as Hf.
  { intros dels x Hd Hx. destruct x; try done; destruct Hd as [-> |(id & ->)]; done. }
  assert (forall dels x y, (dels = [] \/ exists id, dels = [DeleteAccess id]) -> marks y = true ->
    y ∈ dels ++ [x] <-> y = x) as Hin.
  { intros dels x y Hd Hy. rewrite elem_of_app, list_elem_of_singleton. split; [|by right].
    intros [Hx|?]; [|done]. destruct Hd as [-> |(id & ->)]; [by apply not_elem_of_nil in Hx|].
    apply list_elem_of_singleton in Hx as ->. done. }
  unfold use_endpoint. set (p := match Access session with Some id => _ | None => _ end).
  assert (p.1 = [] \/ exists id, p.1 = [DeleteAccess id]) as Hp by (unfold p; destruct (Access session); eauto).
  destruct p as [dels session']. cbn in Hp.
  destruct (printConfig flags); (split; [by apply Hf|]); unfold reported; cbn; split_and!; try done; try (by auto).
  - split; [done|]. intros (ep & q & Hx). by apply Hin in Hx.
  - split; [|done]. intros _. exists (n_endpoint n). by apply Hin.
  - split; [|done]. intros _. exists (n_endpoint n), (n_queue n). by apply Hin.
  - split; [done|]. intros (ep & Hx). by apply Hin in Hx.
Qed.

Lemma negotiate_moves turn flags session e sockets advertised o :
  negotiate_and_use flags session e sockets advertised = Some o ->
  moves turn (listening_phase true) (quiet_phase true) o.
Proof.
  unfold negotiate_and_use. intros ([n|err] & _ & Ho)%bind_Some; [apply bind_Some in Ho as (ended & _ & Ho)|];
    apply (inj Some) in Ho as <-.
  - apply (moves_bracket turn _ (quiet_phase true) (quiet_phase true)); [by repeat constructor|done|apply use_endpoint_moves|done].
  - apply (moves_bracket turn _ (listening_phase true) (listening_phase true)); [by repeat constructor|done|apply moves_failed|done].
Qed.

Lemma connect_moves flags session e sockets o :
  connect_and_negotiate flags session e sockets = Some o ->
  moves (forceTurn flags) (quiet_phase false) (quiet_phase true) o.
Proof.
  unfold connect_and_negotiate. destruct (forceTurn flags).
  - destruct (a_connect e) as [advertised|err].
    2:{ intros <-%(inj Some). apply (moves_bracket _ _ (quiet_phase true) (quiet_phase true));
          [by repeat constructor|done|apply moves_failed|done]. }
    destruct (compatibleCandidates _ _ _) as [|c relays].
    { intros <-%(inj Some). apply (moves_bracket _ _ (quiet_phase true) (quiet_phase true));
        [by repeat constructor|done|apply moves_failed|done]. }
    intros (rest & Hrest & Ho)%bind_Some. apply (inj Some) in Ho as <-.
    apply (moves_bracket _ _ (listening_phase true) (quiet_phase true));
      [by repeat constructor|done|by eapply negotiate_moves|done].
  - destruct (a_connect e) as [advertised|err].
    2:{ intros <-%(inj Some). apply (moves_bracket _ _ (listening_phase true) (listening_phase true));
          [by repeat constructor|done|apply moves_failed|done]. }
    intros (rest & Hrest & Ho)%bind_Some. apply (inj Some) in Ho as <-.
    apply (moves_bracket _ _ (listening_phase true) (quiet_phase true));
      [by repeat constructor|done|by eapply negotiate_moves|done].
Qed.

(** What an action between the opening and the closing of the sockets shows of
    the calls before it. *)
Definition chosen (flags : cliFlags) (e : attempt_env) (n : negotiated) : Prop :=
  exists sockets advertised, a_sockets e = Ok sockets /\ a_connect e = Ok advertised
    /\ negotiateEndpoint (endpointOverride flags) (forceTurn flags) (Some sockets) advertised (a_local e)
         (a_nomination e) (a_resolve e) = Some (Ok n).

Definition justified (flags : cliFlags) (e : attempt_env) (a : attempt_action) : Prop :=
  match a with
  | OpenSockets | CloseSockets => False
  | SendConnect => a_keys e = None /\ a_ice e = None /\ a_local e <> [] /\ (forceTurn flags = true -> a_turn_ready e = None)
  | StartListener allowed =>
      allowed = None /\ forceTurn flags = false
      \/ exists sockets advertised, a_sockets e = Ok sockets /\ a_connect e = Ok advertised
          /\ allowed = Some (list_to_set (Addr <$> compatibleCandidates (Some sockets)
                               (candidatesOfType advertised "turn") (a_local e)))
  | StopListener | DeleteAccess _ => True
  | PrintConfig ep => exists n, chosen flags e n /\ ep = n_endpoint n
  | RunTunnel ep q => exists n, chosen flags e n /\ ep = n_endpoint n /\ q = n_queue n /\ is_Some (a_tunnel e ep q)
  end.

(** Splits a [Forall] of a concrete list. *)
Ltac each := repeat match goal with |- Forall _ _ => constructor end.

Lemma justified_bracket flags e pre o post :
  Forall (justified flags e) pre -> Forall (justified flags e) post -> Forall (justified flags e) o.1.1.1 ->
  Forall (justified flags e) (bracket pre o post).1.1.1.
Proof. destruct o as [[[acts s] r] err]. cbn. intros. by rewrite !Forall_app. Qed.

Lemma use_endpoint_justified flags session e n ended :
  chosen flags e n -> (printConfig flags = false -> a_tunnel e (n_endpoint n) (n_queue n) = Some ended) ->
  Forall (justified flags e) (use_endpoint flags session e n ended).1.1.1.
Proof.
  intros Hn Ht. unfold use_endpoint. destruct (Access session), (printConfig flags); cbn;
    each; try done; exists n; split_and!; try done; by rewrite Ht.
Qed.

Lemma negotiate_justified flags session e sockets advertised o :
  a_sockets e = Ok sockets -> a_connect e = Ok advertised ->
  negotiate_and_use flags session e sockets advertised = Some o -> Forall (justified flags e) o.1.1.1.
Proof.
  intros Hs Hc. unfold negotiate_and_use. intros ([n|err] & Hn & Ho)%bind_Some.
  - apply bind_Some in Ho as (ended & Ht & Ho). apply (inj Some) in Ho as <-.
    apply justified_bracket; [by each|constructor|]. apply use_endpoint_justified.
    + by exists sockets, advertised.
    + intros Hp. by rewrite Hp in Ht.
  - apply (inj Some) in Ho as <-. by apply justified_bracket; each.
Qed.

Lemma connect_justified flags session e sockets o :
  a_sockets e = Ok sockets -> justified flags e SendConnect ->
  connect_and_negotiate flags session e sockets = Some o -> Forall (justified flags e) o.1.1.1.
Proof.
  intros Hs Hsend. unfold connect_and_negotiate. destruct (forceTurn flags) eqn:Hf, (a_connect e) as [advertised|er] eqn:Hc.
  - destruct (compatibleCandidates _ _ _) as [|c relays] eqn:Er; [intros <-%(inj Some); by apply justified_bracket; each|].
    intros (rest & Hr & Ho)%bind_Some. apply (inj Some) in Ho as <-.
    apply justified_bracket; [|constructor|by eapply negotiate_justified].
    each; [done|]. right. exists sockets, advertised. by rewrite Er.
  - intros <-%(inj Some). by apply justified_bracket; each.
  - intros (rest & Hr & Ho)%bind_Some. apply (inj Some) in Ho as <-.
    apply justified_bracket; [|constructor|by eapply negotiate_justified].
    each; [by left|done].
  - intros <-%(inj Some). apply justified_bracket; each; [by left|done..].
Qed.

(** An attempt fails at once, or has the sockets open around the rest. *)
Lemma attempt_shape flags session e o :
  runConnectionAttempt flags session e = Some o ->
  (exists er, o = failed_with session er)
    /\ (a_keys e = None -> a_ice e = None -> is_ok (a_sockets e) = false)
  \/ exists rest connected, o = bracket [OpenSockets] rest [CloseSockets]
       /\ moves (forceTurn flags) (quiet_phase false) (quiet_phase connected) rest
       /\ Forall (justified flags e) rest.1.1.1
       /\ a_keys e = None /\ a_ice e = None /\ is_ok (a_sockets e) = true.
Proof.
  unfold runConnectionAttempt.
  destruct (a_keys e) eqn:Hk; [intros <-%(inj Some); left; split; [by eexists|done]|].
  destruct (a_ice e) eqn:Hi; [intros <-%(inj Some); left; split; [by eexists|done]|].
  destruct (a_sockets e) as [sockets|er] eqn:Hs; [|intros <-%(inj Some); left; split; [by eexists|done]].
  intros (rest & Hrest & Heq)%bind_Some. apply (inj Some) in Heq as <-. right. exists rest.
  destruct (validateLocalCandidates (a_local e) (family flags)) eqn:Hl;
    [|exists false; apply (inj Some) in Hrest as <-; split_and!; try done; apply moves_failed].
  destruct (if forceTurn flags then a_turn_ready e else None) eqn:Ht;
    [exists false; apply (inj Some) in Hrest as <-; split_and!; try done; apply moves_failed|].
  exists true. split_and!; try done; [by eapply connect_moves|].
  eapply connect_justified; [done| |done]. split_and!; [done..|intros E; by rewrite E in Hl|]. intros Hf. by rewrite Hf in Ht.
Qed.

Lemma attempt_moves flags session e o :
  runConnectionAttempt flags session e = Some o -> moves (forceTurn flags) idle idle o.
Proof.
  intros [[(er & ->) _]|(rest & connected & -> & Hm & _)]%attempt_shape; [apply moves_failed|].
  by apply (moves_bracket _ _ (quiet_phase false) (quiet_phase connected)); [repeat constructor|..].
Qed.

(** [C11] An attempt keeps its resources in order on every path, errors included.
    It opens the sockets once and closes them last; the listener reads only
    while they are open and is stopped before the tunnel or the end; it starts
    before CONNECT, and in TURN-only mode after it and with a restriction. Its
    result reports the tunnel exactly when it ran, and the printed configuration
    exactly when it was printed, and is an error in every other case. *)
Theorem attempt_protocol (flags : cliFlags) (session session' : sessionResult) (e : attempt_env)
    (acts : list attempt_action) (r : connectionAttemptResult) (err : option client_err) :
  runConnectionAttempt flags session e = Some (acts, session', r, err) ->
  (acts = [] \/ exists mid, acts = [OpenSockets] ++ mid ++ [CloseSockets])
  /\ follow (forceTurn flags) idle acts = Some idle
  /\ reported acts r err.
Proof.
  intros Ha. split.
  - apply attempt_shape in Ha as [[(er & Ha) _]|([[[mid s1] r1] err1] & connected & Ha & _)]; injection Ha as -> -> -> ->;
      [by left|right; by exists mid].
  - by apply attempt_moves in Ha as [? ?].
Qed.

(** ** The loop *)

Definition waits (acts : list client_action) : list Z :=
  omap (fun a => match a with Waited b => Some b | Did _ => None end) acts.

Definition deletes (acts : list client_action) : list string :=
  omap (fun a => match a with Did (DeleteAccess id) => Some id | _ => None end) acts.

(** The tunnels since the last one of five minutes or more, or, counting from
    zero, since the first; newest first. *)
Fixpoint streak (rev_durations : list Z) : nat :=
  match rev_durations with
  | [] => O
  | d :: rest => if 5 * Minute <=? d then O else match rest with [] => O | _ => S (streak rest) end
  end.

(** Two seconds doubled for each, up to thirty. *)
Definition backoff_of (k : nat) : Z := Z.min (30 * Second) (2 * Second * 2 ^ Z.of_nat k).

(** The wait after each tunnel, given what ran before. *)
Fixpoint backoffs (rev_past durations : list Z) : list Z :=
  match durations with
  | [] => []
  | d :: rest => backoff_of (streak (d :: rev_past)) :: backoffs (d :: rev_past) rest
  end.

Lemma backoff_of_bounds k : 2 * Second <= backoff_of k <= 30 * Second.
Proof.
  unfold backoff_of. pose proof (Z.pow_pos_nonneg 2 (Z.of_nat k) ltac:(lia) ltac:(lia)).
  assert (0 < Second) by (unfold Second; lia). nia.
Qed.

(** Doubling up to the cap is the next step. *)
Lemma backoff_of_next k :
  (if maxReconnectBackoff <? backoff_of k *i 2 then maxReconnectBackoff else backoff_of k *i 2) = backoff_of (S k).
Proof.
  pose proof (backoff_of_bounds k) as Hb. pose proof (Z.pow_pos_nonneg 2 (Z.of_nat k) ltac:(lia) ltac:(lia)).
  rewrite wrap64_id by (unfold in_int64, int64_min, int64_max, Second in *; lia).
  unfold maxReconnectBackoff, backoff_of in *. rewrite Nat2Z.inj_succ, Z.pow_succ_r by lia.
  set (P := 2 ^ Z.of_nat k) in *. unfold Second in *. destruct (Z.ltb_spec (30 * 10 ^ 9) (Z.min (30 * 10 ^ 9) (2 * 10 ^ 9 * P) * 2)); lia.
Qed.

Definition step_backoff (rev_past : list Z) : Z :=
  match rev_past with [] => 2 * Second | _ => backoff_of (S (streak rev_past)) end.

Lemma step_backoff_streak d rev_past :
  (if 5 * Minute <=? d then 2 * Second else step_backoff rev_past) = backoff_of (streak (d :: rev_past)).
Proof.
  cbn [streak]. destruct (5 * Minute <=? d); [done|]. by destruct rev_past.
Qed.

(** An attempt is a failure or the use of an endpoint, with other actions around. *)
Definition plain_actions (acts : list attempt_action) : Prop :=
  Forall (fun a => match a with DeleteAccess _ => False | _ => True end) acts.

Definition comes_to (flags : cliFlags) (session : sessionResult) (e : attempt_env) (o : attempt_outcome) : Prop :=
  exists pre o0 post, o = bracket pre o0 post /\ plain_actions pre /\ plain_actions post
    /\ ((exists er, o0 = failed_with session er) \/ exists n ended, o0 = use_endpoint flags session e n ended).

Lemma comes_to_bracket flags session e pre o post :
  plain_actions pre -> plain_actions post -> comes_to flags session e o -> comes_to flags session e (bracket pre o post).
Proof.
  intros Hpre Hpost (p & o0 & q & -> & Hp & Hq & Ho). exists (pre ++ p), o0, (q ++ post). split_and!.
  - destruct o0 as [[[acts s] r] err]. cbn. by rewrite <- !app_assoc.
  - by apply Forall_app.
  - by apply Forall_app.
  - done.
Qed.

Lemma comes_to_failed flags session e er : comes_to flags session e (failed_with session er).
Proof. exists [], (failed_with session er), []. split_and!; [done|constructor|constructor|left; by exists er]. Qed.

Lemma comes_to_use flags session e n ended : comes_to flags session e (use_endpoint flags session e n ended).
Proof.
  exists [], (use_endpoint flags session e n ended), []. split_and!; [|constructor|constructor|right; by exists n, ended].
  destruct (use_endpoint flags session e n ended) as [[[acts s] r] err]. cbn. by rewrite app_nil_r.
Qed.

Ltac comes := first
  [ apply comes_to_bracket; [by repeat constructor|by repeat constructor|comes]
  | apply comes_to_failed | apply comes_to_use | done ].

Lemma attempt_comes_to flags session e o :
  runConnectionAttempt flags session e = Some o -> comes_to flags session e o.
Proof.
  assert (forall sockets advertised o, negotiate_and_use flags session e sockets advertised = Some o ->
    comes_to flags session e o) as Hn.
  { intros sockets advertised o' ([n|er] & _ & Ho)%bind_Some; [apply bind_Some in Ho as (ended & _ & Ho)|];
      apply (inj Some) in Ho as <-; comes. }
  assert (forall sockets o, connect_and_negotiate flags session e sockets = Some o -> comes_to flags session e o) as Hc.
  { intros sockets o'. unfold connect_and_negotiate.
    destruct (forceTurn flags), (a_connect e) as [advertised|er]; try (intros <-%(inj Some); comes).
    - destruct (compatibleCandidates _ _ _); [intros <-%(inj Some); comes|].
      intros (rest & Hr & Ho)%bind_Some. apply (inj Some) in Ho as <-. apply Hn in Hr. comes.
    - intros (rest & Hr & Ho)%bind_Some. apply (inj Some) in Ho as <-. apply Hn in Hr. comes. }
  unfold runConnectionAttempt. destruct (a_keys e); [intros <-%(inj Some); comes|].
  destruct (a_ice e); [intros <-%(inj Some); comes|]. destruct (a_sockets e); [|intros <-%(inj Some); comes].
  intros (rest & Hr & Ho)%bind_Some. apply (inj Some) in Ho as <-.
  assert (comes_to flags session e rest) as Hrest; [|comes].
  destruct (validateLocalCandidates _ _); [|injection Hr as <-; comes].
  destruct (if forceTurn flags then _ else None); [injection Hr as <-; comes|by apply Hc in Hr].
Qed.

(** What the loop uses of an attempt: its duration, and the pairing request it
    deletes. *)
Lemma attempt_facts flags session e acts session' r err :
  runConnectionAttempt flags session e = Some (acts, session', r, err) ->
  (tunnelStarted r = true -> tunnelDuration r = a_duration e)
  /\ ((deletes (Did <$> acts) = [] /\ Access session' = Access session)
      \/ (Access session' = None /\ deletes (Did <$> acts) = option_list (Access session))).
Proof.
  intros (pre & [[[acts0 s0] r0] err0] & post & Heq & Hpre & Hpost & Ho)%attempt_comes_to.
  cbn in Heq. injection Heq as -> -> -> ->.
  assert (forall l, plain_actions l -> deletes (Did <$> l) = []) as Hnone.
  { induction 1 as [|x l Hx Hl IH]; [done|]. rewrite fmap_cons. unfold deletes in *. cbn. by destruct x. }
  assert (deletes (Did <$> pre ++ acts0 ++ post) = deletes (Did <$> acts0)) as ->.
  { unfold deletes in *. rewrite !fmap_app, !omap_app, (Hnone pre), (Hnone post) by done. by rewrite app_nil_r. }
  destruct Ho as [(er & Ho)|(n & ended & Ho)].
  - injection Ho as -> -> -> ->. split; [done|]. by left.
  - unfold use_endpoint in Ho. destruct (Access session) as [id|] eqn:Ea;
      destruct (printConfig flags); injection Ho as -> -> -> ->; (split; [done|]); right; by rewrite ?Ea.
Qed.

(** The waits of a run of the loop. *)
Lemma backoff_waits (flags : cliFlags) (session : sessionResult) (turns : list client_turn) :
  let plan := backoffs [] ((fun tr => a_duration (ct_env tr)) <$> turns) in
  waits (runClient flags (Ok session) turns).1 `prefix_of` plan
  /\ Forall (fun b => 2 * Second <= b <= 30 * Second) plan.
Proof.
  cbn zeta. split.
  2:{ generalize ((fun tr => a_duration (ct_env tr)) <$> turns) as ds. generalize (@nil Z) as past. intros past ds.
      revert past. induction ds; intros past; constructor; [apply backoff_of_bounds|done]. }
  unfold runClient. change (2 * Second) with (step_backoff []). generalize (@nil Z) as past.
  revert session. induction turns as [|tr turns IH]; intros session past; [apply prefix_nil|].
  cbn [client_loop fmap list_fmap backoffs]. destruct (ct_ctx tr); [apply prefix_nil|].
  destruct (runConnectionAttempt flags session (ct_env tr)) as [[[[acts s'] r] err]|] eqn:Ea; [|apply prefix_nil].
  apply attempt_facts in Ea as [Hd _].
  assert (forall l, waits ((Did <$> acts) ++ l) = waits l) as Hw.
  { intros l. unfold waits. rewrite omap_app.
    assert (omap (fun a => match a with Waited b => Some b | Did _ => None end) (Did <$> acts) = []) as ->; [|done].
    induction acts as [|x acts IHa]; [done|]. exact IHa. }
  assert (waits (Did <$> acts) = []) as Hw0 by (specialize (Hw []); by rewrite app_nil_r in Hw).
  destruct (printedConfig r); [cbn [fst]; rewrite Hw0; apply prefix_nil|].
  destruct (is_canceled err); [cbn [fst]; rewrite Hw0; apply prefix_nil|].
  destruct (tunnelStarted r); cbn [negb]; [|cbn [fst]; rewrite Hw0; apply prefix_nil].
  rewrite Hd, step_backoff_streak by done. destruct (ct_wait tr).
  - cbn [fst]. rewrite Hw. change (waits [Waited ?b]) with [b]. apply prefix_cons, prefix_nil.
  - rewrite backoff_of_next. specialize (IH s' (a_duration (ct_env tr) :: past)). cbn [step_backoff] in IH.
    destruct (client_loop _ _ _ turns) as [rest v]. cbn [fst] in *. rewrite Hw. by apply prefix_cons.
Qed.

(** The reconnect backoff. Whatever happens, the waits are, one by one, those
    the durations of the tunnels call for: two seconds after the first tunnel
    and after one of five minutes or more, twice the last wait after any other,
    and never more than thirty seconds. *)
Theorem backoff_spec (flags : cliFlags) (session : sessionResult) (turns : list client_turn) :
  let plan := backoffs [] ((fun tr => a_duration (ct_env tr)) <$> turns) in
  waits (runClient flags (Ok session) turns).1 `prefix_of` plan
  /\ Forall (fun b => 2 * Second <= b <= 30 * Second) plan.
Proof. apply backoff_waits. Qed.

Lemma loop_waits flags session turns :
  Forall (fun b => 2 * Second <= b <= 30 * Second) (waits (runClient flags (Ok session) turns).1).
Proof. destruct (backoff_waits flags session turns) as [[k Hk] Hb]. rewrite Hk in Hb. by apply Forall_app in Hb as [Hb _]. Qed.

(** The pairing request is cleaned up at most once in the life of the client,
    whatever the attempts come to, and no other request is ever deleted. *)
Theorem access_deleted_once (flags : cliFlags) (session : sessionResult) (turns : list client_turn) :
  deletes (runClient flags (Ok session) turns).1 `prefix_of` option_list (Access session).
Proof.
  unfold runClient. generalize (2 * Second) as b. revert session.
  induction turns as [|tr turns IH]; intros session b; [apply prefix_nil|].
  cbn [client_loop]. destruct (ct_ctx tr); [apply prefix_nil|].
  destruct (runConnectionAttempt flags session (ct_env tr)) as [[[[acts s'] r] err]|] eqn:Ea; [|apply prefix_nil].
  apply attempt_facts in Ea as [_ Ha].
  assert (deletes (Did <$> acts) `prefix_of` option_list (Access session)) as Hp
    by (destruct Ha as [[-> _]|[_ ->]]; [apply prefix_nil|done]).
  assert (forall w rest, deletes rest `prefix_of` option_list (Access s') ->
    deletes ((Did <$> acts) ++ Waited w :: rest) `prefix_of` option_list (Access session)) as Hrest.
  { intros w rest Hr. unfold deletes in *. rewrite omap_app. cbn [omap list_omap].
    destruct Ha as [[Hd He]|[He Hd]]; rewrite Hd, He in *; [done|].
    apply prefix_nil_inv in Hr. rewrite Hr. by rewrite app_nil_r. }
  destruct (printedConfig r); [done|]. destruct (is_canceled err); [done|]. destruct (negb (tunnelStarted r)); [done|].
  cbv zeta. destruct (ct_wait tr); [by apply Hrest, prefix_nil|].
  match goal with |- context [client_loop flags s' ?b' turns] => specialize (IH s' b') end.
  destruct (client_loop _ _ _ turns) as [rest v]. by apply Hrest.
Qed.

(** How the client can end at one of its turns with the value [v]. *)
Definition ends_with (flags : cliFlags) (tr : client_turn) (v : option client_err) : Prop :=
  (exists er, v = Some er /\ (ct_ctx tr = v \/ ct_wait tr = v))
  \/ exists session acts session' r err,
       runConnectionAttempt flags session (ct_env tr) = Some (acts, session', r, err)
       /\ ((printedConfig r = true /\ v = None)
           \/ v = err /\ err <> None /\ (is_canceled err = true \/ tunnelStarted r = false)).

(** A tunnel that goes down does not end the client. It ends without an
    error only once the configuration is printed, and with an error only from its
    context, from an attempt that was cancelled, or from one that failed before
    its tunnel was brought up. *)
Theorem client_ends (flags : cliFlags) (session : sessionResult) (turns : list client_turn) (v : option client_err) :
  (runClient flags (Ok session) turns).2 = Some v -> exists tr, tr ∈ turns /\ ends_with flags tr v.
Proof.
  unfold runClient. generalize (2 * Second) as b. revert session.
  induction turns as [|tr turns IH]; intros session b; [done|]. cbn [client_loop].
  destruct (ct_ctx tr) eqn:Ec.
  { intros [= <-]. exists tr. split; [by left|]. left. eexists. by split; [|left]. }
  destruct (runConnectionAttempt flags session (ct_env tr)) as [[[[acts s'] r] err]|] eqn:Ea; [|done].
  destruct (printedConfig r) eqn:Ep.
  { intros [= <-]. exists tr. split; [by left|]. right. eexists _, _, _, _, _. split; [done|]. by left. }
  destruct (attempt_moves _ _ _ _ Ea) as [_ (_ & _ & Hr & _)]. cbn in Hr.
  assert (tunnelStarted r = false -> err <> None) as Hne.
  { intros Ht He. destruct (Hr He); congruence. }
  destruct (is_canceled err) eqn:Ei.
  { intros [= <-]. exists tr. split; [by left|]. right. eexists _, _, _, _, _. split; [done|]. right.
    split_and!; [done|by destruct err|by left]. }
  destruct (tunnelStarted r) eqn:Et; cbn [negb].
  2:{ intros [= <-]. exists tr. split; [by left|]. right. eexists _, _, _, _, _. split; [done|]. right.
      split_and!; [done|by apply Hne|by right]. }
  cbv zeta. destruct (ct_wait tr) eqn:Ew.
  { intros [= <-]. exists tr. split; [by left|]. left. eexists. by split; [|right]. }
  match goal with |- context [client_loop flags s' ?b' turns] => specialize (IH s' b') end.
  destruct (client_loop _ _ _ turns) as [rest w]. intros Hw. destruct (IH Hw) as (tr' & Hin & He).
  exists tr'. split; [by right|done].
Qed.

(** Pairing. Without an invite the session file is read and nothing is sent.
    With one, a session is granted only with a token and with the pairing request
    to clean up, and the file is written exactly when one is named and the
    session was granted, with that session's credentials. *)
Theorem establishSession_spec (flags : cliFlags) (e : pairing_env) :
  let '(acts, res) := establishSession flags e in
  (invite flags = EmptyString -> acts = [LoadSession])
  /\ (forall token secret, SaveSession token secret ∈ acts <->
       invite flags <> EmptyString /\ sessionFile flags <> EmptyString
       /\ exists s, res = Ok s /\ Token s = token /\ Secret s = secret)
  /\ (invite flags <> EmptyString -> forall s, res = Ok s -> Token s <> EmptyString /\ is_Some (Access s)).
Proof.
  assert (forall (acts : list pairing_action) (er : client_err) (P : Prop), (forall t s, SaveSession t s ∉ acts) ->
    (forall t s, SaveSession t s ∈ acts <->
      P /\ sessionFile flags <> EmptyString /\ exists x : sessionResult, Err er = Ok x /\ Token x = t /\ Secret x = s)) as Herr.
  { intros acts er P Ha t s. split; [by intros ?%Ha|by intros (_ & _ & x & ? & _)]. }
  unfold establishSession. case_bool_decide as Hi.
  { split; [done|]. split; [|done]. intros t s. split; [|by intros []].
    by intros ?%list_elem_of_singleton. }
  destruct (pe_access e) as [id|er].
  2:{ split; [done|]. split; [|done]. apply Herr. by intros t s ?%list_elem_of_singleton. }
  assert (forall t s, SaveSession t s ∉ [RequestAccess; PollAccess id]) as Hno.
  { intros t s [?|[?|[]%not_elem_of_nil]%elem_of_cons]%elem_of_cons; done. }
  destruct (pe_poll e) as [poll|er]; [|split; [done|]; split; [by apply Herr|done]].
  destruct (default (EmptyString, EmptyString) poll) as [token secret].
  case_bool_decide as Ht; [split; [done|]; split; [by apply Herr|done]|].
  destruct (pe_ctx e); [split; [done|]; split; [by apply Herr|done]|].
  split; [done|]. split; [|intros _ s [= <-]; cbn; by split; [|eexists]].
  intros t s. rewrite elem_of_app. case_bool_decide as Hf.
  - split; [|by intros (_ & ? & _)]. intros [?%Hno|?%not_elem_of_nil]; done.
  - rewrite list_elem_of_singleton. split.
    + intros [?%Hno|[= -> ->]]; [done|]. split_and!; [done|done|]. by eexists.
    + intros (_ & _ & x & [= <-] & <- & <-). by right.
Qed.

(** *** Concrete runs *)

Definition toy_flags : cliFlags :=
  {| invite := EmptyString; endpointOverride := "203.0.113.5:5000"; forceTurn := false; printConfig := false;
     family := familyDual; sessionFile := EmptyString |}.

Definition toy_session : sessionResult :=
  {| Token := "t"; Secret := "s"; DeviceToken := "d"; Access := Some "req-1"%string |}.

Definition toy_attempt (d : Z) (ended : option client_err) : attempt_env :=
  {| a_keys := None; a_ice := None; a_sockets := Ok {| V4 := Some 3; V6 := None |}; a_local := toy_local;
     a_turn_ready := None; a_secret := "s"; a_connect := Ok toy_advertised; a_nomination := newNominationTracker;
     a_resolve := toy_env toy_listener; a_tunnel := fun _ _ => Some ended; a_duration := d |}.

Definition toy_turn (d : Z) (ended : option client_err) : client_turn :=
  {| ct_ctx := None; ct_env := toy_attempt d ended; ct_wait := None |}.

Lemma attempt_protocol_witness :
  exists acts, runConnectionAttempt toy_flags toy_session (toy_attempt Minute (Some (Failed "lost")))
    = Some (acts, {| Token := "t"; Secret := "s"; DeviceToken := "d"; Access := None |},
            {| printedConfig := false; tunnelStarted := true; tunnelDuration := Minute |}, Some (Failed "lost"))
  /\ follow false idle acts = Some idle.
Proof.
  eexists. split; [by vm_compute|].
  refine (proj1 (proj2 (attempt_protocol toy_flags toy_session
    {| Token := "t"; Secret := "s"; DeviceToken := "d"; Access := None |} (toy_attempt Minute (Some (Failed "lost"))) _
    {| printedConfig := false; tunnelStarted := true; tunnelDuration := Minute |} (Some (Failed "lost")) _))).
  by vm_compute.
Defined.

(** Three tunnels; the second lasts ten minutes; the third ends by a cancel. *)
Definition toy_turns : list client_turn :=
  [toy_turn Minute (Some (Failed "lost")); toy_turn (10 * Minute) (Some (Failed "lost"));
   toy_turn Minute (Some (Failed "lost")); toy_turn Minute (Some Canceled)].

Lemma client_ends_witness :
  waits (runClient toy_flags (Ok toy_session) toy_turns).1 = [2 * Second; 2 * Second; 4 * Second]
  /\ exists tr, tr ∈ toy_turns /\ ends_with toy_flags tr (Some Canceled).
Proof.
  split; [by vm_compute|]. apply (client_ends toy_flags toy_session toy_turns). by vm_compute.
Defined.
End Client.
