(* ===== verification/Endpoints.v ===== *)
(** WireGuard endpoint supervision ([tunnel.go]): reading the peer's statistics
    and their progress, the order for a recovery, and the retry of queued
    candidates while the first handshake is missing. *)

From S2P Require Import Prelude Lists GoStrings GoTime Candidates.
From Stdlib Require Import Ascii.
Open Scope Z_scope.

Import Candidates.

Module Stats.

Record wireGuardPeerStats := {
  endpoint : string;
  lastHandshake : time;
  rxBytes : Z;
  valid : bool;
}.

Definition no_stats : wireGuardPeerStats :=
  {| endpoint := EmptyString; lastHandshake := time_zero; rxBytes := 0; valid := false |}.

Definition wireGuardRecentHandshakeWindow : Z := 3 * Minute.

Definition stats_line (st : wireGuardPeerStats) (line : string) : wireGuardPeerStats :=
  match cut_byte "=" line with
  | None => st
  | Some (key, value) =>
      if bool_decide (key = "endpoint"%string) then
        {| endpoint := value; lastHandshake := lastHandshake st; rxBytes := rxBytes st; valid := valid st |}
      else if bool_decide (key = "last_handshake_time_sec"%string) then
        match atoi value with
        | Some seconds =>
            if 0 <? seconds then
              {| endpoint := endpoint st; lastHandshake := time_unix seconds;
                 rxBytes := rxBytes st; valid := valid st |}
            else st
        | None => st
        end
      else if bool_decide (key = "rx_bytes"%string) then
        match parse_uint 64 value with
        | Some bytes =>
            {| endpoint := endpoint st; lastHandshake := lastHandshake st; rxBytes := bytes; valid := valid st |}
        | None => st
        end
      else st
  end.

Definition parseWireGuardPeerStats (ipcData : string) : wireGuardPeerStats :=
  let st := foldl stats_line no_stats (split_byte (of_byte 10) ipcData) in
  {| endpoint := endpoint st; lastHandshake := lastHandshake st; rxBytes := rxBytes st;
     valid := negb (bool_decide (endpoint st = EmptyString))
              || negb (is_zero (lastHandshake st)) || negb (rxBytes st =? 0) |}.

(** [ipc] is what [IpcGet] returned, [None] for an error or no device. *)
Definition readWireGuardPeerStats (ipc : option string) : wireGuardPeerStats :=
  match ipc with Some d => parseWireGuardPeerStats d | None => no_stats end.

Definition wireGuardPathActiveSince (baseline current : wireGuardPeerStats) (now : time) : bool :=
  if negb (valid current) then false
  else if valid baseline then
    (rxBytes baseline <? rxBytes current) || after (lastHandshake current) (lastHandshake baseline)
  else negb (is_zero (lastHandshake current))
       && (time_sub now (lastHandshake current) <=? wireGuardRecentHandshakeWindow).

(** A line that reports a handshake. *)
Definition handshake_line (line : string) : Prop :=
  exists v s, cut_byte "=" line = Some ("last_handshake_time_sec"%string, v)
    /\ atoi v = Some s /\ 0 < s.

Lemma stats_line_handshake st line :
  is_zero (lastHandshake (stats_line st line)) = false <->
  is_zero (lastHandshake st) = false \/ handshake_line line.
Proof.
  unfold stats_line, handshake_line. destruct (cut_byte "=" line) as [[key value]|] eqn:Ec.
  2:{ split; [by left|]. by intros [?|(v & s & [=] & _)]. }
  assert (key <> "last_handshake_time_sec"%string ->
    (is_zero (lastHandshake st) = false <-> is_zero (lastHandshake st) = false \/ exists v s,
       Some (key, value) = Some ("last_handshake_time_sec"%string, v) /\ atoi v = Some s /\ 0 < s)) as Hother.
  { intros Hk. split; [by left|]. by intros [?|(v & s & [= -> _] & _)]. }
  case_bool_decide as H1; [subst key; apply Hother; done|]. case_bool_decide as H2.
  2:{ case_bool_decide; [destruct (parse_uint 64 value)|]; by apply Hother. }
  subst key. clear Hother. destruct (atoi value) as [n|] eqn:Ea.
  2:{ split; [by left|]. intros [?|(v & s & [= <-] & Hs & _)]; [done|congruence]. }
  destruct (Z.ltb_spec 0 n); cbn [lastHandshake].
  - rewrite time_unix_not_zero by (done || by eapply atoi_bounds).
    split; [|done]. intros _. right. by exists value, n.
  - split; [by left|]. intros [?|(v & s & [= <-] & Hs & ?)]; [done|].
    rewrite Ea in Hs. injection Hs as <-. lia.
Qed.

Lemma stats_lines_handshake st lines :
  is_zero (lastHandshake (foldl stats_line st lines)) = false <->
  is_zero (lastHandshake st) = false \/ exists line, line ∈ lines /\ handshake_line line.
Proof.
  revert st. induction lines as [|l lines IH]; intros st; cbn [foldl].
  { split; [by left|]. intros [?|(l & Hl & _)]; [done|]. by apply not_elem_of_nil in Hl. }
  rewrite IH, stats_line_handshake. setoid_rewrite elem_of_cons. naive_solver.
Qed.

(** A handshake is seen in the device's report exactly when some line gives
    a positive [last_handshake_time_sec] that fits 64 bits: a zero, negative or
    malformed value, and lines that are no assignments, never count as one. *)
Lemma handshake_seen_iff (ipcData : string) :
  is_zero (lastHandshake (parseWireGuardPeerStats ipcData)) = false <->
  exists line, line ∈ split_byte (of_byte 10) ipcData /\ handshake_line line.
Proof.
  unfold parseWireGuardPeerStats. cbn [lastHandshake]. rewrite stats_lines_handshake.
  split; [by intros [[=]|?]|by right].
Qed.

End Stats.
Import Stats.

Module Endpoints.

(** ** Order and dwell *)

Definition buildEndpointRecoveryOrder (current : string) (known : list string) : list string :=
  (push_all (fun e => bool_decide (e = EmptyString)) (∅, []) (current :: known)).2.

Definition privateCandidateHandshakeTimeout : Z := 3 * Second.
Definition candidateHandshakeTimeout : Z := 6 * Second.
Definition relayCandidateHandshakeTimeout : Z := 25 * Second.
Definition candidateRetryMaxDuration : Z := 60 * Second.
Definition endpointRecoveryInterval : Z := 15 * Second.
Definition endpointRecoveryMaxBackoff : Z := 30 * Second.
Definition endpointRecoveryRounds : nat := 2.

Definition candidateDwell (addr : string) (candidateTypes : gmap string string) : Z :=
  if bool_decide (default EmptyString (candidateTypes !! addr) = "turn"%string)
  then relayCandidateHandshakeTimeout
  else if isPubliclyRoutableCandidateAddr addr then candidateHandshakeTimeout
  else privateCandidateHandshakeTimeout.

(** [rest] is the queue from [start] on. *)
Fixpoint next_from (rest : list string) (start : nat) (current : string) : string * nat * bool :=
  match rest with
  | [] => (EmptyString, start, false)
  | candidate :: rest' =>
      if bool_decide (candidate = EmptyString) || bool_decide (candidate = current)
      then next_from rest' (S start) current
      else (candidate, S start, true)
  end.

Definition nextEndpointCandidate (queue : list string) (start : nat) (current : string)
  : string * nat * bool :=
  next_from (drop start queue) start current.

(** ** Retrying while the first handshake is missing *)

Record retry_state := {
  queueIdx : nat;
  nominationArmed : bool;   (* nominationSelected is not nil *)
  currentEndpoint : string;
  lastSwitchTime : Z;
}.

Inductive wake : Type :=
| CtxDone
| NominationSelected (selected : string)  (* what selectedEndpoint returns *)
| Tick.

(** What one turn of the loop meets: the ready case of the [select], the
    clock at each of its readings (nanoseconds, monotonic), what [IpcGet]
    returned, and whether [IpcSet] accepts the first and the second switch. *)
Record turn := {
  t_wake : wake;
  t_after_nomination : Z;
  t_ipc : option string;
  t_check : Z;
  t_dwell : Z;
  t_after_switch : Z;
  t_nomination_ok : bool;
  t_switch_ok : bool;
}.

Inductive cause : Type := ByNomination | ByTimeout.

Inductive retry_result : Type :=
| Running (st : retry_state)
| Stopped (exhausted : bool).

(** A switch attempt: why, to which endpoint, and whether it was accepted. *)
Definition attempt : Type := cause * string * bool.

(** The first half of a turn: [None] to skip the rest of the body. *)
Definition on_nomination (st : retry_state) (tr : turn) (selected : string)
  : retry_state * option (list attempt) :=
  let st := {| queueIdx := queueIdx st; nominationArmed := false;
               currentEndpoint := currentEndpoint st; lastSwitchTime := lastSwitchTime st |} in
  if bool_decide (selected = EmptyString) || bool_decide (selected = currentEndpoint st)
  then (st, None)
  else if t_nomination_ok tr then
    ({| queueIdx := queueIdx st; nominationArmed := false;
        currentEndpoint := selected; lastSwitchTime := t_after_nomination tr |},
     Some [(ByNomination, selected, true)])
  else (st, Some [(ByNomination, selected, false)]).

(** The second half: statistics, the overall limit, and the dwell. *)
Definition on_check (queue : list string) (types : gmap string string) (devUpTime : Z)
    (st : retry_state) (tr : turn) : retry_result * list attempt :=
  let timed_out := candidateRetryMaxDuration <=? t_check tr - devUpTime in
  match t_ipc tr with
  | None => if timed_out then (Stopped true, []) else (Running st, [])
  | Some data =>
      if negb (is_zero (lastHandshake (parseWireGuardPeerStats data))) then (Stopped false, [])
      else if timed_out then (Stopped true, [])
      else if candidateDwell (currentEndpoint st) types <=? t_dwell tr - lastSwitchTime st then
        let '(next, idx, ok) := nextEndpointCandidate queue (queueIdx st) (currentEndpoint st) in
        let st := {| queueIdx := idx; nominationArmed := nominationArmed st;
                     currentEndpoint := currentEndpoint st; lastSwitchTime := lastSwitchTime st |} in
        if ok then
          if t_switch_ok tr then
            (Running {| queueIdx := idx; nominationArmed := nominationArmed st;
                        currentEndpoint := next; lastSwitchTime := t_after_switch tr |},
             [(ByTimeout, next, true)])
          else (Running st, [(ByTimeout, next, false)])
        else (Stopped true, [])
      else (Running st, [])
  end.

(** One turn; a [NominationSelected] once the channel variable is nil cannot
    happen and is taken for a [Tick]. *)
Definition retry_turn (queue : list string) (types : gmap string string) (devUpTime : Z)
    (st : retry_state) (tr : turn) : retry_result * list attempt :=
  match t_wake tr with
  | CtxDone => (Stopped false, [])
  | NominationSelected selected =>
      if nominationArmed st then
        match on_nomination st tr selected with
        | (st, None) => (Running st, [])
        | (st, Some done) =>
            let '(r, rest) := on_check queue types devUpTime st tr in (r, done ++ rest)
        end
      else on_check queue types devUpTime st tr
  | Tick => on_check queue types devUpTime st tr
  end.

Fixpoint retry_run (queue : list string) (types : gmap string string) (devUpTime : Z)
    (st : retry_state) (trs : list turn) : retry_result * list attempt :=
  match trs with
  | [] => (Running st, [])
  | tr :: trs' =>
      match retry_turn queue types devUpTime st tr with
      | (Stopped e, done) => (Stopped e, done)
      | (Running st', done) =>
          let '(r, rest) := retry_run queue types devUpTime st' trs' in (r, done ++ rest)
      end
  end.

(** [armed] is whether there is a nomination tracker. *)
Definition retryEndpointOnHandshakeTimeout (endpoint : string) (queue : list string)
    (types : gmap string string) (armed : bool) (devUpTime : Z) (trs : list turn)
  : retry_result * list attempt :=
  retry_run queue types devUpTime
    {| queueIdx := 0; nominationArmed := armed; currentEndpoint := endpoint; lastSwitchTime := devUpTime |}
    trs.

(** ** Lemmas *)

(** An entry the retry loop can switch to. *)
Definition usable (current : string) (c : string) : Prop := c <> EmptyString /\ c <> current.

Lemma next_from_spec rest start current :
  match next_from rest start current with
  | (c, n, true) =>
      exists skipped rest', rest = skipped ++ c :: rest' /\ n = (start + S (length skipped))%nat
        /\ usable current c /\ Forall (fun x => ~ usable current x) skipped
  | (c, n, false) =>
      c = EmptyString /\ n = (start + length rest)%nat /\ Forall (fun x => ~ usable current x) rest
  end.
Proof.
  revert start. induction rest as [|x rest IH]; intros start; cbn [next_from]; [simpl; auto|].
  destruct (bool_decide (x = EmptyString) || bool_decide (x = current)) eqn:E.
  - assert (~ usable current x) as Hx.
    { intros [H1 H2]. rewrite !bool_decide_false in E by done. done. }
    specialize (IH (S start)). destruct (next_from rest (S start) current) as [[c n] []].
    + destruct IH as (sk & rest' & -> & -> & Hu & Hs). exists (x :: sk), rest'.
      split_and!; [done|simpl; lia|done|by constructor].
    + destruct IH as (-> & -> & Hs). split_and!; [done|simpl; lia|by constructor].
  - apply orb_false_iff in E as [E1%bool_decide_eq_false E2%bool_decide_eq_false].
    exists [], rest. split_and!; [done|simpl; lia|done|constructor].
Qed.

Definition cause_is_timeout (c : cause) : bool := match c with ByTimeout => true | ByNomination => false end.

(** The endpoints tried for one cause, in order, and the endpoint in use after
    the accepted attempts. *)
Definition tried (c : cause) (trace : list attempt) : list string :=
  omap (fun a : attempt =>
                 match a with
                 | (ByNomination, e, _) => if cause_is_timeout c then None else Some e
                 | (ByTimeout, e, _) => if cause_is_timeout c then Some e else None
                 end) trace.

Definition final_endpoint (cur : string) (trace : list attempt) : string :=
  foldl (fun cur (a : attempt) => if a.2 then a.1.2 else cur) cur trace.

Lemma tried_app c t1 t2 : tried c (t1 ++ t2) = tried c t1 ++ tried c t2.
Proof. apply omap_app. Qed.

Lemma final_endpoint_app cur t1 t2 : final_endpoint cur (t1 ++ t2) = final_endpoint (final_endpoint cur t1) t2.
Proof. apply foldl_app. Qed.

(** What a piece of the loop does to the queue, the nomination channel and the
    endpoint. *)
Definition disciplined (queue : list string) (st : retry_state) (r : retry_result)
    (trace : list attempt) : Prop :=
  match r with
  | Running st' =>
      tried ByTimeout trace ++ drop (queueIdx st') queue `sublist_of` drop (queueIdx st) queue
      /\ (length (tried ByNomination trace) + Nat.b2n (nominationArmed st') <= Nat.b2n (nominationArmed st))%nat
      /\ currentEndpoint st' = final_endpoint (currentEndpoint st) trace
  | Stopped _ =>
      tried ByTimeout trace `sublist_of` drop (queueIdx st) queue
      /\ (length (tried ByNomination trace) <= Nat.b2n (nominationArmed st))%nat
  end.

Lemma disciplined_trans queue st st1 r t1 t2 :
  disciplined queue st (Running st1) t1 -> disciplined queue st1 r t2 ->
  disciplined queue st r (t1 ++ t2).
Proof.
  intros (Hq1 & Hn1 & Hc1) H2. destruct r as [st2|e]; simpl in *.
  - destruct H2 as (Hq2 & Hn2 & Hc2). rewrite !tried_app, length_app, final_endpoint_app. split_and!.
    + etransitivity; [|exact Hq1]. rewrite <- app_assoc. by apply sublist_app.
    + lia.
    + congruence.
  - destruct H2 as (Hq2 & Hn2). rewrite !tried_app, length_app. split.
    + etransitivity; [|exact Hq1]. by apply sublist_app.
    + lia.
Qed.

Lemma on_check_disciplined queue types up st tr :
  disciplined queue st (on_check queue types up st tr).1 (on_check queue types up st tr).2.
Proof.
  assert (forall e, disciplined queue st (Stopped e) []) as Hstop.
  { intros e. split; [apply sublist_nil_l|simpl; lia]. }
  assert (disciplined queue st (Running st) []) as Hrun by (split_and!; simpl; (done || lia)).
  unfold on_check. cbn zeta. destruct (t_ipc tr) as [data|]; destruct (candidateRetryMaxDuration <=? _);
    [case_match; apply Hstop|case_match; [apply Hstop|]|apply Hstop|apply Hrun].
  destruct (candidateDwell _ _ <=? _); [|apply Hrun]. unfold nextEndpointCandidate.
  pose proof (next_from_spec (drop (queueIdx st) queue) (queueIdx st) (currentEndpoint st)) as Hnext.
  destruct (next_from _ _ _) as [[c n] []]; [|apply Hstop].
  destruct Hnext as (sk & rest' & Hd & -> & _).
  assert (c :: drop (queueIdx st + S (length sk)) queue `sublist_of` drop (queueIdx st) queue) as Hsub.
  { replace (queueIdx st + S (length sk))%nat with (queueIdx st + (length sk + 1))%nat by lia.
    rewrite <- drop_drop, Hd, drop_app_add. simpl. rewrite drop_0. by apply sublist_inserts_l. }
  destruct (t_switch_ok tr); split_and!; simpl; (done || lia || exact Hsub).
Qed.

Lemma retry_turn_disciplined queue types up st tr :
  disciplined queue st (retry_turn queue types up st tr).1 (retry_turn queue types up st tr).2.
Proof.
  unfold retry_turn. destruct (t_wake tr) as [|selected|];
    [split; [apply sublist_nil_l|simpl; lia]| |apply on_check_disciplined].
  destruct (nominationArmed st) eqn:Harm; [|apply on_check_disciplined].
  unfold on_nomination. cbn [currentEndpoint].
  destruct (bool_decide _ || bool_decide _).
  { split_and!; simpl; rewrite ?Harm; (done || (simpl; lia)). }
  destruct (t_nomination_ok tr).
  all: match goal with |- context [on_check _ _ _ ?s _] => set (st1 := s) end.
  all: pose proof (on_check_disciplined queue types up st1 tr) as Hc.
  all: destruct (on_check queue types up st1 tr) as [r rest]; cbn [fst snd] in *.
  all: eapply disciplined_trans; [|exact Hc]; split_and!; simpl; rewrite ?Harm; (done || (simpl; lia)).
Qed.

Lemma retry_run_disciplined queue types up st trs :
  disciplined queue st (retry_run queue types up st trs).1 (retry_run queue types up st trs).2.
Proof.
  revert st. induction trs as [|tr trs IH]; intros st; cbn [retry_run].
  { split_and!; simpl; (done || lia). }
  pose proof (retry_turn_disciplined queue types up st tr) as Ht.
  destruct (retry_turn queue types up st tr) as [[st'|e] done']; [|done]. cbn [fst snd] in Ht.
  specialize (IH st'). destruct (retry_run queue types up st' trs) as [r rest].
  by eapply disciplined_trans.
Qed.
(** A turn in which nothing is wrong but the handshake is still missing. *)
Definition silent (tr : turn) : Prop :=
  t_wake tr <> CtxDone
  /\ forall d, t_ipc tr = Some d -> is_zero (lastHandshake (parseWireGuardPeerStats d)) = true.

Lemma on_check_silent queue types up st tr :
  silent tr -> (on_check queue types up st tr).1 <> Stopped false.
Proof.
  intros [_ Hh]. unfold on_check. cbn zeta. destruct (t_ipc tr) as [d|]; [|by case_match].
  rewrite (Hh d eq_refl). cbn [negb]. case_match; [done|]. case_match; [|done].
  destruct (nextEndpointCandidate _ _ _) as [[c n] []]; [|done]. by destruct (t_switch_ok tr).
Qed.

Lemma on_check_deadline queue types up st tr :
  candidateRetryMaxDuration <= t_check tr - up ->
  exists e, on_check queue types up st tr = (Stopped e, []).
Proof.
  intros H%Z.leb_le. unfold on_check. cbn zeta. rewrite H.
  destruct (t_ipc tr); [case_match|]; eauto.
Qed.

Lemma retry_turn_silent queue types up st tr :
  silent tr -> (retry_turn queue types up st tr).1 <> Stopped false.
Proof.
  intros Hs. pose proof (fun st => on_check_silent queue types up st tr Hs) as Hc.
  unfold retry_turn. destruct (t_wake tr) eqn:Ew; [by destruct Hs| |apply Hc].
  destruct (nominationArmed st); [|apply Hc]. destruct (on_nomination st tr selected) as [st1 [l|]]; [|done].
  specialize (Hc st1). by destruct (on_check queue types up st1 tr).
Qed.

Lemma retry_run_silent queue types up st trs :
  Forall silent trs -> (retry_run queue types up st trs).1 <> Stopped false.
Proof.
  intros Hs. revert st. induction Hs as [|tr trs Ht _ IH]; intros st; [done|]. cbn [retry_run].
  pose proof (retry_turn_silent queue types up st tr Ht) as H1.
  destruct (retry_turn queue types up st tr) as [[st'|e] d]; [|done].
  specialize (IH st'). by destruct (retry_run queue types up st' trs).
Qed.

Lemma retry_run_deadline queue types up st pre tr post :
  t_wake tr = Tick -> candidateRetryMaxDuration <= t_check tr - up ->
  exists e, (retry_run queue types up st (pre ++ tr :: post)).1 = Stopped e.
Proof.
  intros Hw Hd. revert st. induction pre as [|tr0 pre IH]; intros st; cbn [app retry_run].
  - destruct (on_check_deadline queue types up st tr Hd) as [e He].
    unfold retry_turn. rewrite Hw, He. by exists e.
  - destruct (retry_turn queue types up st tr0) as [[st'|e] d]; [|by exists e].
    destruct (IH st') as [e He]. exists e. by destruct (retry_run queue types up st' (pre ++ tr :: post)).
Qed.

(** ** Properties *)

(** [nextEndpointCandidate] returns the first entry, from the cursor on,
    that is neither empty nor the endpoint in use, and moves the cursor just
    past it; it fails only when no such entry is left. *)
Lemma nextEndpointCandidate_spec (queue : list string) (start : nat) (current : string) :
  match nextEndpointCandidate queue start current with
  | (c, n, true) =>
      exists skipped rest, drop start queue = skipped ++ c :: rest
        /\ n = (start + S (length skipped))%nat
        /\ usable current c /\ Forall (fun x => ~ usable current x) skipped
  | (c, n, false) => c = EmptyString /\ Forall (fun x => ~ usable current x) (drop start queue)
  end.
Proof.
  unfold nextEndpointCandidate. pose proof (next_from_spec (drop start queue) start current) as H.
  destruct (next_from _ _ _) as [[c n] []]; [done|]. destruct H as (-> & _ & ?). done.
Qed.

(** The recovery order lists the endpoint in use first and then the known
    endpoints in their order, each once, the empty string never. *)
Theorem buildEndpointRecoveryOrder_spec (current : string) (known : list string) :
  let order := buildEndpointRecoveryOrder current known in
  NoDup order
  /\ (forall e, e ∈ order <-> e <> EmptyString /\ (e = current \/ e ∈ known))
  /\ (current <> EmptyString -> head order = Some current)
  /\ order `sublist_of` current :: known.
Proof.
  cbn zeta. unfold buildEndpointRecoveryOrder. rewrite push_all_fresh. cbn [snd app].
  split_and!; auto with teleport.
  - intros e. rewrite elem_of_fresh_of, bool_decide_eq_false, elem_of_cons. set_solver.
  - intros Hne. cbn [fresh_of]. rewrite bool_decide_false by done. cbn [orb].
    by rewrite bool_decide_false by set_solver.
Qed.

(** [C28] Whatever the clock, the device and the tracker do, the retry loop tries
    queued candidates in queue order and each entry at most once, follows at
    most one late nomination, and the endpoint it believes in use is the last
    one the device accepted. *)
Theorem retry_discipline (endpoint : string) (queue : list string) (types : gmap string string)
    (armed : bool) (up : Z) (trs : list turn) :
  let '(r, trace) := retryEndpointOnHandshakeTimeout endpoint queue types armed up trs in
  tried ByTimeout trace `sublist_of` queue
  /\ (length (tried ByNomination trace) <= Nat.b2n armed)%nat
  /\ forall st, r = Running st -> currentEndpoint st = final_endpoint endpoint trace.
Proof.
  unfold retryEndpointOnHandshakeTimeout. set (st0 := {| queueIdx := 0 |}).
  pose proof (retry_run_disciplined queue types up st0 trs) as H.
  destruct (retry_run queue types up st0 trs) as [r trace]. cbn [fst snd] in H.
  destruct r as [st|e]; simpl in H; rewrite drop_0 in H.
  - destruct H as (Hq & Hn & Hc). split_and!; [|lia|by intros ? [= <-]].
    etransitivity; [|exact Hq]. apply sublist_inserts_r. reflexivity.
  - destruct H as [Hq Hn]. done.
Qed.

(** [C29] The loop does not outlive its limit: a tick at least sixty seconds
    after the device came up finds it stopped or stops it. When the context
    stays live and no handshake is ever seen, it stops by reporting exhaustion,
    so a fresh negotiation follows. *)
Theorem retry_stops (endpoint : string) (queue : list string) (types : gmap string string)
    (armed : bool) (up : Z) (pre post : list turn) (tr : turn) :
  t_wake tr = Tick -> candidateRetryMaxDuration <= t_check tr - up ->
  exists e, (retryEndpointOnHandshakeTimeout endpoint queue types armed up (pre ++ tr :: post)).1 = Stopped e
    /\ (Forall silent (pre ++ tr :: post) -> e = true).
Proof.
  intros Hw Hd. unfold retryEndpointOnHandshakeTimeout. set (st0 := {| queueIdx := 0 |}).
  destruct (retry_run_deadline queue types up st0 pre tr post Hw Hd) as [e He].
  exists e. split; [done|]. intros Hs%(retry_run_silent queue types up st0). rewrite He in Hs.
  by destruct e.
Qed.

Definition silent_tick (now : Z) : turn :=
  {| t_wake := Tick; t_after_nomination := now; t_ipc := Some "endpoint=1.2.3.4:5"%string;
     t_check := now; t_dwell := now; t_after_switch := now;
     t_nomination_ok := true; t_switch_ok := true |}.

(** Two switches, after six and three seconds, and the end at sixty. *)
Lemma retry_stops_witness :
  retryEndpointOnHandshakeTimeout "203.0.113.5:1" ["10.0.0.9:1"; "203.0.113.7:2"]
    (∅ : gmap string string) false 0
    [silent_tick (6 * Second); silent_tick (9 * Second); silent_tick (14 * Second); silent_tick (61 * Second)]
  = (Stopped true, [(ByTimeout, "10.0.0.9:1"%string, true); (ByTimeout, "203.0.113.7:2"%string, true)])
  /\ exists e, (retryEndpointOnHandshakeTimeout "203.0.113.5:1" ["10.0.0.9:1"; "203.0.113.7:2"]
    ∅ false 0 ([silent_tick (6 * Second); silent_tick (9 * Second); silent_tick (14 * Second)]
               ++ silent_tick (61 * Second) :: [])).1 = Stopped e.
Proof.
  split; [by vm_compute|].
  destruct (retry_stops "203.0.113.5:1" ["10.0.0.9:1"; "203.0.113.7:2"] ∅ false 0
    [silent_tick (6 * Second); silent_tick (9 * Second); silent_tick (14 * Second)] []
    (silent_tick (61 * Second)) eq_refl ltac:(vm_compute; discriminate)) as (e & He & _).
  by exists e.
Defined.
End Endpoints.
