(* ===== verification/StunBind.v ===== *)
(** The [conn.Bind] between the outer sockets and wireguard-go ([wireguard.go]):
    its life cycle, the receive functions, which answer STUN and pass on the
    rest, and sending. *)

From S2P Require Import Prelude Lists GoStrings GoNet GoJson Nomination Stun Endpoints.
Open Scope Z_scope.

Import Nomination Stun.

Module StunBind.

(** ** State

    A socket is its descriptor. [done] is the channel of the last [Open], one
    number per channel, and [closed] the channels that were closed; [expired] are
    the sockets whose read deadline is in the past. *)
Record stunBind := {
  conn4 : option Z;
  conn6 : option Z;
  bind_secret : string;
  bind_nomination : nominationTracker;
  done_ch : option nat;
  closed : gset nat;
  next_ch : nat;
  expired : gset Z;
}.

Definition new_bind (c4 c6 : option Z) (secret : string) (t : nominationTracker) : stunBind :=
  {| conn4 := c4; conn6 := c6; bind_secret := secret; bind_nomination := t;
     done_ch := None; closed := ∅; next_ch := 0; expired := ∅ |}.

Definition sockets (b : stunBind) : list Z := option_list (conn4 b) ++ option_list (conn6 b).

Definition with_tracker (b : stunBind) (t : nominationTracker) : stunBind :=
  {| conn4 := conn4 b; conn6 := conn6 b; bind_secret := bind_secret b; bind_nomination := t;
     done_ch := done_ch b; closed := closed b; next_ch := next_ch b; expired := expired b |}.

(** The receive functions are pairs of a socket and the channel they watch. *)
Definition Open (b : stunBind) : stunBind * list (Z * nat) :=
  let ch := next_ch b in
  ({| conn4 := conn4 b; conn6 := conn6 b; bind_secret := bind_secret b; bind_nomination := bind_nomination b;
      done_ch := Some ch; closed := closed b; next_ch := S ch;
      expired := expired b ∖ list_to_set (sockets b) |},
   (fun c => (c, ch)) <$> sockets b).

Definition Close (b : stunBind) : stunBind :=
  {| conn4 := conn4 b; conn6 := conn6 b; bind_secret := bind_secret b; bind_nomination := bind_nomination b;
     done_ch := done_ch b;
     closed := match done_ch b with Some ch => {[ch]} ∪ closed b | None => closed b end;
     next_ch := next_ch b;
     expired := list_to_set (sockets b) ∪ expired b |}.

Definition BatchSize : Z := 1.

(** ** Receiving *)

Inductive bind_err : Type :=
| ErrClosed
| ReadError (e : string)
| WriteError (e : string)
| ErrWrongEndpointType
| ErrNoSocket.

Definition ErrDeadline : bind_err := ReadError "i/o timeout".

(** What can happen while a receive function runs: a datagram, an error of the
    read, or [Close] called elsewhere. *)
Inductive recv_event : Type :=
| Datagram (data : string) (from : addr * Z)
| ReadFails (e : string)
| BindCloses.

Inductive recv_result : Type :=
| Delivered (data : string) (from : addr * Z)
| RecvFailed (e : bind_err).

Section pion.
Context `{PionStun}.

(** The reply sent, and the tracker; [None] is a panic of [observe]. *)
Definition handleSTUN (b : stunBind) (data : string) (from : addr * Z)
  : option (stunBind * list (string * string)) :=
  match parseStunMessage data with
  | None => Some (b, [])
  | Some msg =>
      if is_binding_request msg then
        o ← respondToStunBindingRequestAddrPort true msg from (bind_secret b) (Some (bind_nomination b));
        Some (with_tracker b (default (bind_nomination b) (o_tracker o)), o_sent o)
      else Some (b, [])
  end.

(** [last] is the endpoint the function keeps between calls. *)
Definition remember (last : option (addr * Z)) (from : addr * Z) : addr * Z :=
  match last with
  | Some ep => if bool_decide (ep = from) then ep else from
  | None => from
  end.

(** One call. A read of a socket whose deadline has passed fails at once. The
    result comes with the events left, the bind, the replies sent and [last];
    the result is [None] while the read waits. *)
Fixpoint receive (b : stunBind) (c : Z) (ch : nat) (last : option (addr * Z)) (evs : list recv_event)
  : option (stunBind * list (string * string) * option (addr * Z) * option recv_result * list recv_event) :=
  let failing e := RecvFailed (if bool_decide (ch ∈ closed b) then ErrClosed else e) in
  if bool_decide (c ∈ expired b) then Some (b, [], last, Some (failing ErrDeadline), evs)
  else match evs with
  | [] => Some (b, [], last, None, [])
  | BindCloses :: evs' => receive (Close b) c ch last evs'
  | ReadFails e :: evs' => Some (b, [], last, Some (failing (ReadError e)), evs')
  | Datagram data from :: evs' =>
      if isSTUN data then
        '(b1, sent) ← handleSTUN b data from;
        '(b2, sent', last', r, rest) ← receive b1 c ch last evs';
        Some (b2, sent ++ sent', last', r, rest)
      else
        let ep := remember last from in
        Some (b, [], Some ep, Some (Delivered data ep), evs')
  end.

(** The calls wireguard-go's receive routine makes: again after every packet.
    [calls] bounds them. *)
Fixpoint receive_all (calls : nat) (b : stunBind) (c : Z) (ch : nat) (last : option (addr * Z)) (evs : list recv_event)
  : option (stunBind * list (string * string) * list (string * (addr * Z))) :=
  match calls with
  | O => Some (b, [], [])
  | S calls' =>
      '(b1, sent, last, r, rest) ← receive b c ch last evs;
      match r with
      | Some (Delivered data from) =>
          '(b2, sent', delivered) ← receive_all calls' b1 c ch last rest;
          Some (b2, sent ++ sent', (data, from) :: delivered)
      | _ => Some (b1, sent, [])
      end
  end.

End pion.

(** ** Sending *)

(** [ep] is the endpoint, [None] when it is not of wireguard-go's own type;
    [fails i] is the error of the [i]-th write. The result is what was written,
    on which socket and to whom, and the error. *)
Fixpoint write_all (c : Z) (to : addr * Z) (bufs : list string) (fails : nat -> option string) (i : nat)
  : list (Z * (addr * Z) * string) * option bind_err :=
  match bufs with
  | [] => ([], None)
  | buf :: rest =>
      match fails i with
      | Some e => ([], Some (WriteError e))
      | None => let '(sent, err) := write_all c to rest fails (S i) in ((c, to, buf) :: sent, err)
      end
  end.

Definition Send (b : stunBind) (bufs : list string) (ep : option (addr * Z)) (fails : nat -> option string)
  : list (Z * (addr * Z) * string) * option bind_err :=
  match ep with
  | None => ([], Some ErrWrongEndpointType)
  | Some to =>
      match (if addr_is4 to.1 then conn4 b else conn6 b) with
      | Some c => write_all c to bufs fails 0
      | None => ([], Some ErrNoSocket)
      end
  end.

(** ** What the receive functions do with a packet *)

Section routing.
Context `{PionStun}.

(** A STUN packet that is acted on: an authenticated Binding Request. *)
Definition request_in (secret : string) (p : string * (addr * Z)) : option message :=
  if isSTUN p.1 then
    m ← decode p.1;
    if is_binding_request m && validStunIntegrity m secret then Some m else None
  else None.

Definition reply_of (secret : string) (p : string * (addr * Z)) : option (string * string) :=
  m ← request_in secret p; Some (addr_port_string p.2.1 p.2.2, stunBindingSuccess m secret).

Definition event_of (secret : string) (p : string * (addr * Z)) : option nomination_event :=
  m ← request_in secret p; w ← stunNominationWait m; Some (Observed (addr_port_string p.2.1 p.2.2) w).

Definition wireguard_packets (ps : list (string * (addr * Z))) : list (string * (addr * Z)) :=
  filter (fun p => isSTUN p.1 = false) ps.

Lemma remember_from last from : remember last from = from.
Proof. unfold remember. destruct last; [|done]. by case_bool_decide. Qed.

Lemma handleSTUN_spec h b data from :
  tracked h (bind_nomination b) -> isSTUN data = true ->
  exists t', handleSTUN b data from = Some (with_tracker b t', option_list (reply_of (bind_secret b) (data, from)))
    /\ tracked (h ++ option_list (event_of (bind_secret b) (data, from))) t'.
Proof.
  intros Ht Hs. unfold handleSTUN, reply_of, event_of, request_in, parseStunMessage. cbn [fst snd]. rewrite Hs.
  assert (b = with_tracker b (bind_nomination b)) as Hb by by destruct b.
  destruct (decode data) as [m|]; cbn [mbind option_bind option_list].
  2:{ exists (bind_nomination b). by rewrite <- Hb, app_nil_r. }
  destruct (is_binding_request m); cbn [andb].
  2:{ exists (bind_nomination b). by rewrite <- Hb, app_nil_r. }
  destruct (respond_ap_tracked h m from (bind_secret b) (bind_nomination b) Ht) as (o & -> & Hbad & Hgood).
  cbn [mbind option_bind]. destruct (validStunIntegrity m (bind_secret b)).
  - destruct (Hgood eq_refl) as (t' & -> & Ht'). exists t'. cbn [o_tracker o_sent default mbind option_bind option_list].
    split; [done|]. by destruct (stunNominationWait m).
  - rewrite (Hbad eq_refl). exists (bind_nomination b). cbn. by rewrite app_nil_r.
Qed.

(** The call that meets the datagrams [ps]: it answers until the first packet
    that is not STUN, which it returns. *)
Lemma receive_spec h b c ch last ps :
  tracked h (bind_nomination b) -> c ∉ expired b ->
  exists pre t',
    let b' := with_tracker b t' in
    tracked (h ++ omap (event_of (bind_secret b)) pre) t'
    /\ Forall (fun p => isSTUN p.1 = true) pre
    /\ ((ps = pre /\ receive b c ch last ((fun p => Datagram p.1 p.2) <$> ps)
           = Some (b', omap (reply_of (bind_secret b)) pre, last, None, []))
        \/ exists p post, ps = pre ++ p :: post /\ isSTUN p.1 = false
            /\ receive b c ch last ((fun p => Datagram p.1 p.2) <$> ps)
               = Some (b', omap (reply_of (bind_secret b)) pre, Some p.2, Some (Delivered p.1 p.2),
                       (fun p => Datagram p.1 p.2) <$> post)).
Proof.
  revert h b. induction ps as [|[data from] ps IH]; intros h b Ht Hexp.
  { exists [], (bind_nomination b). cbn zeta. rewrite app_nil_r. split_and!; [done|constructor|]. left.
    split; [done|]. cbn [fmap list_fmap receive]. rewrite bool_decide_false by done. by destruct b. }
  rewrite fmap_cons. cbn [receive fst snd]. rewrite bool_decide_false by done.
  destruct (isSTUN data) eqn:Es.
  - destruct (handleSTUN_spec h b data from Ht Es) as (t1 & -> & Ht1). cbn [mbind option_bind].
    destruct (IH _ (with_tracker b t1) Ht1 Hexp) as (pre & t' & Ht' & Hall & Hcase).
    cbn [bind_secret with_tracker] in *. rewrite <- app_assoc in Ht'.
    exists ((data, from) :: pre), t'. cbn zeta. change ((data, from) :: pre) with ([(data, from)] ++ pre).
    rewrite !omap_app.
    replace (omap (event_of (bind_secret b)) [(data, from)]) with (option_list (event_of (bind_secret b) (data, from)))
      by (cbn; by destruct (event_of _ _)).
    replace (omap (reply_of (bind_secret b)) [(data, from)]) with (option_list (reply_of (bind_secret b) (data, from)))
      by (cbn; by destruct (reply_of _ _)).
    split; [done|]. split; [by constructor|].
    destruct Hcase as [[-> Hr]|(p & post & -> & Hp & Hr)]; [left|right; exists p, post];
      (split; [done|]); try (split; [done|]); rewrite Hr; done.
  - exists [], (bind_nomination b). cbn zeta. rewrite app_nil_r. split_and!; [done|constructor|]. right.
    exists (data, from), ps. split_and!; [done|done|]. rewrite remember_from. by destruct b.
Qed.

(** [C24] The bind separates the two protocols without loss. Whatever datagrams a
    socket receives, wireguard-go is given exactly those that are not STUN, in
    order and each with its own source; the authenticated Binding Requests among
    the others, and nothing else, are answered, at their source; and the tracker
    sees their waits. *)
Theorem receive_routing (h : list nomination_event) (b : stunBind) (c : Z) (ch : nat)
    (last : option (addr * Z)) (ps : list (string * (addr * Z))) (calls : nat) :
  tracked h (bind_nomination b) -> c ∉ expired b -> (length ps < calls)%nat ->
  exists b', receive_all calls b c ch last ((fun p => Datagram p.1 p.2) <$> ps)
      = Some (b', omap (reply_of (bind_secret b)) ps, wireguard_packets ps)
    /\ tracked (h ++ omap (event_of (bind_secret b)) ps) (bind_nomination b').
Proof.
  revert h b last ps. induction calls as [|calls IH]; intros h b last ps Ht Hexp Hcalls; [lia|].
  destruct (receive_spec h b c ch last ps Ht Hexp) as (pre & t' & Ht' & Hall & Hcase). cbn zeta in *.
  assert (wireguard_packets pre = []) as Hpre.
  { unfold wireguard_packets. clear -Hall. induction Hall as [|p l Hp Hl IHl]; [done|].
    rewrite filter_cons, decide_False by congruence. done. }
  cbn [receive_all]. destruct Hcase as [[-> ->]|(p & post & -> & Hp & ->)]; cbn [mbind option_bind].
  - exists (with_tracker b t'). by rewrite Hpre.
  - rewrite length_app in Hcalls. cbn [length] in Hcalls.
    destruct (IH _ (with_tracker b t') (Some p.2) post Ht' Hexp ltac:(lia)) as (b' & -> & Hb').
    cbn [mbind option_bind bind_secret with_tracker] in *. exists b'.
    assert (request_in (bind_secret b) p = None) as Hno by (unfold request_in; by rewrite Hp).
    assert (omap (reply_of (bind_secret b)) (pre ++ p :: post)
      = omap (reply_of (bind_secret b)) pre ++ omap (reply_of (bind_secret b)) post) as ->.
    { rewrite omap_app. cbn. unfold reply_of at 2. by rewrite Hno. }
    assert (omap (event_of (bind_secret b)) (pre ++ p :: post)
      = omap (event_of (bind_secret b)) pre ++ omap (event_of (bind_secret b)) post) as ->.
    { rewrite omap_app. cbn. unfold event_of at 2. by rewrite Hno. }
    split; [|by rewrite app_assoc]. unfold wireguard_packets in *. rewrite filter_app, Hpre, filter_cons, decide_True by done.
    by destruct p.
Qed.

End routing.

(** ** The life cycle *)

(** The bind after any [Open]s ([true]) and [Close]s ([false]). *)
Definition lifecycle (b : stunBind) (ops : list bool) : stunBind :=
  foldl (fun b (op : bool) => if op then (Open b).1 else Close b) b ops.

(** Channels are numbered as they are made. *)
Definition channels_ok (b : stunBind) : Prop :=
  (forall ch, done_ch b = Some ch -> (ch < next_ch b)%nat) /\ (forall ch, ch ∈ closed b -> (ch < next_ch b)%nat).

Lemma lifecycle_ok c4 c6 secret t ops : channels_ok (lifecycle (new_bind c4 c6 secret t) ops).
Proof.
  unfold lifecycle. assert (channels_ok (new_bind c4 c6 secret t)) as H0 by (by split; [|intros ch ?%not_elem_of_empty]).
  revert H0. generalize (new_bind c4 c6 secret t) as b. induction ops as [|op ops IH]; intros b Hb; [done|].
  apply IH. destruct Hb as [Hd Hc], op; split; cbn.
  - intros ch [= <-]. lia.
  - intros ch Hch. apply Hc in Hch. lia.
  - apply Hd.
  - intros ch. destruct (done_ch b) as [d|] eqn:E; [|apply Hc].
    rewrite elem_of_union, elem_of_singleton. intros [-> |?]; [by apply Hd|by apply Hc].
Qed.

Section lifecycle.
Context `{PionStun}.

(** Opening and closing, in whatever order it was done before. [Open] yields
    one receive function per socket, each able to read and with a channel that
    is not closed, so that it works again after a [Close]; and once [Close] is
    called, every function of the last [Open] returns [ErrClosed] at its next
    read, whatever is there to be read, as does one that was waiting, so that
    wireguard-go never waits for it. *)
Theorem bind_lifecycle (c4 c6 : option Z) (secret : string) (t : nominationTracker) (ops : list bool) :
  let b := lifecycle (new_bind c4 c6 secret t) ops in
  (let '(b', fns) := Open b in
   fns.*1 = sockets b /\ forall c ch, (c, ch) ∈ fns -> c ∉ expired b' /\ ch ∉ closed b' /\ done_ch b' = Some ch)
  /\ (forall c ch last evs, c ∈ sockets b -> done_ch b = Some ch ->
      receive (Close b) c ch last evs = Some (Close b, [], last, Some (RecvFailed ErrClosed), evs)
      /\ (c ∉ expired b ->
          receive b c ch last (BindCloses :: evs) = Some (Close b, [], last, Some (RecvFailed ErrClosed), evs))).
Proof.
  intros b. pose proof (lifecycle_ok c4 c6 secret t ops) as [Hd Hc]. fold b in Hd, Hc. split.
  - cbn. split.
    + rewrite <- list_fmap_compose. apply list_fmap_id.
    + intros c ch Hin. apply list_elem_of_fmap in Hin as (c' & [= -> ->] & Hin). split_and!; [| |done].
      * rewrite elem_of_difference. intros [_ Hno]. by apply Hno, elem_of_list_to_set.
      * intros Hch. apply Hc in Hch. lia.
  - intros c ch last evs Hs Hch.
    assert (receive (Close b) c ch last evs = Some (Close b, [], last, Some (RecvFailed ErrClosed), evs)) as Hr.
    { assert (c ∈ expired (Close b)) as Hexp by (cbn; by apply elem_of_union_l, elem_of_list_to_set).
      assert (ch ∈ closed (Close b)) as Hcl by (cbn; rewrite Hch; by apply elem_of_union_l, elem_of_singleton).
      destruct evs as [|ev evs]; cbn [receive]; by rewrite !bool_decide_true. }
    split; [exact Hr|]. intros Hne. cbn [receive]. rewrite bool_decide_false by done. exact Hr.
Qed.

End lifecycle.

(** ** Sending *)

Lemma write_all_spec c to bufs fails i :
  let '(sent, err) := write_all c to bufs fails i in
  exists k, sent = (fun buf => (c, to, buf)) <$> take k bufs
    /\ (forall j, (j < k)%nat -> fails (i + j)%nat = None)
    /\ match err with
       | None => k = length bufs
       | Some e => (k < length bufs)%nat /\ exists m, fails (i + k)%nat = Some m /\ e = WriteError m
       end.
Proof.
  revert i. induction bufs as [|buf bufs IH]; intros i; cbn [write_all].
  { exists 0%nat. split_and!; [done|lia|done]. }
  destruct (fails i) as [m|] eqn:E.
  { exists 0%nat. split_and!; [done|lia|cbn; lia|]. exists m. by rewrite Nat.add_0_r. }
  specialize (IH (S i)). destruct (write_all c to bufs fails (S i)) as [sent err].
  destruct IH as (k & -> & Hk & He). exists (S k). split_and!; [done| |].
  - intros [|j] Hj; [by rewrite Nat.add_0_r|]. rewrite Nat.add_succ_r. apply Hk. lia.
  - rewrite Nat.add_succ_r. destruct err; cbn [length]; [|congruence]. destruct He as [? ?]. split; [lia|done].
Qed.

(** Sending uses the socket of the endpoint's family, never the other. The
    packets go out in order up to the first write that fails, whose error is
    returned, and all of them when none does; without a socket of the family
    nothing is sent. *)
Theorem send_spec (b : stunBind) (bufs : list string) (to : addr * Z) (fails : nat -> option string) :
  let '(sent, err) := Send b bufs (Some to) fails in
  match (if addr_is4 to.1 then conn4 b else conn6 b) with
  | None => sent = [] /\ err = Some ErrNoSocket
  | Some c =>
      exists k, sent = (fun buf => (c, to, buf)) <$> take k bufs
        /\ (forall j, (j < k)%nat -> fails j = None)
        /\ match err with
           | None => k = length bufs
           | Some e => (k < length bufs)%nat /\ exists m, fails k = Some m /\ e = WriteError m
           end
  end.
Proof.
  unfold Send. destruct (if addr_is4 to.1 then conn4 b else conn6 b) as [c|]; [|done].
  apply (write_all_spec c to bufs fails 0).
Qed.

(** *** Concrete runs *)

(** The codec of the listener's runs behind a STUN header. *)
Definition header_bytes : string :=
  String.string_of_list_ascii (of_byte <$> [0; 1; 0; 0; 33; 18; 164; 66; 1; 1; 1; 1; 1; 1; 1; 1; 1; 1; 1; 1]).

Definition framed_stun : PionStun := {|
  message := string * string;
  decode := fun s => @decode toy_stun (str_drop 20 s);
  is_binding_request := fun _ => true;
  type_string := @type_string toy_stun;
  transaction_id := @transaction_id toy_stun;
  data_attr := @data_attr toy_stun;
  check := @check toy_stun;
  build_success := @build_success toy_stun;
  build_probe := @build_probe toy_stun;
  xor_mapped := fun _ => None;
|}.

Definition direct_peer : addr * Z := (Addr4 [198; 51; 100; 9], 6000).

Definition framed_wait (w : Z) : string * (addr * Z) :=
  ((header_bytes ++ "Rs;" ++ json_object [("wait", itoa w)])%string, direct_peer).

Definition framed_packets : list (string * (addr * Z)) :=
  (fun w => framed_wait w) <$> nominationWaitSequence.

Definition toy_bind (t : nominationTracker) : stunBind := new_bind (Some 3) None "s" t.

(** WireGuard data among the console's requests. *)
Lemma receive_routing_witness :
  let data := (String.string_of_list_ascii (of_byte <$> [4; 0; 0; 0; 9]), direct_peer) in
  let ps := [framed_wait 2000; data; framed_wait 1000] in
  wireguard_packets ps = [data]
  /\ exists b', @receive_all framed_stun 4 (toy_bind newNominationTracker) 3 0 None ((fun p => Datagram p.1 p.2) <$> ps)
       = Some (b', omap (@reply_of framed_stun "s") ps, wireguard_packets ps).
Proof.
  cbn zeta. split; [by vm_compute|].
  destruct (@receive_routing framed_stun [] (toy_bind newNominationTracker) 3 0 None
    [framed_wait 2000; (String.string_of_list_ascii (of_byte <$> [4; 0; 0; 0; 9]), direct_peer); framed_wait 1000] 4)
    as (b' & Hb' & _); [apply tracked_new|by apply not_elem_of_empty|cbn; lia|].
  exists b'. exact Hb'.
Defined.

(** The bind has no restriction. In TURN-only mode a tunnel that started without a
    nomination, on a relay, moves to a direct tuple when that one counts down. *)
Definition active_tracker : nominationTracker :=
  {| pairs := ∅; active := true; selected := EmptyString; Nomination.closed := false |}.

Definition late_turn (selected : string) : Endpoints.turn :=
  {| Endpoints.t_wake := Endpoints.NominationSelected selected; Endpoints.t_after_nomination := 1;
     Endpoints.t_ipc := None; Endpoints.t_check := 1; Endpoints.t_dwell := 1; Endpoints.t_after_switch := 1;
     Endpoints.t_nomination_ok := true; Endpoints.t_switch_ok := true |}.

Lemma late_direct_nomination :
  exists b' sent,
    @receive_all framed_stun 6 (toy_bind active_tracker) 3 0 None ((fun p => Datagram p.1 p.2) <$> framed_packets)
      = Some (b', sent, [])
    /\ selectedEndpoint (bind_nomination b') = "198.51.100.9:6000"%string
    /\ (Endpoints.retryEndpointOnHandshakeTimeout "203.0.113.5:5000" [] {["203.0.113.5:5000"%string := "turn"%string]}
          true 0 [late_turn (selectedEndpoint (bind_nomination b'))]).2
       = [(Endpoints.ByNomination, "198.51.100.9:6000"%string, true)].
Proof. eexists _, _. split; [by vm_compute|]. split; by vm_compute. Qed.

End StunBind.
