(* ===== verification/Keys.v ===== *)
(** Keys and the printed configuration ([wireguard.go], [api.go]): the WireGuard
    key pair, keys in base64 and hexadecimal, and [buildConfig]. *)

From S2P Require Import Prelude GoStrings GoNet GoCodec.
From Stdlib Require Import Ascii.
Open Scope Z_scope.

Module Keys.

(** ** Key pairs *)

(** [curve25519.X25519] with the base point. *)
Class Curve := { x25519_base : list Z -> option (list Z) }.

Definition clamp (random : list Z) : list Z :=
  at_byte 31 (fun b => Z.lor b 64) (at_byte 31 (fun b => Z.land b 127) (at_byte 0 (fun b => Z.land b 248) random)).

(** [random] is what the random source gave, [None] when it failed. *)
Definition wgKeypair `{Curve} (random : option (list Z)) : option (string * string) :=
  r ← random;
  let priv := clamp r in
  pub ← x25519_base priv;
  Some (b64_encode StdEncoding priv, b64_encode StdEncoding pub).

(** A failing random source is a panic. *)
Definition randomB64 (random : option (list Z)) : option string :=
  r ← random; Some (b64_encode StdEncoding r).

Inductive key_err : Type :=
| NotBase64
| WrongLength (n : nat).

Definition b64KeyToHex (key : string) : result key_err string :=
  match b64_decode StdEncoding key with
  | None => Err NotBase64
  | Some decoded =>
      if negb (length decoded =? 32)%nat then Err (WrongLength (length decoded))
      else Ok (hex_encode decoded)
  end.

(** ** buildConfig *)

Record serverInfo := {
  WGPubKey : string;
  UDPEchoPort : Z;
  UDPEchoAddr : string;
  TunnelMask : Z;
  TunnelAddr : string;
}.

Definition newline : ascii := of_byte 10.
Definition line_break : string := chr newline.

Definition config_address (info : serverInfo) (clientIP : string) : string :=
  let mask := if TunnelMask info =? 0 then 120 else TunnelMask info in
  let address := (TunnelAddr info ++ "/" ++ itoa mask)%string in
  if negb (bool_decide (clientIP = EmptyString)) then
    (clientIP ++ "/" ++ (if contains clientIP ":" then "128" else "32") ++ ", " ++ address)%string
  else address.

Definition ifaceLines (priv : string) (port : Z) (info : serverInfo) (dns : list string) (clientIP : string) (mtu : Z)
  : list string :=
  let dnsAddr := match dns with d :: _ => d | [] => "192.168.88.1"%string end in
  ["PrivateKey = " ++ priv; "ListenPort = " ++ itoa port; "Address = " ++ config_address info clientIP;
   "DNS = " ++ dnsAddr]%string
  ++ (if 0 <? mtu then ["MTU = " ++ itoa mtu]%string else []).

Definition buildConfig (priv : string) (port : Z) (endpoint : string) (info : serverInfo) (dns : list string)
    (clientIP : string) (mtu : Z) : string :=
  ("[Interface]" ++ line_break ++ String.concat line_break (ifaceLines priv port info dns clientIP mtu) ++ line_break
   ++ line_break ++ "[Peer]" ++ line_break ++ "PublicKey = " ++ WGPubKey info ++ line_break
   ++ "Endpoint = " ++ endpoint ++ line_break ++ "AllowedIPs = 0.0.0.0/0, ::/0" ++ line_break
   ++ "PersistentKeepalive = 25" ++ line_break)%string.

(** ** Lemmas *)

Lemma clamp_length r : length (clamp r) = length r.
Proof. unfold clamp, at_byte. by rewrite !length_alter. Qed.

(** The bits [clamp] sets and clears. *)
Lemma clamp_low b : is_byte b -> 0 <= Z.land b 248 < 256 /\ Z.land b 248 mod 8 = 0.
Proof.
  intros Hb. apply (byte_cases (fun b => (0 <=? Z.land b 248) && (Z.land b 248 <? 256) && (Z.land b 248 mod 8 =? 0))) in Hb;
    [lia|by vm_compute].
Qed.

Lemma clamp_high b : is_byte b -> 64 <= Z.lor (Z.land b 127) 64 < 128.
Proof.
  intros Hb. apply (byte_cases (fun b => (64 <=? Z.lor (Z.land b 127) 64) && (Z.lor (Z.land b 127) 64 <? 128))) in Hb;
    [lia|by vm_compute].
Qed.

(** A list of 32 bytes by its first, middle and last ones. *)
Lemma clamp_32 r : length r = 32%nat -> exists b0 mid b31,
  r = b0 :: mid ++ [b31] /\ length mid = 30%nat
  /\ clamp r = Z.land b0 248 :: mid ++ [Z.lor (Z.land b31 127) 64].
Proof.
  intros Hr. destruct r as [|b0 r]; [done|]. destruct (exists_last (l:=r)) as (mid & b31 & ->); [by destruct r|].
  cbn in Hr. rewrite length_app in Hr. cbn in Hr. exists b0, mid, b31. split_and!; [done|lia|].
  assert (length mid = 30%nat) as Hm by lia. unfold clamp, at_byte.
  change (alter (fun b => Z.land b 248) 0 (b0 :: mid ++ [b31])) with (Z.land b0 248 :: mid ++ [b31]).
  change (alter ?f 31 (?x :: ?l)) with (x :: alter f 30 l). cbn [alter list_alter].
  replace 30%nat with (length mid + 0)%nat by lia. by rewrite !alter_app_r.
Qed.

Lemma clamp_bytes r : length r = 32%nat -> Forall is_byte r -> Forall is_byte (clamp r).
Proof.
  intros Hl Hr. destruct (clamp_32 r Hl) as (b0 & mid & b31 & -> & _ & ->).
  apply Forall_cons in Hr as [H0 Hr]. apply Forall_app in Hr as [Hm H31]. apply Forall_cons in H31 as [H31 _].
  pose proof (clamp_low _ H0). pose proof (clamp_high _ H31). apply Forall_cons. split; [unfold is_byte; lia|].
  apply Forall_app. split; [done|]. constructor; [unfold is_byte; lia|constructor].
Qed.

(** The number a private key stands for: its bytes, the lowest first. *)
Definition scalar (bs : list Z) : Z := foldr (fun b n => b + 256 * n) 0 bs.

Lemma scalar_app l l' : scalar (l ++ l') = scalar l + 256 ^ Z.of_nat (length l) * scalar l'.
Proof.
  induction l as [|b l IH].
  { change (256 ^ Z.of_nat (@length Z [])) with 1. cbn [app]. change (scalar []) with 0. lia. }
  cbn [app length]. change (b + 256 * scalar (l ++ l') = b + 256 * scalar l + 256 ^ Z.of_nat (S (length l)) * scalar l'). rewrite IH, Nat2Z.inj_succ, Z.pow_succ_r by lia. ring.
Qed.

Lemma scalar_bound l : Forall is_byte l -> 0 <= scalar l < 256 ^ Z.of_nat (length l).
Proof.
  induction 1 as [|b l Hb _ IH]; [by cbn|]. cbn [length].
  change (0 <= b + 256 * scalar l < 256 ^ Z.of_nat (S (length l))). rewrite Nat2Z.inj_succ, Z.pow_succ_r by lia. unfold is_byte in Hb. lia.
Qed.

Lemma clamp_scalar r : length r = 32%nat -> Forall is_byte r ->
  2 ^ 254 <= scalar (clamp r) < 2 ^ 255 /\ (8 | scalar (clamp r)).
Proof.
  intros Hl Hr. destruct (clamp_32 r Hl) as (b0 & mid & b31 & -> & Hm & ->).
  apply Forall_cons in Hr as [H0 Hr]. apply Forall_app in Hr as [Hmid H31]. apply Forall_cons in H31 as [H31 _].
  pose proof (clamp_low _ H0) as [? Hmod]. pose proof (clamp_high _ H31).
  pose proof (scalar_bound _ Hmid) as Hb. rewrite Hm in Hb.
  set (h := Z.lor (Z.land b31 127) 64) in *. set (l := Z.land b0 248) in *.
  assert (scalar (l :: mid ++ [h]) = l + 256 * (scalar mid + 256 ^ 30 * h)) as ->.
  { change (scalar (l :: mid ++ [h])) with (l + 256 * scalar (mid ++ [h])). rewrite scalar_app, Hm.
    change (scalar [h]) with (h + 256 * 0). by rewrite Z.mul_0_r, Z.add_0_r. }
  change (Z.of_nat 30) with 30 in *. split.
  - change (256 ^ 30) with (2 ^ 240) in *. lia.
  - apply Z.mod_divide in Hmod; [|done]. destruct Hmod as [k ->].
    exists (k + 32 * (scalar mid + 256 ^ 30 * h)). lia.
Qed.

(** ** Properties of keys *)

Section curve.
Context `{Curve}.

(** The public key of a private key is 32 bytes. *)
Class CurveLaws := {
  x25519_32 : forall k p, length k = 32%nat -> Forall is_byte k -> x25519_base k = Some p ->
    length p = 32%nat /\ Forall is_byte p;
}.

(** A generated pair, and what the tunnel reads of its private key. *)
Lemma keypair_reads `{!CurveLaws} r priv pub :
  length r = 32%nat -> Forall is_byte r -> wgKeypair (Some r) = Some (priv, pub) ->
  exists p, x25519_base (clamp r) = Some p /\ length p = 32%nat /\ Forall is_byte p
    /\ priv = b64_encode StdEncoding (clamp r) /\ pub = b64_encode StdEncoding p
    /\ b64KeyToHex priv = Ok (hex_encode (clamp r)).
Proof.
  intros Hl Hr Hk. cbn [wgKeypair mbind option_bind] in Hk. apply bind_Some in Hk as (p & Hp & [= <- <-]).
  pose proof (clamp_length r) as Hc. rewrite Hl in Hc. pose proof (clamp_bytes r Hl Hr) as Hb.
  destruct (x25519_32 _ _ Hc Hb Hp) as [Hpl Hpb]. exists p. unfold b64KeyToHex.
  rewrite b64_decode_encode, Hc by (done || by left). done.
Qed.

(** [C37] A generated key pair is one WireGuard can use, whatever the random bytes.
    The private key is the text of a scalar between 2^254 and 2^255 that is a
    multiple of 8; the public key is the text of the point it gives; and both are
    accepted where the tunnel reads them, as the same bytes. *)
Theorem keypair_bounds `{!CurveLaws} (r : list Z) (priv pub : string) :
  length r = 32%nat -> Forall is_byte r -> wgKeypair (Some r) = Some (priv, pub) ->
  exists k p,
    2 ^ 254 <= scalar k < 2 ^ 255 /\ (8 | scalar k) /\ x25519_base k = Some p
    /\ b64KeyToHex priv = Ok (hex_encode k) /\ b64KeyToHex pub = Ok (hex_encode p)
    /\ strlen priv = 44 /\ strlen pub = 44.
Proof.
  intros Hl Hr (p & Hp & Hpl & Hpb & -> & -> & Hh)%keypair_reads; [|done..]. destruct (clamp_scalar r Hl Hr) as [[Hs Hs2] Hd].
  pose proof (clamp_length r) as Hc. rewrite Hl in Hc.
  exists (clamp r), p. rewrite !b64_encode_length, Hc, Hpl. split_and!; try done.
  unfold b64KeyToHex. rewrite b64_decode_encode, Hpl by (done || by left). done.
Qed.

End curve.

Lemma b64KeyToHex_ok key h : b64KeyToHex key = Ok h -> exists bs, b64_decode StdEncoding key = Some bs
  /\ h = hex_encode bs /\ length bs = 32%nat /\ Forall is_byte bs.
Proof.
  unfold b64KeyToHex. destruct (b64_decode StdEncoding key) as [bs|] eqn:E; [|done].
  destruct (Nat.eqb_spec (length bs) 32) as [Hl|Hl]; cbn [negb]; [|done]. intros [= <-]. exists bs.
  by apply b64_quanta_bytes in E.
Qed.

(** Keys are passed on as hexadecimal of exactly their 32 bytes. What is
    accepted becomes 64 lower-case digits, which stand for the bytes of the
    text and for no other, so that nothing else of the text gets into the
    device's configuration; and the text is refused only when it is not base64,
    or not of 32 bytes. *)
Theorem b64KeyToHex_type (key : string) :
  match b64KeyToHex key with
  | Ok h => String.length h = 64%nat /\ Forall (fun c => is_lower_hex c = true) (String.list_ascii_of_string h)
      /\ exists bs, b64_decode StdEncoding key = Some bs /\ length bs = 32%nat
          /\ forall bs', Forall is_byte bs' -> (h = hex_encode bs' <-> bs' = bs)
  | Err NotBase64 => b64_decode StdEncoding key = None
  | Err (WrongLength n) => n <> 32%nat /\ exists bs, b64_decode StdEncoding key = Some bs /\ length bs = n
  end.
Proof.
  unfold b64KeyToHex. destruct (b64_decode StdEncoding key) as [bs|] eqn:E; [|done].
  destruct (Nat.eqb_spec (length bs) 32) as [Hl|Hl]; cbn [negb]; [|by split; [|exists bs]].
  apply b64_quanta_bytes in E as Hb. split_and!.
  - by rewrite hex_encode_length, Hl.
  - by apply hex_encode_lower.
  - exists bs. split_and!; [done..|]. intros bs' Hb'. split; [|by intros ->]. intros Heq. by apply hex_encode_inj.
Qed.

(** ** The printed configuration *)

(** How a reader of the file sees it: the section, the key and the value of each
    line that has the form [key = value]. *)
Definition key_value (l : string) : option (string * string) :=
  i ← index_sub " = " l; Some (str_take i l, str_drop (i + 3) l).

Fixpoint read_config (section : string) (ls : list string) : list (string * string * string) :=
  match ls with
  | [] => []
  | l :: ls' =>
      if has_prefix "[" l then read_config l ls'
      else match key_value l with
      | Some (k, v) => (section, k, v) :: read_config section ls'
      | None => read_config section ls'
      end
  end.

Definition no_newline_in (s : string) : Prop := has_byte newline s = false.

Definition from_lines (ls : list string) : string :=
  foldr (fun l text => (l ++ String newline text)%string) EmptyString ls.

Lemma split_from_lines ls : Forall no_newline_in ls -> split_byte newline (from_lines ls) = ls ++ [EmptyString].
Proof. induction 1 as [|l ls Hl _ IH]; [done|]. cbn [from_lines foldr app]. by rewrite split_byte_mid, <- IH. Qed.

Definition config_lines (priv : string) (port : Z) (endpoint : string) (info : serverInfo) (dns : list string)
    (clientIP : string) (mtu : Z) : list string :=
  ["[Interface]"]%string ++ ifaceLines priv port info dns clientIP mtu
  ++ [""; "[Peer]"; "PublicKey = " ++ WGPubKey info; "Endpoint = " ++ endpoint; "AllowedIPs = 0.0.0.0/0, ::/0";
      "PersistentKeepalive = 25"]%string.

Lemma buildConfig_lines priv port endpoint info dns clientIP mtu :
  buildConfig priv port endpoint info dns clientIP mtu
  = from_lines (config_lines priv port endpoint info dns clientIP mtu).
Proof.
  unfold buildConfig, config_lines, ifaceLines, line_break, chr, from_lines.
  destruct (0 <? mtu); cbn [app foldr String.concat]; rewrite <- ?append_assoc; cbn [String.append];
    repeat (rewrite ?append_assoc; cbn [String.append]); done.
Qed.

Definition config_entries (priv : string) (port : Z) (endpoint : string) (info : serverInfo) (dns : list string)
    (clientIP : string) (mtu : Z) : list (string * string * string) :=
  [("[Interface]", "PrivateKey", priv); ("[Interface]", "ListenPort", itoa port);
   ("[Interface]", "Address", config_address info clientIP); ("[Interface]", "DNS", default "192.168.88.1" (head dns))]%string
  ++ (if 0 <? mtu then [("[Interface]", "MTU", itoa mtu)]%string else [])
  ++ [("[Peer]", "PublicKey", WGPubKey info); ("[Peer]", "Endpoint", endpoint);
      ("[Peer]", "AllowedIPs", "0.0.0.0/0, ::/0"); ("[Peer]", "PersistentKeepalive", "25")]%string.

Lemma itoa_no_newline n : no_newline_in (itoa n).
Proof. by apply itoa_no_byte. Qed.

Lemma no_newline_app s t : no_newline_in s -> no_newline_in t -> no_newline_in (s ++ t)%string.
Proof. unfold no_newline_in. intros Hs Ht. by rewrite has_byte_append, Hs, Ht. Qed.

(** *** The configuration protocol of wireguard-go

    It takes a key and a value from each line. *)
Definition uapi_read (text : string) : list (string * string) := omap (cut_byte "=") (split_byte newline text).

Lemma uapi_read_line l text : no_newline_in l -> uapi_read (l ++ String newline text) = option_list (cut_byte "=" l) ++ uapi_read text.
Proof. intros H. unfold uapi_read. rewrite split_byte_mid by done. cbn [omap list_omap]. by destruct (cut_byte "=" l). Qed.

Lemma hex_no_newline bs : Forall is_byte bs -> no_newline_in (hex_encode bs).
Proof.
  intros Hbs%hex_encode_lower. apply has_byte_false. intros Hin. rewrite Forall_forall in Hbs. by apply Hbs in Hin.
Qed.

Lemma config_address_no_newline info clientIP :
  no_newline_in (TunnelAddr info) -> no_newline_in clientIP -> no_newline_in (config_address info clientIP).
Proof.
  intros Ht Hc. unfold config_address. case_bool_decide; destruct (contains clientIP ":"); cbn [negb];
    repeat (apply no_newline_app; [by first [done|apply itoa_no_newline]|]);
    by first [done|apply itoa_no_newline].
Qed.

(** The printed configuration says what it was given. As long as no value
    that came from the console holds a line break, a reader of the file finds
    the private key, port, addresses, name server, MTU (when there is one),
    public key, endpoint, routes and keep-alive it was built from, each once and
    in its section, and nothing else. *)
Theorem config_round_trip (priv : string) (port : Z) (endpoint : string) (info : serverInfo) (dns : list string)
    (clientIP : string) (mtu : Z) :
  Forall no_newline_in (priv :: endpoint :: WGPubKey info :: TunnelAddr info :: clientIP :: dns) ->
  read_config EmptyString (split_byte newline (buildConfig priv port endpoint info dns clientIP mtu))
  = config_entries priv port endpoint info dns clientIP mtu.
Proof.
  intros H. do 5 (apply Forall_cons in H as [? H]).
  rewrite buildConfig_lines, split_from_lines.
  - unfold config_lines, ifaceLines, config_entries. destruct dns as [|d dns]; destruct (0 <? mtu); reflexivity.
  - assert (no_newline_in match dns with d :: _ => d | [] => "192.168.88.1"%string end) as Hd
      by (destruct H; done).
    unfold config_lines, ifaceLines. destruct (0 <? mtu); cbn [app];
      repeat (apply Forall_cons; split;
        [by first [done | apply no_newline_app; [done|]; first [done|apply itoa_no_newline|by apply config_address_no_newline]]|]);
      constructor.
Qed.

(** The condition is needed: a name server with a line break adds an entry of its
    own, here a command that wg-quick runs. *)
Example config_injection :
  ("[Interface]", "PostUp", "reboot")%string ∈
  read_config EmptyString (split_byte newline (buildConfig "k" 51820 "192.0.2.1:1"
    {| WGPubKey := "p"; UDPEchoPort := 0; UDPEchoAddr := ""; TunnelMask := 0; TunnelAddr := "fd00::1" |}
    [("1.1.1.1" ++ line_break ++ "PostUp = reboot")%string] "10.0.0.2" 0)).
Proof. apply (bool_decide_unpack _). by vm_compute. Qed.

(** *** Concrete runs *)

(** A curve on which the public key is the private one. *)
#[local] Instance toy_curve : Curve := {| x25519_base := Some |}.
#[local] Instance toy_curve_laws : CurveLaws.
Proof. constructor. intros k p Hl Hb [= <-]. done. Qed.

Lemma keypair_bounds_witness :
  exists priv pub k, wgKeypair (Some (replicate 32 255)) = Some (priv, pub)
    /\ 2 ^ 254 <= scalar k < 2 ^ 255 /\ b64KeyToHex priv = Ok (hex_encode k).
Proof.
  destruct (wgKeypair (Some (replicate 32 255))) as [[priv pub]|] eqn:E; [|by vm_compute in E].
  destruct (keypair_bounds (replicate 32 255) priv pub) as (k & p & Hs & _ & _ & Hk & _);
    [done|by apply Forall_replicate; unfold is_byte; lia|exact E|].
  by exists priv, pub, k.
Defined.

Lemma config_round_trip_witness :
  read_config EmptyString (split_byte newline (buildConfig "k" 51820 "192.0.2.1:1"
    {| WGPubKey := "p"; UDPEchoPort := 0; UDPEchoAddr := ""; TunnelMask := 0; TunnelAddr := "fd00::1" |} [] "10.0.0.2" 1360))
  = [("[Interface]", "PrivateKey", "k"); ("[Interface]", "ListenPort", "51820");
     ("[Interface]", "Address", "10.0.0.2/32, fd00::1/120"); ("[Interface]", "DNS", "192.168.88.1");
     ("[Interface]", "MTU", "1360"); ("[Peer]", "PublicKey", "p"); ("[Peer]", "Endpoint", "192.0.2.1:1");
     ("[Peer]", "AllowedIPs", "0.0.0.0/0, ::/0"); ("[Peer]", "PersistentKeepalive", "25")]%string.
Proof. rewrite config_round_trip; [reflexivity|by repeat constructor]. Defined.

End Keys.
