(* ===== verification/Responses.v ===== *)
(** What the API answers ([api.go], [nomination.go]): the structs its responses are
    decoded into, by the names their tags give, and the values the rest of the
    client reads from them. *)

From S2P Require Import Prelude GoStrings GoJson JsonPrint Redact GoDecode Candidates Ice Keys.
Open Scope Z_scope.

Module Responses.

(** ** The structs

    Each field with its tag; the last argument says when [omitempty] leaves it
    out. *)

Definition keep {A} (_ : A) : bool := false.
Definition omit_slice {A} (s : slice A) : bool := bool_decide (elements s = []).
Definition omit_int (n : Z) : bool := n =? 0.

(** Laws of a list of fields, by going through it. *)
Ltac through_fields i H := repeat (destruct i as [|i]; [cbn in H; apply (inj Some) in H as <-|]); [..|done].

Ltac struct_laws :=
  constructor;
  [ let i := fresh in let f := fresh in let H := fresh in
    intros i f H; through_fields i H; by intros x []
  | let i := fresh in let j := fresh in let f := fresh in let g := fresh in
    let Hne := fresh in let Hf := fresh in let Hg := fresh in
    intros i j f g Hne Hf Hg; through_fields i Hf; through_fields j Hg; solve [done | by intros x []]
  | apply (bool_decide_unpack _); by vm_compute
  | let r := fresh in let r' := fresh in let H := fresh in
    intros r r' H; destruct r, r';
    repeat match goal with |- _ => idtac end;
    f_equal; first [exact (H 0%nat _ eq_refl)|exact (H 1%nat _ eq_refl)|exact (H 2%nat _ eq_refl)
      |exact (H 3%nat _ eq_refl)|exact (H 4%nat _ eq_refl)|exact (H 5%nat _ eq_refl)|exact (H 6%nat _ eq_refl)
      |exact (H 7%nat _ eq_refl)|exact (H 8%nat _ eq_refl)|exact (H 9%nat _ eq_refl)|exact (H 10%nat _ eq_refl)]
  | repeat (constructor; [done|]); constructor ].

Ltac blank_fields :=
  let i := fresh in let f := fresh in let H := fresh in intros i f H; through_fields i H.

Definition cand_fields : list (field Candidates.candidate) := [
  Field "type" Candidates.Type_ (fun x '(Candidates.Build_candidate _ a1) => Candidates.Build_candidate x a1) keep;
  Field "addr" Candidates.Addr (fun x '(Candidates.Build_candidate a0 _) => Candidates.Build_candidate a0 x) keep
].

Lemma cand_lawful : lawful cand_fields.
Proof. struct_laws. Qed.

#[export] Instance cand_struct : Struct Candidates.candidate.
Proof. refine (Build_Struct _ (Candidates.Build_candidate zero zero) cand_fields cand_lawful _). by blank_fields. Defined.

Record iceServer := IceServer {
  URLs : slice string;
  Username : string;
  Credential : string;
}.

Definition ice_fields : list (field iceServer) := [
  Field "urls" URLs (fun x '(IceServer _ a1 a2) => IceServer x a1 a2) keep;
  Field "username" Username (fun x '(IceServer a0 _ a2) => IceServer a0 x a2) keep;
  Field "credential" Credential (fun x '(IceServer a0 a1 _) => IceServer a0 a1 x) keep
].

Lemma ice_lawful : lawful ice_fields.
Proof. struct_laws. Qed.

#[export] Instance ice_struct : Struct iceServer.
Proof. refine (Build_Struct _ (IceServer zero zero zero) ice_fields ice_lawful _). by blank_fields. Defined.

Record peerDesc := PeerDesc {
  Candidates_ : slice Candidates.candidate;
  IceConfig : slice iceServer;
  IsMaster : bool;
}.

Definition peer_fields : list (field peerDesc) := [
  Field "candidates" Candidates_ (fun x '(PeerDesc _ a1 a2) => PeerDesc x a1 a2) keep;
  Field "ice_config" IceConfig (fun x '(PeerDesc a0 _ a2) => PeerDesc a0 x a2) omit_slice;
  Field "is_master" IsMaster (fun x '(PeerDesc a0 a1 _) => PeerDesc a0 a1 x) keep
].

Lemma peer_lawful : lawful peer_fields.
Proof. struct_laws. Qed.

#[export] Instance peer_struct : Struct peerDesc.
Proof. refine (Build_Struct _ (PeerDesc zero zero zero) peer_fields peer_lawful _). by blank_fields. Defined.

Record serverInfo := ServerInfo {
  PeerDesc_ : peerDesc;
  WGPubKey : string;
  UDPEchoPort : Z;
  UDPEchoAddr : string;
  TunnelMask : Z;
  TunnelAddr : string;
}.

Definition info_fields : list (field serverInfo) := [
  Field "peer_desc" PeerDesc_ (fun x '(ServerInfo _ a1 a2 a3 a4 a5) => ServerInfo x a1 a2 a3 a4 a5) keep;
  Field "wg_pub_key" WGPubKey (fun x '(ServerInfo a0 _ a2 a3 a4 a5) => ServerInfo a0 x a2 a3 a4 a5) keep;
  Field "udp_echo_port" UDPEchoPort (fun x '(ServerInfo a0 a1 _ a3 a4 a5) => ServerInfo a0 a1 x a3 a4 a5) keep;
  Field "udp_echo_addr" UDPEchoAddr (fun x '(ServerInfo a0 a1 a2 _ a4 a5) => ServerInfo a0 a1 a2 x a4 a5) keep;
  Field "tunnel_mask" TunnelMask (fun x '(ServerInfo a0 a1 a2 a3 _ a5) => ServerInfo a0 a1 a2 a3 x a5) keep;
  Field "tunnel_addr" TunnelAddr (fun x '(ServerInfo a0 a1 a2 a3 a4 _) => ServerInfo a0 a1 a2 a3 a4 x) keep
].

Lemma info_lawful : lawful info_fields.
Proof. struct_laws. Qed.

#[export] Instance info_struct : Struct serverInfo.
Proof. refine (Build_Struct _ (ServerInfo zero zero zero zero zero zero) info_fields info_lawful _). by blank_fields. Defined.

Record apiResponse := ApiResponse {
  TeleportRequestID : string;
  ResponseType : string;
  Token : string;
  Secret : string;
  IceConfiguration : slice iceServer;
  ServerInfo_ : serverInfo;
  ClientIP : string;
  DNSAddrs : slice string;
  ConnectionState : any;
  Metadata : any;
  StatusCode : Z;
}.

Definition resp_fields `{Floats} : list (field apiResponse) := [
  Field "teleportRequestId" TeleportRequestID (fun x '(ApiResponse _ a1 a2 a3 a4 a5 a6 a7 a8 a9 a10) => ApiResponse x a1 a2 a3 a4 a5 a6 a7 a8 a9 a10) keep;
  Field "response_type" ResponseType (fun x '(ApiResponse a0 _ a2 a3 a4 a5 a6 a7 a8 a9 a10) => ApiResponse a0 x a2 a3 a4 a5 a6 a7 a8 a9 a10) keep;
  Field "token" Token (fun x '(ApiResponse a0 a1 _ a3 a4 a5 a6 a7 a8 a9 a10) => ApiResponse a0 a1 x a3 a4 a5 a6 a7 a8 a9 a10) keep;
  Field "secret" Secret (fun x '(ApiResponse a0 a1 a2 _ a4 a5 a6 a7 a8 a9 a10) => ApiResponse a0 a1 a2 x a4 a5 a6 a7 a8 a9 a10) keep;
  Field "ice_configuration" IceConfiguration (fun x '(ApiResponse a0 a1 a2 a3 _ a5 a6 a7 a8 a9 a10) => ApiResponse a0 a1 a2 a3 x a5 a6 a7 a8 a9 a10) keep;
  Field "server_info" ServerInfo_ (fun x '(ApiResponse a0 a1 a2 a3 a4 _ a6 a7 a8 a9 a10) => ApiResponse a0 a1 a2 a3 a4 x a6 a7 a8 a9 a10) keep;
  Field "client_ip" ClientIP (fun x '(ApiResponse a0 a1 a2 a3 a4 a5 _ a7 a8 a9 a10) => ApiResponse a0 a1 a2 a3 a4 a5 x a7 a8 a9 a10) keep;
  Field "dns_addrs" DNSAddrs (fun x '(ApiResponse a0 a1 a2 a3 a4 a5 a6 _ a8 a9 a10) => ApiResponse a0 a1 a2 a3 a4 a5 a6 x a8 a9 a10) keep;
  Field "connectionStateData" ConnectionState (fun x '(ApiResponse a0 a1 a2 a3 a4 a5 a6 a7 _ a9 a10) => ApiResponse a0 a1 a2 a3 a4 a5 a6 a7 x a9 a10) keep;
  Field "metadata" Metadata (fun x '(ApiResponse a0 a1 a2 a3 a4 a5 a6 a7 a8 _ a10) => ApiResponse a0 a1 a2 a3 a4 a5 a6 a7 a8 x a10) keep;
  Field "status_code" StatusCode (fun x '(ApiResponse a0 a1 a2 a3 a4 a5 a6 a7 a8 a9 _) => ApiResponse a0 a1 a2 a3 a4 a5 a6 a7 a8 a9 x) omit_int
].

Lemma resp_lawful `{Floats} : lawful resp_fields.
Proof. struct_laws. Qed.

#[export] Instance resp_struct `{Floats} : Struct apiResponse.
Proof. refine (Build_Struct _ (ApiResponse zero zero zero zero zero zero zero zero zero zero zero) resp_fields resp_lawful _). by blank_fields. Defined.

Record stateData := StateData {
  DeviceID : string;
  LastStateChangeTimestamp : Z;
  State : string;
}.

Definition state_fields : list (field stateData) := [
  Field "deviceId" DeviceID (fun x '(StateData _ a1 a2) => StateData x a1 a2) keep;
  Field "lastStateChangeTimestamp" LastStateChangeTimestamp (fun x '(StateData a0 _ a2) => StateData a0 x a2) keep;
  Field "state" State (fun x '(StateData a0 a1 _) => StateData a0 a1 x) keep
].

Lemma state_lawful : lawful state_fields.
Proof. struct_laws. Qed.

#[export] Instance state_struct : Struct stateData.
Proof. refine (Build_Struct _ (StateData zero zero zero) state_fields state_lawful _). by blank_fields. Defined.

Record place := Place {
  Lat : string;
  Long : string;
  Radius : Z;
  Text : string;
}.

Definition place_fields : list (field place) := [
  Field "lat" Lat (fun x '(Place _ a1 a2 a3) => Place x a1 a2 a3) keep;
  Field "long" Long (fun x '(Place a0 _ a2 a3) => Place a0 x a2 a3) keep;
  Field "radius" Radius (fun x '(Place a0 a1 _ a3) => Place a0 a1 x a3) keep;
  Field "text" Text (fun x '(Place a0 a1 a2 _) => Place a0 a1 a2 x) keep
].

Lemma place_lawful : lawful place_fields.
Proof. struct_laws. Qed.

#[export] Instance place_struct : Struct place.
Proof. refine (Build_Struct _ (Place zero zero zero zero) place_fields place_lawful _). by blank_fields. Defined.

Record person := Person {
  FirstName : string;
  FullName : string;
  LastName : string;
}.

Definition person_fields : list (field person) := [
  Field "first_name" FirstName (fun x '(Person _ a1 a2) => Person x a1 a2) keep;
  Field "full_name" FullName (fun x '(Person a0 _ a2) => Person a0 x a2) keep;
  Field "last_name" LastName (fun x '(Person a0 a1 _) => Person a0 a1 x) keep
].

Lemma person_lawful : lawful person_fields.
Proof. struct_laws. Qed.

#[export] Instance person_struct : Struct person.
Proof. refine (Build_Struct _ (Person zero zero zero) person_fields person_lawful _). by blank_fields. Defined.

Record console := Console {
  ConsoleDeviceIconId : string;
  ConsoleFingerprintEngineId : Z;
  ConsoleType : string;
  ConsoleUidbIconId : string;
  LocalNetworkName : string;
  Location : place;
  Name : string;
  Owner : person;
  WanIP : string;
}.

Definition console_fields : list (field console) := [
  Field "consoleDeviceIconId" ConsoleDeviceIconId (fun x '(Console _ a1 a2 a3 a4 a5 a6 a7 a8) => Console x a1 a2 a3 a4 a5 a6 a7 a8) keep;
  Field "consoleFingerprintEngineId" ConsoleFingerprintEngineId (fun x '(Console a0 _ a2 a3 a4 a5 a6 a7 a8) => Console a0 x a2 a3 a4 a5 a6 a7 a8) keep;
  Field "consoleType" ConsoleType (fun x '(Console a0 a1 _ a3 a4 a5 a6 a7 a8) => Console a0 a1 x a3 a4 a5 a6 a7 a8) keep;
  Field "consoleUidbIconId" ConsoleUidbIconId (fun x '(Console a0 a1 a2 _ a4 a5 a6 a7 a8) => Console a0 a1 a2 x a4 a5 a6 a7 a8) keep;
  Field "localNetworkName" LocalNetworkName (fun x '(Console a0 a1 a2 a3 _ a5 a6 a7 a8) => Console a0 a1 a2 a3 x a5 a6 a7 a8) keep;
  Field "location" Location (fun x '(Console a0 a1 a2 a3 a4 _ a6 a7 a8) => Console a0 a1 a2 a3 a4 x a6 a7 a8) keep;
  Field "name" Name (fun x '(Console a0 a1 a2 a3 a4 a5 _ a7 a8) => Console a0 a1 a2 a3 a4 a5 x a7 a8) keep;
  Field "owner" Owner (fun x '(Console a0 a1 a2 a3 a4 a5 a6 _ a8) => Console a0 a1 a2 a3 a4 a5 a6 x a8) keep;
  Field "wanIp" WanIP (fun x '(Console a0 a1 a2 a3 a4 a5 a6 a7 _) => Console a0 a1 a2 a3 a4 a5 a6 a7 x) keep
].

Lemma console_lawful : lawful console_fields.
Proof. struct_laws. Qed.

#[export] Instance console_struct : Struct console.
Proof. refine (Build_Struct _ (Console zero zero zero zero zero zero zero zero zero) console_fields console_lawful _). by blank_fields. Defined.

Record metadataResponse := MetadataResponse {
  ConnectionStateData : stateData;
  Metadata_ : console;
}.

Definition meta_fields : list (field metadataResponse) := [
  Field "connectionStateData" ConnectionStateData (fun x '(MetadataResponse _ a1) => MetadataResponse x a1) keep;
  Field "metadata" Metadata_ (fun x '(MetadataResponse a0 _) => MetadataResponse a0 x) keep
].

Lemma meta_lawful : lawful meta_fields.
Proof. struct_laws. Qed.

#[export] Instance meta_struct : Struct metadataResponse.
Proof. refine (Build_Struct _ (MetadataResponse zero zero) meta_fields meta_lawful _). by blank_fields. Defined.

(** ** What the client reads *)

Definition ice_of (s : iceServer) : Ice.Ice.iceServer :=
  {| Ice.Ice.URLs := elements (URLs s); Ice.Ice.Username := Username s; Ice.Ice.Credential := Credential s |}.

Definition peer_candidates (r : apiResponse) : list Candidates.candidate :=
  elements (Candidates_ (PeerDesc_ (ServerInfo_ r))).

Definition info_of (s : serverInfo) : Keys.Keys.serverInfo :=
  {| Keys.Keys.WGPubKey := WGPubKey s; Keys.Keys.UDPEchoPort := UDPEchoPort s; Keys.Keys.UDPEchoAddr := UDPEchoAddr s;
     Keys.Keys.TunnelMask := TunnelMask s; Keys.Keys.TunnelAddr := TunnelAddr s |}.

(** ** The response on the wire, by its names

    The members a response is written as. *)

Definition wire_list {A} (f : A -> json) (s : slice A) : json :=
  match s with SNil => JNull | _ => JArr (f <$> elements s) end.

Definition wire_ice (s : iceServer) : json :=
  JObj [("urls", wire_list JStr (URLs s)); ("username", JStr (Username s)); ("credential", JStr (Credential s))]%string.

Definition wire_candidate (c : Candidates.candidate) : json :=
  JObj [("type", JStr (Candidates.Type_ c)); ("addr", JStr (Candidates.Addr c))]%string.

Definition wire_peer (d : peerDesc) : json :=
  JObj ([("candidates"%string, wire_list wire_candidate (Candidates_ d))]
        ++ (if bool_decide (elements (IceConfig d) = []) then [] else [("ice_config"%string, wire_list wire_ice (IceConfig d))])
        ++ [("is_master"%string, JBool (IsMaster d))]).

Definition wire_info (i : serverInfo) : json :=
  JObj [("peer_desc", wire_peer (PeerDesc_ i)); ("wg_pub_key", JStr (WGPubKey i)); ("udp_echo_port", JNum (itoa (UDPEchoPort i)));
        ("udp_echo_addr", JStr (UDPEchoAddr i)); ("tunnel_mask", JNum (itoa (TunnelMask i)));
        ("tunnel_addr", JStr (TunnelAddr i))]%string.

Definition wire_any (a : any) : json := default JNull (any_value a).

Definition wire_response (r : apiResponse) : list (string * json) :=
  [("teleportRequestId", JStr (TeleportRequestID r)); ("response_type", JStr (ResponseType r)); ("token", JStr (Token r));
    ("secret", JStr (Secret r)); ("ice_configuration", wire_list wire_ice (IceConfiguration r));
    ("server_info", wire_info (ServerInfo_ r)); ("client_ip", JStr (ClientIP r)); ("dns_addrs", wire_list JStr (DNSAddrs r));
    ("connectionStateData", wire_any (ConnectionState r)); ("metadata", wire_any (Metadata r))]%string
  ++ (if StatusCode r =? 0 then [] else [("status_code"%string, JNum (itoa (StatusCode r)))]).

Definition response_names : list string :=
  ["teleportRequestId"; "response_type"; "token"; "secret"; "ice_configuration"; "server_info"; "client_ip"; "dns_addrs";
   "connectionStateData"; "metadata"; "status_code"]%string.

Lemma wire_ice_encode s : encode s = wire_ice s.
Proof. by destruct s as [[|us n] u c]. Qed.

Lemma wire_candidate_encode c : encode c = wire_candidate c.
Proof. by destruct c. Qed.

Lemma wire_list_encode {A} `{Codec A} (f : A -> json) (s : slice A) : (forall x, encode x = f x) -> encode s = wire_list f s.
Proof.
  intros Hf. destruct s as [|b n]; [done|]. change (JArr (encode <$> elements (SSlice b n)) = JArr (f <$> elements (SSlice b n))).
  f_equal. apply list_fmap_ext. by intros _ x _.
Qed.

Lemma wire_peer_encode d : encode d = wire_peer d.
Proof.
  destruct d as [cs ice m]. unfold wire_peer. cbn [Candidates_ IceConfig IsMaster].
  rewrite <- (wire_list_encode wire_candidate cs wire_candidate_encode), <- (wire_list_encode wire_ice ice wire_ice_encode).
  change (encode (PeerDesc cs ice m)) with (JObj (encode_members (PeerDesc cs ice m))). unfold encode_members. cbn [fields peer_struct peer_fields omap list_omap].
  unfold encode_field, omit_slice. cbn [f_omit f_get f_name keep IceConfig]. by destruct (bool_decide (elements ice = [])).
Qed.

Lemma wire_info_encode i : encode i = wire_info i.
Proof. destruct i as [d k p a m t]. unfold wire_info. cbn [PeerDesc_]. by rewrite <- wire_peer_encode. Qed.

(** ** Reading a response, by its names

    What each name stands for, and which values it takes; [null] is one of them
    everywhere. *)
Inductive shape : Type :=
| Text_
| Integer
| Flag
| Anything
| ListOf (s : shape)
| Members (ms : list (string * shape)).

Fixpoint shaped `{Floats} (s : shape) (v : json) : bool :=
  match s, v with
  | Anything, _ => numbers_fit float_in_range v
  | _, JNull | Text_, JStr _ | Flag, JBool _ => true
  | Integer, JNum lit => bool_decide (is_Some (atoi lit))
  | ListOf s, JArr vs => forallb (shaped s) vs
  | Members ns, JObj ms =>
      forallb (fun n => forallb (fun kv => implb (equal_fold_ascii kv.1 n.1) (shaped n.2 kv.2)) ms) ns
  | _, _ => false
  end.

Definition ice_shape : shape := Members [("urls", ListOf Text_); ("username", Text_); ("credential", Text_)]%string.
Definition candidate_shape : shape := Members [("type", Text_); ("addr", Text_)]%string.
Definition peer_shape : shape :=
  Members [("candidates", ListOf candidate_shape); ("ice_config", ListOf ice_shape); ("is_master", Flag)]%string.
Definition info_shape : shape :=
  Members [("peer_desc", peer_shape); ("wg_pub_key", Text_); ("udp_echo_port", Integer); ("udp_echo_addr", Text_);
           ("tunnel_mask", Integer); ("tunnel_addr", Text_)]%string.
Definition response_shape : shape :=
  Members [("teleportRequestId", Text_); ("response_type", Text_); ("token", Text_); ("secret", Text_);
           ("ice_configuration", ListOf ice_shape); ("server_info", info_shape); ("client_ip", Text_);
           ("dns_addrs", ListOf Text_); ("connectionStateData", Anything); ("metadata", Anything);
           ("status_code", Integer)]%string.

(** The last value that the members of a name give; null gives none. *)
Definition text_in (v : json) : option string := match v with JStr s => Some s | _ => None end.
Definition integer_in (v : json) : option Z := match v with JNum lit => atoi lit | _ => None end.
Definition flag_in (v : json) : option bool := match v with JBool b => Some b | _ => None end.
Definition members_in (v : json) : list (string * json) := match v with JObj ms => ms | _ => [] end.

Definition last_of {A} (read : json -> option A) (none : A) (name : string) (ms : list (string * json)) : A :=
  default none (last (omap read (field_values name ms))).
Definition text_of : string -> list (string * json) -> string := last_of text_in EmptyString.
Definition integer_of : string -> list (string * json) -> Z := last_of integer_in 0.
Definition flag_of : string -> list (string * json) -> bool := last_of flag_in false.
Definition any_of (name : string) (ms : list (string * json)) : any :=
  Any (match last (field_values name ms) with None | Some JNull => None | Some v => Some (Redact.last_members v) end).

(** The members of all objects of the name, and the elements of its array. *)
Definition inside (name : string) (ms : list (string * json)) : list (string * json) :=
  concat (members_in <$> field_values name ms).
Definition list_of {A} (f : json -> A) (name : string) (ms : list (string * json)) : slice A :=
  match last (field_values name ms) with Some (JArr vs) => slice_of (f <$> vs) | _ => SNil end.

Definition read_text (v : json) : string := default EmptyString (text_in v).
Definition read_ice (v : json) : iceServer :=
  let ms := members_in v in IceServer (list_of read_text "urls" ms) (text_of "username" ms) (text_of "credential" ms).
Definition read_candidate (v : json) : Candidates.candidate :=
  let ms := members_in v in Candidates.Build_candidate (text_of "type" ms) (text_of "addr" ms).
Definition read_peer (ms : list (string * json)) : peerDesc :=
  PeerDesc (list_of read_candidate "candidates" ms) (list_of read_ice "ice_config" ms) (flag_of "is_master" ms).
Definition read_info (ms : list (string * json)) : serverInfo :=
  ServerInfo (read_peer (inside "peer_desc" ms)) (text_of "wg_pub_key" ms) (integer_of "udp_echo_port" ms)
    (text_of "udp_echo_addr" ms) (integer_of "tunnel_mask" ms) (text_of "tunnel_addr" ms).
Definition read_response (ms : list (string * json)) : apiResponse :=
  ApiResponse (text_of "teleportRequestId" ms) (text_of "response_type" ms) (text_of "token" ms) (text_of "secret" ms)
    (list_of read_ice "ice_configuration" ms) (read_info (inside "server_info" ms)) (text_of "client_ip" ms)
    (list_of read_text "dns_addrs" ms) (any_of "connectionStateData" ms) (any_of "metadata" ms) (integer_of "status_code" ms).

(** No object gives a name of an array or an object twice. *)
Definition nested_names : list string :=
  ["ice_configuration"; "server_info"; "dns_addrs"; "peer_desc"; "candidates"; "ice_config"; "urls"]%string.
Fixpoint once_named (v : json) : bool :=
  match v with
  | JArr vs => forallb once_named vs
  | JObj ms => forallb (fun n => (length (field_values n ms) <=? 1)%nat) nested_names
               && forallb (fun kv => once_named kv.2) ms
  | _ => true
  end.

(** What a response has besides its arrays. *)
Definition scalars (r : apiResponse) :=
  let i := ServerInfo_ r in
  (TeleportRequestID r, ResponseType r, Token r, Secret r, ClientIP r, ConnectionState r, Metadata r, StatusCode r,
   (WGPubKey i, UDPEchoPort i, UDPEchoAddr i, TunnelMask i, TunnelAddr i, IsMaster (PeerDesc_ i))).

(** ** Properties *)

(** *** Shapes *)

Lemma fields_shaped `{Floats} {R} `{Struct R} (ns : list (string * shape)) :
  Forall2 (fun (f : field R) n => f_name f = n.1 /\ forall v, fits (A := f_type f) v = shaped n.2 v) fields ns ->
  forall v, fits (A := R) v = shaped (Members ns) v.
Proof.
  intros Hns [| | | | |ms]; try done. apply eq_bool_prop_intro. cbn [fits struct_decode struct_fits shaped]. rewrite !Is_true_true, !forallb_forall. split.
  - intros Hall n Hn. apply forallb_forall. intros kv Hkv. apply implb_true_iff. intros Hf.
    apply list_elem_of_In, list_elem_of_lookup in Hn as (i & Hi). destruct (Forall2_lookup_r _ _ _ _ _ Hns Hi) as (f & Hfi & Hname & Hfit).
    specialize (Hall kv Hkv). unfold member_fits in Hall. rewrite <- Hname in Hf.
    by rewrite (find_field_spec fields struct_lawful _ _ _ Hfi Hf), Hfit in Hall.
  - intros Hall kv Hkv. unfold member_fits. destruct (find_field fields kv.1) as [f|] eqn:Ef; [|done].
    apply (find_field_Some _ struct_lawful) in Ef as [(i & Hi)%list_elem_of_lookup Hf].
    destruct (Forall2_lookup_l _ _ _ _ _ Hns Hi) as (n & Hn & Hname & Hfit). rewrite Hfit, Hname in *.
    specialize (Hall n). rewrite <- list_elem_of_In in Hall. specialize (Hall (list_elem_of_lookup_2 _ _ _ Hn)).
    rewrite forallb_forall in Hall. specialize (Hall kv Hkv). by rewrite Hf in Hall.
Qed.

Lemma list_shaped `{Floats} {A} `{Decode A} (s : shape) :
  (forall v, fits (A := A) v = shaped s v) -> forall v, fits (A := slice A) v = shaped (ListOf s) v.
Proof. intros Hs [| | | |vs|]; try done. cbn. induction vs as [|v vs IH]; [done|]. cbn [forallb]. by rewrite Hs, IH. Qed.

Lemma text_shaped `{Floats} v : fits (A := string) v = shaped Text_ v.
Proof. by destruct v. Qed.

Ltac shaped_fields := apply fields_shaped; repeat (constructor; [split; [done|cbn [f_type f_decode]]|]); [..|constructor].

Lemma ice_shaped `{Floats} v : fits (A := iceServer) v = shaped ice_shape v.
Proof. shaped_fields; first [apply (list_shaped Text_), text_shaped | by intros []]. Qed.

Lemma candidate_shaped `{Floats} v : fits (A := Candidates.candidate) v = shaped candidate_shape v.
Proof. shaped_fields; by intros []. Qed.

Lemma peer_shaped `{Floats} v : fits (A := peerDesc) v = shaped peer_shape v.
Proof.
  shaped_fields; [apply (list_shaped candidate_shape), candidate_shaped|apply (list_shaped ice_shape), ice_shaped|by intros []].
Qed.

Lemma info_shaped `{Floats} v : fits (A := serverInfo) v = shaped info_shape v.
Proof. shaped_fields; first [exact peer_shaped | by intros []]. Qed.

Lemma response_shaped `{Floats} v : fits (A := apiResponse) v = shaped response_shape v.
Proof.
  shaped_fields; first [ apply (list_shaped ice_shape), ice_shaped | apply (list_shaped Text_), text_shaped
                       | exact info_shaped | by intros [] ].
Qed.

(** *** Values *)

Lemma store_all_scalar {A} `{Decode A} (read : json -> option A) (cur : A) vs x :
  (forall cur v x, store cur v = Some x -> x = default cur (read v)) ->
  store_all cur vs = Some x -> x = default cur (last (omap read vs)).
Proof.
  intros Hread. revert cur. induction vs as [|v vs IH]; intros cur; cbn [store_all]; [by intros [= ->]|].
  intros (y & Hy%Hread & Hx%IH)%bind_Some. cbn [omap list_omap]. destruct (read v) as [a|]; cbn in Hy; subst y; [|done].
  rewrite last_cons. by destruct (last (omap read vs)).
Qed.

Lemma text_stored cur vs x : store_all (A := string) cur vs = Some x -> x = default cur (last (omap text_in vs)).
Proof. apply store_all_scalar. intros c [] y; cbn; by intros [= ->]. Qed.

Lemma integer_stored cur vs x : store_all (A := Z) cur vs = Some x -> x = default cur (last (omap integer_in vs)).
Proof. apply store_all_scalar. intros c [] y; cbn; by intros [= ->]. Qed.

Lemma flag_stored cur vs x : store_all (A := bool) cur vs = Some x -> x = default cur (last (omap flag_in vs)).
Proof. apply store_all_scalar. intros c [] y; cbn; by intros [= ->]. Qed.

Lemma any_stored `{Floats} (cur : any) vs x : store_all cur vs = Some x ->
  x = match last vs with None => cur | Some v => Any (match v with JNull => None | _ => Some (Redact.last_members v) end) end.
Proof.
  revert cur. induction vs as [|v vs IH]; intros cur; cbn [store_all]; [by intros [= ->]|].
  intros (y & Hy & Hx%IH)%bind_Some. rewrite last_cons. destruct (last vs); [done|]. subst x.
  cbn in Hy. unfold any_store in Hy. destruct (numbers_fit _ v); [|done]. by injection Hy as <-.
Qed.

Lemma store_members_app {R} (fs : list (field R)) ms ms' r :
  store_members fs r (ms ++ ms') = store_members fs r ms ≫= fun r' => store_members fs r' ms'.
Proof.
  revert r. induction ms as [|kv ms IH]; intros r; [done|]. cbn [app store_members].
  destruct (store_member fs r kv); cbn [mbind option_bind]; [apply IH|done].
Qed.

(** Objects stored one after the other are one object with the members of all. *)
Lemma struct_stored {R} `{Struct R} (cur : R) vs r :
  store_all cur vs = Some r -> store_members fields cur (concat (members_in <$> vs)) = Some r.
Proof.
  revert cur. induction vs as [|v vs IH]; intros cur; cbn [store_all]; [done|].
  intros (y & Hy & Hx%IH)%bind_Some. rewrite fmap_cons. cbn [concat]. rewrite store_members_app.
  destruct v; try done; cbn in Hy |- *; [by injection Hy as ->|]. by rewrite Hy.
Qed.

Lemma struct_read {R} `{Struct R} v (r : R) : store zero v = Some r -> store_members fields blank (members_in v) = Some r.
Proof. by destruct v. Qed.

Lemma field_stored {R} `{Struct R} ms (r : R) i f : store_members fields blank ms = Some r -> fields !! i = Some f ->
  store_all (zero : f_type f) (field_values (f_name f) ms) = Some (f_get f r).
Proof. intros Hr Hi. rewrite <- (blank_zero i f Hi). by apply (store_members_field fields struct_lawful ms blank r i). Qed.

Lemma elems_stored {A} `{Decode A} (f : json -> A) vs xs :
  Forall (fun v => forall x, store zero v = Some x -> x = f v) vs -> store_elems [] vs = Some xs -> xs = f <$> vs.
Proof.
  intros Hf. revert xs. induction Hf as [|v vs Hv Hvs IH]; intros xs; [by intros [= <-]|]. cbn.
  intros (x & Hx%Hv & Hb)%bind_Some. apply bind_Some in Hb as (xs' & Hxs & [= <-]). by rewrite (IH _ Hxs), Hx.
Qed.

(** What reading needs to know of a value: no name of an array or an object twice. *)
Lemma once_members ms n : once_named (JObj ms) = true -> n ∈ nested_names -> (length (field_values n ms) <= 1)%nat.
Proof.
  cbn [once_named]. rewrite andb_true_iff. intros [Hn _] Hin%list_elem_of_In. rewrite forallb_forall in Hn.
  specialize (Hn n Hin). by apply Nat.leb_le.
Qed.

Lemma once_value ms n v : once_named (JObj ms) = true -> v ∈ field_values n ms -> once_named v = true.
Proof.
  cbn [once_named]. rewrite andb_true_iff. intros [_ Hv]. rewrite forallb_forall in Hv. intros (kv & -> & [_ Hin%list_elem_of_In]%list_elem_of_filter)%list_elem_of_fmap. by apply Hv.
Qed.

Lemma once_members_in v : once_named v = true -> once_named (JObj (members_in v)) = true.
Proof. by destruct v. Qed.

Lemma once_inside ms n : once_named (JObj ms) = true -> n ∈ nested_names -> once_named (JObj (inside n ms)) = true.
Proof.
  intros Ho Hn. pose proof (once_members ms n Ho Hn) as Hl. pose proof (once_value ms n) as Hv. unfold inside.
  destruct (field_values n ms) as [|v [|w vs]]; cbn in Hl; [done| |lia]. cbn [fmap list_fmap concat]. rewrite app_nil_r.
  apply once_members_in, Hv; [done|by left].
Qed.

Lemma list_stored {A} `{Decode A} (f : json -> A) n ms s :
  once_named (JObj ms) = true -> n ∈ nested_names ->
  (forall v x, once_named v = true -> store zero v = Some x -> x = f v) ->
  store_all (SNil : slice A) (field_values n ms) = Some s -> s = list_of f n ms.
Proof.
  intros Ho Hn Hf. pose proof (once_members ms n Ho Hn) as Hl. pose proof (once_value ms n) as Hv. unfold list_of.
  destruct (field_values n ms) as [|v [|w vs]]; cbn in Hl; [by intros [= <-]| |lia].
  specialize (Hv v Ho ltac:(by left)). cbn [store_all last]. intros (y & Hy & [= <-])%bind_Some.
  destruct v as [| | | |vs|]; cbn in Hy; try done; [by injection Hy as <-|]. destruct vs as [|v vs]; [by injection Hy as <-|].
  change (store_elems [] (v :: vs) ≫= (fun b => Some (SSlice b (length (v :: vs)))) = Some y) in Hy.
  apply bind_Some in Hy as (b & Hb & [= <-]). unfold slice_of. rewrite length_fmap. f_equal.
  apply (elems_stored f); [|done]. apply Forall_forall. intros x Hx z. apply Hf. cbn [once_named] in Hv.
  rewrite forallb_forall in Hv. by apply Hv, list_elem_of_In.
Qed.

(** Reading a struct, field by field. *)
Ltac read_field i H :=
  let Hi := fresh in pose proof (field_stored _ _ i _ H eq_refl) as Hi; cbn [f_name f_type f_decode f_get] in Hi;
  first [ apply text_stored in Hi | apply integer_stored in Hi | apply flag_stored in Hi | apply any_stored in Hi
        | apply struct_stored in Hi | idtac ]; revert Hi.

Lemma candidate_read v c : store zero v = Some c -> c = read_candidate v.
Proof. intros Hc%struct_read. read_field 0%nat Hc. read_field 1%nat Hc. destruct c as [t a]. cbn. by intros -> ->. Qed.

Lemma text_read v (s : string) : store zero v = Some s -> s = read_text v.
Proof. destruct v; cbn; by intros [= ->]. Qed.

Lemma ice_read v (i : iceServer) : once_named v = true -> store zero v = Some i -> i = read_ice v.
Proof.
  intros Ho%once_members_in Hi%struct_read. read_field 0%nat Hi. read_field 1%nat Hi. read_field 2%nat Hi.
  destruct i as [u n c]. cbn [URLs Username Credential]. intros -> ->.
  intros ->%(list_stored read_text); [done|done|set_solver|]. intros. by apply text_read.
Qed.

Lemma peer_read ms (d : peerDesc) : store_members fields blank ms = Some d ->
  IsMaster d = flag_of "is_master" ms /\ (once_named (JObj ms) = true -> d = read_peer ms).
Proof.
  intros Hd. read_field 0%nat Hd. read_field 1%nat Hd. read_field 2%nat Hd. destruct d as [cs ice m].
  cbn [Candidates_ IceConfig IsMaster]. intros -> Hice Hcs. split; [done|]. intros Ho.
  apply (list_stored read_ice) in Hice as ->; [|done|set_solver|by intros; apply ice_read].
  apply (list_stored read_candidate) in Hcs as ->; [done|done|set_solver|]. intros. by apply candidate_read.
Qed.

Lemma info_read ms (i : serverInfo) : store_members fields blank ms = Some i ->
  (WGPubKey i, UDPEchoPort i, UDPEchoAddr i, TunnelMask i, TunnelAddr i, IsMaster (PeerDesc_ i))
    = (let r := read_info ms in (WGPubKey r, UDPEchoPort r, UDPEchoAddr r, TunnelMask r, TunnelAddr r, IsMaster (PeerDesc_ r)))
  /\ (once_named (JObj ms) = true -> i = read_info ms).
Proof.
  intros Hi. read_field 0%nat Hi. read_field 1%nat Hi. read_field 2%nat Hi. read_field 3%nat Hi. read_field 4%nat Hi.
  read_field 5%nat Hi. destruct i as [d k p a m t]. cbn [PeerDesc_ WGPubKey UDPEchoPort UDPEchoAddr TunnelMask TunnelAddr].
  intros -> -> -> -> -> Hd. fold (inside "peer_desc" ms) in Hd. destruct (peer_read _ _ Hd) as [Hm Hr].
  split; [cbn; by rewrite Hm|]. intros Ho. rewrite Hr; [done|]. apply once_inside; [done|set_solver].
Qed.

Section floats.
Context `{Floats}.

Lemma any_member n ms (a : any) :
  a = match last (field_values n ms) with None => Any None | Some v => Any (match v with JNull => None | _ => Some (Redact.last_members v) end) end ->
  a = any_of n ms.
Proof. intros ->. unfold any_of. by destruct (last (field_values n ms)) as [[]|]. Qed.

Lemma response_read ms (r : apiResponse) : store_members fields blank ms = Some r ->
  scalars r = scalars (read_response ms) /\ (once_named (JObj ms) = true -> r = read_response ms).
Proof.
  intros Hr. read_field 0%nat Hr. read_field 1%nat Hr. read_field 2%nat Hr. read_field 3%nat Hr. read_field 4%nat Hr.
  read_field 5%nat Hr. read_field 6%nat Hr. read_field 7%nat Hr. read_field 8%nat Hr. read_field 9%nat Hr. read_field 10%nat Hr.
  destruct r as [id ty tok sec ice info ip dns st md code].
  cbn [TeleportRequestID ResponseType Token Secret IceConfiguration ServerInfo_ ClientIP DNSAddrs ConnectionState Metadata StatusCode].
  intros -> Hmd%any_member Hst%any_member Hdns -> Hinfo Hice -> -> -> ->. subst md st.
  fold (inside "server_info" ms) in Hinfo. destruct (info_read _ _ Hinfo) as [Hi Hread].
  split; [unfold scalars; cbn [ServerInfo_ read_response]; by rewrite Hi|]. intros Ho.
  rewrite Hread by (apply once_inside; [done|set_solver]).
  apply (list_stored read_ice) in Hice as ->; [|done|set_solver|by intros; apply ice_read].
  apply (list_stored read_text) in Hdns as ->; [done|done|set_solver|]. intros. by apply text_read.
Qed.

(** [C14] Decoding any text into a response, by the names of the API. It fails
    exactly when the text is no JSON, or its value does not have the shape of a
    response: an object, or null, whose members of each name in use (up to case
    folding) hold values of that name's type, and so on inside the objects and
    arrays. When it succeeds on an object, the request id, the type, the token, the
    secret, the client's address, the state, the metadata, the status, the console's
    key and its echo and tunnel parameters are each the last value that the members
    of their own name give, wherever the text has them; and the whole response,
    with its candidates, ICE servers and DNS addresses, is the one read off the
    text, if no object gives the name of an array or an object twice. *)
Theorem response_decoding (data : string) :
  (unmarshal (A := apiResponse) data = None <->
     forall v, parse_json data = Some v -> shaped response_shape v = false)
  /\ (parse_json data = Some JNull -> unmarshal data = Some (read_response []))
  /\ forall r ms, unmarshal data = Some r -> parse_json data = Some (JObj ms) ->
       scalars r = scalars (read_response ms) /\ (once_named (JObj ms) = true -> r = read_response ms).
Proof.
  unfold unmarshal. destruct (parse_json data) as [v|]; cbn [mbind option_bind]; [|by split; [split|]].
  split; [|split; [by intros [= ->]|by intros r ms Hr [= ->]; apply response_read]]. rewrite eq_None_not_Some, store_fits, response_shaped.
  split; [by intros Hn w [= <-]; apply not_true_iff_false|]. intros Hv. by rewrite Hv.
Qed.

(** *** Responses as they are sent *)

Definition sendable_list {A} (P : A -> Prop) (s : slice A) : Prop := s = SNil \/ exists xs, s = slice_of xs /\ Forall P xs.
Definition sendable_ice (s : iceServer) : Prop := sendable_list utf8 (URLs s) /\ utf8 (Username s) /\ utf8 (Credential s).
Definition sendable_candidate (c : Candidates.candidate) : Prop := utf8 (Candidates.Type_ c) /\ utf8 (Candidates.Addr c).

(** Strings are UTF-8, integers fit 64 bits, a list is nil or of such values, and an
    [ice_config] without elements is nil. *)
Definition sendable_peer (d : peerDesc) : Prop :=
  sendable_list sendable_candidate (Candidates_ d) /\ sendable_list sendable_ice (IceConfig d)
  /\ (elements (IceConfig d) = [] -> IceConfig d = SNil).
Definition sendable_info (i : serverInfo) : Prop :=
  sendable_peer (PeerDesc_ i) /\ utf8 (WGPubKey i) /\ in_int64 (UDPEchoPort i) /\ utf8 (UDPEchoAddr i)
  /\ in_int64 (TunnelMask i) /\ utf8 (TunnelAddr i).
Definition sendable (r : apiResponse) : Prop :=
  Forall utf8 [TeleportRequestID r; ResponseType r; Token r; Secret r; ClientIP r]
  /\ sendable_list sendable_ice (IceConfiguration r) /\ sendable_info (ServerInfo_ r) /\ sendable_list utf8 (DNSAddrs r)
  /\ regular_any (ConnectionState r) /\ regular_any (Metadata r) /\ in_int64 (StatusCode r).

(** One field of a regular struct, its value regular by [t]. *)
Ltac regular_field t := apply Forall_cons_2; [split; [t|first [discriminate|by intros _]]|].

Lemma sendable_list_regular {A} `{Codec A} (P : A -> Prop) s : (forall x, P x -> regular x) -> sendable_list P s -> regular s.
Proof. intros HP [->|(xs & -> & Hxs)]; [by left|]. right. exists xs. split; [done|]. by eapply Forall_impl. Qed.

Lemma sendable_ice_regular s : sendable_ice s -> regular s.
Proof.
  intros (Hu & Hn & Hc). regular_field ltac:(by apply (sendable_list_regular utf8)).
  do 2 regular_field ltac:(done). constructor.
Qed.

Lemma sendable_candidate_regular c : sendable_candidate c -> regular c.
Proof. intros [Ht Ha]. do 2 regular_field ltac:(done). constructor. Qed.

Lemma sendable_peer_regular d : sendable_peer d -> regular d.
Proof.
  intros (Hc & Hi & Ho). regular_field ltac:(by apply (sendable_list_regular sendable_candidate); [apply sendable_candidate_regular|]).
  apply Forall_cons_2; [split; [by apply (sendable_list_regular sendable_ice); [apply sendable_ice_regular|]|]|].
  { intros He. apply bool_decide_eq_true in He. by apply Ho. }
  regular_field ltac:(exact I). constructor.
Qed.

Lemma sendable_regular r : sendable r -> regular_struct r.
Proof.
  intros (Ht & Hi & (Hp & Hk & Hport & Ha & Hm & Hta) & Hd & Hs & Hmd & Hc).
  repeat (apply Forall_cons in Ht as [? Ht]).
  do 4 regular_field ltac:(done). regular_field ltac:(by apply (sendable_list_regular sendable_ice); [apply sendable_ice_regular|]).
  apply Forall_cons_2; [split; [|discriminate]|].
  { regular_field ltac:(by apply sendable_peer_regular). do 5 regular_field ltac:(done). constructor. }
  regular_field ltac:(done). regular_field ltac:(by apply (sendable_list_regular utf8)).
  do 2 regular_field ltac:(done). apply Forall_cons_2; [split; [done|by intros ?%Z.eqb_eq]|]. constructor.
Qed.

Lemma wire_response_encode r : encode_members r = wire_response r.
Proof.
  destruct r as [id ty tok sec ice info ip dns st md code]. unfold wire_response.
  cbn [TeleportRequestID ResponseType Token Secret IceConfiguration ServerInfo_ ClientIP DNSAddrs ConnectionState Metadata StatusCode].
  rewrite <- (wire_list_encode wire_ice ice wire_ice_encode), <- wire_info_encode, <- (wire_list_encode JStr dns) by done.
  unfold encode_members, encode_field, omit_int. cbn [fields resp_struct resp_fields omap list_omap f_omit f_get f_name keep StatusCode].
  unfold omit_int. by destruct (code =? 0).
Qed.

(** [C15] A response means what its sender wrote. Written as the members of the API's
    names, in any order and with members of other names among them, any response is
    decoded to itself from its text. Its strings are UTF-8, its integers fit 64
    bits, its lists are nil or of such values, an [ice_config] without elements is
    nil and so is left out, as is a status of zero; its free values are such as
    decoding keeps. *)
Theorem response_round_trip (r : apiResponse) (ms extra : list (string * json)) :
  sendable r -> Permutation ms (wire_response r ++ extra) ->
  Forall (fun kv => Forall (fun n => equal_fold_ascii kv.1 n = false) response_names) extra ->
  Forall (fun kv => utf8 kv.1 /\ utf8_json kv.2 /\ numbers_fit is_number kv.2 = true /\ nesting kv.2 <= 9999) extra ->
  unmarshal (json_print (JObj ms)) = Some r.
Proof.
  intros Hr Hp He Hex. apply (unmarshal_any_order r ms extra); [by apply sendable_regular| |by rewrite wire_response_encode|done|done].
  eapply Forall_impl; [exact He|]. intros kv Hkv i f Hi. rewrite Forall_forall in Hkv. apply Hkv.
  assert (response_names = f_name <$> fields (R := apiResponse)) as -> by done. apply list_elem_of_fmap. exists f. split; [done|].
  by eapply list_elem_of_lookup_2.
Qed.

End floats.

(** *** A concrete response *)

Definition sample_response : apiResponse :=
  ApiResponse "r1" "CONNECT_RESPONSE" "" "" (slice_of [IceServer SNil "u" "p"])
    (ServerInfo (PeerDesc (slice_of [Candidates.Build_candidate "turn" "203.0.113.5:3478"]) SNil true) "a2V5" 51820 "10.1.0.1" 24 "10.1.0.2")
    "10.0.0.2" (slice_of ["10.1.0.1"]) (Any None) (Any None) 0.

Definition sample_members : list (string * json) :=
  reverse (wire_response sample_response ++ [("server_time", JNum "1.5e3")]).

Lemma sample_sendable : @sendable {| float_in_range _ := true |} sample_response.
Proof.
  split; [repeat (apply Forall_cons_2; [by vm_compute|]); constructor|].
  split; [right; eexists [_]; split; [reflexivity|apply Forall_singleton; split; [by left|by split; vm_compute]]|].
  split.
  { split; [|split; [by vm_compute|split; [by split|split; [by vm_compute|split; [by split|by vm_compute]]]]].
    split; [right; eexists [_]; split; [reflexivity|apply Forall_singleton; by split; vm_compute]|]. by split; [left|]. }
  split; [right; eexists [_]; split; [reflexivity|apply Forall_singleton; by vm_compute]|]. by split_and!.
Qed.

Lemma response_round_trip_witness :
  @unmarshal apiResponse (@struct_decode _ (@resp_struct {| float_in_range _ := true |})) (json_print (JObj sample_members))
  = Some sample_response.
Proof.
  apply (@response_round_trip {| float_in_range _ := true |} sample_response sample_members [("server_time", JNum "1.5e3")]%string).
  - exact sample_sendable.
  - apply reverse_Permutation.
  - apply Forall_singleton. repeat (apply Forall_cons_2; [by vm_compute|]). constructor.
  - apply Forall_singleton. split_and!; [by vm_compute|constructor|by vm_compute|discriminate].
Defined.

(** The names tell the fields apart. *)
Example sample_read :
  let ms := [("SECRET", JStr "s"); ("token", JStr "t"); ("server_info", JObj [("wg_pub_key", JStr "k"); ("key", JStr "x")]);
             ("token", JNull)]%string in
  let r := read_response ms in
  (Token r, Secret r, WGPubKey (ServerInfo_ r)) = ("t", "s", "k")%string
  /\ @unmarshal apiResponse (@struct_decode _ (@resp_struct {| float_in_range _ := true |})) (json_print (JObj ms)) = Some r.
Proof. split; by vm_compute. Qed.

End Responses.
