(* ===== verification/Requests.v ===== *)
(** The client's requests to the API ([api.go], [main.go]), from the values it
    sends to the values it reads: the URL and body of a request, the decoding of
    its answer, the polls for a result, and the exchanges built from them. *)

From S2P Require Import Prelude Lists GoStrings GoNet GoJson JsonPrint GoUrl GoDecode Redact Api Candidates Ice Invite Session Negotiate Client Responses.
Open Scope Z_scope.

Import Redact Api Candidates Responses.

Module Requests.

(** ** Bodies *)

(** [apiEnvelope]. *)
Definition apiEnvelope (token : string) (payload : json) : json :=
  JObj [("token", JStr token); ("payload", payload)]%string.

Definition access_body (token invite clientID name : string) : json :=
  apiEnvelope token (marshal_map
    [("request_type", JStr "REQUEST_ACCESS"); ("secret", JStr invite); ("client_id", JStr clientID);
     ("client_name", JStr name)]%string).

Definition ice_body (token secret : string) : json :=
  apiEnvelope token (marshal_map [("request_type", JStr "GET_ICE_CONFIGURATION"); ("secret", JStr secret)]%string).

Definition connect_body (session : Client.Client.sessionResult) (name pub stunSecret : string) (local : list candidate)
    (ice : slice iceServer) : json :=
  apiEnvelope (Client.Client.Token session) (marshal_map
    [("request_type", JStr "CONNECT"); ("secret", JStr (Client.Client.Secret session)); ("client_name", JStr name);
     ("client_info", marshal_map
        [("wg_pub_key", JStr pub); ("stun_session_secret", JStr stunSecret);
         ("peer_desc", encode (PeerDesc (slice_of local) ice false))])]%string).

(** ** apiRequestContext *)

(** What goes out: always with the content type of JSON. *)
Record http_request := { q_method : string; q_url : string; q_body : option string }.

Section requests.
(** The texts of the errors of [url.Parse] and [json.Unmarshal]. *)
Context `{Floats} (url_error json_error : string -> string).

Definition unmarshal_response (data : string) : result string apiResponse :=
  match unmarshal data with Some r => Ok r | None => Err (json_error data) end.

(** A reply without a body has nothing but its status. *)
Definition status_only (status : Z) : apiResponse :=
  let '(ApiResponse id ty tok sec ice info ip dns st md _) := blank in
  ApiResponse id ty tok sec ice info ip dns st md status.

Definition reply (r : api_reply) : apiResponse :=
  match r with StatusOnly status => status_only status | Decoded r => r end.

(** The request sent, unless its URL does not parse, and what the call returns.
    [ended] is how [client.Do] ends. *)
Definition apiRequestContext (baseURL method path token : string) (body : option json) (ended : exchange_end)
  : option http_request * result request_err apiResponse :=
  let reqURL := request_url baseURL path token in
  match parse_url reqURL with
  | None => (None, Err (plainError (url_error reqURL)))
  | Some _ =>
      (Some {| q_method := method; q_url := reqURL; q_body := json_print <$> body |},
       match finish_request unmarshal_response method path token ended with
       | Ok r => Ok (reply r)
       | Err e => Err e
       end)
  end.

Definition apiRequestFunc (method path token : string) (body : option json) (ended : exchange_end)
  : option http_request * result request_err apiResponse :=
  apiRequestContext apiBase method path token body ended.

(** ** Polling *)

(** One turn: the wait is cut short, or the poll's exchange ends. *)
Inductive poll_step : Type :=
| WaitEnds (ctx_error : string)
| Answers (ended : exchange_end).

Definition poll_turn_of (token requestID : string) (step : poll_step) : poll_turn :=
  match step with
  | WaitEnds e => WaitCancelled e
  | Answers ended => Polled (apiRequestFunc "GET" ("/" ++ requestID)%string token None ended).2
  end.

(** [None] while turns are still to come. *)
Definition poll (token requestID want : string) (maxTries : Z) (steps : list poll_step)
  : option (result poll_err (option apiResponse)) :=
  pollForResponseWithContext ResponseType want maxTries (poll_turn_of token requestID <$> steps).

(** ** Errors, as the client tells them apart *)

Definition context_canceled : string := "context canceled".

Definition client_error (e : string) : Client.Client.client_err :=
  if bool_decide (e = context_canceled) then Client.Client.Canceled else Client.Client.Failed e.

Definition request_failure (e : request_err) : Client.Client.client_err :=
  if bool_decide (Unwrap e = Some context_canceled) then Client.Client.Canceled else Client.Client.Failed (Error e).

Definition poll_failure (e : poll_err) : Client.Client.client_err :=
  match e with PollCancelled e => client_error e | PollFailed e => request_failure e end.

Definition with_failure {E A B} (fail : E -> Client.Client.client_err) (f : A -> B) (r : result E A)
  : result Client.Client.client_err B :=
  match r with Ok a => Ok (f a) | Err e => Err (fail e) end.

(** ** The exchanges

    How the posted request ends, and the turns of the poll for its result. *)
Record exchange := { x_posted : exchange_end; x_steps : list poll_step }.

(** The id the API gave the request. *)
Definition posted (body : json) (x : exchange) : result Client.Client.client_err string :=
  with_failure request_failure TeleportRequestID
    (apiRequestContext apiBase "POST" "/" EmptyString (Some body) (x_posted x)).2.

(** The poll that follows, once the post has succeeded. *)
Definition polled (body : json) (token want : string) (maxTries : Z) (x : exchange)
  : option (result Client.Client.client_err (option apiResponse)) :=
  match posted body x with
  | Err e => Some (Err e)
  | Ok requestID => with_failure poll_failure id <$> poll token requestID want maxTries (x_steps x)
  end.

Definition fetchICEConfiguration (token secret : string) (x : exchange)
  : option (list Ice.Ice.api_action * result (Ice.Ice.exchange_err Client.Client.client_err) (list iceServer)) :=
  let body := ice_body token secret in
  polled ← polled body token "ICE_CONFIGURATION" 100 x;
  Some (Ice.Ice.fetchICEConfiguration (posted body x)
          (with_failure id (fmap (fun r => elements (IceConfiguration r))) polled)).

Definition connectAndAwaitResponse (session : Client.Client.sessionResult) (name pub stunSecret : string)
    (local : list candidate) (ice : list iceServer) (x : exchange)
  : option (list Ice.Ice.api_action * result (Ice.Ice.exchange_err Client.Client.client_err) apiResponse) :=
  let body := connect_body session name pub stunSecret local (slice_of ice) in
  polled ← polled body (Client.Client.Token session) "CONNECT_RESPONSE" 200 x;
  Some (Ice.Ice.connectAndAwaitResponse (posted body x) polled).

(** ** establishSession *)

(** What a pairing meets besides its exchange: the random bytes of the client id,
    the session file's contents, and the context's error after the poll. *)
Record pairing := { p_random : option (list Z); p_file : option string; p_exchange : exchange; p_ctx : option string }.

Definition load_failure : Client.Client.client_err := Client.Client.Failed "failed to load session".

(** [None]: a panic, or turns still to come. *)
Definition establishSession `{Invite.Invite.Kdf} `{Session.Session.TimeText} (flags : Client.Client.cliFlags) (name : string)
    (p : pairing) : option (list Client.Client.pairing_action * result Client.Client.client_err Client.Client.sessionResult) :=
  let loaded :=
    match Session.Session.loadSession (p_file p) with
    | Ok s => Ok (Session.Session.SessionToken s, Session.Session.SessionSecret s)
    | Err _ => Err load_failure
    end in
  if bool_decide (Client.Client.invite flags = EmptyString) then
    Some (Client.Client.establishSession flags
      {| Client.Client.pe_loaded := loaded; Client.Client.pe_device_token := EmptyString;
         Client.Client.pe_access := Err load_failure; Client.Client.pe_poll := Ok None; Client.Client.pe_ctx := None |})
  else
    token ← Invite.Invite.secretToToken (Client.Client.invite flags);
    clientID ← Invite.Invite.randomUUID (p_random p);
    let body := access_body token (Client.Client.invite flags) clientID name in
    polled ← polled body token "ACCESS_GRANTED" 60 (p_exchange p);
    Some (Client.Client.establishSession flags
      {| Client.Client.pe_loaded := loaded; Client.Client.pe_device_token := token;
         Client.Client.pe_access := posted body (p_exchange p);
         Client.Client.pe_poll := with_failure id (fmap (fun r => (Token r, Secret r))) polled;
         Client.Client.pe_ctx := client_error <$> p_ctx p |}).

End requests.

(** ** What goes over the wire *)

Section wire.
Context `{Floats} (url_error json_error : string -> string).

(** A value at a path of member names. *)
Fixpoint at_path (ks : list string) (v : json) : option json :=
  match ks, v with
  | [], _ => Some v
  | k :: ks', JObj ms => head (field_values k ms) ≫= at_path ks'
  | _ :: _, _ => None
  end.

(** A text, an ICE server and a candidate as the console gets them: bytes that are
    not UTF-8 become U+FFFD, and all others stay. *)
Definition sent_list {A B} (f : A -> B) (s : slice A) : slice B :=
  match s with SNil => SNil | _ => slice_of (f <$> elements s) end.
Definition sent_ice (s : iceServer) : iceServer :=
  IceServer (sent_list sanitize (URLs s)) (sanitize (Username s)) (sanitize (Credential s)).
Definition sent_candidate (c : candidate) : candidate := Build_candidate (sanitize (Type_ c)) (sanitize (Addr c)).

(** The description of the client in a CONNECT, as the console decodes it. *)
Definition described (local : list candidate) (ice : list iceServer) : peerDesc :=
  PeerDesc (slice_of (sent_candidate <$> local)) (match ice with [] => SNil | _ => slice_of (sent_ice <$> ice) end) false.

Lemma sent_list_sendable {A B} (P : B -> Prop) (f : A -> B) s : (forall x, P (f x)) -> sendable_list P (sent_list f s).
Proof.
  intros HP. destruct s as [|b n]; [by left|]. right. eexists. split; [reflexivity|]. apply Forall_fmap, Forall_true, HP.
Qed.

Lemma described_sendable local ice : sendable_peer (described local ice).
Proof.
  split; [|split].
  - right. eexists. split; [reflexivity|]. apply Forall_fmap, Forall_true. intros c. split; apply utf8_sanitize.
  - destruct ice as [|s ice]; [by left|]. right. eexists. split; [reflexivity|]. apply Forall_fmap, Forall_true. intros x.
    split; [apply sent_list_sendable, utf8_sanitize|]. split; apply utf8_sanitize.
  - destruct ice as [|s ice]; [done|]. cbn [described IceConfig]. by rewrite elements_slice_of.
Qed.

Lemma described_regular local ice : regular (described local ice).
Proof. apply sendable_peer_regular, described_sendable. Qed.

Lemma clean_list {A B} (f : A -> json) (g : B -> json) (h : A -> B) s :
  (forall x, clean (f x) = g (h x)) -> clean (wire_list f s) = wire_list g (sent_list h s).
Proof.
  intros Hf. destruct s as [|b n]; [done|].
  change (JArr (List.map clean (f <$> elements (SSlice b n))) = JArr (g <$> elements (slice_of (h <$> elements (SSlice b n))))).
  rewrite elements_slice_of. f_equal. change (clean <$> (f <$> elements (SSlice b n)) = g <$> (h <$> elements (SSlice b n))).
  rewrite <- !list_fmap_compose. apply list_fmap_ext. intros _ x _. apply Hf.
Qed.

Lemma clean_ice s : clean (wire_ice s) = wire_ice (sent_ice s).
Proof.
  change (clean (wire_ice s)) with (JObj [("urls", clean (wire_list JStr (URLs s))); ("username", JStr (sanitize (Username s)));
    ("credential", JStr (sanitize (Credential s)))])%string.
  by rewrite (clean_list JStr JStr sanitize).
Qed.

(** The description that is written is, once read, that of [described]. *)
Lemma clean_described local ice : clean (encode (PeerDesc (slice_of local) (slice_of ice) false)) = wire_peer (described local ice).
Proof.
  rewrite wire_peer_encode. unfold wire_peer. cbn [Candidates_ IceConfig IsMaster described].
  assert (clean (wire_list wire_candidate (slice_of local)) = wire_list wire_candidate (slice_of (sent_candidate <$> local))) as Hc.
  { rewrite (clean_list wire_candidate wire_candidate sent_candidate) by done. cbn [slice_of sent_list]. by rewrite elements_slice_of. }
  assert (clean (wire_list wire_ice (slice_of ice)) = wire_list wire_ice (slice_of (sent_ice <$> ice))) as Hi.
  { rewrite (clean_list wire_ice wire_ice sent_ice) by apply clean_ice. cbn [slice_of sent_list]. by rewrite elements_slice_of. }
  destruct ice as [|s ice]; [rewrite !bool_decide_true by done|].
  - change (JObj [("candidates", clean (wire_list wire_candidate (slice_of local))); ("is_master", JBool false)]
      = JObj [("candidates", wire_list wire_candidate (slice_of (sent_candidate <$> local))); ("is_master", JBool false)])%string. by rewrite Hc.
  - rewrite !bool_decide_false by (by rewrite elements_slice_of).
    change (JObj [("candidates", clean (wire_list wire_candidate (slice_of local)));
                  ("ice_config", clean (wire_list wire_ice (slice_of (s :: ice)))); ("is_master", JBool false)]
      = JObj [("candidates", wire_list wire_candidate (slice_of (sent_candidate <$> local)));
              ("ice_config", wire_list wire_ice (slice_of (sent_ice <$> s :: ice))); ("is_master", JBool false)])%string.
    by rewrite Hc, Hi.
Qed.

(** The value the console parses from the body of a CONNECT. *)
Definition connect_value (session : Client.Client.sessionResult) (name pub stunSecret : string) (d : json) : json :=
  JObj [("token", JStr (sanitize (Client.Client.Token session)));
        ("payload", JObj
          [("client_info", JObj [("peer_desc", d); ("stun_session_secret", JStr (sanitize stunSecret)); ("wg_pub_key", JStr (sanitize pub))]);
           ("client_name", JStr (sanitize name)); ("request_type", JStr "CONNECT");
           ("secret", JStr (sanitize (Client.Client.Secret session)))])]%string.

Lemma connect_parsed session name pub stunSecret local ice :
  parse_json (json_print (connect_body session name pub stunSecret local (slice_of ice)))
  = Some (connect_value session name pub stunSecret (wire_peer (described local ice))).
Proof.
  pose proof (described_regular local ice) as Hr. pose proof (encode_numbers _ Hr) as Hn. pose proof (encode_level _ Hr) as Hd.
  rewrite wire_peer_encode, <- clean_described in Hn, Hd. rewrite numbers_fit_clean in Hn. rewrite nesting_clean in Hd.
  change (level (A := peerDesc)) with 4 in Hd. unfold connect_body. rewrite <- clean_described.
  set (d := encode (PeerDesc (slice_of local) (slice_of ice) false)) in *. clearbody d. clear Hr. rewrite parse_json_print; [done|..].
  - change (numbers_fit is_number d && true && true && true = true). by rewrite Hn.
  - change (1 + Z.max 0 (Z.max (1 + Z.max (1 + Z.max (nesting d) 0) 0) 0) <= 10000). lia.
Qed.

(** [C12] The console is told what the client holds, down to the bytes. The body of
    a CONNECT parses as JSON, whatever texts the client holds, and the console
    finds in it, under the API's names, the session's token and secret, the
    client's key and STUN secret, its name, and a description with the very
    candidates and ICE servers, in their order. All texts are those held where
    they are UTF-8, with U+FFFD for bytes that are not. *)
Theorem connect_request_round_trip (session : Client.Client.sessionResult) (name pub stunSecret : string)
    (local : list candidate) (ice : list iceServer) (ended : exchange_end) :
  exists q text v d,
    (apiRequestContext url_error json_error apiBase "POST" "/" EmptyString
       (Some (connect_body session name pub stunSecret local (slice_of ice))) ended).1 = Some q
    /\ q_url q = (apiBase ++ "/")%string /\ q_body q = Some text /\ parse_json text = Some v
    /\ at_path ["token"] v = Some (JStr (sanitize (Client.Client.Token session)))
    /\ at_path ["payload"; "request_type"] v = Some (JStr "CONNECT")
    /\ at_path ["payload"; "secret"] v = Some (JStr (sanitize (Client.Client.Secret session)))
    /\ at_path ["payload"; "client_name"] v = Some (JStr (sanitize name))
    /\ at_path ["payload"; "client_info"; "wg_pub_key"] v = Some (JStr (sanitize pub))
    /\ at_path ["payload"; "client_info"; "stun_session_secret"] v = Some (JStr (sanitize stunSecret))
    /\ at_path ["payload"; "client_info"; "peer_desc"] v = Some (wire_peer d) /\ store zero (wire_peer d) = Some d
    /\ (fun c => (Type_ c, Addr c)) <$> elements (Candidates_ d) = (fun c => (sanitize (Type_ c), sanitize (Addr c))) <$> local
    /\ (fun s => (elements (URLs s), Username s, Credential s)) <$> elements (IceConfig d)
       = (fun s => (sanitize <$> elements (URLs s), sanitize (Username s), sanitize (Credential s))) <$> ice
    /\ IsMaster d = false.
Proof.
  unfold apiRequestContext.
  assert (is_Some (parse_url (request_url apiBase "/" EmptyString))) as [u ->] by (by eexists; vm_compute).
  do 2 eexists. exists (connect_value session name pub stunSecret (wire_peer (described local ice))), (described local ice).
  do 3 (split; [reflexivity|]). split; [apply connect_parsed|]. do 7 (split; [reflexivity|]).
  split; [rewrite <- wire_peer_encode; apply round_trip, described_regular|].
  split; [cbn [described Candidates_]; by rewrite elements_slice_of, <- list_fmap_compose|]. split; [|done].
  destruct ice as [|s ice]; [done|]. cbn [described IceConfig]. rewrite elements_slice_of, <- list_fmap_compose.
  apply list_fmap_ext. intros ? [us n c] _. unfold compose, sent_ice. cbn [URLs Username Credential].
  destruct us as [|b m]; [done|]. cbn [sent_list]. by rewrite elements_slice_of.
Qed.

(** ** Where an answer comes from *)

Lemma poll_loop_found {R} (ty : R -> string) want left n turns p :
  poll_loop ty want left n turns = Some (Ok (Some p)) -> Polled (Ok p) ∈ turns /\ ty p = want.
Proof.
  revert n turns. induction left as [|left IH]; intros n [|t turns]; cbn [poll_loop]; try done.
  destruct t as [e|[q|e]]; [done|..].
  - case_bool_decide; [intros [= ->]; by split; [left|]|]. intros [? ?]%IH. by split; [right|].
  - destruct (isTransientAPIError e); cbn [negb]; [|done]. destruct (_ <=? _); [done|]. intros [? ?]%IH. by split; [right|].
Qed.

(** A successful request has a response below 400, and returns what its body
    decodes to, or nothing but the status. *)
Lemma request_ok base method path token body ended r :
  (apiRequestContext url_error json_error base method path token body ended).2 = Ok r ->
  exists status text data, ended = Responded status text data /\ status < 400
    /\ (unmarshal data = Some r /\ status <> 202 /\ data <> EmptyString \/ r = status_only status).
Proof.
  unfold apiRequestContext. destruct (parse_url _) as [u|]; [|done]. cbn [snd]. unfold finish_request.
  destruct ended as [m [c|]|status text data]; [done|done|]. destruct (Z.leb_spec 400 status); [done|].
  destruct (Z.eqb_spec status 202); cbn [orb]; [intros [= <-]; eexists _, _, _; by split_and!; [..|right]|].
  case_bool_decide; [intros [= <-]; eexists _, _, _; by split_and!; [..|right]|].
  unfold unmarshal_response. destruct (unmarshal data) as [r'|] eqn:E; [|done]. intros [= <-].
  exists status, text, data. cbn. split_and!; [done|done|]. by left.
Qed.

(** The provenance of what a poll returns. *)
Lemma polled_provenance (body : json) (token want : string) (maxTries : Z) (x : exchange) (r : apiResponse) :
  want <> EmptyString ->
  polled url_error json_error body token want maxTries x = Some (Ok (Some r)) ->
  exists accepted status0 text0 data0,
    x_posted x = Responded status0 text0 data0 /\ status0 < 400
    /\ posted url_error json_error body x = Ok (TeleportRequestID accepted)
    /\ (unmarshal data0 = Some accepted \/ accepted = status_only status0)
    /\ exists status text data, Answers (Responded status text data) ∈ x_steps x /\ status < 400 /\ status <> 202
         /\ unmarshal data = Some r /\ ResponseType r = want
         /\ (apiRequestFunc url_error json_error "GET" ("/" ++ TeleportRequestID accepted) token None (Responded status text data)).2
            = Ok r.
Proof.
  intros Hw. unfold polled, posted.
  destruct (apiRequestContext url_error json_error apiBase "POST" "/" EmptyString (Some body) (x_posted x)).2 as [a|e] eqn:Ea;
    cbn [with_failure]; [|done]. pose proof (request_ok _ _ _ _ _ _ _ Ea) as (st0 & t0 & d0 & Hx & Hst0 & Ha).
  intros (pr & Hp & Hpr)%fmap_Some. destruct pr as [o|e]; [|done]. injection Hpr as Ho. unfold id in Ho. subst o.
  unfold poll, pollForResponseWithContext in Hp. apply poll_loop_found in Hp as [Hin Hty].
  apply list_elem_of_fmap in Hin as (step & Hstep & Hin). destruct step as [e|ended]; [done|].
  cbn [poll_turn_of] in Hstep. injection Hstep as Hr. symmetry in Hr. unfold apiRequestFunc in Hr.
  pose proof (request_ok _ _ _ _ _ _ _ Hr) as (st & t & d & -> & Hst & Hd).
  exists a, st0, t0, d0. split_and!; [done|done|done|by destruct Ha as [[? _]|]; [left|right]|].
  exists st, t, d. destruct Hd as [(Hu & H2 & _)|Hs]; [done|]. rewrite Hs in Hty. by destruct Hw.
Qed.

(** [C13] Where the answer to a request comes from. When an exchange gives a
    response, the request was accepted with a status below 400, and the response
    is what the body of one of the polls decodes to: an answer below 400 that is
    not 202, to a poll of the id the API had given the request, and of the type
    waited for. Nothing is made up, defaulted or taken from elsewhere. *)
Theorem answer_provenance (body : json) (token want : string) (maxTries : Z) (x : exchange) (r : apiResponse) :
  want <> EmptyString ->
  polled url_error json_error body token want maxTries x = Some (Ok (Some r)) ->
  exists accepted status0 text0 data0,
    x_posted x = Responded status0 text0 data0 /\ status0 < 400
    /\ posted url_error json_error body x = Ok (TeleportRequestID accepted)
    /\ (unmarshal data0 = Some accepted \/ accepted = status_only status0)
    /\ exists status text data, Answers (Responded status text data) ∈ x_steps x /\ status < 400 /\ status <> 202
         /\ unmarshal data = Some r /\ ResponseType r = want
         /\ (apiRequestFunc url_error json_error "GET" ("/" ++ TeleportRequestID accepted) token None (Responded status text data)).2
            = Ok r.
Proof. apply polled_provenance. Qed.

(** What a single request does on every branch: a URL that does not parse stops it
    before anything is sent, and for good; otherwise exactly one request goes out,
    to the URL built for it and with the body marshalled. *)
Theorem request_spec (base method path token : string) (body : option json) (ended : exchange_end) :
  let '(sent, r) := apiRequestContext url_error json_error base method path token body ended in
  match parse_url (request_url base path token) with
  | None => sent = None /\ exists e, r = Err e /\ isTransientAPIError e = false
  | Some _ => sent = Some {| q_method := method; q_url := request_url base path token; q_body := json_print <$> body |}
      /\ (forall a, r = Ok a -> exists status text data, ended = Responded status text data /\ status < 400
            /\ (unmarshal data = Some a \/ a = status_only status))
      /\ (forall status text data, ended = Responded status text data -> status < 400 -> status <> 202 ->
            data <> EmptyString -> unmarshal (A := apiResponse) data = None -> exists e, r = Err e /\ isTransientAPIError e = false)
  end.
Proof.
  destruct (apiRequestContext url_error json_error base method path token body ended) as [sent r] eqn:E.
  pose proof (fun a => request_ok base method path token body ended a) as Hok. rewrite E in Hok. cbn [snd] in Hok.
  unfold apiRequestContext in E. destruct (parse_url _) as [u|]; injection E as <- <-.
  2:{ split; [done|]. by eexists. }
  split_and!; [done| |].
  - intros a Ha. destruct (Hok a Ha) as (st & t & d & -> & Hst & Hd). exists st, t, d. split_and!; [done|done|].
    destruct Hd as [[? _]|?]; [by left|by right].
  - intros st t d -> Hst H2 Hd Hu. cbn [finish_request]. rewrite (proj2 (Z.leb_gt 400 st)), (proj2 (Z.eqb_neq st 202)) by done.
    rewrite bool_decide_false by done. unfold unmarshal_response. rewrite Hu. by eexists.
Qed.

End wire.

(** ** Concrete exchanges *)

Definition every_float : Floats := {| float_in_range _ := true |}.

Definition sample_session : Client.Client.sessionResult :=
  {| Client.Client.Token := "tok-1"; Client.Client.Secret := "s<3"; Client.Client.DeviceToken := EmptyString;
     Client.Client.Access := None |}.

Definition sample_servers : list iceServer := [IceServer (slice_of ["stun:s.example:3478"]) "u" "c"]%string.

(** A server's name with a byte that is not UTF-8 arrives with U+FFFD for it. *)
Example connect_request_sample :
  at_path ["payload"; "client_info"; "peer_desc"; "candidates"]%string
    (connect_value sample_session "me" "cHVi" "c2Vj" (wire_peer (described [Build_candidate "iface" (chr (of_byte 255))] sample_servers)))
  = Some (JArr [JObj [("type", JStr "iface"); ("addr", JStr (encode_rune 65533))]%string]).
Proof. by vm_compute. Qed.

Definition sample_answer : string :=
  json_print (JObj [("Response_Type", JStr "CONNECT_RESPONSE"); ("client_ip", JStr "10.0.0.2"); ("other", JArr [JNull])])%string.

Definition sample_exchange : exchange := {|
  x_posted := Responded 200 "200 OK" (json_print (JObj [("teleportRequestId", JStr "r1")]));
  x_steps := [Answers (Responded 202 "202 Accepted" EmptyString); Answers (DoFailed "reset" None);
              Answers (Responded 200 "200 OK" sample_answer)];
|}%string.

Lemma answer_provenance_witness :
  exists r, @polled every_float id id JNull "tok-1" "CONNECT_RESPONSE" 200 sample_exchange = Some (Ok (Some r))
    /\ ClientIP r = "10.0.0.2"%string
    /\ exists status text data, Answers (Responded status text data) ∈ x_steps sample_exchange
         /\ @unmarshal apiResponse (@struct_decode _ (@resp_struct every_float)) data = Some r.
Proof.
  set (r := ApiResponse "" "CONNECT_RESPONSE" "" "" SNil
              (ServerInfo (PeerDesc SNil SNil false) "" 0 "" 0 "") "10.0.0.2" SNil (Any None) (Any None) 0).
  assert (@polled every_float id id JNull "tok-1" "CONNECT_RESPONSE" 200 sample_exchange = Some (Ok (Some r))) as Hp
    by (vm_compute; reflexivity).
  exists r. split; [exact Hp|]. split; [reflexivity|].
  destruct (@answer_provenance every_float id id JNull "tok-1" "CONNECT_RESPONSE" 200 sample_exchange r) as
    (a & st0 & t0 & d0 & _ & _ & _ & _ & st & t & d & Hin & _ & _ & Hu & _); [discriminate|exact Hp|].
  exists st, t, d. split; [exact Hin|exact Hu].
Defined.

End Requests.
