(* ===== verification/Recovery.v ===== *)
(** Recovery of an established tunnel ([tunnel.go]): the rounds over the known
    endpoints with their waits, up to the signal that all are exhausted. *)

From S2P Require Import Prelude Lists GoStrings GoTime Endpoints.
Open Scope Z_scope.

Import Stats Endpoints.

Module Recovery.

(** ** The recovery rounds *)

(** The environment of one run: the answers of the context ([true] while it is
    live) and of [IpcSet], by the number of questions asked so far. *)
Record env := { ctx_live : nat -> bool; ipc_set_ok : nat -> bool }.

Inductive action : Type :=
| SwitchTo (endpoint : string) (accepted : bool)
| Waited (duration : Z)
| SignalExhausted.

Record rstate := { asked : nat; cur : string; trace : list action }.

Definition initial (current : string) : rstate := {| asked := 0; cur := current; trace := [] |}.

(** The context is asked; [None] ends the run, keeping the trace. *)
Definition outcome : Type := rstate * bool.

Definition ask_ctx (e : env) (st : rstate) : outcome :=
  ({| asked := S (asked st); cur := cur st; trace := trace st |}, ctx_live e (asked st)).

Definition waitForContext (e : env) (st : rstate) (d : Z) : outcome :=
  let '(st, live) := ask_ctx e st in
  if live then ({| asked := asked st; cur := cur st; trace := trace st ++ [Waited d] |}, true)
  else (st, false).

Definition try_endpoint (e : env) (st : rstate) (endpoint : string) : rstate :=
  let ok := ipc_set_ok e (asked st) in
  {| asked := S (asked st); cur := if ok then endpoint else cur st;
     trace := trace st ++ [SwitchTo endpoint ok] |}.

(** The inner loop: [false] is the function's return. *)
Fixpoint try_endpoints (e : env) (st : rstate) (endpoints : list string) : outcome :=
  match endpoints with
  | [] => (st, true)
  | ep :: rest =>
      let '(st, live) := ask_ctx e st in
      if negb live then (st, false)
      else
        let st := try_endpoint e st ep in
        let '(st, live) := waitForContext e st endpointRecoveryInterval in
        if negb live then (st, false) else try_endpoints e st rest
  end.

Fixpoint rounds (e : env) (known : list string) (n : nat) (backoff : Z) (st : rstate) : outcome :=
  match n with
  | O => (st, true)
  | S n' =>
      let endpoints := buildEndpointRecoveryOrder (cur st) known in
      let '(st, live) := try_endpoints e st endpoints in
      if negb live then (st, false)
      else
        let '(st, live) := waitForContext e st backoff in
        if negb live then (st, false)
        else
          let backoff := backoff *i 2 in
          let backoff := if endpointRecoveryMaxBackoff <? backoff then endpointRecoveryMaxBackoff else backoff in
          rounds e known n' backoff st
  end.

(** The final [select] signals unless the context is done. *)
Definition recoverWireGuardEndpoints (e : env) (current : string) (known : list string) : list action :=
  let '(st, live) := rounds e known endpointRecoveryRounds (5 * Second) (initial current) in
  if negb live then trace st
  else
    let '(st, live) := ask_ctx e st in
    if live then trace st ++ [SignalExhausted] else trace st.

(** ** Specification *)

(** One round over [endpoints]: each is switched to and given its interval. *)
Fixpoint round_trace (oks : list bool) (endpoints : list string) : list action :=
  match endpoints, oks with
  | ep :: rest, ok :: oks' => SwitchTo ep ok :: Waited endpointRecoveryInterval :: round_trace oks' rest
  | _, _ => []
  end.

(** The endpoint in use after a round. *)
Fixpoint round_current (current : string) (oks : list bool) (endpoints : list string) : string :=
  match endpoints, oks with
  | ep :: rest, ok :: oks' => round_current (if ok then ep else current) oks' rest
  | _, _ => current
  end.

Definition always_live (e : env) : Prop := forall n, ctx_live e n = true.

Lemma try_endpoints_live e st endpoints :
  always_live e ->
  exists oks, length oks = length endpoints
    /\ (try_endpoints e st endpoints).2 = true
    /\ trace (try_endpoints e st endpoints).1 = trace st ++ round_trace oks endpoints
    /\ cur (try_endpoints e st endpoints).1 = round_current (cur st) oks endpoints.
Proof.
  intros Hl. revert st. induction endpoints as [|ep rest IH]; intros st.
  { exists []. cbn. by rewrite app_nil_r. }
  cbn [try_endpoints]. unfold waitForContext, ask_ctx. rewrite !Hl. cbn [negb].
  match goal with |- context [try_endpoints e ?s rest] => destruct (IH s) as (oks & Hlen & H1 & H2 & H3) end.
  exists (ipc_set_ok e (S (asked st)) :: oks). split_and!; [simpl; lia|done| |].
  - rewrite H2. cbn [trace try_endpoint round_trace asked]. by rewrite <- !app_assoc.
  - by rewrite H3.
Qed.

(** The attempts of a trace. *)
Definition switched (t : list action) : list string :=
  omap (fun a => match a with SwitchTo ep _ => Some ep | _ => None end) t.

Definition waited (t : list action) : Z :=
  foldr (fun a acc => match a with Waited d => d + acc | _ => acc end) 0 t.

Lemma switched_round oks endpoints :
  length oks = length endpoints -> switched (round_trace oks endpoints) = endpoints.
Proof.
  revert oks. induction endpoints as [|ep rest IH]; intros [|ok oks] Hl; try done.
  unfold switched. cbn [round_trace omap list_omap]. f_equal. apply IH. simpl in Hl. lia.
Qed.

Lemma switched_app t1 t2 : switched (t1 ++ t2) = switched t1 ++ switched t2.
Proof. apply omap_app. Qed.

Lemma waited_app t1 t2 : waited (t1 ++ t2) = waited t1 + waited t2.
Proof. induction t1 as [|a t1 IH]; [done|]. simpl. destruct a; lia. Qed.

Lemma waited_round oks endpoints :
  length oks = length endpoints ->
  waited (round_trace oks endpoints) = Z.of_nat (length endpoints) * endpointRecoveryInterval.
Proof.
  revert oks. induction endpoints as [|ep rest IH]; intros [|ok oks] Hl; try done.
  cbn [round_trace waited foldr]. fold (waited (round_trace oks rest)).
  rewrite IH by (simpl in Hl; lia). cbn [length]. lia.
Qed.

(** A run never signals before its end: a cancelled one signals nothing. *)
Lemma try_endpoints_no_signal e st endpoints :
  SignalExhausted ∈ trace (try_endpoints e st endpoints).1 -> SignalExhausted ∈ trace st.
Proof.
  revert st. induction endpoints as [|ep rest IH]; intros st; [done|].
  cbn [try_endpoints]. unfold waitForContext, ask_ctx.
  destruct (ctx_live e (asked st)); cbn [negb]; [|done].
  destruct (ctx_live e _); cbn [negb]; [intros H%IH; revert H|];
    cbn; rewrite !elem_of_app, ?list_elem_of_singleton; naive_solver.
Qed.

Lemma rounds_no_signal e known n backoff st :
  SignalExhausted ∈ trace (rounds e known n backoff st).1 -> SignalExhausted ∈ trace st.
Proof.
  revert backoff st. induction n as [|n IH]; intros backoff st; [done|]. cbn [rounds].
  pose proof (try_endpoints_no_signal e st (buildEndpointRecoveryOrder (cur st) known)) as Ht.
  destruct (try_endpoints e st _) as [st1 []]; cbn [negb fst] in *; [|done].
  unfold waitForContext, ask_ctx. destruct (ctx_live e (asked st1)); cbn [negb]; [|done].
  intros H%IH. cbn in H. rewrite elem_of_app, list_elem_of_singleton in H. naive_solver.
Qed.
(** *** Cancellation *)

(** The same environment, never cancelled. *)
Definition uncancelled (e : env) : env := {| ctx_live := fun _ => true; ipc_set_ok := ipc_set_ok e |}.

Definition cut_short (o o' : outcome) : Prop :=
  o = o' /\ o.2 = true \/ o.2 = false /\ trace o.1 `prefix_of` trace o'.1.

Lemma try_endpoints_grows e st endpoints :
  trace st `prefix_of` trace (try_endpoints e st endpoints).1.
Proof.
  revert st. induction endpoints as [|ep rest IH]; intros st; [done|].
  cbn [try_endpoints]. unfold waitForContext, ask_ctx.
  destruct (ctx_live e (asked st)); cbn [negb]; [|done].
  destruct (ctx_live e _); cbn [negb]; [etransitivity; [|apply IH]|]; cbn;
    rewrite <- ?app_assoc; apply prefix_app_r; reflexivity.
Qed.

Lemma rounds_grow e known n backoff st : trace st `prefix_of` trace (rounds e known n backoff st).1.
Proof.
  revert backoff st. induction n as [|n IH]; intros backoff st; [done|]. cbn [rounds].
  pose proof (try_endpoints_grows e st (buildEndpointRecoveryOrder (cur st) known)) as Ht.
  destruct (try_endpoints e st _) as [st1 []]; cbn [negb fst] in *; [|done].
  unfold waitForContext, ask_ctx. destruct (ctx_live e (asked st1)); cbn [negb]; [|done].
  etransitivity; [exact Ht|]. etransitivity; [|apply IH]. cbn. by apply prefix_app_r.
Qed.

Lemma try_endpoints_cut e st endpoints :
  cut_short (try_endpoints e st endpoints) (try_endpoints (uncancelled e) st endpoints).
Proof.
  revert st. induction endpoints as [|ep rest IH]; intros st; [by left|].
  cbn [try_endpoints]. unfold waitForContext, ask_ctx. cbn [uncancelled ctx_live negb].
  change (try_endpoint (uncancelled e)) with (try_endpoint e).
  destruct (ctx_live e (asked st)); cbn [negb].
  - destruct (ctx_live e _); cbn [negb]; [apply IH|]. right. split; [done|].
    etransitivity; [|apply try_endpoints_grows]. cbn. by apply prefix_app_r.
  - right. split; [done|]. etransitivity; [|apply try_endpoints_grows]. cbn.
    rewrite <- app_assoc. by apply prefix_app_r.
Qed.

Lemma rounds_cut e known n backoff st :
  cut_short (rounds e known n backoff st) (rounds (uncancelled e) known n backoff st).
Proof.
  revert backoff st. induction n as [|n IH]; intros backoff st; [by left|]. cbn [rounds].
  set (order := buildEndpointRecoveryOrder (cur st) known).
  destruct (try_endpoints_cut e st order) as [[Heq Hlive]|[Hdead Hpre]].
  - rewrite Heq in Hlive |- *. destruct (try_endpoints (uncancelled e) st order) as [st1 []]; [|done].
    cbn [negb]. unfold waitForContext, ask_ctx. cbn [uncancelled ctx_live negb].
    destruct (ctx_live e (asked st1)); cbn [negb]; [apply IH|]. right. split; [done|].
    etransitivity; [|apply rounds_grow]. cbn. by apply prefix_app_r.
  - right. destruct (try_endpoints e st order) as [st1 []]; [done|]. cbn [negb]. split; [done|].
    etransitivity; [exact Hpre|]. destruct (try_endpoints (uncancelled e) st order) as [st2 []]; [|done].
    cbn [negb fst]. unfold waitForContext, ask_ctx. cbn [uncancelled ctx_live negb].
    etransitivity; [|apply rounds_grow]. cbn. by apply prefix_app_r.
Qed.

(** A recovery stays with what it was started from: what holds of the endpoint in
    use and of the known ones holds of all it switches to. *)
Definition stays (P : string -> Prop) (st : rstate) : Prop := P (cur st) /\ Forall P (switched (trace st)).

Lemma try_endpoints_stay (P : string -> Prop) e st endpoints :
  Forall P endpoints -> stays P st -> stays P (try_endpoints e st endpoints).1.
Proof.
  intros He. revert st. induction He as [|ep rest Hep _ IH]; intros st [Hc Ht]; [done|].
  cbn [try_endpoints]. unfold waitForContext, ask_ctx, try_endpoint. cbn [asked cur trace].
  assert (Forall P (switched (trace st ++ [SwitchTo ep (ipc_set_ok e (S (asked st)))]))) as Hs.
  { rewrite switched_app, Forall_app. split; [done|by repeat constructor]. }
  destruct (ctx_live e (asked st)); cbn [negb]; [|done].
  destruct (ctx_live e _); cbn [negb].
  - apply IH. split; cbn [cur trace]; [by case_match|]. rewrite switched_app, Forall_app. split; [done|constructor].
  - split; [by cbn; case_match|done].
Qed.

Lemma rounds_stay (P : string -> Prop) e known n backoff st :
  Forall P known -> stays P st -> stays P (rounds e known n backoff st).1.
Proof.
  intros Hk. revert backoff st. induction n as [|n IH]; intros backoff st Hst; [done|]. cbn [rounds].
  pose proof (try_endpoints_stay P e st (buildEndpointRecoveryOrder (cur st) known)) as Htry.
  destruct (try_endpoints e st _) as [st1 live]. cbn [fst] in Htry.
  assert (stays P st1) as Hst1.
  { apply Htry; [|done]. destruct (buildEndpointRecoveryOrder_spec (cur st) known) as (_ & Hin & _).
    apply Forall_forall. intros x [_ [->|Hx]]%Hin; [apply Hst|]. rewrite Forall_forall in Hk. by apply Hk. }
  destruct live; cbn [negb]; [|done]. unfold waitForContext, ask_ctx. destruct (ctx_live e _); cbn [negb]; [|done].
  apply IH. destruct Hst1 as [? ?]. split; cbn [cur trace]; [done|].
  rewrite switched_app, Forall_app. split; [done|constructor].
Qed.

Lemma recovery_stays (P : string -> Prop) e current known :
  Forall P (current :: known) -> Forall P (switched (recoverWireGuardEndpoints e current known)).
Proof.
  intros [Hc Hk]%Forall_cons. unfold recoverWireGuardEndpoints.
  destruct (rounds_stay P e known endpointRecoveryRounds (5 * Second) (initial current) Hk) as [_ Ht]; [by split|].
  destruct (rounds e known _ _ _) as [st []]; cbn [negb fst] in *; [|done].
  unfold ask_ctx. destruct (ctx_live e (asked st)); [|done].
  cbn [trace]. rewrite switched_app, Forall_app. split; [done|constructor].
Qed.

(** ** Properties *)

(** [C27] An uncancelled recovery is two full rounds: each tries every known
    endpoint once, the one in use first, fifteen seconds apart; five seconds
    pass after the first and ten after the second; the second starts from
    whatever endpoint the first left in use; then exhaustion is signalled. *)
Theorem recovery_rounds (e : env) (current : string) (known : list string) :
  always_live e ->
  exists oks1 oks2,
    let order1 := buildEndpointRecoveryOrder current known in
    let order2 := buildEndpointRecoveryOrder (round_current current oks1 order1) known in
    recoverWireGuardEndpoints e current known
      = round_trace oks1 order1 ++ [Waited (5 * Second)]
        ++ round_trace oks2 order2 ++ [Waited (10 * Second); SignalExhausted]
    /\ switched (recoverWireGuardEndpoints e current known) = order1 ++ order2
    /\ waited (recoverWireGuardEndpoints e current known)
       = Z.of_nat (length order1 + length order2) * endpointRecoveryInterval + 15 * Second.
Proof.
  intros Hl. set (order1 := buildEndpointRecoveryOrder current known).
  destruct (try_endpoints_live e (initial current) order1 Hl) as (oks1 & Hlen1 & Hr1 & Ht1 & Hc1).
  unfold recoverWireGuardEndpoints, endpointRecoveryRounds. cbn [rounds initial cur] in *. fold order1.
  destruct (try_endpoints e _ order1) as [st1 b1]; cbn [fst snd] in *; subst b1. cbn [negb].
  unfold waitForContext, ask_ctx. rewrite Hl. cbn [negb cur asked trace]. rewrite Hc1.
  set (order2 := buildEndpointRecoveryOrder _ known).
  match goal with |- context [try_endpoints e ?s order2] =>
    destruct (try_endpoints_live e s order2 Hl) as (oks2 & Hlen2 & Hr2 & Ht2 & Hc2);
    destruct (try_endpoints e s order2) as [st2 b2] end.
  cbn [fst snd trace cur] in *; subst b2. cbn [negb]. rewrite !Hl. cbn [negb trace].
  rewrite Hl, Ht2, Ht1. exists oks1, oks2. cbn zeta.
  change (5 * Second *i 2) with (10 * Second).
  change (endpointRecoveryMaxBackoff <? 10 * Second) with false. cbn iota. split_and!.
  - by rewrite <- !app_assoc.
  - rewrite !switched_app, !switched_round by done. by rewrite !app_nil_r.
  - rewrite !waited_app, !waited_round, Nat2Z.inj_add by done.
    change (waited (trace (initial current))) with 0. unfold waited. cbn [foldr]. fold order2. lia.
Qed.

Definition calm : env := {| ctx_live := fun _ => true; ipc_set_ok := fun n => negb (n =? 1)%nat |}.

Lemma recovery_rounds_witness :
  switched (recoverWireGuardEndpoints calm "a:1" ["b:2"; "a:1"]) = ["a:1"; "b:2"; "b:2"; "a:1"]%string
  /\ exists oks1 oks2, recoverWireGuardEndpoints calm "a:1" ["b:2"; "a:1"]
      = round_trace oks1 (buildEndpointRecoveryOrder "a:1" ["b:2"; "a:1"]) ++ [Waited (5 * Second)]
        ++ round_trace oks2 (buildEndpointRecoveryOrder
             (round_current "a:1" oks1 (buildEndpointRecoveryOrder "a:1" ["b:2"; "a:1"])) ["b:2"; "a:1"])
        ++ [Waited (10 * Second); SignalExhausted].
Proof.
  split; [by vm_compute|].
  destruct (recovery_rounds calm "a:1" ["b:2"; "a:1"] (fun _ => eq_refl)) as (oks1 & oks2 & H & _).
  by exists oks1, oks2.
Defined.

(** Cancelling cuts a recovery short and changes nothing else: what was
    done is a beginning of the uncancelled run, and exhaustion is signalled
    only as the last act of a run that was never cancelled. *)
Theorem recovery_cancellation (e : env) (current : string) (known : list string) :
  let done := recoverWireGuardEndpoints e current known in
  let full := recoverWireGuardEndpoints (uncancelled e) current known in
  done `prefix_of` full /\ (SignalExhausted ∈ done -> done = full).
Proof.
  cbn zeta. unfold recoverWireGuardEndpoints.
  pose proof (rounds_no_signal e known endpointRecoveryRounds (5 * Second) (initial current)) as Hsig.
  destruct (rounds_cut e known endpointRecoveryRounds (5 * Second) (initial current))
    as [[Heq Hlive]|[Hdead Hpre]].
  - rewrite Heq in *. destruct (rounds (uncancelled e) _ _ _ _) as [st []]; [|done].
    cbn [negb fst] in *. unfold ask_ctx. cbn [uncancelled ctx_live].
    destruct (ctx_live e (asked st)); cbn [trace]; [done|]. split; [by apply prefix_app_r|].
    intros H%Hsig. by apply not_elem_of_nil in H.
  - destruct (rounds e _ _ _ _) as [st []]; [done|]. cbn [negb fst] in *. split.
    + etransitivity; [exact Hpre|]. destruct (rounds (uncancelled e) _ _ _ _) as [st' []]; [|done].
      cbn [negb fst]. unfold ask_ctx. cbn [uncancelled ctx_live trace]. by apply prefix_app_r.
    + intros H%Hsig. by apply not_elem_of_nil in H.
Qed.
End Recovery.
