(* ===== verification/Switch.v ===== *)
(** Moving the peer to another endpoint ([tunnel.go]): what a switch puts on the
    wire and hands to the device, for the retry of queued candidates and for the
    recovery of an established tunnel. *)

From S2P Require Import Prelude Lists GoStrings GoNet GoTime GoCodec Candidates Sockets Keys Endpoints Recovery.
From Stdlib Require Import Ascii.
Open Scope Z_scope.

Import Keys Endpoints.

(** wireguard-go's reading of a public key, [NoisePublicKey.FromHex]. *)
Class NoiseKeys := { FromHex : string -> option (list Z) }.

(** It reads back the hexadecimal text of a key. *)
Class NoiseKeysLaws `{NoiseKeys} := {
  from_hex_encode key : length key = 32%nat -> Forall is_byte key -> FromHex (hex_encode key) = Some key;
}.

Module Switch.

(** ** Operations *)

(** What one switch meets: the sockets, the resolver, the error of the write, and
    whether the device knows the key it is asked for. *)
Record switch_env := {
  sw_sockets : option Candidates.udpSockets;
  sw_resolve : string -> string -> option (list Z * Z);
  sw_writes : option string;
  sw_peer : list Z -> bool;
}.

Inductive effect : Type :=
| ProbeSent (socket : Z) (remote : list Z * Z)
| IpcSet (text : string)
| SendHandshakeInitiation (key : list Z).

Definition switch_text (peerPubHex addr : string) : string :=
  ("public_key=" ++ peerPubHex ++ line_break ++ "endpoint=" ++ addr ++ line_break)%string.

(** [ipc] is the error of [IpcSet], which is the result. *)
Definition switchEndpoint (e : switch_env) (peerPubHex addr : string) (ipc : option string)
  : list effect * option string :=
  let '(_, sent) := Sockets.sendPeerCandidateProbe (sw_sockets e) addr (sw_resolve e) (sw_writes e) in
  (((fun p => ProbeSent p.1 p.2) <$> sent) ++ [IpcSet (switch_text peerPubHex addr)], ipc).

Section noise.
Context `{NoiseKeys}.

Definition forceHandshakeInitiation (e : switch_env) (peerPubHex : string) : list effect :=
  match FromHex peerPubHex with
  | None => []
  | Some pk => if sw_peer e pk then [SendHandshakeInitiation pk] else []
  end.

(** The error of [IpcSet] as far as the callers look at it. *)
Definition ipc_error (accepted : bool) : option string := if accepted then None else Some "IPC error"%string.

(** A switch of the retry loop, for either of its causes. *)
Definition retry_switch (e : switch_env) (peerPubHex : string) (a : attempt) : list effect :=
  let '(_, addr, accepted) := a in
  let '(done, err) := switchEndpoint e peerPubHex addr (ipc_error accepted) in
  match err with
  | None => done ++ forceHandshakeInitiation e peerPubHex
  | Some _ => done
  end.

(** An action of a recovery. *)
Definition recovery_switch (e : switch_env) (peerPubHex : string) (a : Recovery.action) : list effect :=
  match a with
  | Recovery.SwitchTo addr accepted => (switchEndpoint e peerPubHex addr (ipc_error accepted)).1
  | _ => []
  end.

(** The effects of a run: each of its steps meets an environment of its own. *)
Definition effects_of {A} (act : switch_env -> string -> A -> list effect) (envs : nat -> switch_env)
    (peerPubHex : string) (trace : list A) : list effect :=
  concat (imap (fun i => act (envs i) peerPubHex) trace).

Definition retry_effects := effects_of retry_switch.
Definition recovery_effects := effects_of recovery_switch.

(** ** Reading the effects *)

Definition texts (acts : list effect) : list string :=
  omap (fun a => match a with IpcSet t => Some t | _ => None end) acts.

Definition initiations (acts : list effect) : list (list Z) :=
  omap (fun a => match a with SendHandshakeInitiation k => Some k | _ => None end) acts.

Definition probes (acts : list effect) : list (Z * (list Z * Z)) :=
  omap (fun a => match a with ProbeSent s r => Some (s, r) | _ => None end) acts.

(** The settings a switch to [addr] is meant to make. *)
Definition switch_settings (peer : list Z) (addr : string) : list (string * string) :=
  [("public_key", hex_encode peer); ("endpoint", addr)]%string.

(** ** Lemmas *)

Lemma switch_reads peer addr :
  Forall is_byte peer -> no_newline_in addr -> uapi_read (switch_text (hex_encode peer) addr) = switch_settings peer addr.
Proof.
  intros Hp Ha. unfold switch_text, line_break, chr.
  transitivity (uapi_read (("public_key=" ++ hex_encode peer) ++ String newline (("endpoint=" ++ addr) ++ String newline ""))).
  { rewrite !append_assoc. cbn [String.append]. by rewrite ?append_assoc. }
  rewrite !uapi_read_line; [done|by apply (no_newline_app "endpoint=")|].
  apply no_newline_app; [done|by apply hex_no_newline].
Qed.

Lemma effects_of_cons {A} (act : switch_env -> string -> A -> list effect) envs peerPubHex a trace :
  effects_of act envs peerPubHex (a :: trace)
  = act (envs O) peerPubHex a ++ effects_of act (fun i => envs (S i)) peerPubHex trace.
Proof. done. Qed.

(** What is read of a run is what is read of each of its steps. *)
Lemma effects_read {A B} (read : list effect -> list B) (act : switch_env -> string -> A -> list effect)
    (f : A -> list B) envs peerPubHex trace :
  (forall t1 t2, read (t1 ++ t2) = read t1 ++ read t2) -> read [] = [] ->
  (forall i a, a ∈ trace -> read (act (envs i) peerPubHex a) = f a) ->
  read (effects_of act envs peerPubHex trace) = concat (f <$> trace).
Proof.
  intros Happ Hnil. revert envs. induction trace as [|a trace IH]; intros envs Hf; [done|].
  rewrite effects_of_cons, Happ, (Hf O) by set_solver. cbn [fmap list_fmap concat]. f_equal.
  apply IH. intros i b Hb. apply (Hf (S i)). set_solver.
Qed.

Lemma texts_app t1 t2 : texts (t1 ++ t2) = texts t1 ++ texts t2.
Proof. apply omap_app. Qed.
Lemma initiations_app t1 t2 : initiations (t1 ++ t2) = initiations t1 ++ initiations t2.
Proof. apply omap_app. Qed.
Lemma probes_app t1 t2 : probes (t1 ++ t2) = probes t1 ++ probes t2.
Proof. apply omap_app. Qed.

Lemma switchEndpoint_read e peerPubHex addr ipc :
  texts (switchEndpoint e peerPubHex addr ipc).1 = [switch_text peerPubHex addr]
  /\ initiations (switchEndpoint e peerPubHex addr ipc).1 = []
  /\ probes (switchEndpoint e peerPubHex addr ipc).1
     = (Sockets.sendPeerCandidateProbe (sw_sockets e) addr (sw_resolve e) (sw_writes e)).2
  /\ (switchEndpoint e peerPubHex addr ipc).2 = ipc.
Proof.
  unfold switchEndpoint. destruct (Sockets.sendPeerCandidateProbe _ _ _ _) as [b sent]. cbn [fst snd].
  rewrite texts_app, initiations_app, probes_app.
  split_and!; [induction sent as [|[s r] sent IH]; [done|exact IH]..| |done].
  cbn. rewrite app_nil_r. induction sent as [|[s r] sent IH]; [done|]. cbn in *. by f_equal.
Qed.

Lemma retry_switch_read e peerPubHex (a : attempt) :
  texts (retry_switch e peerPubHex a) = [switch_text peerPubHex a.1.2]
  /\ initiations (retry_switch e peerPubHex a)
     = (if a.2 then initiations (forceHandshakeInitiation e peerPubHex) else [])
  /\ probes (retry_switch e peerPubHex a)
     = (Sockets.sendPeerCandidateProbe (sw_sockets e) a.1.2 (sw_resolve e) (sw_writes e)).2.
Proof.
  destruct a as [[c addr] accepted]. unfold retry_switch. cbn [fst snd].
  destruct (switchEndpoint_read e peerPubHex addr (ipc_error accepted)) as (Ht & Hi & Hp & He).
  destruct (switchEndpoint e peerPubHex addr (ipc_error accepted)) as [acts err]. cbn [fst snd] in *. subst err.
  destruct accepted; cbn [ipc_error]; [|by rewrite Ht, Hi, Hp].
  rewrite texts_app, initiations_app, probes_app, Ht, Hi, Hp. unfold forceHandshakeInitiation.
  split_and!; [|done|]; destruct (FromHex peerPubHex); try case_match; by rewrite ?app_nil_r.
Qed.

(** The endpoints a retry moves to are queued or nominated. *)
Lemma retry_endpoints endpoint queue types armed up trs a :
  a ∈ (retryEndpointOnHandshakeTimeout endpoint queue types armed up trs).2 ->
  a.1.2 ∈ queue \/ exists tr, tr ∈ trs /\ t_wake tr = NominationSelected a.1.2.
Proof.
  unfold retryEndpointOnHandshakeTimeout. generalize {| queueIdx := 0; nominationArmed := armed;
    currentEndpoint := endpoint; lastSwitchTime := up |}.
  assert (forall st tr, a ∈ (on_check queue types up st tr).2 -> a.1.2 ∈ queue) as Hcheck.
  { intros st tr. unfold on_check. cbn zeta.
    pose proof (nextEndpointCandidate_spec queue (queueIdx st) (currentEndpoint st)) as Hn.
    destruct (t_ipc tr); repeat case_match; try (by intros ?%not_elem_of_nil);
      destruct Hn as (sk & rest & Hd & _); intros ->%list_elem_of_singleton; cbn [fst snd];
      rewrite <- (take_drop (queueIdx st) queue), Hd; set_solver. }
  induction trs as [|tr trs IH]; intros st; cbn [retry_run]; [by intros ?%not_elem_of_nil|].
  assert (a ∈ (retry_turn queue types up st tr).2 -> a.1.2 ∈ queue \/ t_wake tr = NominationSelected a.1.2) as Hturn.
  { unfold retry_turn. destruct (t_wake tr) as [|sel|]; [by intros ?%not_elem_of_nil| |by eauto].
    destruct (nominationArmed st); [|by eauto]. unfold on_nomination. cbn zeta.
    destruct (bool_decide _ || bool_decide _); [by intros ?%not_elem_of_nil|].
    destruct (t_nomination_ok tr); match goal with |- context [on_check _ _ _ ?s _] => pose proof (Hcheck s tr) end;
      destruct (on_check _ _ _ _ _) as [r rest]; cbn [snd app]; intros [->|?]%elem_of_cons; auto. }
  destruct (retry_turn queue types up st tr) as [[st'|e] done_]; cbn [snd] in Hturn.
  - specialize (IH st'). destruct (retry_run queue types up st' trs) as [r rest]. cbn [snd] in *.
    intros [[?|?]%Hturn|[?|(tr' & ? & ?)]%IH]%elem_of_app; eauto using elem_of_cons; right; set_solver.
  - cbn [snd]. intros [?|?]%Hturn; [by left|right]. set_solver.
Qed.

(** ** Properties *)

(** [C26] A retry tells the device what it tries and nothing else. The key and
    endpoints without a line break given, each attempt hands the device one text,
    in the order of the attempts, which sets the endpoint tried for the peer's
    key; every accepted attempt, and no other, asks at once for a handshake with
    that peer; and a probe only goes to the endpoint of an attempt, through the
    socket of its family. *)
Theorem retry_on_the_wire `{!NoiseKeysLaws} (envs : nat -> switch_env) (key peerPubHex endpoint : string)
    (queue : list string) (types : gmap string string) (armed : bool) (up : Z) (trs : list turn) :
  b64KeyToHex key = Ok peerPubHex ->
  Forall no_newline_in queue ->
  Forall (fun tr => forall s, t_wake tr = NominationSelected s -> no_newline_in s) trs ->
  let trace := (retryEndpointOnHandshakeTimeout endpoint queue types armed up trs).2 in
  let acts := retry_effects envs peerPubHex trace in
  exists peer, b64_decode StdEncoding key = Some peer
    /\ uapi_read <$> texts acts = (fun a : attempt => switch_settings peer a.1.2) <$> trace
    /\ ((forall i, sw_peer (envs i) peer = true) ->
        initiations acts = replicate (length (filter (fun a : attempt => a.2 = true) trace)) peer)
    /\ forall fd remote, (fd, remote) ∈ probes acts -> exists i a s, trace !! i = Some a
        /\ sw_sockets (envs i) = Some s /\ Sockets.probe_of s (sw_resolve (envs i)) a.1.2 fd remote.
Proof.
  intros (peer & Hd & -> & Hl & Hb)%b64KeyToHex_ok Hq Hn trace acts. exists peer. split; [done|].
  assert (forall a, a ∈ trace -> no_newline_in a.1.2) as Hsafe.
  { rewrite Forall_forall in Hq. rewrite Forall_forall in Hn. intros a [?|(tr & ? & ?)]%retry_endpoints; eauto. }
  unfold acts, retry_effects. clearbody trace. clear acts. split_and!.
  - rewrite (effects_read texts retry_switch (fun a => [switch_text (hex_encode peer) a.1.2]))
      by (apply texts_app || done || (intros; apply retry_switch_read)).
    clear Hq Hn. induction trace as [|a trace IH]; [done|]. cbn [fmap list_fmap concat app].
    rewrite switch_reads by (done || apply Hsafe; set_solver). f_equal. apply IH. intros. apply Hsafe. set_solver.
  - intros Hp. rewrite (effects_read initiations retry_switch (fun a => if a.2 then [peer] else [])).
    + clear. induction trace as [|a trace IH]; [done|]. rewrite filter_cons. cbn [fmap list_fmap concat].
      rewrite IH. by destruct a as [? []].
    + apply initiations_app.
    + done.
    + intros i a _. rewrite (proj1 (proj2 (retry_switch_read _ _ _))). unfold forceHandshakeInitiation.
      rewrite from_hex_encode, Hp by done. done.
  - intros fd remote. clear Hsafe. revert envs. induction trace as [|a trace IH]; intros envs; [by intros ?%not_elem_of_nil|].
    rewrite effects_of_cons, probes_app, elem_of_app. intros [Hin|(i & b & s & Hi & H1)%IH].
    + rewrite (proj2 (proj2 (retry_switch_read _ _ _))) in Hin.
      destruct (sw_sockets (envs O)) as [s|] eqn:Es; [|by apply not_elem_of_nil in Hin].
      pose proof (Sockets.candidate_probe_spec s a.1.2 (sw_resolve (envs O)) (sw_writes (envs O))) as Hs.
      destruct (Sockets.sendPeerCandidateProbe _ _ _ _) as [b out]. exists O, a, s. split_and!; [done..|].
      by apply Hs.
    + by exists (S i), b, s.
Qed.

(** So does a recovery, without asking for handshakes. *)
Theorem recovery_on_the_wire (envs : nat -> switch_env) (key peerPubHex current : string) (known : list string)
    (e : Recovery.env) :
  b64KeyToHex key = Ok peerPubHex ->
  Forall no_newline_in (current :: known) ->
  let trace := Recovery.recoverWireGuardEndpoints e current known in
  exists peer, b64_decode StdEncoding key = Some peer
    /\ uapi_read <$> texts (recovery_effects envs peerPubHex trace) = switch_settings peer <$> Recovery.switched trace
    /\ initiations (recovery_effects envs peerPubHex trace) = [].
Proof.
  intros (peer & Hd & -> & Hl & Hb)%b64KeyToHex_ok Hk trace. exists peer. split; [done|].
  pose proof (Recovery.recovery_stays _ e _ _ Hk) as Hsafe. fold trace in Hsafe. clearbody trace. unfold recovery_effects. split.
  - rewrite (effects_read texts recovery_switch
      (fun a => match a with Recovery.SwitchTo addr _ => [switch_text (hex_encode peer) addr] | _ => [] end));
      [|apply texts_app|done|by intros i [] _; [apply switchEndpoint_read|..]].
    unfold Recovery.switched in *. induction trace as [|[addr ok| |] trace IH]; [done|..];
      cbn [omap list_omap fmap list_fmap concat app] in *; try by apply IH.
    apply Forall_cons in Hsafe as [? ?]. rewrite switch_reads by done. f_equal. by apply IH.
  - rewrite (effects_read initiations recovery_switch (fun _ => []));
      [|apply initiations_app|done|by intros i [] _; [apply switchEndpoint_read|..]].
    clear. by induction trace.
Qed.

End noise.

(** *** Concrete runs *)

Definition hex_value (c : ascii) : Z := let b := byte_of c in if b <? 58 then b - 48 else b - 87.

Fixpoint hex_decode (s : string) : list Z :=
  match s with
  | String hi (String lo s') => hex_value hi * 16 + hex_value lo :: hex_decode s'
  | _ => []
  end.

Lemma hex_value_digit d : 0 <= d < 16 -> hex_value (hex_digit d) = d.
Proof. intros H. unfold hex_value. rewrite byte_of_hex_digit by done. zbool; lia. Qed.

Lemma hex_decode_encode bs : Forall is_byte bs -> hex_decode (hex_encode bs) = bs.
Proof.
  induction 1 as [|b bs Hb _ IH]; [done|]. cbn [hex_encode hex_decode]. apply byte_split in Hb as [? ?].
  rewrite !hex_value_digit, IH by done. f_equal. pose proof (Z.div_mod b 16). lia.
Qed.

#[local] Instance hex_keys : NoiseKeys := {| FromHex s := Some (hex_decode s) |}.
#[local] Instance hex_keys_laws : NoiseKeysLaws.
Proof. constructor. intros key _ Hb. cbn. by rewrite hex_decode_encode. Qed.

Definition sample_peer : list Z := replicate 32 7.
Definition sample_switches (i : nat) : switch_env :=
  {| sw_sockets := Some {| Candidates.V4 := Some 3; Candidates.V6 := None |};
     sw_resolve := fun _ _ => Some ([10; 0; 0; 9], 1); sw_writes := None; sw_peer := fun _ => true |}.

Definition sample_trace : list attempt :=
  (retryEndpointOnHandshakeTimeout "203.0.113.5:1" ["10.0.0.9:1"] ∅ false 0
     [silent_tick (6 * Second); silent_tick (61 * Second)]).2.

Lemma retry_on_the_wire_witness :
  retry_effects sample_switches (hex_encode sample_peer) sample_trace
    = [ProbeSent 3 ([10; 0; 0; 9], 1); IpcSet (switch_text (hex_encode sample_peer) "10.0.0.9:1");
       SendHandshakeInitiation sample_peer]
  /\ exists peer, b64_decode StdEncoding (b64_encode StdEncoding sample_peer) = Some peer
     /\ uapi_read <$> texts (retry_effects sample_switches (hex_encode sample_peer) sample_trace)
        = [switch_settings peer "10.0.0.9:1"].
Proof.
  split; [by vm_compute|].
  destruct (retry_on_the_wire sample_switches (b64_encode StdEncoding sample_peer) (hex_encode sample_peer)
    "203.0.113.5:1" ["10.0.0.9:1"]%string ∅ false 0 [silent_tick (6 * Second); silent_tick (61 * Second)])
    as (peer & Hd & Ht & _).
  - by vm_compute.
  - by repeat constructor.
  - by repeat constructor.
  - by exists peer.
Defined.

(** Without the hypothesis it fails: the filter of the peer's candidates does not
    look at the port, so that a line break in it passes into the retry queue, and
    what follows is a setting of its own. *)
Example port_text_becomes_a_setting :
  let c := {| Candidates.Type_ := "reflex"; Candidates.Addr := ("203.0.113.9:1" ++ line_break ++ "remove=true")%string |} in
  let local := {| Candidates.Type_ := "iface"; Candidates.Addr := "192.168.1.2:5000" |} in
  let queue := Candidates.buildCandidateRetryQueue "203.0.113.5:1" []
    (Candidates.compatibleCandidates (sw_sockets (sample_switches 0)) [c] [local]) in
  queue = [Candidates.Addr c]
  /\ uapi_read <$> texts (retry_effects sample_switches (hex_encode sample_peer)
       (retryEndpointOnHandshakeTimeout "203.0.113.5:1" queue ∅ false 0 [silent_tick (6 * Second)]).2)
     = [switch_settings sample_peer "203.0.113.9:1" ++ [("remove"%string, "true"%string)]].
Proof. split; by vm_compute. Qed.

End Switch.
