(* ===== verification/Device.v ===== *)
(** The device of the network stack ([internal/tunnet/tun.go],
    [internal/tunnet/config.go]): its options and creation, the packets between
    it and wireguard-go, its MTU and events, and the conversion of addresses. *)

From S2P Require Import Prelude GoStrings GoNet.
From Stdlib Require Import Ascii.
Open Scope Z_scope.

Module Device.

(** ** Options *)

(** Constants of gVisor's TCP. *)
Class Gvisor := {
  MinBufferSize : Z;
  DefaultSendBufferSize : Z;
  DefaultReceiveBufferSize : Z;
}.

(** A range of buffer sizes. *)
Record buffer_range := { Min : Z; Default : Z; Max : Z }.

Record Options := {
  CongestionControl : string;
  SendBufferSize : buffer_range;
  ReceiveBufferSize : buffer_range;
}.

Definition WithCongestionControl (cc : string) (o : Options) : Options :=
  {| CongestionControl := cc; SendBufferSize := SendBufferSize o; ReceiveBufferSize := ReceiveBufferSize o |}.

Definition WithBufferSizes (tx rx : buffer_range) (o : Options) : Options :=
  {| CongestionControl := CongestionControl o;
     SendBufferSize := if 0 <? Max tx then tx else SendBufferSize o;
     ReceiveBufferSize := if 0 <? Max rx then rx else ReceiveBufferSize o |}.

Definition defaultOptions `{Gvisor} : Options := {|
  CongestionControl := "cubic";
  SendBufferSize := {| Min := MinBufferSize; Default := DefaultSendBufferSize; Max := Z.shiftl 6 20 |};
  ReceiveBufferSize := {| Min := MinBufferSize; Default := DefaultReceiveBufferSize; Max := Z.shiftl 8 20 |};
|}.

(** ** Creation *)

Inductive protocol : Type := NoProtocol | IPv4 | IPv6.

Definition protocol_of (ip : addr) : protocol :=
  if addr_is4 ip then IPv4 else if addr_is6 ip then IPv6 else NoProtocol.

(** The calls into gVisor. *)
Inductive stack_call : Type :=
| EnableSACK
| SetCongestionControl (cc : string)
| SetSendBuffer (r : buffer_range)
| SetReceiveBuffer (r : buffer_range)
| AddNotify
| CreateNIC
| AddProtocolAddress (p : protocol) (ip : addr)
| AddRoute (p : protocol)
| CloseStack.

(** Calls in order, up to the first that fails, which is among those made. *)
Fixpoint perform (fails : stack_call -> option string) (calls : list stack_call)
  : list stack_call * option (stack_call * string) :=
  match calls with
  | [] => ([], None)
  | c :: calls' =>
      match fails c with
      | Some e => ([c], Some (c, e))
      | None => let '(made, err) := perform fails calls' in (c :: made, err)
      end
  end.

Definition applyOptions (opts : Options) : list stack_call :=
  (if bool_decide (CongestionControl opts = EmptyString) then [] else [SetCongestionControl (CongestionControl opts)])
  ++ (if 0 <? Max (SendBufferSize opts) then [SetSendBuffer (SendBufferSize opts)] else [])
  ++ (if 0 <? Max (ReceiveBufferSize opts) then [SetReceiveBuffer (ReceiveBufferSize opts)] else []).

Inductive tun_event : Type := EventUp | EventMTUUpdate.

Definition to_int32 (x : Z) : Z := (x + 2 ^ 31) mod 2 ^ 32 - 2 ^ 31.
Definition to_uint32 (x : Z) : Z := x mod 2 ^ 32.

(** [ep_mtu] is the link endpoint's, [nic_mtu] the stack's for the interface. *)
Record netTun := {
  mtu : Z;
  ep_mtu : Z;
  nic_mtu : Z;
  events : list tun_event;
  closed : bool;
  dnsServers : list addr;
  hasV4 : bool;
  hasV6 : bool;
}.

Definition events_capacity : nat := 10.

Section create.
Context `{Gvisor}.

(** A nil option is skipped. *)
Definition configured (opts : list (option (Options -> Options))) : Options :=
  foldl (fun cfg opt => match opt with Some f => f cfg | None => cfg end) defaultOptions opts.

Definition CreateNetTUN (fails : stack_call -> option string) (localAddresses servers : list addr) (m : Z)
    (opts : list (option (Options -> Options))) : list stack_call * result (stack_call * string) netTun :=
  let v4 := existsb addr_is4 localAddresses in
  let v6 := existsb addr_is6 localAddresses in
  let '(made, err) := perform fails
    ([EnableSACK] ++ applyOptions (configured opts) ++ [AddNotify; CreateNIC]
     ++ ((fun ip => AddProtocolAddress (protocol_of ip) ip) <$> localAddresses)) in
  match err with
  | Some e => (made ++ [CloseStack], Err e)
  | None =>
      (made ++ (if v4 then [AddRoute IPv4] else []) ++ (if v6 then [AddRoute IPv6] else []),
       Ok {| mtu := to_int32 m; ep_mtu := to_uint32 m; nic_mtu := to_uint32 m; events := [EventUp]; closed := false;
             dnsServers := servers; hasV4 := v4; hasV6 := v6 |})
  end.

End create.

(** ** Packets *)

(** [Write]: the packets injected and the result, the number of buffers or an
    error. An offset beyond a buffer is a panic, [None]. *)
Fixpoint write_packets (bufs : list string) (offset : nat) : option (list (protocol * string) * bool) :=
  match bufs with
  | [] => Some ([], true)
  | b :: bufs' =>
      if (String.length b <? offset)%nat then None
      else match str_drop offset b with
      | EmptyString => write_packets bufs' offset
      | String c rest as packet =>
          let version := Z.shiftr (byte_of c) 4 in
          if version =? 4 then '(more, ok) ← write_packets bufs' offset; Some ((IPv4, packet) :: more, ok)
          else if version =? 6 then '(more, ok) ← write_packets bufs' offset; Some ((IPv6, packet) :: more, ok)
          else Some ([], false)
      end
  end.

Inductive write_result : Type :=
| Written (n : nat)
| AddressFamilyNotSupported.

Definition Write (bufs : list string) (offset : nat) : option (list (protocol * string) * write_result) :=
  '(injected, ok) ← write_packets bufs offset;
  Some (injected, if ok : bool then Written (length bufs) else AddressFamilyNotSupported).

(** [Read]: the packet handed over by [WriteNotify], [None] when the channel is
    closed, into a buffer of the given length from [offset] on; [view_read] is
    the read of gVisor's view, into so many bytes. *)
Inductive read_result : Type :=
| DeviceClosed
| ReadFailed (e : string)
| ReadPacket (data : string).

Definition Read (view_read : string -> nat -> result string string) (incoming : option string) (buflen offset : nat)
  : option read_result :=
  match incoming with
  | None => Some DeviceClosed
  | Some view =>
      if (buflen <? offset)%nat then None
      else Some (match view_read view (buflen - offset)%nat with Err e => ReadFailed e | Ok data => ReadPacket data end)
  end.

(** [WriteNotify], on the link endpoint's queue: the packet it hands over. A send
    on the closed channel is a panic. *)
Definition WriteNotify (d : netTun) (queue : list string) : option (list string * option string) :=
  match queue with
  | [] => Some ([], None)
  | pkt :: queue' => if closed d then None else Some (queue', Some pkt)
  end.

(** ** State *)

Definition BatchSize : Z := 1.

Definition MTU (d : netTun) : Z := mtu d.

(** [nic] is the error of [SetNICMTU]. The result is [None] for a panic, the send
    on the closed channel of events. *)
Definition SetMTU (d : netTun) (m : Z) (nic : option string) : option (netTun * option string) :=
  let stored evs n := {| mtu := to_int32 m; ep_mtu := to_uint32 m; nic_mtu := n; events := evs; closed := closed d;
                         dnsServers := dnsServers d; hasV4 := hasV4 d; hasV6 := hasV6 d |} in
  match nic with
  | Some e => Some (stored (events d) (nic_mtu d), Some e)
  | None =>
      if closed d then None
      else
        let evs := if (length (events d) <? events_capacity)%nat then events d ++ [EventMTUUpdate] else events d in
        Some (stored evs (to_uint32 m), None)
  end.

(** Closing a closed channel is a panic. *)
Definition Close (d : netTun) : option netTun :=
  if closed d then None
  else Some {| mtu := mtu d; ep_mtu := ep_mtu d; nic_mtu := nic_mtu d; events := events d; closed := true;
               dnsServers := dnsServers d; hasV4 := hasV4 d; hasV6 := hasV6 d |}.

(** [wireguard-go] takes the oldest event. *)
Definition take_event (d : netTun) : netTun :=
  {| mtu := mtu d; ep_mtu := ep_mtu d; nic_mtu := nic_mtu d; events := tail (events d); closed := closed d;
     dnsServers := dnsServers d; hasV4 := hasV4 d; hasV6 := hasV6 d |}.

(** ** Addresses and sockets of the stack *)

Record FullAddress := { NIC : Z; Addr : addr; Port : Z }.

Definition convertToFullAddr (endpoint : addr * Z) : FullAddress * protocol :=
  ({| NIC := 1; Addr := endpoint.1; Port := endpoint.2 |}, if addr_is4 endpoint.1 then IPv4 else IPv6).

Definition is_valid (a : addr) : bool := negb (bool_decide (a = AddrZero)).

(** [DialUDPAddrPort]: the arguments of [gonet.DialUDP]; the protocol is that of
    the remote address, else of the local one. *)
Definition DialUDPAddrPort (laddr raddr : addr * Z) : option FullAddress * option FullAddress * protocol :=
  let given a := is_valid a.1 || (0 <? a.2) in
  let '(lfa, pn) := if given laddr then let '(a, pn) := convertToFullAddr laddr in (Some a, pn) else (None, NoProtocol) in
  let '(rfa, pn) := if given raddr then let '(a, pn) := convertToFullAddr raddr in (Some a, pn) else (None, pn) in
  (lfa, rfa, pn).

(** [DialPingAddr]: the calls on the endpoint. *)
Inductive ping_call : Type :=
| NewEndpoint (p : protocol)
| Bind (a : FullAddress)
| Connect (a : FullAddress).

Record PingConn := { ping_laddr : addr; ping_raddr : addr }.

Inductive ping_err : Type :=
| PingInvalidAddress
| PingFailed (c : ping_call) (e : string)
| PingWrongType
| PingMismatched
| PingWriteFailed (e : string).

Fixpoint ping_perform (fails : ping_call -> option string) (calls : list ping_call) : option (ping_call * string) :=
  match calls with
  | [] => None
  | c :: calls' => match fails c with Some e => Some (c, e) | None => ping_perform fails calls' end
  end.

Definition DialPingAddr (fails : ping_call -> option string) (laddr raddr : addr) : result ping_err PingConn :=
  if negb (is_valid laddr) && negb (is_valid raddr) then Err PingInvalidAddress
  else
    let v6 := addr_is6 laddr || addr_is6 raddr in
    let bind := is_valid laddr in
    let laddr := if bind then laddr
                 else if v6 then Addr6 (replicate 16 0) EmptyString else Addr4 [0; 0; 0; 0] in
    match ping_perform fails
      ([NewEndpoint (if v6 then IPv6 else IPv4)]
       ++ (if bind then [Bind (convertToFullAddr (laddr, 0)).1] else [])
       ++ (if is_valid raddr then [Connect (convertToFullAddr (raddr, 0)).1] else [])) with
    | Some (c, e) => Err (PingFailed c e)
    | None => Ok {| ping_laddr := laddr; ping_raddr := raddr |}
    end.

(** [WriteTo]: [target] is the address, [None] of another type; [writes] is the
    write of the endpoint. *)
Definition WriteTo (pc : PingConn) (p : string) (target : option addr) (writes : FullAddress -> result string Z)
  : result ping_err Z :=
  match target with
  | None => Err PingWrongType
  | Some na =>
      if negb ((addr_is4 na && addr_is4 (ping_laddr pc)) || (addr_is6 na && addr_is6 (ping_laddr pc))) then Err PingMismatched
      else match writes (convertToFullAddr (na, 0)).1 with
      | Err e => Err (PingWriteFailed e)
      | Ok n => Ok n
      end
  end.
(** ** Properties of creation *)

Lemma perform_ok fails calls made : perform fails calls = (made, None) <-> made = calls /\ Forall (fun c => fails c = None) calls.
Proof.
  revert made. induction calls as [|c calls IH]; intros made; cbn [perform]; [split; [by intros [= <-]|by intros [-> _]]|].
  destruct (fails c) as [e|] eqn:E.
  - split; [done|]. intros [_ Hf%Forall_cons]. destruct Hf as [? _]. congruence.
  - destruct (perform fails calls) as [made' err]. split.
    + intros [= <- ->]. destruct (IH made') as [[-> Hf] _]; [done|]. split; [done|]. by constructor.
    + intros [-> Hf%Forall_cons]. destruct Hf as [_ Hf].
      assert ((made', err) = (calls, None)) as [= -> ->] by (by apply IH). done.
Qed.

Lemma perform_err fails calls made c e : perform fails calls = (made, Some (c, e)) ->
  exists pre post, calls = pre ++ c :: post /\ made = pre ++ [c] /\ Forall (fun x => fails x = None) pre /\ fails c = Some e.
Proof.
  revert made. induction calls as [|x calls IH]; intros made; cbn [perform]; [done|].
  destruct (fails x) as [e'|] eqn:E.
  - intros [= <- <- <-]. by exists [], calls.
  - destruct (perform fails calls) as [made' err]. intros [= <- ->].
    destruct (IH made' eq_refl) as (pre & post & -> & -> & Hpre & Hc). exists (x :: pre), post. split_and!; try done. by constructor.
Qed.

Section created.
Context `{Gvisor}.

(** A device is created whole or not at all. When a call into the stack fails
    nothing more is done but to close the stack, once; when none does, the stack
    is not closed, every local address is added with the protocol of its family,
    there is a default route for exactly the families that have an address, the
    device is up, and its MTU, the endpoint's and the interface's are the one
    asked for. *)
Theorem create_spec (fails : stack_call -> option string) (localAddresses servers : list addr) (m : Z)
    (opts : list (option (Options -> Options))) :
  0 <= m < 2 ^ 31 ->
  let '(calls, r) := CreateNetTUN fails localAddresses servers m opts in
  match r with
  | Err (c, e) => exists pre, calls = pre ++ [c; CloseStack] /\ fails c = Some e /\ CloseStack ∉ pre
      /\ Forall (fun x => fails x = None) pre
  | Ok d => CloseStack ∉ calls
      /\ (forall p ip, AddProtocolAddress p ip ∈ calls <-> ip ∈ localAddresses /\ p = protocol_of ip)
      /\ (AddRoute IPv4 ∈ calls <-> hasV4 d = true) /\ (AddRoute IPv6 ∈ calls <-> hasV6 d = true)
      /\ (hasV4 d = true <-> exists ip, ip ∈ localAddresses /\ addr_is4 ip = true)
      /\ (hasV6 d = true <-> exists ip, ip ∈ localAddresses /\ addr_is6 ip = true)
      /\ mtu d = m /\ ep_mtu d = m /\ nic_mtu d = m /\ events d = [EventUp] /\ dnsServers d = servers
  end.
Proof.
  intros Hm. unfold CreateNetTUN. set (setup := [EnableSACK] ++ applyOptions (configured opts) ++ [AddNotify; CreateNIC]
     ++ ((fun ip => AddProtocolAddress (protocol_of ip) ip) <$> localAddresses)).
  assert (forall c, c ∈ setup -> c <> CloseStack /\ (forall p, c <> AddRoute p)
    /\ forall p ip, c = AddProtocolAddress p ip -> ip ∈ localAddresses /\ p = protocol_of ip) as Hsetup.
  { intros c. unfold setup, applyOptions. rewrite !elem_of_app, list_elem_of_fmap.
    destruct (bool_decide _), (0 <? Max (SendBufferSize (configured opts))), (0 <? Max (ReceiveBufferSize (configured opts)));
      set_solver. }
  destruct (perform fails setup) as [made [[c e]|]] eqn:E.
  - apply perform_err in E as (pre & post & Hs & -> & Hpre & Hc). exists pre. rewrite <- app_assoc. split_and!; try done.
    intros Hin. destruct (Hsetup CloseStack) as [? _]; [rewrite Hs; set_solver|done].
  - apply perform_ok in E as [-> Hok]. cbn [hasV4 hasV6 mtu ep_mtu nic_mtu events dnsServers].
    assert (forall f, existsb f localAddresses = true <-> exists ip, ip ∈ localAddresses /\ f ip = true) as Hex
      by (intros f; rewrite existsb_exists; by setoid_rewrite list_elem_of_In).
    rewrite !elem_of_app. split_and!; try done; try apply Hex.
    + intros [Hin|[Hin|Hin]]; [by apply Hsetup in Hin as [? _]| |]; destruct (existsb _ _); set_solver.
    + intros p ip. rewrite !elem_of_app. split.
      * intros [Hin|[Hin|Hin]]; [by destruct (Hsetup _ Hin) as (_ & _ & Ha); apply Ha| |]; destruct (existsb _ _); set_solver.
      * intros [Hip ->]. left. unfold setup. rewrite !elem_of_app, list_elem_of_fmap. set_solver.
    + assert (AddRoute IPv4 ∉ setup) by (intros Hin; destruct (Hsetup _ Hin) as (_ & Hr & _); by destruct (Hr IPv4)).
      destruct (existsb addr_is4 _), (existsb addr_is6 _); set_solver.
    + assert (AddRoute IPv6 ∉ setup) by (intros Hin; destruct (Hsetup _ Hin) as (_ & Hr & _); by destruct (Hr IPv6)).
      destruct (existsb addr_is4 _), (existsb addr_is6 _); set_solver.
    + unfold to_int32. rewrite Z.mod_small by lia. lia.
    + unfold to_uint32. apply Z.mod_small. lia.
    + unfold to_uint32. apply Z.mod_small. lia.
Qed.

(** The congestion control that stands after the options. *)
Definition chosen_cc (ccs : list string) : string := default "cubic"%string (last ccs).

(** What the program passes: congestion control alone, or sizes. *)
Lemma configured_cc ccs :
  configured ((fun cc => Some (WithCongestionControl cc)) <$> ccs)
  = WithCongestionControl (chosen_cc ccs) defaultOptions.
Proof.
  unfold configured, chosen_cc. assert (forall o, foldl (fun cfg opt => match opt with Some f => f cfg | None => cfg end) o
    ((fun cc => Some (WithCongestionControl cc)) <$> ccs) = WithCongestionControl (default (CongestionControl o) (last ccs)) o) as Hg.
  { induction ccs as [|cc ccs IH]; intros o; [by destruct o|]. rewrite fmap_cons. cbn [foldl]. rewrite IH.
    rewrite last_cons. by destruct (last ccs). }
  apply Hg.
Qed.

(** The options of the stack come out as documented: without any the
    congestion control is cubic and the buffers have their default ranges; of
    several choices of congestion control the last counts; a range whose maximum
    is not positive changes nothing; and the send and receive ranges are always
    set, before the interface exists. *)
Theorem options_spec (ccs : list string) (tx rx : buffer_range) :
  let base := (fun cc => Some (WithCongestionControl cc)) <$> ccs in
  let o := configured (base ++ [None; Some (WithBufferSizes tx rx)]) in
  CongestionControl o = chosen_cc ccs
  /\ SendBufferSize o = (if decide (0 < Max tx) then tx else {| Min := MinBufferSize; Default := DefaultSendBufferSize; Max := 6291456 |})
  /\ ReceiveBufferSize o = (if decide (0 < Max rx) then rx else {| Min := MinBufferSize; Default := DefaultReceiveBufferSize; Max := 8388608 |})
  /\ applyOptions o = (if decide (chosen_cc ccs = EmptyString) then [] else [SetCongestionControl (chosen_cc ccs)])
                      ++ [SetSendBuffer (SendBufferSize o); SetReceiveBuffer (ReceiveBufferSize o)].
Proof.
  cbn zeta. assert (configured (((fun cc => Some (WithCongestionControl cc)) <$> ccs) ++ [None; Some (WithBufferSizes tx rx)])
    = WithBufferSizes tx rx (WithCongestionControl (chosen_cc ccs) defaultOptions)) as ->.
  { rewrite <- configured_cc. unfold configured. by rewrite foldl_app. }
  unfold WithBufferSizes, WithCongestionControl, applyOptions. cbn [CongestionControl SendBufferSize ReceiveBufferSize].
  destruct (Z.ltb_spec 0 (Max tx)) as [Ht|Ht], (Z.ltb_spec 0 (Max rx)) as [Hr|Hr];
    split_and!; try done; repeat case_decide; try lia; try done; case_bool_decide; try done; cbn [Max];
    rewrite ?(proj2 (Z.ltb_lt 0 (Max tx))), ?(proj2 (Z.ltb_lt 0 (Max rx))) by lia; done.
Qed.

End created.

(** ** Properties of packets *)

Definition ip_version (packet : string) : Z :=
  match packet with EmptyString => 0 | String c _ => Z.shiftr (byte_of c) 4 end.

Definition inject_as (packet : string) : option (protocol * string) :=
  if ip_version packet =? 4 then Some (IPv4, packet)
  else if ip_version packet =? 6 then Some (IPv6, packet) else None.

(** The packets of the buffers: what stands after the offset, where anything does. *)
Definition packets_of (bufs : list string) (offset : nat) : list string :=
  filter (fun p => p <> EmptyString) (str_drop offset <$> bufs).

(** The list up to the first element without a value. *)
Fixpoint until_none {A B} (f : A -> option B) (l : list A) : list B :=
  match l with
  | [] => []
  | x :: l' => match f x with Some y => y :: until_none f l' | None => [] end
  end.

(** What wireguard-go decrypts reaches the stack as it is. The packets of a
    batch are injected in order, each to the protocol its version says, the empty
    ones passed over; a packet that is neither IPv4 nor IPv6 stops the batch with
    an error and is not injected, nor is any after it; otherwise the whole batch
    counts as written. *)
Theorem write_spec (bufs : list string) (offset : nat) :
  Forall (fun b => (offset <= String.length b)%nat) bufs ->
  let packets := packets_of bufs offset in
  Write bufs offset = Some (until_none inject_as packets,
    if decide (Forall (fun p => is_Some (inject_as p)) packets) then Written (length bufs) else AddressFamilyNotSupported).
Proof.
  intros Hb packets. subst packets. unfold Write.
  assert (write_packets bufs offset = Some (until_none inject_as (packets_of bufs offset),
    bool_decide (Forall (fun p => is_Some (inject_as p)) (packets_of bufs offset)))) as ->.
  { induction Hb as [|b bufs Hlen _ IH]; [done|]. cbn [write_packets].
    destruct (Nat.ltb_spec (String.length b) offset); [lia|]. unfold packets_of in *. rewrite fmap_cons, filter_cons.
    destruct (str_drop offset b) as [|c rest] eqn:E; [by rewrite decide_False by (intros Hne; by apply Hne)|].
    rewrite decide_True by done. cbn [until_none]. rewrite IH. cbn [mbind option_bind].
    assert (bool_decide (Forall (fun p => is_Some (inject_as p)) (String c rest :: filter (fun p => p <> EmptyString) (str_drop offset <$> bufs)))
      = bool_decide (is_Some (inject_as (String c rest)))
        && bool_decide (Forall (fun p => is_Some (inject_as p)) (filter (fun p => p <> EmptyString) (str_drop offset <$> bufs)))) as ->.
    { rewrite <- bool_decide_and. apply bool_decide_ext. by rewrite Forall_cons. }
    remember (inject_as (String c rest)) as i eqn:Ei. unfold inject_as, ip_version in Ei.
    destruct (Z.shiftr (byte_of c) 4 =? 4); [subst i; by rewrite (bool_decide_true (is_Some _)) by done|].
    destruct (Z.shiftr (byte_of c) 4 =? 6); [subst i; by rewrite (bool_decide_true (is_Some _)) by done|].
    subst i. by rewrite (bool_decide_false (is_Some _)) by (by intros [? ?]). }
  cbn [mbind option_bind]. case_decide as Hd; [by rewrite bool_decide_true|by rewrite bool_decide_false].
Qed.

(** ** Properties of the state *)

(** A device that is open and has room as its channel has. *)
Definition device_ok (d : netTun) : Prop := closed d = false /\ (length (events d) <= events_capacity)%nat.

(** Changing the MTU never blocks and never loses what wireguard-go was
    promised. On an open device the new MTU is at once that of the device and of
    the endpoint, and of the interface too unless the stack refuses it, which is
    reported; pending events stay in order, an update is added after them unless
    ten are waiting already, and so there are never more than ten. *)
Theorem set_mtu_spec (d : netTun) (m : Z) (nic : option string) :
  device_ok d -> 0 <= m < 2 ^ 31 ->
  exists d', SetMTU d m nic = Some (d', nic)
    /\ MTU d' = m /\ ep_mtu d' = m /\ nic_mtu d' = (match nic with None => m | Some _ => nic_mtu d end)
    /\ events d' = events d ++ (if decide (nic = None /\ (length (events d) < 10)%nat) then [EventMTUUpdate] else [])
    /\ device_ok d' /\ device_ok (take_event d').
Proof.
  intros [Hc Hl] Hm. unfold SetMTU, device_ok, events_capacity in *.
  assert (to_int32 m = m) as Hi by (unfold to_int32; rewrite Z.mod_small by lia; lia).
  assert (to_uint32 m = m) as Hu by (unfold to_uint32; apply Z.mod_small; lia).
  assert (forall evs : list tun_event, length (tail evs) <= length evs)%nat as Htl by (intros [|? ?]; cbn; lia).
  destruct nic as [e|].
  - eexists. split; [reflexivity|]. cbn. rewrite decide_False by (by intros [? _]). rewrite app_nil_r.
    pose proof (Htl (events d)). split_and!; try done; lia.
  - rewrite Hc. eexists. split; [reflexivity|]. cbn [MTU mtu ep_mtu nic_mtu events closed take_event].
    set (evs := if (length (events d) <? 10)%nat then _ else _).
    assert (evs = events d ++ (if decide (@None string = None /\ (length (events d) < 10)%nat) then [EventMTUUpdate] else [])
      /\ (length evs <= 10)%nat) as [He Hle].
    { subst evs. destruct (Nat.ltb_spec (length (events d)) 10).
      - rewrite decide_True by (split; [done|lia]). split; [done|]. rewrite length_app. cbn. lia.
      - rewrite decide_False, app_nil_r by (intros [_ ?]; lia). split; [done|lia]. }
    pose proof (Htl evs). split_and!; try done. lia.
Qed.

(** Sockets in the stack are of the family of their peer. A UDP socket dialled
    from no address of its own goes to the remote address and port over the
    protocol of its family; a ping connection dialled without a local address
    gets one of the remote's family, and what is written to it goes to an address
    of the same family as its local one, or nowhere. *)
Theorem socket_families (ra : addr) (rp : Z) (fails : ping_call -> option string) (pc : PingConn) :
  ra <> AddrZero ->
  DialUDPAddrPort (AddrZero, 0) (ra, rp) = (None, Some {| NIC := 1; Addr := ra; Port := rp |}, protocol_of ra)
  /\ (DialPingAddr fails AddrZero ra = Ok pc ->
      addr_is4 (ping_laddr pc) = addr_is4 ra /\ ping_raddr pc = ra
      /\ forall p writes, WriteTo pc p (Some ra) writes
           = match writes (convertToFullAddr (ra, 0)).1 with Ok n => Ok n | Err e => Err (PingWriteFailed e) end)
  /\ forall p target writes n, WriteTo pc p target writes = Ok n ->
       exists na, target = Some na /\ addr_is4 na = addr_is4 (ping_laddr pc) /\ addr_is6 na = addr_is6 (ping_laddr pc).
Proof.
  intros Hra. assert (is_valid ra = true) as Hv by (unfold is_valid; by rewrite bool_decide_false).
  split; [|split].
  - unfold DialUDPAddrPort. cbn [fst snd]. rewrite Hv. destruct ra; done.
  - unfold DialPingAddr. rewrite Hv. cbn [is_valid negb andb]. change (is_valid AddrZero) with false. cbn [negb andb].
    destruct (ping_perform _ _) as [[c e]|]; [done|]. intros [= <-]. cbn [ping_laddr ping_raddr].
    split_and!; [by destruct ra|done|]. intros p writes. unfold WriteTo. cbn [ping_laddr]. by destruct ra.
  - intros p target writes n. unfold WriteTo. destruct target as [na|]; [|done].
    destruct (negb _) eqn:E; [done|]. intros _. exists na. split; [done|]. apply negb_false_iff in E.
    by destruct na, (ping_laddr pc).
Qed.

(** *** Concrete runs *)

#[local] Instance toy_gvisor : Gvisor :=
  {| MinBufferSize := 4096; DefaultSendBufferSize := 1048576; DefaultReceiveBufferSize := 1048576 |}.

Definition sample_addresses : list addr := [Addr4 [10; 0; 0; 2]].

Lemma create_spec_witness :
  exists d, (CreateNetTUN (fun _ => None) sample_addresses [] 1280 []).2 = Ok d /\ mtu d = 1280 /\ hasV4 d = true.
Proof.
  pose proof (create_spec (fun _ => None) sample_addresses [] 1280 [] ltac:(lia)) as H.
  destruct (CreateNetTUN (fun _ => None) sample_addresses [] 1280 []) as [calls r] eqn:E.
  assert (r = (CreateNetTUN (fun _ => None) sample_addresses [] 1280 []).2) as Hr by by rewrite E.
  vm_compute in Hr. subst r. destruct H as (_ & _ & _ & _ & _ & _ & Hm & _). eexists. by split.
Defined.

Lemma write_spec_witness :
  Write ["xE0"; "x"; "x`1"; "x "; "xE2"]%string 1
  = Some ([(IPv4, "E0"%string); (IPv6, "`1"%string)], AddressFamilyNotSupported).
Proof.
  rewrite write_spec; [vm_compute; reflexivity|repeat constructor; cbn; lia].
Defined.

Definition sample_device : netTun :=
  {| mtu := 1280; ep_mtu := 1280; nic_mtu := 1280; events := replicate 10 EventUp; closed := false; dnsServers := [];
     hasV4 := true; hasV6 := false |}.

Lemma set_mtu_spec_witness :
  exists d', SetMTU sample_device 1400 None = Some (d', None) /\ MTU d' = 1400 /\ events d' = events sample_device.
Proof.
  destruct (set_mtu_spec sample_device 1400 None) as (d' & Hd & Hm & _ & _ & He & _); [split; [done|by apply Nat.leb_le]|lia|].
  exists d'. split; [exact Hd|]. split; [exact Hm|]. rewrite He. by vm_compute.
Defined.

Lemma socket_families_witness :
  DialUDPAddrPort (AddrZero, 0) (Addr4 [10; 0; 0; 1], 53) = (None, Some {| NIC := 1; Addr := Addr4 [10; 0; 0; 1]; Port := 53 |}, IPv4).
Proof.
  destruct (socket_families (Addr4 [10; 0; 0; 1]) 53 (fun _ => None) {| ping_laddr := AddrZero; ping_raddr := AddrZero |})
    as [Hd _]; [done|exact Hd].
Defined.

End Device.
