(* ===== verification/UdpEcho.v ===== *)
(** The UDP echo pinger ([udpecho.go]): health accounting, statistics, waiting
    for a matching response, and one turn of the pinger's loop with the path MTU
    prober and the MTU of the network stack it drives. *)

From S2P Require Import Prelude Lists GoStrings GoTime PeerMTU EchoPayload Device.
Open Scope Z_scope.

Import Prober.

(** ** Health *)

Module Health.

Definition maxConsecutiveEchoFailures : Z := 12.

Record udpEchoHealth := { ready : bool; consecutiveFailures : Z }.

Definition newHealth : udpEchoHealth := {| ready := false; consecutiveFailures := 0 |}.

Inductive udpEchoHealthEvent : Type :=
| udpEchoHealthy
| udpEchoStartupFailed
| udpEchoUnhealthy.

#[global] Instance udpEchoHealthEvent_eq_dec : EqDecision udpEchoHealthEvent.
Proof. solve_decision. Defined.

(** The event ([None] is the code's 0), [firstSuccess], and the new state. *)
Definition observe (h : udpEchoHealth) (matched : bool)
  : option udpEchoHealthEvent * bool * udpEchoHealth :=
  if matched then
    (Some udpEchoHealthy, negb (ready h), {| ready := true; consecutiveFailures := 0 |})
  else if negb (ready h) then (Some udpEchoStartupFailed, false, h)
  else
    let n := consecutiveFailures h +i 1 in
    if maxConsecutiveEchoFailures <=? n then
      (Some udpEchoUnhealthy, false, {| ready := ready h; consecutiveFailures := 0 |})
    else (None, false, {| ready := ready h; consecutiveFailures := n |}).

Definition after_health (obs : list bool) : udpEchoHealth :=
  foldl (fun h m => (observe h m).2) newHealth obs.

(** The length of the run of failures at the end of the observations, which are
    newest first. *)
Fixpoint trailing (rev_obs : list bool) : nat :=
  match rev_obs with
  | false :: rest => S (trailing rest)
  | _ => O
  end.

(** What the observer should have reported last, newest observation first. *)
Definition expected_event (rev_obs : list bool) : option udpEchoHealthEvent :=
  match rev_obs with
  | [] => None
  | true :: _ => Some udpEchoHealthy
  | false :: _ =>
      if bool_decide (true ∈ rev_obs) then
        if (trailing rev_obs mod 12 =? 0)%nat then Some udpEchoUnhealthy else None
      else Some udpEchoStartupFailed
  end.

Lemma decide_true_snoc obs m :
  bool_decide (true ∈ obs ++ [m]) = bool_decide (true ∈ obs) || m.
Proof.
  apply Bool.eq_iff_eq_true.
  rewrite orb_true_iff, !bool_decide_eq_true, elem_of_app, list_elem_of_singleton.
  split; intros [?|?]; auto.
Qed.

Lemma decide_true_rev obs m :
  bool_decide (true ∈ m :: rev obs) = bool_decide (true ∈ obs) || m.
Proof.
  rewrite <- decide_true_snoc. apply bool_decide_ext.
  by rewrite <- rev_unit, !list_elem_of_In, <- in_rev.
Qed.

Lemma succ_mod12 n :
  (S n mod 12 = if 11 <=? n mod 12 then 0 else S (n mod 12))%nat.
Proof.
  pose proof (Nat.div_mod_eq n 12). pose proof (Nat.mod_upper_bound n 12 ltac:(lia)).
  destruct (Nat.leb_spec 11 (n mod 12)); symmetry.
  - apply (Nat.mod_unique _ _ (S (n / 12))); lia.
  - apply (Nat.mod_unique _ _ (n / 12)); lia.
Qed.

(** One failure more, once ready. *)
Lemma observe_failure h n :
  ready h = true -> consecutiveFailures h = Z.of_nat (n mod 12) ->
  let unhealthy := (S n mod 12 =? 0)%nat in
  observe h false = (if unhealthy then Some udpEchoUnhealthy else None, false,
                     {| ready := true; consecutiveFailures := Z.of_nat (S n mod 12) |}).
Proof.
  intros Hr Hc. unfold observe, maxConsecutiveEchoFailures. rewrite Hr, Hc, succ_mod12. cbn [negb].
  pose proof (Nat.mod_upper_bound n 12 ltac:(lia)). int64.
  destruct (Nat.leb_spec 11 (n mod 12)), (Z.leb_spec 12 (Z.of_nat (n mod 12) + 1)); try lia; cbn zeta.
  - done.
  - cbn. do 2 f_equal. lia.
Qed.

Lemma after_health_spec obs :
  ready (after_health obs) = bool_decide (true ∈ obs)
  /\ (ready (after_health obs) = true ->
      consecutiveFailures (after_health obs) = Z.of_nat (trailing (rev obs) mod 12)).
Proof.
  induction obs as [|m obs [Hr Hc]] using rev_ind; [done|].
  unfold after_health in *. rewrite foldl_app, rev_unit, decide_true_snoc. cbn [foldl].
  set (h := foldl _ newHealth obs) in *. rewrite <- Hr. destruct m; cbn [trailing].
  - by rewrite orb_true_r.
  - rewrite orb_false_r. destruct (ready h) eqn:Er.
    + by rewrite (observe_failure h _ Er (Hc eq_refl)).
    + unfold observe. rewrite Er. cbn [negb snd]. by rewrite Er.
Qed.

(** The health observer reports sustained loss, and nothing less: success
    as Healthy; failure before any success as StartupFailed; after a first
    success, Unhealthy at every twelfth failure in an unbroken run of failures
    and no event at the others. *)
Theorem health_spec (obs : list bool) (m : bool) :
  (observe (after_health obs) m).1.1 = expected_event (m :: rev obs)
  /\ ((observe (after_health obs) m).1.2 = true <-> m = true /\ true ∉ obs).
Proof.
  destruct (after_health_spec obs) as [Hr Hc]. unfold expected_event.
  rewrite decide_true_rev, <- Hr. destruct m.
  - cbn. rewrite Hr. split; [done|]. rewrite negb_true_iff, bool_decide_eq_false. naive_solver.
  - rewrite orb_false_r. destruct (ready (after_health obs)) eqn:Er.
    + rewrite (observe_failure _ _ Er (Hc eq_refl)). cbn [fst snd trailing]. naive_solver.
    + unfold observe. rewrite Er. cbn. naive_solver.
Qed.
End Health.

(** ** Statistics *)

Module Stats.

Definition udpEchoSummaryInterval : Z := 30 * Second.

Record udpEchoStats := { windowStart : time; count : Z; total : Z; min : Z; max : Z }.

Definition newStats (start : time) : udpEchoStats :=
  {| windowStart := start; count := 0; total := 0; min := 0; max := 0 |}.

Definition observe (s : udpEchoStats) (now : time) (rtt : Z) : bool * udpEchoStats :=
  let start := if is_zero (windowStart s) then now else windowStart s in
  (udpEchoSummaryInterval <=? time_sub now start,
   {| windowStart := start;
      count := count s +i 1;
      total := total s +i rtt;
      min := if (min s =? 0) || (rtt <? min s) then rtt else min s;
      max := if max s <? rtt then rtt else max s |}).

(** What is logged: samples, average, minimum and maximum, before rounding;
    [None] is the panic of a division by zero. *)
Definition logAndReset (s : udpEchoStats) (now : time)
  : option ((Z * Z * Z * Z) * udpEchoStats) :=
  if count s =? 0 then None
  else Some ((count s, wrap64 (Z.quot (total s) (count s)), min s, max s), newStats now).

Definition observe_all (s : udpEchoStats) (samples : list (time * Z)) : udpEchoStats :=
  foldl (fun s x => (observe s x.1 x.2).2) s samples.

Definition sum (rtts : list Z) : Z := foldr Z.add 0 rtts.

Lemma sum_snoc l x : sum (l ++ [x]) = sum l + x.
Proof. unfold sum. induction l as [|y l IH]; simpl; lia. Qed.

Lemma sum_nonneg l : Forall (fun r => 0 < r) l -> 0 <= sum l.
Proof. unfold sum. induction 1; simpl; lia. Qed.

Lemma observe_all_spec start samples :
  let rtts := samples.*2 in
  Forall (fun r => 0 < r) rtts -> sum rtts <= int64_max -> Z.of_nat (length rtts) <= int64_max ->
  let s := observe_all (newStats start) samples in
  count s = Z.of_nat (length rtts) /\ total s = sum rtts
  /\ (rtts = [] -> min s = 0 /\ max s = 0)
  /\ (rtts <> [] -> min s ∈ rtts /\ max s ∈ rtts)
  /\ Forall (fun r => min s <= r <= max s) rtts.
Proof.
  cbn zeta. induction samples as [|[now rtt] samples IH] using rev_ind; intros Hpos Hsum Hlen.
  { cbn. split_and!; [done|done|done|done|constructor]. }
  rewrite fmap_app in *. cbn [fmap list_fmap snd] in *.
  apply Forall_app in Hpos as [Hpos Hr]. apply Forall_cons in Hr as [Hr _].
  rewrite sum_snoc in Hsum. rewrite length_app in Hlen. simpl length in Hlen.
  pose proof (sum_nonneg _ Hpos).
  destruct IH as (Hc & Ht & He & Hne & Hall); [done|lia|lia|].
  unfold observe_all in *. rewrite foldl_app. cbn [foldl]. set (s := foldl _ (newStats start) samples) in *.
  unfold observe. cbn [snd fst count total min max]. rewrite Hc, Ht, sum_snoc, length_app. simpl length.
  unfold int64_max in *. int64.
  split; [lia|]. split; [done|]. split; [by destruct (samples.*2)|].
  destruct (decide (samples.*2 = [])) as [E|E].
  - destruct (He E) as [-> ->]. rewrite E. cbn. rewrite (proj2 (Z.ltb_lt 0 rtt)) by done.
    split; [intros _; split; apply list_elem_of_singleton; done|]. repeat constructor; lia.
  - destruct (Hne E) as [Hmin Hmax]. rewrite Forall_forall in Hpos. pose proof (Hpos _ Hmin).
    rewrite (proj2 (Z.eqb_neq (min s) 0)) by lia. cbn [orb]. rewrite Forall_app, Forall_singleton.
    split; [intros _; rewrite !elem_of_app, !list_elem_of_singleton; zbool; auto|].
    split; [|zbool; lia]. eapply Forall_impl; [exact Hall|]. intros r Hrr. cbv beta in Hrr |- *. zbool; lia.
Qed.

(** The statistics of a window are those of its samples: their number and
    sum, their least and greatest round trip; the average that is logged lies
    between the two, and logging never divides by zero. *)
Theorem stats_spec (start now : time) (samples : list (time * Z)) :
  let rtts := samples.*2 in
  rtts <> [] -> Forall (fun r => 0 < r) rtts -> sum rtts <= int64_max ->
  Z.of_nat (length rtts) <= int64_max ->
  exists n average least most,
    logAndReset (observe_all (newStats start) samples) now
      = Some ((n, average, least, most), newStats now)
    /\ n = Z.of_nat (length rtts) /\ average = sum rtts / n
    /\ least ∈ rtts /\ most ∈ rtts /\ Forall (fun r => least <= r <= most) rtts
    /\ least <= average <= most.
Proof.
  cbn zeta. intros Hne Hpos Hsum Hlen.
  destruct (observe_all_spec start samples Hpos Hsum Hlen) as (Hc & Ht & _ & Hel & Hall).
  set (s := observe_all _ samples) in *. destruct (Hel Hne) as [Hmin Hmax].
  assert (0 < count s) as Hpos' by (rewrite Hc; destruct (samples.*2); [done|simpl; lia]).
  assert (min s * count s <= sum (samples.*2) <= max s * count s) as Hb.
  { rewrite Hc. clear -Hall. unfold sum. induction Hall as [|r l Hr _ IH]; [simpl; lia|]. simpl in *. lia. }
  pose proof (sum_nonneg _ Hpos).
  unfold logAndReset. rewrite (proj2 (Z.eqb_neq (count s) 0)) by lia.
  rewrite Ht, Z.quot_div_nonneg by lia.
  assert (min s <= sum (samples.*2) / count s <= max s).
  { split; [apply Z.div_le_lower_bound|apply Z.div_le_upper_bound]; lia. }
  rewrite Forall_forall in Hpos. pose proof (Hpos _ Hmin). pose proof (Hpos _ Hmax).
  assert (max s <= sum (samples.*2)).
  { rewrite <- Forall_forall in Hpos. clear -Hmax Hpos. unfold sum.
    induction Hpos as [|r l Hr Hl IH]; [by apply not_elem_of_nil in Hmax|].
    pose proof (sum_nonneg l Hl) as Hs. unfold sum in Hs. simpl.
    apply elem_of_cons in Hmax as [-> |Hm]; [lia|]. specialize (IH Hm). lia. }
  eexists _, _, _, _. split; [done|]. rewrite <- Hc. int64. done.
Qed.

Lemma stats_spec_witness :
  exists n average least most,
    logAndReset (observe_all (newStats time_zero)
      [(time_unix 100, 50); (time_unix 130, 100); (time_unix 131, 151)]) (time_unix 131)
      = Some ((n, average, least, most), newStats (time_unix 131))
    /\ n = 3 /\ average = 301 / n.
Proof.
  destruct (stats_spec time_zero (time_unix 131)
    [(time_unix 100, 50); (time_unix 130, 100); (time_unix 131, 151)])
    as (n & a & l & m & H1 & H2 & H3 & _);
    [done|by repeat constructor|vm_compute; discriminate|vm_compute; discriminate|].
  by exists n, a, l, m.
Defined.
End Stats.

(** ** Waiting for a response *)

Module Wait.

Definition steadyStateEchoDeadline : Z := 3 * Second.
Definition startupRetryInterval : Z := 3 * Second.
Definition startupCeiling : Z := 95 * Second.

Inductive read_result : Type :=
| ReadOk (data : string)
| ReadTimeout
| ReadFailed.

(** What one turn of the loop meets: the clock at its top, the context after the
    deadline is set and after a failed read, the read, and whether a resend is
    written. *)
Record wait_turn := {
  w_now : Z;
  w_live : bool;
  w_read : read_result;
  w_live_after : bool;
  w_resend_ok : bool;
}.

(** What a turn does, besides its result: the deadline it sets, and a resend. *)
Inductive wait_action : Type :=
| SetDeadline (deadline : Z)
| Resent.

(** [None] to go around again. *)
Definition echo_turn (ceiling : Z) (wantID : string) (retryInterval : Z) (resend isStartup : bool)
    (tr : wait_turn) : option bool * list wait_action :=
  if ceiling <=? w_now tr then (Some false, [])
  else
    let deadline := w_now tr + retryInterval in
    let deadline := if ceiling <? deadline then ceiling else deadline in
    if negb (w_live tr) then (Some false, [SetDeadline deadline])
    else match w_read tr with
    | ReadOk data =>
        match parseUDPEchoResponse data with
        | Err _ => (None, [SetDeadline deadline])
        | Ok responseID =>
            if bool_decide (responseID = wantID) then (Some true, [SetDeadline deadline])
            else (None, [SetDeadline deadline])
        end
    | ReadTimeout =>
        if negb (w_live_after tr) then (Some false, [SetDeadline deadline])
        else if negb isStartup then (Some false, [SetDeadline deadline])
        else if resend then
          if w_resend_ok tr then (None, [SetDeadline deadline; Resent])
          else (Some false, [SetDeadline deadline])
        else (None, [SetDeadline deadline])
    | ReadFailed => (Some false, [SetDeadline deadline])
    end.

Fixpoint echo_loop (ceiling : Z) (wantID : string) (retryInterval : Z) (resend isStartup : bool)
    (trs : list wait_turn) : option bool * list wait_action :=
  match trs with
  | [] => (None, [])
  | tr :: trs' =>
      match echo_turn ceiling wantID retryInterval resend isStartup tr with
      | (Some b, acts) => (Some b, acts)
      | (None, acts) =>
          let '(r, rest) := echo_loop ceiling wantID retryInterval resend isStartup trs' in
          (r, acts ++ rest)
      end
  end.

(** [started] is the clock on entry. *)
Definition waitForEchoResponse (started : Z) (wantID : string) (timeout retryInterval : Z)
    (resend isStartup : bool) (trs : list wait_turn) : option bool * list wait_action :=
  echo_loop (started + timeout) wantID retryInterval resend isStartup trs.

Definition waitForSteadyStateResponse (started : Z) (wantID : string) (trs : list wait_turn)
  : option bool * list wait_action :=
  waitForEchoResponse started wantID steadyStateEchoDeadline steadyStateEchoDeadline false false trs.

(** [sent] is when request 0 was written, [now] the clock on entry. *)
Definition waitForStartupResponse (sent now : Z) (wantID : string) (trs : list wait_turn)
  : option bool * list wait_action :=
  let timeout := startupCeiling - (now - sent) in
  if timeout <=? 0 then (Some false, [])
  else waitForEchoResponse now wantID timeout startupRetryInterval true true trs.

(** *** Specification *)

(** The turn carries the awaited response. *)
Definition answers (wantID : string) (tr : wait_turn) : Prop :=
  w_live tr = true /\ exists data, w_read tr = ReadOk data /\ parseUDPEchoResponse data = Ok wantID.

Definition bounded_action (ceiling : Z) (a : wait_action) : Prop :=
  match a with SetDeadline d => d <= ceiling | Resent => True end.

Lemma echo_turn_spec ceiling wantID retry resend isStartup tr :
  let '(r, acts) := echo_turn ceiling wantID retry resend isStartup tr in
  (r = Some true <-> w_now tr < ceiling /\ answers wantID tr)
  /\ Forall (bounded_action ceiling) acts
  /\ (ceiling <= w_now tr -> r = Some false)
  /\ (isStartup = false -> w_read tr = ReadTimeout -> r = Some false).
Proof.
  assert (forall (r : option bool) acts,
    (r = Some true <-> w_now tr < ceiling /\ answers wantID tr) -> Forall (bounded_action ceiling) acts ->
    (ceiling <= w_now tr -> r = Some false) ->
    (isStartup = false -> w_read tr = ReadTimeout -> r = Some false) ->
    let '(r, acts) := (r, acts) in
    (r = Some true <-> w_now tr < ceiling /\ answers wantID tr) /\ Forall (bounded_action ceiling) acts
    /\ (ceiling <= w_now tr -> r = Some false)
    /\ (isStartup = false -> w_read tr = ReadTimeout -> r = Some false)) as Hgoal by auto.
  unfold echo_turn, answers in *. destruct (Z.leb_spec ceiling (w_now tr)).
  { apply Hgoal; [split; [done|lia]|constructor|done|done]. }
  set (d := if _ <? _ then _ else _).
  assert (bounded_action ceiling (SetDeadline d)) as Hd by (unfold d; simpl; zbool; lia).
  assert (Forall (bounded_action ceiling) [SetDeadline d]) as Hd1 by by constructor.
  assert (Forall (bounded_action ceiling) [SetDeadline d; Resent]) as Hd2 by by repeat constructor.
  destruct (w_live tr); cbn [negb]; [|apply Hgoal; (done || lia || naive_solver)].
  destruct (w_read tr) as [data| |] eqn:Er.
  - destruct (parseUDPEchoResponse data) as [id|e] eqn:Ep; [case_bool_decide as Hid|];
      apply Hgoal; try done; try lia.
    + split; [|done]. intros _. split; [done|]. split; [done|]. exists data. by rewrite Ep, Hid.
    + split; [done|]. intros (_ & _ & d' & Hd' & Hp). injection Hd' as <-. congruence.
    + split; [done|]. intros (_ & _ & d' & Hd' & Hp). injection Hd' as <-. congruence.
  - assert (forall r : option bool, r <> Some true -> (r = Some true <-> w_now tr < ceiling
      /\ true = true /\ exists data, ReadTimeout = ReadOk data /\ parseUDPEchoResponse data = Ok wantID)) as Hiff.
    { intros r Hr. split; [done|]. by intros (_ & _ & ? & ? & _). }
    destruct (w_live_after tr), isStartup, resend, (w_resend_ok tr); cbn [negb];
      apply Hgoal; solve [done | by apply Hiff | lia].
  - apply Hgoal; try done; try lia. split; [done|]. by intros (_ & _ & ? & ? & _).
Qed.

(** A wait ends in success exactly at the first turn that reads, before the
    ceiling and with the context live, a response with the awaited request id;
    it never sets a read deadline beyond the ceiling; it is over once the
    ceiling has passed; and outside startup it is over at the first read
    timeout. *)
Theorem wait_spec (started : Z) (wantID : string) (timeout retryInterval : Z)
    (resend isStartup : bool) (trs : list wait_turn) :
  let ceiling := started + timeout in
  let '(r, acts) := waitForEchoResponse started wantID timeout retryInterval resend isStartup trs in
  (r = Some true -> exists tr, tr ∈ trs /\ w_now tr < ceiling /\ answers wantID tr)
  /\ (r = Some false \/ r = None -> forall pre tr post, trs = pre ++ tr :: post ->
        w_now tr < ceiling -> answers wantID tr ->
        exists early, early ∈ pre /\ (echo_turn ceiling wantID retryInterval resend isStartup early).1 = Some false)
  /\ Forall (bounded_action ceiling) acts
  /\ (forall tr, tr ∈ trs -> ceiling <= w_now tr -> r <> None)
  /\ (isStartup = false -> forall tr, tr ∈ trs -> w_read tr = ReadTimeout -> r <> None).
Proof.
  cbn zeta. unfold waitForEchoResponse. set (ceiling := started + timeout).
  induction trs as [|tr trs IH]; cbn [echo_loop].
  { split; [done|]. split; [by intros _ [|? ?]|]. split; [constructor|].
    split; [|intros _]; intros tr Hin; by apply not_elem_of_nil in Hin. }
  pose proof (echo_turn_spec ceiling wantID retryInterval resend isStartup tr) as Ht.
  destruct (echo_turn ceiling wantID retryInterval resend isStartup tr) as [[b|] acts] eqn:Eturn.
  - destruct Ht as (Htrue & Hacts & Hceil & Hto). split_and!; try done.
    + intros Hb. exists tr. split; [by left|]. by apply Htrue.
    + intros Hb pre tr' post Heq Hnow Hans. destruct pre as [|tr0 pre]; injection Heq as <- ->.
      * pose proof (proj2 Htrue (conj Hnow Hans)). destruct Hb; congruence.
      * exists tr. split; [by left|]. rewrite Eturn. destruct b; [by destruct Hb|reflexivity].
  - destruct Ht as (Htrue & Hacts & Hceil & Hto).
    destruct (echo_loop _ _ _ _ _ trs) as [r rest]. destruct IH as (I1 & I2 & I3 & I4 & I5).
    split_and!.
    + intros Hr. destruct (I1 Hr) as (tr' & ? & ?). exists tr'. split; [by right|done].
    + intros Hr pre tr' post Heq Hnow Hans. destruct pre as [|tr0 pre]; injection Heq as <- ->.
      * pose proof (proj2 Htrue (conj Hnow Hans)). congruence.
      * destruct (I2 Hr pre tr' post eq_refl Hnow Hans) as (e & ? & ?). exists e. split; [by right|done].
    + by apply Forall_app.
    + intros tr' [-> |Hin]%elem_of_cons Hc; [|by eapply I4]. by specialize (Hceil Hc).
    + intros Hs tr' [-> |Hin]%elem_of_cons Hc; [|by eapply I5]. by specialize (Hto Hs Hc).
Qed.

End Wait.

(** ** The pinger *)

Module Pinger.

(** What the loop is started with: the hash of the session secret and whether
    the echo endpoint is IPv4. *)
Record config := { secretHash : string; remote_is4 : bool }.

(** The MTU of the network stack, held twice: by the device with its endpoint, and
    by the interface. *)
Record stack_mtus := { device_mtu : Z; interface_mtu : Z }.

(** [SetMTU] as it acts on the two, [ok] whether [SetNICMTU] takes the MTU: the
    device stores it before it is known. *)
Definition set_mtu (s : stack_mtus) (m : Z) (ok : bool) : stack_mtus :=
  {| device_mtu := m; interface_mtu := if ok then m else interface_mtu s |}.

(** The loop's variables, [prober] the pointer, and the stack. *)
Record ping_state := {
  requestID : Z;
  health : Health.udpEchoHealth;
  prober : option peerMTUProber;
  stack : stack_mtus;
}.

(** What one turn meets: the context at its top, the success of the three
    possible [SetMTU] calls and of the write, whether the wait matched, the
    context after it, whether the event was received before the context ended,
    and the context during the closing sleep. *)
Record ping_turn := {
  p_live : bool;
  p_probe_mtu_ok : bool;
  p_lock_mtu_ok : bool;
  p_reset_mtu_ok : bool;
  p_write_ok : bool;
  p_matched : bool;
  p_live_after : bool;
  p_event_received : bool;
  p_live_sleep : bool;
}.

Inductive ping_action : Type :=
| Sent (payload : string)
| Event (ev : Health.udpEchoHealthEvent).

Inductive ping_result : Type :=
| Next (st : ping_state)
| Done
| WriteError.

Definition set_prober (st : ping_state) (p : peerMTUProber) (s : stack_mtus) : ping_state :=
  {| requestID := requestID st; health := health st; prober := Some p; stack := s |}.

Definition set_health (st : ping_state) (h : Health.udpEchoHealth) : ping_state :=
  {| requestID := requestID st; health := h; prober := prober st; stack := stack st |}.

Definition next_request (st : ping_state) : ping_state :=
  {| requestID := requestID st +i 1; health := health st; prober := prober st; stack := stack st |}.

(** Choosing the payload: a padded probe together with its target when the
    prober asks for one and the stack takes its MTU, else the plain request. *)
Definition choose_payload (cfg : config) (st : ping_state) (tr : ping_turn)
  : ping_state * option Z * string :=
  let plain := marshal_request (secretHash cfg) (itoa (requestID st)) 3000 in
  if (0 <? requestID st) && Health.ready (health st) then
    match prober st with
    | None => (st, None, plain)
    | Some p =>
        match NextProbeMTU p with
        | None => (st, None, plain)
        | Some target =>
            let ipHeaderLen := if remote_is4 cfg then 20 else 40 in
            match buildPaddedEchoPayload (secretHash cfg) (itoa (requestID st)) 3000 target ipHeaderLen with
            | None => (st, None, plain)
            | Some padded =>
                let s := set_mtu (stack st) target (p_probe_mtu_ok tr) in
                if p_probe_mtu_ok tr then (set_prober st p s, Some target, padded)
                else (set_prober st (RecordProbeResult target false p).2 s, None, plain)
            end
        end
    end
  else (st, None, plain).

(** Recording a probe's outcome and locking the stack to the confirmed MTU. *)
Definition settle_probe (st : ping_state) (tr : ping_turn) (target : Z) (success : bool) : ping_state :=
  match prober st with
  | None => st
  | Some p =>
      let '(_, confirmed, _, p') := RecordProbeResult target success p in
      set_prober st p' (set_mtu (stack st) confirmed (p_lock_mtu_ok tr))
  end.

(** After sustained loss the prober and the stack go back to the base MTU. *)
Definition on_unhealthy (st : ping_state) (tr : ping_turn) : ping_state :=
  match prober st with
  | Some p =>
      if bool_decide (State p = dplpmtudStateDisabled) then st
      else set_prober st (Reset p) (set_mtu (stack st) baseTunnelMTU (p_reset_mtu_ok tr))
  | None => st
  end.

Definition on_plain_answer (st : ping_state) : ping_state :=
  match prober st with
  | Some p => set_prober st (Arm p) (stack st)
  | None => st
  end.

(** The end of a turn: the event, then the sleep. *)
Definition finish_turn (st : ping_state) (tr : ping_turn) (probing : bool)
    (ev : option Health.udpEchoHealthEvent) (acts : list ping_action) : ping_result * list ping_action :=
  let acts := acts ++ match ev with Some e => if p_event_received tr then [Event e] else [] | None => [] end in
  if bool_decide (is_Some ev) && negb (p_event_received tr) then (Done, acts)
  else
    let st := if p_matched tr && negb probing then on_plain_answer st else st in
    if p_live_sleep tr then (Next (next_request st), acts) else (Done, acts).

(** One turn of the loop. *)
Definition ping_turn_step (cfg : config) (st : ping_state) (tr : ping_turn)
  : ping_result * list ping_action :=
  if negb (p_live tr) then (Done, [])
  else
    let '(st, target, payload) := choose_payload cfg st tr in
    if negb (p_write_ok tr) then
      match target with
      | Some t =>
          let st := settle_probe st tr t false in
          if p_live_sleep tr then (Next (next_request st), []) else (Done, [])
      | None => (WriteError, [])
      end
    else if negb (p_live_after tr) then (Done, [Sent payload])
    else
      let st := match target with Some t => settle_probe st tr t (p_matched tr) | None => st end in
      let '(ev, _, h) := Health.observe (health st) (p_matched tr) in
      let st := set_health st h in
      let st := if bool_decide (ev = Some Health.udpEchoUnhealthy) then on_unhealthy st tr else st in
      finish_turn st tr (bool_decide (is_Some target)) ev [Sent payload].

(** Turns one after the other, while the loop goes on. *)
Fixpoint ping_run (cfg : config) (st : ping_state) (trs : list ping_turn) : ping_result * list ping_action :=
  match trs with
  | [] => (Next st, [])
  | tr :: trs' =>
      match ping_turn_step cfg st tr with
      | (Next st', acts) => let '(r, rest) := ping_run cfg st' trs' in (r, acts ++ rest)
      | other => other
      end
  end.

(** [addr] and [port] are the echo endpoint of the server description,
    [parsed] the result of parsing its address. *)
Inductive ping_start : Type :=
| NoEcho
| InvalidEndpoint
| Dialed (st : ping_state).

Definition start_pinger (have_net : bool) (addr : string) (port : Z) (parsed : option (list Z))
    (p : option peerMTUProber) (s : stack_mtus) : ping_start :=
  if negb have_net || bool_decide (addr = EmptyString) || (port =? 0) then NoEcho
  else match parsed with
  | None => InvalidEndpoint
  | Some _ => Dialed {| requestID := 0; health := Health.newHealth; prober := p; stack := s |}
  end.

(** *** The stack's MTU follows the prober *)

Lemma record_reports_confirmed t success p :
  confirmedMTU (RecordProbeResult t success p).2 = (RecordProbeResult t success p).1.1.2.
Proof. unfold RecordProbeResult. repeat case_match; done. Qed.

Lemma record_failure_confirmed t p : confirmedMTU (RecordProbeResult t false p).2 = confirmedMTU p.
Proof. unfold RecordProbeResult. repeat case_match; done. Qed.

(** The two MTUs of a device, and [SetMTU] on them. *)
Definition mtus_of (d : Device.netTun) : stack_mtus :=
  {| device_mtu := Device.MTU d; interface_mtu := Device.nic_mtu d |}.

Lemma set_mtu_is_SetMTU (d d' : Device.netTun) (m : Z) (nic r : option string) :
  0 <= m < 2 ^ 31 -> Device.SetMTU d m nic = Some (d', r) ->
  mtus_of d' = set_mtu (mtus_of d) m (bool_decide (r = None)) /\ Device.ep_mtu d' = Device.MTU d'.
Proof.
  intros Hm. assert (Device.to_int32 m = m) as Hi by (unfold Device.to_int32; rewrite Z.mod_small by lia; lia).
  assert (Device.to_uint32 m = m) as Hu by (unfold Device.to_uint32; apply Z.mod_small; lia).
  unfold Device.SetMTU, mtus_of, set_mtu. rewrite Hi, Hu. destruct nic as [e|]; [by intros [= <- <-]|].
  destruct (Device.closed d); [done|]. by intros [= <- <-].
Qed.

Section tracked.
Context (initialMTU maxTarget manualMTU : Z).

Notation reachable := (reachable initialMTU maxTarget manualMTU).

(** With an automatic MTU. *)
Definition within (m : Z) : Prop := manualMTU <= 0 -> baseTunnelMTU <= m <= ceiling initialMTU maxTarget.

(** The stack between two turns: the device is at the confirmed MTU if [device],
    the interface if [interface]. *)
Definition tracked (device interface : Prop) (st : ping_state) : Prop :=
  exists p, prober st = Some p /\ reachable p
    /\ (device -> device_mtu (stack st) = ConfirmedMTU p) /\ (interface -> interface_mtu (stack st) = ConfirmedMTU p)
    /\ within (device_mtu (stack st)) /\ within (interface_mtu (stack st)).

(** A probe is out: the stack runs at the MTU under test. *)
Definition probing_at (st : ping_state) (target : Z) : Prop :=
  exists p, prober st = Some p /\ reachable p /\ stack st = {| device_mtu := target; interface_mtu := target |}
    /\ within target.

Lemma confirmed_within p : reachable p -> within (ConfirmedMTU p).
Proof.
  intros Hr Hman. apply (wf_auto _ _ (reachable_wf _ _ _ _ Hr)).
  rewrite (reachable_manual _ _ _ _ Hr). by apply Z.ltb_ge.
Qed.

Lemma probe_within p t : reachable p -> NextProbeMTU p = Some t -> within t.
Proof.
  intros Hp (_ & Hst & Hl)%NextProbeMTU_Some Hman. pose proof (confirmed_within p Hp Hman) as Hc.
  pose proof (reachable_wf _ _ _ _ Hp) as [_ Hr _ _ Ha _ Hw]. destruct (Hw Hst) as [_ Hd].
  rewrite (lookup_drop_head _ _ _ Hl) in Hd. apply Forall_cons in Hd as [Hlt _].
  rewrite Forall_forall in Hr. destruct (Hr t) as [Ht _]; [by eapply list_elem_of_lookup_2|].
  assert (manualOverride p = false) as Hm by (rewrite (reachable_manual _ _ _ _ Hp); by apply Z.ltb_ge).
  destruct (Ha Hm) as (_ & ? & _). unfold ConfirmedMTU in Hc. lia.
Qed.

Lemma tracked_weaken (D D' N N' : Prop) st : (D' -> D) -> (N' -> N) -> tracked D N st -> tracked D' N' st.
Proof. intros ? ? (p & ? & ? & ? & ? & ?). exists p. split_and!; naive_solver. Qed.

Lemma choose_payload_tracked D N cfg st tr :
  tracked D N st ->
  let '(st1, target, _) := choose_payload cfg st tr in
  match target with None => tracked (D /\ p_probe_mtu_ok tr = true) N st1 | Some t => probing_at st1 t end.
Proof.
  intros Hl. assert (tracked (D /\ p_probe_mtu_ok tr = true) N st) as Hl' by (eapply tracked_weaken, Hl; tauto).
  destruct Hl as (p & Hp & Hr & Hd & Hn & Hwd & Hwn). unfold choose_payload. rewrite Hp.
  destruct ((0 <? requestID st) && Health.ready (health st)); [|done].
  destruct (NextProbeMTU p) as [t|] eqn:En; [|done]. destruct (buildPaddedEchoPayload _ _ _ _ _); [|done].
  pose proof (probe_within p t Hr En) as Ht. destruct (p_probe_mtu_ok tr); [by exists p|].
  eexists. split; [done|]. split; [eapply reach_step; [exact Hr|constructor]|]. split; [by intros [_ ?]|].
  cbn. split_and!; [|done..]. intros HN. unfold ConfirmedMTU. rewrite record_failure_confirmed. by apply Hn.
Qed.

Lemma settle_probe_tracked D st tr t success :
  probing_at st t -> tracked D (p_lock_mtu_ok tr = true) (settle_probe st tr t success).
Proof.
  intros (p & Hp & Hr & Hs & Ht). unfold settle_probe. rewrite Hp.
  pose proof (record_reports_confirmed t success p) as Hc.
  pose proof (step_record p t success) as Hst.
  destruct (RecordProbeResult t success p) as [[[ch c] d] p']. cbn [fst snd] in Hc, Hst.
  assert (reachable p') as Hr' by by eapply reach_step.
  pose proof (confirmed_within p' Hr') as Hw. unfold ConfirmedMTU in *. rewrite Hc in Hw.
  exists p'. cbn. rewrite Hs. split_and!; [done|done|done|by intros ->|done|]. by destruct (p_lock_mtu_ok tr).
Qed.

Lemma on_unhealthy_tracked D N st tr :
  tracked D N st -> tracked D (N /\ p_reset_mtu_ok tr = true) (on_unhealthy st tr).
Proof.
  intros (p & Hp & Hr & Hd & Hn & Hwd & Hwn). unfold on_unhealthy. rewrite Hp. case_bool_decide as Hdis.
  { exists p. split_and!; try done. intros [? _]. by apply Hn. }
  assert (reachable (Reset p)) as Hr' by (eapply reach_step; [exact Hr|constructor]).
  assert (ConfirmedMTU (Reset p) = baseTunnelMTU) as Hbase.
  { unfold ConfirmedMTU, Reset. destruct (manualOverride p) eqn:E; [|done]. exfalso. apply Hdis.
    apply (wf_manual _ _ (reachable_wf _ _ _ _ Hr) E). }
  pose proof (confirmed_within _ Hr') as Hw. rewrite Hbase in Hw.
  exists (Reset p). cbn. rewrite Hbase. split_and!; [done|done|done|by intros [_ ->]|done|]. by destruct (p_reset_mtu_ok tr).
Qed.

Lemma on_plain_answer_tracked D N st : tracked D N st -> tracked D N (on_plain_answer st).
Proof.
  intros (p & Hp & Hr & Hm). unfold on_plain_answer. rewrite Hp. exists (Arm p).
  split; [done|]. split; [eapply reach_step; [exact Hr|constructor]|done].
Qed.

Lemma ping_turn_tracked D N cfg st tr st' acts :
  tracked D N st -> ping_turn_step cfg st tr = (Next st', acts) ->
  tracked (D /\ p_probe_mtu_ok tr = true) (N /\ p_lock_mtu_ok tr = true /\ p_reset_mtu_ok tr = true) st'.
Proof.
  set (D' := D /\ _). set (N' := N /\ _). intros Hl. unfold ping_turn_step. destruct (p_live tr); cbn [negb]; [|done].
  pose proof (choose_payload_tracked D N cfg st tr Hl) as Hch.
  destruct (choose_payload cfg st tr) as [[st1 target] payload].
  destruct (p_write_ok tr); cbn [negb].
  2:{ destruct target as [t|]; [|done]. destruct (p_live_sleep tr); [|done]. intros [= <- _].
      eapply (tracked_weaken D'); [..|by apply settle_probe_tracked]; unfold N'; tauto. }
  destruct (p_live_after tr); cbn [negb]; [|done].
  set (st2 := match target with Some t => _ | None => _ end).
  assert (tracked D' (N /\ p_lock_mtu_ok tr = true) st2) as H2.
  { unfold st2. destruct target as [t|].
    - eapply (tracked_weaken D'); [..|by apply settle_probe_tracked]; tauto.
    - eapply tracked_weaken; [..|exact Hch]; unfold D'; tauto. }
  destruct (Health.observe (health st2) (p_matched tr)) as [[ev fs] h].
  set (st3 := if bool_decide _ then _ else _).
  assert (tracked D' N' st3) as H3.
  { unfold st3. case_bool_decide.
    - eapply tracked_weaken; [..|apply on_unhealthy_tracked; exact H2]; unfold N'; tauto.
    - eapply tracked_weaken; [..|exact H2]; unfold N'; tauto. }
  unfold finish_turn. destruct (bool_decide (is_Some ev) && _); [done|].
  destruct (p_live_sleep tr); [|done]. intros [= <- _].
  destruct (p_matched tr && _); [by apply on_plain_answer_tracked|done].
Qed.

Lemma ping_run_tracked cfg D N st trs st' acts :
  tracked D N st -> ping_run cfg st trs = (Next st', acts) ->
  tracked (D /\ Forall (fun tr => p_probe_mtu_ok tr = true) trs)
          (N /\ Forall (fun tr => p_lock_mtu_ok tr = true /\ p_reset_mtu_ok tr = true) trs) st'.
Proof.
  revert D N st acts. induction trs as [|tr trs IH]; intros D N st acts Hl; cbn [ping_run].
  { intros [= <- _]. eapply tracked_weaken, Hl; tauto. }
  destruct (ping_turn_step cfg st tr) as [[st1| |] acts1] eqn:Et; [|done|done].
  apply (ping_turn_tracked D N) in Et; [|done]. pose proof (fun acts => IH _ _ st1 acts Et) as IH1.
  destruct (ping_run cfg st1 trs) as [r rest]. intros [= -> _].
  eapply tracked_weaken; [..|by eapply IH1]; rewrite Forall_cons; tauto.
Qed.
End tracked.

Definition fresh_pinger (initialMTU maxTarget manualMTU : Z) : ping_state :=
  let p := newPeerMTUProber initialMTU maxTarget manualMTU in
  {| requestID := 0; health := Health.newHealth; prober := Some p;
     stack := {| device_mtu := ConfirmedMTU p; interface_mtu := ConfirmedMTU p |} |}.

(** [C30] Between two turns of the pinger, whatever was answered, lost or failed to
    be written: with an automatic MTU, both the MTU the device holds and that of
    the stack's interface are between 1280 and the ceiling, whichever [SetMTU]
    failed. The interface is at the prober's confirmed MTU if every [SetMTU] that
    locks it there or resets it succeeded; the device is at it if every [SetMTU] of
    a probe succeeded, since one that fails leaves the MTU under test stored. So
    with no failure of [SetMTU] a probe's larger MTU never outlives its turn. *)
Theorem pinger_locks_mtu (cfg : config) (initialMTU maxTarget manualMTU : Z)
    (trs : list ping_turn) (st : ping_state) (acts : list ping_action) :
  ping_run cfg (fresh_pinger initialMTU maxTarget manualMTU) trs = (Next st, acts) ->
  let within := fun m => baseTunnelMTU <= m <= ceiling initialMTU maxTarget in
  exists p, prober st = Some p
    /\ (manualMTU <= 0 -> within (device_mtu (stack st)) /\ within (interface_mtu (stack st)) /\ within (ConfirmedMTU p))
    /\ (Forall (fun tr => p_lock_mtu_ok tr = true /\ p_reset_mtu_ok tr = true) trs ->
        interface_mtu (stack st) = ConfirmedMTU p)
    /\ (Forall (fun tr => p_probe_mtu_ok tr = true) trs -> device_mtu (stack st) = ConfirmedMTU p).
Proof.
  intros Hrun within. apply (ping_run_tracked initialMTU maxTarget manualMTU cfg True True) in Hrun.
  - destruct Hrun as (p & Hp & Hr & Hd & Hn & Hwd & Hwn). exists p. split; [done|].
    split; [intros Hm; split; [by apply Hwd|split; [by apply Hwn|by eapply confirmed_within]]|]. split; tauto.
  - pose proof (confirmed_within initialMTU maxTarget manualMTU _ (reach_new initialMTU maxTarget manualMTU)) as Hw.
    eexists. split; [done|]. split; [constructor|done].
Qed.

Definition answered (m : bool) : ping_turn :=
  {| p_live := true; p_probe_mtu_ok := true; p_lock_mtu_ok := true; p_reset_mtu_ok := true;
     p_write_ok := true; p_matched := m; p_live_after := true; p_event_received := true;
     p_live_sleep := true |}.

Definition example_cfg : config := {| secretHash := "c2VjcmV0"; remote_is4 := true |}.

(** The first request is answered, the probes at 1360 and 1400 too, and the two
    at 1420 are lost: the stack is left at 1400. *)
Lemma pinger_locks_mtu_witness :
  exists st acts,
    ping_run example_cfg (fresh_pinger 1280 1420 0) (answered <$> [true; true; true; false; false])
      = (Next st, acts)
    /\ stack st = {| device_mtu := 1400; interface_mtu := 1400 |}
    /\ exists p, prober st = Some p /\ interface_mtu (stack st) = ConfirmedMTU p.
Proof.
  destruct (ping_run example_cfg (fresh_pinger 1280 1420 0) (answered <$> [true; true; true; false; false]))
    as [r acts] eqn:E.
  assert (match r with Next st => stack st = {| device_mtu := 1400; interface_mtu := 1400 |} | _ => False end) as Hr.
  { change r with (r, acts).1. rewrite <- E. by vm_compute. }
  destruct r as [st| |]; [|destruct Hr|destruct Hr]. exists st, acts. split; [reflexivity|]. split; [exact Hr|].
  destruct (pinger_locks_mtu _ _ _ _ _ _ _ E) as (p & Hp & _ & Hm & _).
  exact (ex_intro _ p (conj Hp (Hm ltac:(repeat constructor)))).
Defined.

(** After the first answer the stack refuses the probe at 1360: the device keeps
    that MTU, though the interface and the prober are at 1280. *)
Lemma failed_probe_keeps_device_mtu :
  let refused := {| p_live := true; p_probe_mtu_ok := false; p_lock_mtu_ok := true; p_reset_mtu_ok := true;
    p_write_ok := true; p_matched := true; p_live_after := true; p_event_received := true; p_live_sleep := true |} in
  match ping_run example_cfg (fresh_pinger 1280 1420 0) [answered true; refused] with
  | (Next st, _) => stack st = {| device_mtu := 1360; interface_mtu := 1280 |} /\ ConfirmedMTU <$> prober st = Some 1280
  | _ => False
  end.
Proof. by vm_compute. Qed.

End Pinger.
