(* ===== verification/Supervisor.v ===== *)
(** The supervision loop of [runTunnel] ([tunnel.go]): it reacts to the health of
    the UDP echo, the context, the pinger's death and exhausted endpoints, runs
    at most one recovery at a time and decides when the tunnel is given up. *)

From S2P Require Import Prelude Lists GoStrings GoTime Endpoints UdpEcho.
Open Scope Z_scope.

Import Endpoints.Stats Endpoints.Endpoints UdpEcho.Health.

Module Supervisor.

(** ** State and events *)

Record sup_state := {
  baseline : wireGuardPeerStats;
  recovering : bool;   (* recoveryCancel is not nil *)
}.

Inductive sup_event : Type :=
| LifecycleDone
| EchoStopped (err : string)
| Renegotiate
| HealthEvent (ev : udpEchoHealthEvent) (current : wireGuardPeerStats) (now : time).

(** The error [runTunnel] returns. *)
Inductive verdict : Type :=
| Cancelled
| EchoError (err : string)
| RenegotiationRequired.

Inductive sup_action : Type :=
| StartRecovery (from : string)
| StopRecovery.

Inductive sup_result : Type :=
| Continue (st : sup_state)
| Return (v : verdict).

(** The deferred [recoveryCancel]. Cancelling twice is no action. *)
Definition deferred (st : sup_state) : list sup_action :=
  if recovering st then [StopRecovery] else [].

Definition on_health (st : sup_state) (ev : udpEchoHealthEvent) (current : wireGuardPeerStats)
    (now : time) : sup_result * list sup_action :=
  match ev with
  | udpEchoHealthy =>
      (Continue {| baseline := current; recovering := false |}, deferred st)
  | udpEchoStartupFailed => (Return RenegotiationRequired, deferred st)
  | udpEchoUnhealthy =>
      if wireGuardPathActiveSince (baseline st) current now then
        (Continue {| baseline := current; recovering := recovering st |}, [])
      else if negb (recovering st) then
        (Continue {| baseline := baseline st; recovering := true |}, [StartRecovery (endpoint current)])
      else (Continue st, [])
  end.

Definition sup_turn (st : sup_state) (ev : sup_event) : sup_result * list sup_action :=
  match ev with
  | LifecycleDone => (Return Cancelled, deferred st)
  | EchoStopped err => (Return (EchoError err), deferred st)
  | Renegotiate => (Return RenegotiationRequired, deferred st)
  | HealthEvent h current now => on_health st h current now
  end.

Fixpoint sup_run (st : sup_state) (evs : list sup_event) : sup_result * list sup_action :=
  match evs with
  | [] => (Continue st, [])
  | ev :: evs' =>
      match sup_turn st ev with
      | (Return v, acts) => (Return v, acts)
      | (Continue st', acts) => let '(r, rest) := sup_run st' evs' in (r, acts ++ rest)
      end
  end.

Definition supervise (initial : wireGuardPeerStats) (evs : list sup_event)
  : sup_result * list sup_action :=
  sup_run {| baseline := initial; recovering := false |} evs.

(** ** Specification *)

(** Starts and stops alternate: [open] is whether one is running before, and
    the result whether one is after, [None] when they do not alternate. *)
Fixpoint alternate (open : bool) (acts : list sup_action) : option bool :=
  match acts with
  | [] => Some open
  | StartRecovery _ :: rest => if open then None else alternate true rest
  | StopRecovery :: rest => if open then alternate false rest else None
  end.

Definition open_after (r : sup_result) : bool :=
  match r with Continue st => recovering st | Return _ => false end.

Lemma alternate_app open a1 a2 :
  alternate open (a1 ++ a2) = alternate open a1 ≫= fun o => alternate o a2.
Proof.
  revert open. induction a1 as [|[f|] a1 IH]; intros open; [done| |]; cbn [app alternate]; by destruct open.
Qed.

Lemma alternate_deferred st : alternate (recovering st) (deferred st) = Some false.
Proof. unfold deferred. by destruct (recovering st). Qed.

Lemma sup_turn_alternate st ev :
  let '(r, acts) := sup_turn st ev in alternate (recovering st) acts = Some (open_after r).
Proof.
  destruct ev as [|err| |[] current now]; try apply alternate_deferred.
  cbn [sup_turn on_health]. destruct (wireGuardPathActiveSince _ _ _); [done|].
  by destruct (recovering st) eqn:E; cbn; rewrite ?E.
Qed.

Lemma sup_run_alternate st evs :
  let '(r, acts) := sup_run st evs in alternate (recovering st) acts = Some (open_after r).
Proof.
  revert st. induction evs as [|ev evs IH]; intros st; [done|]. cbn [sup_run].
  pose proof (sup_turn_alternate st ev) as Ht. destruct (sup_turn st ev) as [[st'|v] acts]; [|done].
  specialize (IH st'). destruct (sup_run st' evs) as [r rest]. rewrite alternate_app, Ht. done.
Qed.

(** The event that ends the supervision, if this one does. *)
Definition fatal (ev : sup_event) : option verdict :=
  match ev with
  | LifecycleDone => Some Cancelled
  | EchoStopped err => Some (EchoError err)
  | Renegotiate => Some RenegotiationRequired
  | HealthEvent udpEchoStartupFailed _ _ => Some RenegotiationRequired
  | HealthEvent _ _ _ => None
  end.

Lemma sup_turn_fatal st ev :
  match fatal ev with
  | Some v => (sup_turn st ev).1 = Return v
  | None => exists st', (sup_turn st ev).1 = Continue st'
  end.
Proof.
  destruct ev as [|err| |[] current now]; try done; cbn; [by eexists|].
  destruct (wireGuardPathActiveSince _ _ _); [by eexists|]. destruct (negb _); by eexists.
Qed.

(** ** Properties *)

(** At most one recovery runs at a time, none outlives the supervision, and
    the supervision returns the verdict of the first event that calls for one:
    the end of the context, the pinger's error, exhausted endpoints or a failed
    startup probe. *)
Theorem supervision_spec (initial : wireGuardPeerStats) (evs : list sup_event) :
  let '(r, acts) := supervise initial evs in
  alternate false acts = Some (open_after r)
  /\ match head (omap fatal evs) with
     | Some v => r = Return v
     | None => exists st, r = Continue st
     end.
Proof.
  unfold supervise. set (st0 := {| baseline := initial; recovering := false |}).
  pose proof (sup_run_alternate st0 evs) as Ha.
  assert (match head (omap fatal evs) with
          | Some v => (sup_run st0 evs).1 = Return v
          | None => exists st, (sup_run st0 evs).1 = Continue st end) as Hf.
  { clear Ha. generalize st0. clear st0. induction evs as [|ev evs IH]; intros st; [by eexists|].
    cbn [omap list_omap sup_run]. pose proof (sup_turn_fatal st ev) as Ht.
    destruct (fatal ev) as [v|].
    - destruct (sup_turn st ev) as [r acts]. cbn [fst] in Ht. by subst r.
    - destruct Ht as [st' Ht]. destruct (sup_turn st ev) as [r acts]. cbn [fst] in Ht. subst r.
      specialize (IH st'). by destruct (sup_run st' evs). }
  destruct (sup_run st0 evs) as [r acts]. done.
Qed.

(** Recovery starts exactly when the echo has been lost for long and, by the
    device's counters, WireGuard has not been active since the tunnel was last
    known healthy, and none is running; it starts from the endpoint the device
    reports. Silence of the echo alone never moves a live tunnel. *)
Theorem recovery_start_iff (st : sup_state) (ev : sup_event) (from : string) :
  StartRecovery from ∈ (sup_turn st ev).2 <->
  exists current now, ev = HealthEvent udpEchoUnhealthy current now
    /\ wireGuardPathActiveSince (baseline st) current now = false
    /\ recovering st = false /\ from = endpoint current.
Proof.
  assert (forall s, StartRecovery from ∉ deferred s) as Hd.
  { intros s. unfold deferred. destruct (recovering s); [|by apply not_elem_of_nil].
    by intros ?%list_elem_of_singleton. }
  destruct ev as [|err| |[] current now]; cbn [sup_turn on_health snd];
    try (split; [by intros ?%Hd|by intros (? & ? & [=] & _)]).
  destruct (wireGuardPathActiveSince (baseline st) current now) eqn:Ea; cbn [snd].
  { split; [by intros ?%not_elem_of_nil|]. intros (c & n & [= -> ->] & Hn & _). congruence. }
  destruct (recovering st); cbn [negb snd].
  - split; [by intros ?%not_elem_of_nil|]. by intros (c & n & _ & _ & ? & _).
  - rewrite list_elem_of_singleton. split.
    + intros [= ->]. by exists current, now.
    + by intros (c & n & [= -> ->] & _ & _ & ->).
Qed.

End Supervisor.
