(* ===== verification/Workers.v ===== *)
(** The goroutines of a tunnel side by side ([runTunnel] of [tunnel.go]): the
    supervision, the endpoint retry, the pinger and the recoveries, with their
    contexts, the channels between them and the deferred calls that end them. *)

From S2P Require Import Prelude Lists GoStrings GoTime Endpoints UdpEcho Supervisor.
Open Scope Z_scope.

Import Endpoints.Stats UdpEcho.Health Supervisor.

Module Workers.

(** ** The workers

    A retry or a recovery: at a [select] with its context, about to look at the
    peer or switch an endpoint, at [signalEndpointExhaustion], or gone. *)
Inductive worker : Type :=
| AtSelect
| Busy
| Signalling
| Over.

#[export] Instance worker_eq_dec : EqDecision worker.
Proof. solve_decision. Defined.

(** One step of a worker and the buffer of [renegotiate] after it. [finishes] says
    whether it may return for a reason of its own, as the retry does once there
    is a handshake; [done] and [full] are its context and the buffer; [wake] marks
    what comes from outside, a timer or a packet, and may be taken even when the
    context is done. *)
Inductive worker_step (finishes done full : bool) : forall (wake : bool), worker -> worker -> bool -> Prop :=
| worker_wakes : worker_step finishes done full true AtSelect Busy full
| worker_again : worker_step finishes done full false Busy AtSelect full
| worker_gives_up : worker_step finishes done full false Busy Signalling full
| worker_finishes : finishes = true -> worker_step finishes done full false Busy Over full
| worker_done : done = true -> worker_step finishes done full false AtSelect Over full
| worker_signals : full = false -> worker_step finishes done full false Signalling Over true
| worker_silent : done = true -> worker_step finishes done full false Signalling Over full.

(** [runUDPEchoPinger]: at work on a request, blocked in the [Read] of
    [waitForEchoResponse], at the send to [healthEvents], at the timer between two
    requests, or gone. *)
Inductive pinger : Type :=
| Pinging
| Awaiting
| Reporting (ev : udpEchoHealthEvent)
| Sleeping
| Ended.

(** One step of the pinger's goroutine and the buffer of [echoStopped] after it. It
    reads only after it has set its deadline and seen that the context is not done.
    A packet or the deadline ends the [Read], or else [AfterFunc], once the context
    is done; the pinger then returns without an error. *)
Inductive pinger_step (done : bool) (stopped : option string) : forall (wake : bool), pinger -> pinger -> option string -> Prop :=
| pinger_reports ev : pinger_step done stopped false Pinging (Reporting ev) stopped
| pinger_quiet : pinger_step done stopped false Pinging Sleeping stopped
| pinger_returns : pinger_step done stopped false Pinging Ended stopped
| pinger_fails err : stopped = None -> pinger_step done stopped false Pinging Ended (Some err)
| pinger_waits : done = false -> pinger_step done stopped false Pinging Awaiting stopped
| pinger_reads : pinger_step done stopped true Awaiting Pinging stopped
| pinger_unblocked : done = true -> pinger_step done stopped false Awaiting Ended stopped
| pinger_wakes : pinger_step done stopped true Sleeping Pinging stopped
| pinger_unheard ev : done = true -> pinger_step done stopped false (Reporting ev) Ended stopped
| pinger_done : done = true -> pinger_step done stopped false Sleeping Ended stopped.

(** ** The supervision and its deferred calls

    In the loop; then, the last deferred first, after [recoveryCancel]: before
    [proxy.Close], before [stopLifecycle], in [workerWG.Wait], before [dev.Close],
    and returned. *)
Inductive place : Type :=
| Selecting (st : sup_state)
| ClosingProxy (v : verdict)
| Stopping (v : verdict)
| Waiting (v : verdict)
| ClosingDevice (v : verdict)
| Returned (v : verdict).

(** [lifecycle] is whether its context is done, [renegotiate] whether the channel
    holds a message; of each recovery, the newest first, whether it is cancelled. *)
Record tunnel := {
  supervision : place;
  lifecycle : bool;
  renegotiate : bool;
  echoStopped : option string;
  retry : worker;
  echo : pinger;
  recoveries : list (bool * worker);
}.

(** [startWireGuardEndpointRecovery] and the call of its [CancelFunc]. *)
Definition act_on (recs : list (bool * worker)) (a : sup_action) : list (bool * worker) :=
  match a with
  | StartRecovery _ => (false, AtSelect) :: recs
  | StopRecovery => match recs with (_, w) :: rest => (true, w) :: rest | [] => [] end
  end.

(** The supervision takes an event. *)
Definition turned (s : tunnel) (st : sup_state) (ev : sup_event) (full : bool) (stopped : option string) (p : pinger) : tunnel :=
  let '(r, acts) := sup_turn st ev in
  {| supervision := match r with Continue st' => Selecting st' | Return v => ClosingProxy v end;
     lifecycle := lifecycle s; renegotiate := full; echoStopped := stopped; retry := retry s; echo := p;
     recoveries := foldl act_on (recoveries s) acts |}.

Definition moved (s : tunnel) (at_ : place) (done : bool) : tunnel :=
  {| supervision := at_; lifecycle := done; renegotiate := renegotiate s; echoStopped := echoStopped s; retry := retry s;
     echo := echo s; recoveries := recoveries s |}.

Inductive label : Type :=
| Wake
| Silent
| Take (ev : sup_event).

Definition of_wake (wake : bool) : label := if wake then Wake else Silent.

Definition all_over (s : tunnel) : Prop := retry s = Over /\ echo s = Ended /\ Forall (fun r => r.2 = Over) (recoveries s).

Inductive step : label -> tunnel -> tunnel -> Prop :=
| step_retry s wake w full : worker_step true (lifecycle s) (renegotiate s) wake (retry s) w full ->
    step (of_wake wake) s {| supervision := supervision s; lifecycle := lifecycle s; renegotiate := full;
      echoStopped := echoStopped s; retry := w; echo := echo s; recoveries := recoveries s |}
| step_recovery s l c w r wake w' full : recoveries s = l ++ (c, w) :: r ->
    worker_step false (lifecycle s || c) (renegotiate s) wake w w' full ->
    step (of_wake wake) s {| supervision := supervision s; lifecycle := lifecycle s; renegotiate := full;
      echoStopped := echoStopped s; retry := retry s; echo := echo s; recoveries := l ++ (c, w') :: r |}
| step_echo s wake p stopped : pinger_step (lifecycle s) (echoStopped s) wake (echo s) p stopped ->
    step (of_wake wake) s {| supervision := supervision s; lifecycle := lifecycle s; renegotiate := renegotiate s;
      echoStopped := stopped; retry := retry s; echo := p; recoveries := recoveries s |}
| step_cancel s : lifecycle s = false -> step Silent s (moved s (supervision s) true)
| take_done s st : supervision s = Selecting st -> lifecycle s = true ->
    step (Take LifecycleDone) s (turned s st LifecycleDone (renegotiate s) (echoStopped s) (echo s))
| take_stopped s st err : supervision s = Selecting st -> echoStopped s = Some err ->
    step (Take (EchoStopped err)) s (turned s st (EchoStopped err) (renegotiate s) None (echo s))
| take_exhausted s st : supervision s = Selecting st -> renegotiate s = true ->
    step (Take Renegotiate) s (turned s st Renegotiate false (echoStopped s) (echo s))
| take_health s st ev current now : supervision s = Selecting st -> echo s = Reporting ev ->
    step (Take (HealthEvent ev current now)) s
      (turned s st (HealthEvent ev current now) (renegotiate s) (echoStopped s) Sleeping)
| proxy_closed s v : supervision s = ClosingProxy v -> step Silent s (moved s (Stopping v) (lifecycle s))
| stopped_all s v : supervision s = Stopping v -> step Silent s (moved s (Waiting v) true)
| waited s v : supervision s = Waiting v -> all_over s -> step Silent s (moved s (ClosingDevice v) (lifecycle s))
| device_closed s v : supervision s = ClosingDevice v -> step Silent s (moved s (Returned v) (lifecycle s)).

Inductive steps : list label -> tunnel -> tunnel -> Prop :=
| steps_none s : steps [] s s
| steps_more l ls s s' s'' : step l s s' -> steps ls s' s'' -> steps (l :: ls) s s''.

(** The tunnel once its workers are started and its proxy listens. *)
Definition running (initial : wireGuardPeerStats) : tunnel :=
  {| supervision := Selecting {| baseline := initial; recovering := false |}; lifecycle := false; renegotiate := false;
     echoStopped := None; retry := AtSelect; echo := Pinging; recoveries := [] |}.

Definition taken (ls : list label) : list sup_event := omap (fun l => match l with Take ev => Some ev | _ => None end) ls.
Definition wakes (ls : list label) : nat := length (List.filter (fun l => match l with Wake => true | _ => false end) ls).

(** ** The supervision, apart *)

(** The place after these events, before the deferred calls go on. *)
Definition placed (at_ : place) (r : sup_result) : Prop :=
  match at_ with
  | Selecting st => r = Continue st
  | ClosingProxy v | Stopping v | Waiting v | ClosingDevice v | Returned v => r = Return v
  end.

Lemma sup_run_app st evs ev : sup_run st (evs ++ [ev]) =
  match sup_run st evs with
  | (Return v, acts) => (Return v, acts)
  | (Continue st', acts) => let '(r, acts') := sup_turn st' ev in (r, acts ++ acts')
  end.
Proof.
  revert st. induction evs as [|e evs IH]; intros st; cbn [app sup_run].
  - destruct (sup_turn st ev) as [[st'|v] acts]; cbn; [by rewrite app_nil_r|done].
  - destruct (sup_turn st e) as [[st'|v] acts]; [|done]. rewrite IH.
    destruct (sup_run st' evs) as [[st''|v] rest]; [|done]. destruct (sup_turn st'' ev). by rewrite app_assoc.
Qed.

(** ** The invariant *)

(** The newest recovery is the one the supervision can cancel; all others are
    cancelled. *)
Definition guarded (at_ : place) (recs : list (bool * worker)) : Prop :=
  match at_ with
  | Selecting st =>
      if recovering st then exists w rest, recs = (false, w) :: rest /\ Forall (fun r => r.1 = true) rest
      else Forall (fun r => r.1 = true) recs
  | _ => Forall (fun r => r.1 = true) recs
  end.

Definition stage (at_ : place) : nat :=
  match at_ with
  | Selecting _ => 6 | ClosingProxy _ => 4 | Stopping _ => 3 | Waiting _ => 2 | ClosingDevice _ => 1 | Returned _ => 0
  end.

Record tunnel_inv (s : tunnel) : Prop := {
  inv_guarded : guarded (supervision s) (recoveries s);
  inv_echo : is_Some (echoStopped s) -> echo s = Ended;
  inv_stopped : (stage (supervision s) <= 2)%nat -> lifecycle s = true;
  inv_over : (stage (supervision s) <= 1)%nat -> all_over s;
}.

Lemma running_inv initial : tunnel_inv (running initial).
Proof. split; cbn; (lia || done). Qed.

(** What a turn of the supervision does to the recoveries. *)
Lemma turn_guarded st ev recs : guarded (Selecting st) recs ->
  let '(r, acts) := sup_turn st ev in
  guarded (match r with Continue st' => Selecting st' | Return v => ClosingProxy v end) (foldl act_on recs acts).
Proof.
  intros Hg. assert (Forall (fun r : bool * worker => r.1 = true) (foldl act_on recs (deferred st))) as Hd.
  { unfold deferred. cbn [guarded] in Hg. destruct (recovering st); [|done].
    destruct Hg as (w & rest & -> & Hr). by constructor. }
  destruct ev as [|err| |[] current now]; try exact Hd. cbn [sup_turn on_health].
  destruct (wireGuardPathActiveSince _ _ _); [exact Hg|]. destruct (recovering st) eqn:E; cbn [negb guarded] in *.
  - cbn. rewrite E in *. exact Hg.
  - cbn. rewrite E in Hg. by exists AtSelect, recs.
Qed.

Lemma turned_inv s st ev full stopped p : tunnel_inv s -> supervision s = Selecting st ->
  (is_Some stopped -> p = Ended) -> tunnel_inv (turned s st ev full stopped p).
Proof.
  intros [Hg _ _ _] Hs He. rewrite Hs in Hg. pose proof (turn_guarded st ev (recoveries s) Hg) as Ht. unfold turned.
  destruct (sup_turn st ev) as [r acts]. split; cbn [supervision recoveries echoStopped echo lifecycle]; [done|done| |];
    destruct r; cbn [stage]; lia.
Qed.

Lemma worker_over_stays f done full wake w w' full' : worker_step f done full wake w w' full' -> w = Over -> w' = Over.
Proof. by destruct 1. Qed.

Lemma step_inv l s s' : step l s s' -> tunnel_inv s -> tunnel_inv s'.
Proof.
  intros Hst Hinv. pose proof Hinv as [Hg He Hl Ho]. destruct Hst; try (apply turned_inv; done); cbn in *.
  - split; cbn; try done. intros Hs. destruct (Ho Hs) as (Hr & ? & ?). split; [|done].
    by eapply worker_over_stays.
  - match goal with H : recoveries s = _ |- _ => rename H into Hrec end. rewrite Hrec in *. split; cbn; try done.
    + assert (forall P : Prop, (Forall (fun r : bool * worker => r.1 = true) (l ++ (c, w) :: r) ->
        Forall (fun r : bool * worker => r.1 = true) (l ++ (c, w') :: r))) as Hf.
      { intros _ Hall. apply Forall_app in Hall as [? [??]%Forall_cons]. apply Forall_app. split; [done|]. by constructor. }
      unfold guarded in *. destruct (supervision s); try by apply (Hf True). destruct (recovering st); [|by apply (Hf True)].
      destruct Hg as (w0 & rest & Heq & Hall). destruct l as [|x l].
      * injection Heq as -> -> <-. by exists w', r.
      * injection Heq as -> <-. exists w0, (l ++ (c, w') :: r). split; [done|].
        apply Forall_app in Hall as [? [??]%Forall_cons]. apply Forall_app. split; [done|]. by constructor.
    + intros Hs. destruct (Ho Hs) as (? & ? & Hall). rewrite Hrec in Hall. split_and!; [done..|]. cbn.
      apply Forall_app in Hall as [? [Hw ?]%Forall_cons]. apply Forall_app. split; [done|]. constructor; [|done]. cbn in *.
      by eapply worker_over_stays.
  - match goal with H : pinger_step _ _ _ _ _ _ |- _ => rename H into Hp end. split; cbn; try done.
    + intros Hsm. destruct Hp; try done; specialize (He Hsm); done.
    + intros Hs. destruct (Ho Hs) as (? & Hend & ?). rewrite Hend in Hp. inversion Hp.
  - by split.
  - apply turned_inv; [done..|]. intros Hsm. specialize (He Hsm). congruence.
  - match goal with H : supervision s = _ |- _ => rewrite H in Hg end. split; cbn; (lia || done).
  - match goal with H : supervision s = _ |- _ => rewrite H in Hg end. split; cbn; (lia || done).
  - match goal with H : supervision s = _ |- _ => rewrite H in Hg, Hl end. split; cbn; try done. intros _. apply Hl. cbn. lia.
  - match goal with H : supervision s = _ |- _ => rewrite H in Hg, Hl, Ho end. cbn [stage] in *.
    split; cbn; try done; intros _; [apply Hl; lia|apply Ho; lia].
Qed.

Lemma steps_inv ls s s' : steps ls s s' -> tunnel_inv s -> tunnel_inv s'.
Proof. induction 1 as [|l ls s s1 s2 Hs _ IH]; [done|]. intros Hi. by apply IH, (step_inv l s). Qed.

(** The events the supervision has taken are a run of [supervise]. *)
Lemma step_placed l s s' st0 evs : step l s s' -> placed (supervision s) (sup_run st0 evs).1 ->
  placed (supervision s') (sup_run st0 (evs ++ taken [l])).1.
Proof.
  intros Hst Hp. assert (forall st ev full stopped p, supervision s = Selecting st ->
    placed (supervision (turned s st ev full stopped p)) (sup_run st0 (evs ++ [ev])).1) as Ht.
  { intros st ev full stopped p Hs. rewrite Hs in Hp. cbn [placed] in Hp. rewrite sup_run_app. unfold turned.
    destruct (sup_run st0 evs) as [r acts]. cbn [fst] in Hp. subst r. by destruct (sup_turn st ev) as [[?|?] ?]. }
  destruct Hst; try (apply Ht; done);
    try (match goal with H : supervision s = _ |- _ => rewrite H in Hp end);
    try (destruct wake); cbn; by rewrite app_nil_r.
Qed.

Lemma steps_placed ls s s' st0 evs : steps ls s s' -> placed (supervision s) (sup_run st0 evs).1 ->
  placed (supervision s') (sup_run st0 (evs ++ taken ls)).1.
Proof.
  intros Hs. revert evs. induction Hs as [s|l ls s s1 s2 Hst _ IH]; intros evs Hp; [by rewrite app_nil_r|].
  replace (taken (l :: ls)) with (taken [l] ++ taken ls) by (by destruct l). rewrite app_assoc.
  by apply IH, (step_placed l s).
Qed.

(** ** Termination *)

Definition worker_left (w : worker) : nat := match w with Over => 0 | AtSelect | Signalling => 1 | Busy => 2 end.
Definition echo_left (p : pinger) : nat := match p with Ended => 0 | Sleeping => 1 | Reporting _ => 3 | Awaiting => 4 | Pinging => 5 end.
Definition recs_left (recs : list (bool * worker)) : nat := sum_list_with (fun r => worker_left r.2) recs.

Definition left_ (s : tunnel) : nat :=
  stage (supervision s) + (if lifecycle s then 0 else 1) + worker_left (retry s) + echo_left (echo s) + recs_left (recoveries s).

Lemma worker_step_left f done full wake w w' full' : worker_step f done full wake w w' full' ->
  (if wake then worker_left w' <= worker_left w + 4 else worker_left w' < worker_left w)%nat.
Proof. destruct 1; cbn; lia. Qed.

Lemma pinger_step_left done stopped wake p p' stopped' : pinger_step done stopped wake p p' stopped' ->
  (if wake then echo_left p' <= echo_left p + 4 else echo_left p' < echo_left p)%nat.
Proof. destruct 1; cbn; lia. Qed.

Lemma turn_left st ev recs :
  let '(r, acts) := sup_turn st ev in
  (recs_left (foldl act_on recs acts) <= recs_left recs + (match ev with HealthEvent _ _ _ => 1 | _ => 0 end))%nat
  /\ match ev with HealthEvent _ _ _ => True | _ => exists v, r = Return v end.
Proof.
  assert (forall k, recs_left (foldl act_on recs (deferred st)) <= recs_left recs + k)%nat as Hd.
  { intros k. unfold deferred. destruct (recovering st); cbn [foldl]; [|lia]. destruct recs as [|[c w] recs]; cbn; lia. }
  destruct ev as [|err| |[] current now]; cbn [sup_turn on_health]; try (split; [apply Hd|by eexists || done]).
  destruct (wireGuardPathActiveSince _ _ _); [split; [cbn [foldl]; lia|done]|].
  destruct (recovering st); cbn [negb foldl act_on]; (split; [unfold recs_left; cbn [sum_list_with worker_left snd]; lia|done]).
Qed.

#[local] Ltac stage_down :=
  unfold left_, moved; cbn [supervision lifecycle retry echo recoveries];
  match goal with H : supervision _ = _ |- _ => rewrite H end; cbn [stage]; repeat case_match; lia.

Lemma step_left l s s' : step l s s' ->
  match l with Wake => left_ s' <= left_ s + 4 | _ => left_ s' < left_ s end%nat.
Proof.
  assert (forall st ev full stopped p, supervision s = Selecting st ->
    (echo_left p + (match ev with HealthEvent _ _ _ => 2 | _ => 0 end) <= echo_left (echo s))%nat ->
    (left_ (turned s st ev full stopped p) < left_ s)%nat) as Ht.
  { intros st ev full stopped p Hs Hp. unfold turned, left_. rewrite Hs. pose proof (turn_left st ev (recoveries s)) as Hl.
    destruct (sup_turn st ev) as [r acts]. destruct Hl as [Hl Hr]. cbn [supervision lifecycle retry echo recoveries stage].
    destruct ev; [destruct Hr as [v ->]; cbn; lia..|]. destruct r; cbn; lia. }
  intros Hst. destruct Hst; try (apply Ht; [done|cbn; lia]).
  - match goal with H : worker_step _ _ _ _ _ _ _ |- _ => apply worker_step_left in H end.
    unfold left_. cbn [supervision lifecycle retry echo recoveries]. destruct wake; cbn [of_wake]; lia.
  - match goal with H : worker_step _ _ _ _ _ _ _ |- _ => apply worker_step_left in H end.
    unfold left_. cbn [supervision lifecycle retry echo recoveries].
    match goal with H : recoveries s = _ |- _ => rewrite H end. unfold recs_left. rewrite !sum_list_with_app.
    cbn [sum_list_with snd]. destruct wake; cbn [of_wake]; lia.
  - match goal with H : pinger_step _ _ _ _ _ _ |- _ => apply pinger_step_left in H end.
    unfold left_. cbn [supervision lifecycle retry echo recoveries]. destruct wake; cbn [of_wake]; lia.
  - unfold left_, moved. cbn [supervision lifecycle retry echo recoveries].
    match goal with H : lifecycle s = _ |- _ => rewrite H end. lia.
  - apply Ht; [done|]. match goal with H : echo s = _ |- _ => rewrite H end. cbn. lia.
  - by stage_down.
  - by stage_down.
  - by stage_down.
  - by stage_down.
Qed.

Lemma steps_left ls s s' : steps ls s s' -> (length ls + left_ s' <= left_ s + 5 * wakes ls)%nat.
Proof.
  induction 1 as [s|l ls s s1 s2 Hst _ IH]; [cbn; lia|]. apply step_left in Hst.
  destruct l; unfold wakes in *; cbn in *; lia.
Qed.


(** *** Progress *)

Definition ending (s : tunnel) : Prop := lifecycle s = true \/ (stage (supervision s) < 6)%nat.

Lemma step_ending l s s' : step l s s' -> ending s -> ending s'.
Proof.
  intros Hst He. assert (forall st ev full stopped p, supervision s = Selecting st -> ending (turned s st ev full stopped p)) as Ht.
  { intros st ev full stopped p Hs. destruct He as [He|He]; [|rewrite Hs in He; cbn in He; lia]. left. unfold turned.
    by destruct (sup_turn st ev). }
  destruct Hst; try (by apply Ht); try exact He; try (by left); by right; cbn; lia.
Qed.

Lemma steps_ending ls s s' : steps ls s s' -> ending s -> ending s'.
Proof. induction 1 as [|l ls s s1 s2 Hs _ IH]; [done|]. intros He. by apply IH, (step_ending l s). Qed.

Lemma worker_progress f done full w : done = true -> w <> Over -> exists w' full', worker_step f done full false w w' full'.
Proof. intros Hd. destruct w; intros Hne; [exists Over|exists AtSelect|exists Over|done]; exists full; by constructor. Qed.

Lemma progress s : tunnel_inv s -> ending s -> (exists v, supervision s = Returned v) \/ exists l s', l <> Wake /\ step l s s'.
Proof.
  intros [_ _ Hl _] He. destruct (supervision s) as [st|v|v|v|v|v] eqn:Hs.
  - destruct He as [He|He]; [|rewrite Hs in He; cbn in He; lia]. right. eexists (Take LifecycleDone), _. split; [done|by constructor].
  - right. eexists Silent, _. split; [done|by apply (proxy_closed s v)].
  - right. eexists Silent, _. split; [done|by apply (stopped_all s v)].
  - specialize (Hl ltac:(cbn; lia)). right.
    destruct (decide (retry s = Over)) as [Hr|Hr].
    2:{ destruct (worker_progress true (lifecycle s) (renegotiate s) _ Hl Hr) as (w & full & Hw).
        eexists (of_wake false), _. split; [done|by apply (step_retry s false w full)]. }
    destruct (echo s) as [| |ev| |] eqn:Hecho.
    1: eexists (of_wake false), _; split; [done|]; apply (step_echo s false Sleeping (echoStopped s)); rewrite Hecho; constructor.
    1, 2, 3: eexists (of_wake false), _; split; [done|]; apply (step_echo s false Ended (echoStopped s)); rewrite Hecho; by constructor.
    destruct (decide (Forall (fun r => r.2 = Over) (recoveries s))) as [Ha|Ha].
    + eexists Silent, _. split; [done|by apply (waited s v)].
    + apply not_Forall_Exists, Exists_exists in Ha as ([c w] & Hin & Hw); [|apply _]. cbn in Hw.
      apply list_elem_of_split in Hin as (l & r & Hrec).
      destruct (worker_progress false (lifecycle s || c) (renegotiate s) w) as (w' & full & Hst); [by rewrite Hl|done|].
      eexists (of_wake false), _. split; [done|]. by apply (step_recovery s l c w r false w' full).
  - right. eexists Silent, _. split; [done|by apply (device_closed s v)].
  - left. by exists v.
Qed.

(** ** Properties *)

(** [C23] The goroutines of a tunnel keep to the supervision, however they
    interleave. What the supervision has decided is what [supervise] decides of
    the events it took; of all recoveries started at most one is not cancelled, one
    exactly while the supervision knows of it, and none once it has returned; the
    pinger's error always finds room in its channel, so that the pinger is never
    stuck with it; and when the device is closed every worker is gone. *)
Theorem tunnel_workers (initial : wireGuardPeerStats) (ls : list label) (s : tunnel) :
  steps ls (running initial) s ->
  placed (supervision s) (supervise initial (taken ls)).1
  /\ length (filter (fun r => r.1 = false) (recoveries s))
     = (match supervision s with Selecting st => if recovering st then 1 else 0 | _ => 0 end)%nat
  /\ (echo s <> Ended -> echoStopped s = None)
  /\ ((exists v, supervision s = ClosingDevice v \/ supervision s = Returned v) -> lifecycle s = true /\ all_over s).
Proof.
  intros Hs. destruct (steps_inv _ _ _ Hs (running_inv initial)) as [Hg He Hl Ho]. split_and!.
  - by apply (steps_placed ls _ s {| baseline := initial; recovering := false |} [] Hs).
  - assert (forall recs : list (bool * worker), Forall (fun r => r.1 = true) recs -> length (filter (fun r => r.1 = false) recs) = 0%nat) as Hnone.
    { intros recs Hall. rewrite filter_none; [done|]. eapply Forall_impl; [exact Hall|]. by intros r ->. }
    destruct (supervision s) as [st|v|v|v|v|v]; cbn [guarded] in Hg; try by apply Hnone.
    destruct (recovering st); [|by apply Hnone]. destruct Hg as (w & rest & -> & Hall). rewrite filter_cons, decide_True by done.
    cbn [length]. by rewrite Hnone.
  - intros Hne. destruct (echoStopped s) as [err|]; [|done]. by specialize (He ltac:(by eexists)).
  - intros [v [Hv|Hv]]; rewrite Hv in *; cbn [stage] in *; (split; [apply Hl|apply Ho]; lia).
Qed.

(** [C22] A tunnel that ends comes to its end. From any state the goroutines can
    reach, with k timers firing or packets arriving, at most a fixed number of steps
    plus five for each of them follow; and once the context is done or the
    supervision has left its loop, there is always a step left that needs neither a
    timer nor a packet until [runTunnel] has returned. So nobody waits for ever: not
    the supervision for its workers, nor a worker at a channel that is no longer
    read, nor the pinger in its [Read]. *)
Theorem teardown_terminates (initial : wireGuardPeerStats) (ls : list label) (s : tunnel) :
  steps ls (running initial) s ->
  (forall ls' s', steps ls' s s' -> (length ls' <= left_ s + 5 * wakes ls')%nat)
  /\ (ending s -> forall ls' s', steps ls' s s' ->
        (exists v, supervision s' = Returned v) \/ exists l s'', l <> Wake /\ step l s' s'').
Proof.
  intros Hs. split.
  - intros ls' s' Hs'. apply steps_left in Hs'. lia.
  - intros He ls' s' Hs'. apply progress; [|by apply (steps_ending ls' s)].
    by apply (steps_inv ls' s), (steps_inv _ _ _ Hs), running_inv.
Qed.

(** A recovery that has given up may have said so just before the pinger reports
    that the tunnel is healthy again: the message stays in the channel, and ends
    the recovered tunnel. *)
Lemma stale_exhaustion (initial : wireGuardPeerStats) (now : time) : exists ls s,
  steps ls (running initial) s
  /\ taken ls = [HealthEvent udpEchoUnhealthy no_stats now; HealthEvent udpEchoHealthy no_stats now; Renegotiate]
  /\ supervision s = ClosingProxy RenegotiationRequired /\ lifecycle s = false.
Proof.
  eexists [Silent; Wake; Silent; Take (HealthEvent udpEchoUnhealthy no_stats now); Wake; Silent; Silent; Wake; Silent;
           Take (HealthEvent udpEchoHealthy no_stats now); Take Renegotiate], _.
  split.
  { eapply steps_more; [apply (step_echo _ false Awaiting None); by constructor|]. cbn.
  eapply steps_more; [apply (step_echo _ true Pinging None); constructor|]. cbn.
  eapply steps_more; [apply (step_echo _ false (Reporting udpEchoUnhealthy) None); constructor|].
  eapply steps_more; [eapply take_health; reflexivity|]. cbn.
  eapply steps_more; [apply (step_recovery _ [] false AtSelect [] true Busy false); [reflexivity|constructor]|]. cbn.
  eapply steps_more; [apply (step_recovery _ [] false Busy [] false Signalling false); [reflexivity|constructor]|]. cbn.
  eapply steps_more; [apply (step_recovery _ [] false Signalling [] false Over true); [reflexivity|by constructor]|]. cbn.
  eapply steps_more; [apply (step_echo _ true Pinging None); constructor|]. cbn.
  eapply steps_more; [apply (step_echo _ false (Reporting udpEchoHealthy) None); constructor|]. cbn.
  eapply steps_more; [eapply take_health; reflexivity|]. cbn.
  eapply steps_more; [eapply take_exhausted; reflexivity|]. cbn. apply steps_none. }
  by split.
Qed.

(** *** A concrete run: the context ends and all goroutines leave *)

(** The context ends while the pinger is blocked in its [Read]. *)
Definition cancelled : tunnel :=
  {| supervision := supervision (running no_stats); lifecycle := true; renegotiate := false; echoStopped := None;
     retry := AtSelect; echo := Awaiting; recoveries := [] |}.

Definition leaving : list label := [Take LifecycleDone; Silent; Silent; Silent; Silent; Silent; Silent].

Definition ended : tunnel :=
  {| supervision := Returned Cancelled; lifecycle := true; renegotiate := false; echoStopped := None; retry := Over;
     echo := Ended; recoveries := [] |}.

Lemma cancelled_reached : steps [Silent; Silent] (running no_stats) cancelled.
Proof.
  eapply steps_more; [apply (step_echo _ false Awaiting None); by constructor|].
  eapply steps_more; [by apply step_cancel|apply steps_none].
Qed.

Lemma ended_reached : steps leaving cancelled ended.
Proof.
  eapply steps_more; [eapply take_done; reflexivity|]. eapply steps_more; [eapply proxy_closed; reflexivity|].
  eapply steps_more; [eapply stopped_all; reflexivity|]. cbn.
  eapply steps_more; [apply (step_retry _ false Over false); by constructor|]. cbn.
  eapply steps_more; [apply (step_echo _ false Ended None); by constructor|]. cbn.
  eapply steps_more; [eapply waited; [reflexivity|done]|]. eapply steps_more; [eapply device_closed; reflexivity|]. apply steps_none.
Qed.

Lemma tunnel_workers_witness : (supervise no_stats [LifecycleDone]).1 = Return Cancelled /\ all_over ended.
Proof.
  assert (steps (Silent :: Silent :: leaving) (running no_stats) ended) as Hs.
  { eapply steps_more; [apply (step_echo _ false Awaiting None); by constructor|].
    eapply steps_more; [by apply step_cancel|]. exact ended_reached. }
  destruct (tunnel_workers no_stats (Silent :: Silent :: leaving) ended Hs) as (Hp & _ & _ & Ho).
  split; [exact Hp|]. by apply Ho; exists Cancelled; right.
Defined.

Lemma teardown_terminates_witness : steps [Silent; Silent] (running no_stats) cancelled /\ ending cancelled
  /\ (length leaving <= left_ cancelled)%nat.
Proof.
  split; [exact cancelled_reached|]. split; [by left|].
  destruct (teardown_terminates no_stats [Silent; Silent] cancelled cancelled_reached) as [Hl _].
  specialize (Hl leaving ended ended_reached). revert Hl. by vm_compute.
Defined.

End Workers.
