(* ===== verification/Dns.v ===== *)
(** The DNS resolver of the userspace network stack ([internal/tunnet/tun.go]):
    host names, matching a response to its question, framing over a stream, and
    the order in which the servers are tried. Messages are parsed by the
    dnsmessage library, an interface here. *)

From S2P Require Import Prelude Lists GoStrings GoNet.
From Stdlib Require Import Ascii.
Open Scope Z_scope.

(** ** Host names *)

Module DnsName.

Definition is_name_letter (c : ascii) : bool := is_lower c || is_upper c || Ascii.eqb c "_".

(** The loop of [isDomainName]: [last], [nonNumeric], [partlen]. *)
Fixpoint name_loop (last : ascii) (nonNumeric : bool) (partlen : Z) (s : string) : bool :=
  match s with
  | EmptyString => if Ascii.eqb last "-" || (63 <? partlen) then false else nonNumeric
  | String c s' =>
      if is_name_letter c then name_loop c true (partlen + 1) s'
      else if is_digit c then name_loop c nonNumeric (partlen + 1) s'
      else if Ascii.eqb c "-" then
        if Ascii.eqb last "." then false else name_loop c true (partlen + 1) s'
      else if Ascii.eqb c "." then
        if Ascii.eqb last "." || Ascii.eqb last "-" then false
        else if (63 <? partlen) || (partlen =? 0) then false
        else name_loop c nonNumeric 0 s'
      else false
  end.

Definition last_byte (s : string) : option ascii := String.get (String.length s - 1) s.

Definition isDomainName (s : string) : bool :=
  let l := strlen s in
  if (l =? 0) || (254 <? l) || ((l =? 254) && negb (bool_decide (last_byte s = Some "."%char)))
  then false
  else name_loop "." false 0 s.

(** *** Specification: a name as its labels *)

Definition name_byte (c : ascii) : bool := is_name_letter c || is_digit c || Ascii.eqb c "-".

Definition bytes_of (s : string) : list ascii := String.list_ascii_of_string s.

Definition valid_label (l : list ascii) : Prop :=
  (1 <= length l <= 63)%nat /\ Forall (fun c => name_byte c = true) l
  /\ head l <> Some "-"%char /\ last l <> Some "-"%char.

(** The labels between the dots: all valid, but the last may be empty, after a
    dot that ends the name. *)
Fixpoint valid_labels (ls : list string) : Prop :=
  match ls with
  | [] => True
  | [l] => l = EmptyString \/ valid_label (bytes_of l)
  | l :: ls' => valid_label (bytes_of l) /\ valid_labels ls'
  end.

(** A name of digits and dots only would be an address. *)
Definition non_numeric (s : string) : Prop :=
  exists c, c ∈ bytes_of s /\ is_digit c = false /\ c <> "."%char.

(** *** Lemmas *)

(** The state of the loop inside a label whose bytes so far are [p]. *)
Definition last_of (p : list ascii) : ascii := default "."%char (last p).

Definition good_prefix (p : list ascii) : Prop :=
  Forall (fun c => name_byte c = true) p /\ head p <> Some "-"%char.

Lemma good_prefix_last p : good_prefix p -> last_of p = "."%char <-> p = [].
Proof.
  intros [Hp _]. unfold last_of. destruct (last p) as [c|] eqn:E; simpl.
  - split; [|by intros ->]. intros ->. apply last_Some in E as [q ->].
    apply Forall_app in Hp as [_ Hp]. apply Forall_cons in Hp as [Hp _]. done.
  - by apply last_None in E.
Qed.

Lemma good_prefix_snoc p c :
  good_prefix p -> name_byte c = true -> (c <> "-"%char \/ p <> []) -> good_prefix (p ++ [c]).
Proof.
  intros [Hp Hh] Hc Hor. split; [apply Forall_app; by repeat constructor|].
  destruct p; simpl in *; [|done]. intros [= ->]. naive_solver.
Qed.

Lemma last_of_snoc p c : last_of (p ++ [c]) = c.
Proof. unfold last_of. by rewrite last_snoc. Qed.

(** The verdict on the labels of what is left, [p] being already read. *)
Definition rest_ok (p : list ascii) (s : string) : Prop :=
  match split_byte "." s with
  | [] => False
  | [l] => p ++ bytes_of l = [] \/ valid_label (p ++ bytes_of l)
  | l :: ls => valid_label (p ++ bytes_of l) /\ valid_labels ls
  end.

Lemma split_byte_cons c s : exists l ls, split_byte c s = l :: ls.
Proof.
  destruct s as [|a s]; [by eexists _, _|]. simpl. destruct (Ascii.eqb a c); [by eexists _, _|].
  destruct (split_byte c s); by eexists _, _.
Qed.

Lemma rest_ok_byte p c s :
  c <> "."%char -> rest_ok p (String c s) <-> rest_ok (p ++ [c]) s.
Proof.
  intros Hc. unfold rest_ok. simpl. rewrite (proj2 (Ascii.eqb_neq c ".") Hc).
  destruct (split_byte_cons "." s) as (l & ls & ->). cbn [bytes_of String.list_ascii_of_string].
  rewrite <- app_assoc. cbn [app]. fold (bytes_of l). destruct ls; [|done].
  split; (intros [H|H]; [|by right]); by destruct p.
Qed.

Lemma rest_ok_dot p s :
  rest_ok p (String "." s) <-> valid_label p /\ valid_labels (split_byte "." s).
Proof.
  unfold rest_ok. simpl. destruct (split_byte_cons "." s) as (l & ls & ->). by rewrite app_nil_r.
Qed.

Lemma valid_labels_rest s : valid_labels (split_byte "." s) <-> rest_ok [] s.
Proof.
  unfold rest_ok. destruct (split_byte_cons "." s) as (l & ls & ->). destruct ls; [|done].
  cbn. destruct l; cbn; split; intros [?|?]; first [done | by left | by right].
Qed.
Lemma non_numeric_cons c s :
  non_numeric (String c s) <-> (is_digit c = false /\ c <> "."%char) \/ non_numeric s.
Proof.
  unfold non_numeric. cbn [bytes_of String.list_ascii_of_string]. setoid_rewrite elem_of_cons. split.
  - intros (d & [-> |Hd] & Hnd & Hdot); [by left|right; eauto].
  - intros [[H1 H2]|(d & ? & ? & ?)]; eauto 6.
Qed.

Lemma letter_not_special c : is_name_letter c = true -> is_digit c = false /\ c <> "."%char /\ c <> "-"%char.
Proof.
  intros H. split; [|split; by intros ->]. revert H.
  unfold is_name_letter, is_lower, is_upper, is_digit.
  rewrite !orb_true_iff, !andb_true_iff, !Z.leb_le, Ascii.eqb_eq.
  intros [[H|H]| ->]; [..|done]; apply andb_false_iff; rewrite !Z.leb_gt; lia.
Qed.

Lemma digit_not_special c : is_digit c = true -> c <> "."%char /\ c <> "-"%char.
Proof. intros H. split; intros ->; done. Qed.

(** A label is complete where the loop meets a dot or the end. *)
Lemma valid_label_iff p :
  good_prefix p -> valid_label p <-> last_of p <> "-"%char /\ (1 <= length p <= 63)%nat.
Proof.
  intros [Hp Hh]. unfold valid_label, last_of. destruct (last p) as [c|] eqn:E; simpl.
  - split; [intros (? & _ & _ & H); split; [congruence|done]|]. intros [Hc ?].
    split; [done|]. split; [done|]. split; [done|]. by intros [= ->].
  - apply last_None in E as ->. simpl. split; [intros (? & _)|intros [_ ?]]; lia.
Qed.

(** A label starts with no hyphen and has no other byte. *)
Lemma rest_ok_hyphen s : ~ rest_ok ["-"%char] s.
Proof.
  unfold rest_ok. cbn [app]. destruct (split_byte_cons "." s) as (l & [|l' ls] & ->).
  - intros [?|(_ & _ & Hr & _)]; done.
  - by intros [(_ & _ & Hr & _) _].
Qed.

Lemma rest_ok_bad p c s : name_byte c = false -> ~ rest_ok (p ++ [c]) s.
Proof.
  intros Hc. assert (forall q, ~ valid_label ((p ++ [c]) ++ q)) as Hno.
  { intros q (_ & Hq & _). rewrite !Forall_app, Forall_singleton in Hq. destruct Hq as [[_ Hq] _]. congruence. }
  unfold rest_ok. destruct (split_byte_cons "." s) as (l & [|l' ls] & ->).
  - intros [Hr|Hr]; [by destruct p|by apply Hno in Hr].
  - by intros [?%Hno _].
Qed.

(** The three ways on: the end, a byte of the label, a dot. *)
Lemma name_loop_end p nn : good_prefix p ->
  name_loop (last_of p) nn (Z.of_nat (length p)) EmptyString = true
  <-> rest_ok p EmptyString /\ (nn = true \/ non_numeric EmptyString).
Proof.
  intros Hp. cbn [name_loop]. unfold rest_ok. cbn [split_byte bytes_of String.list_ascii_of_string]. rewrite app_nil_r.
  assert (non_numeric EmptyString <-> False) as -> by (split; [by intros (c & Hc & _); apply not_elem_of_nil in Hc|done]).
  rewrite valid_label_iff by done.
  destruct (Ascii.eqb_spec (last_of p) "-") as [Hl|Hl], (Z.ltb_spec 63 (Z.of_nat (length p))); cbn [orb].
  - split; [done|]. intros [[->|[? _]] _]; done.
  - split; [done|]. intros [[->|[? _]] _]; done.
  - split; [done|]. intros [[->|[_ ?]] _]; simpl in *; lia.
  - split; [|by intros [_ [?|?]]]. intros ->. split; [|by left].
    destruct p; [by left|right]. split; [done|]. simpl in *. lia.
Qed.

Definition loop_agrees (s : string) : Prop := forall p nn,
  good_prefix p ->
  name_loop (last_of p) nn (Z.of_nat (length p)) s = true <-> rest_ok p s /\ (nn = true \/ non_numeric s).

Lemma name_loop_byte p c nn s :
  loop_agrees s -> good_prefix (p ++ [c]) -> c <> "."%char ->
  name_loop c nn (Z.of_nat (length p) + 1) s = true <-> rest_ok p (String c s) /\ (nn = true \/ non_numeric s).
Proof.
  intros IH Hp Hc. specialize (IH (p ++ [c]) nn Hp). rewrite last_of_snoc, length_app, Nat2Z.inj_add in IH.
  change (Z.of_nat (length [c])) with 1 in IH. by rewrite IH, rest_ok_byte.
Qed.

Lemma name_loop_dot p nn s :
  loop_agrees s -> good_prefix p ->
  name_loop (last_of p) nn (Z.of_nat (length p)) (String "." s) = true
  <-> rest_ok p (String "." s) /\ (nn = true \/ non_numeric (String "." s)).
Proof.
  intros IH Hp. specialize (IH [] nn ltac:(split; [constructor|done])).
  change (last_of []) with "."%char in IH. change (Z.of_nat (length [])) with 0 in IH.
  change (name_loop (last_of p) nn (Z.of_nat (length p)) (String "." s))
    with (if Ascii.eqb (last_of p) "." || Ascii.eqb (last_of p) "-" then false
          else if (63 <? Z.of_nat (length p)) || (Z.of_nat (length p) =? 0) then false else name_loop "." nn 0 s).
  rewrite non_numeric_cons, rest_ok_dot, valid_labels_rest, valid_label_iff by done.
  destruct (Ascii.eqb_spec (last_of p) ".") as [Hl|Hl]; cbn [orb].
  { apply good_prefix_last in Hl as ->; [|done]. split; [done|]. simpl. intros [[[_ ?] _] _]. lia. }
  assert (0 < length p)%nat by (destruct p; [done|simpl; lia]).
  destruct (Ascii.eqb_spec (last_of p) "-") as [Hl'|Hl']; [split; [done|]; by intros [[[? _] _] _]|].
  destruct (Z.ltb_spec 63 (Z.of_nat (length p))), (Z.eqb_spec (Z.of_nat (length p)) 0); cbn [orb]; try lia.
  rewrite IH. split; [|tauto]. intros [? Hn]. split; [|tauto]. split; [|done]. split; [done|lia].
Qed.

Lemma name_loop_spec s : loop_agrees s.
Proof.
  induction s as [|c s IH]; intros p nn Hp; [by apply name_loop_end|].
  destruct (decide (c = "."%char)) as [->|Hdot]; [by apply name_loop_dot|]. rewrite non_numeric_cons. cbn [name_loop].
  destruct (is_name_letter c) eqn:El.
  { destruct (letter_not_special c El) as (Hd & _ & Hdash).
    rewrite name_loop_byte by first [done | apply good_prefix_snoc; [done|unfold name_byte; by rewrite El|by left]]. naive_solver. }
  destruct (is_digit c) eqn:Ed.
  { destruct (digit_not_special c Ed) as (_ & Hdash).
    rewrite name_loop_byte by first [done | apply good_prefix_snoc; [done|unfold name_byte; by rewrite Ed, orb_true_r|by left]]. naive_solver. }
  destruct (Ascii.eqb_spec c "-") as [->|Hdash].
  - destruct (Ascii.eqb_spec (last_of p) ".") as [Hl|Hl].
    + apply good_prefix_last in Hl as ->; [|done]. split; [done|]. rewrite rest_ok_byte by done. by intros [?%rest_ok_hyphen _].
    + assert (p <> []) as Hne by (intros ->; done).
      rewrite name_loop_byte by first [done | apply good_prefix_snoc; [done|done|by right]]. naive_solver.
  - rewrite (proj2 (Ascii.eqb_neq c ".") Hdot). split; [done|]. rewrite rest_ok_byte by done.
    intros [Hr _]. exfalso. revert Hr. apply rest_ok_bad. unfold name_byte. rewrite El, Ed. by apply Ascii.eqb_neq.
Qed.

(** A string is accepted as a host name exactly when it is one: at most 253
    bytes, or 254 with a final dot, in labels of 1 to 63 letters, digits,
    underscores and hyphens that neither start nor end with a hyphen, with a
    byte that is not a digit somewhere, so that no dotted decimal is one. *)
Theorem isDomainName_spec (s : string) :
  isDomainName s = true <->
  s <> EmptyString /\ strlen s <= 254 /\ (strlen s = 254 -> last_byte s = Some "."%char)
  /\ valid_labels (split_byte "." s) /\ non_numeric s.
Proof.
  unfold isDomainName. rewrite valid_labels_rest.
  pose proof (name_loop_spec s [] false ltac:(split; [constructor|done])) as Hl.
  change (last_of []) with "."%char in Hl. change (Z.of_nat (length [])) with 0 in Hl.
  assert (strlen s = 0 <-> s = EmptyString) as He by (destruct s; unfold strlen; simpl; split; (done || lia)).
  pose proof (strlen_nonneg s).
  destruct (Z.eqb_spec (strlen s) 0); cbn [orb]; [intuition done|].
  destruct (Z.ltb_spec 254 (strlen s)); cbn [orb]; [intuition lia|].
  destruct (Z.eqb_spec (strlen s) 254); cbn [andb].
  - case_bool_decide; cbn [negb]; [|intuition done]. rewrite Hl. intuition (done || lia).
  - rewrite Hl. intuition (done || lia).
Qed.
End DnsName.

(** ** Messages *)

Record question := { qname : string; qtype : Z; qclass : Z }.
Record header := { h_response : bool; h_id : Z; h_rcode : Z; h_authoritative : bool;
                   h_recursion : bool; h_truncated : bool }.

(** What [Parser.AnswerHeader] finds: a record of some type, the end of the
    section, or an error. *)
Inductive answer : Type :=
| AnswerOf (rtype : Z)
| SectionDone
| AnswerError.

(** The dnsmessage library: [start] and [read_question] are [Parser.Start] and
    [Parser.Question], [skip_question] whether [SkipQuestion] reports the end of
    the section, the others the methods of their names, each with the parser it
    leaves; [zero_parser] is [Parser{}]; [build] assembles a query after a
    two-byte prefix and [new_name] is [NewName]. *)
Class DnsMessage := {
  parser : Type;
  zero_parser : parser;
  start : string -> option (parser * header);
  read_question : parser -> option question * parser;
  skip_question : parser -> bool * parser;
  answer_header : parser -> answer * parser;
  skip_answer : parser -> option parser;
  a_resource : parser -> option (list Z * parser);
  aaaa_resource : parser -> option (list Z * parser);
  build : Z -> question -> option string;
  new_name : string -> option string;
  remaining : parser -> nat;  (* answers not yet passed *)
}.

(** What the resolver relies on: looking at the next answer again finds it
    again, a parser that was never started has none to give, and reading or
    skipping an answer passes it. *)
Class DnsLaws `{DnsMessage} : Prop := {
  answer_header_again p : (answer_header (answer_header p).2).1 = (answer_header p).1;
  zero_parser_empty : (answer_header zero_parser).1 = AnswerError;
  answer_header_remaining p : remaining (answer_header p).2 = remaining p;
  skip_answer_remaining p p' : skip_answer p = Some p' -> (remaining p' < remaining p)%nat;
  a_resource_remaining p a p' : a_resource p = Some (a, p') -> (remaining p' < remaining p)%nat;
  aaaa_resource_remaining p a p' : aaaa_resource p = Some (a, p') -> (remaining p' < remaining p)%nat;
}.

Module Dns.

Definition TypeA : Z := 1.
Definition TypeAAAA : Z := 28.
Definition ClassINET : Z := 1.
Definition RCodeSuccess : Z := 0.
Definition RCodeServerFailure : Z := 2.
Definition RCodeNameError : Z := 3.

(** The resolver's errors; the two [Ctx] are [context.Canceled] and
    [context.DeadlineExceeded], the two [EOF] those of package [io], and [ErrNet]
    is any other error of a connection, with what [net.Error]'s [Timeout] and the
    [*net.OpError] test make of it. *)
Inductive dns_err : Type :=
| ErrNoSuchHost
| ErrLameReferral
| ErrCannotUnmarshal
| ErrCannotMarshal
| ErrServerMisbehaving
| ErrServerTemporarilyMisbehaving
| ErrInvalidResponse
| ErrNoAnswer
| ErrCanceled
| ErrTimeout
| CtxCanceled
| CtxDeadlineExceeded
| ErrEOF
| ErrUnexpectedEOF
| ErrNet (timeout op : bool).

#[global] Instance dns_err_eq_dec : EqDecision dns_err.
Proof. solve_decision. Defined.

Record DNSError := {
  Err_ : dns_err;
  Name : string;
  Server : string;
  IsTimeout : bool;
  IsTemporary : bool;
  IsNotFound : bool;
}.

Section resolver.
Context `{DnsMessage}.

Definition fold_byte (c : ascii) : ascii := if is_upper c then of_byte (byte_of c + 32) else c.

Fixpoint equalASCIIName (x y : string) : bool :=
  match x, y with
  | EmptyString, EmptyString => true
  | String a x', String b y' => Ascii.eqb (fold_byte a) (fold_byte b) && equalASCIIName x' y'
  | _, _ => false
  end.

Definition checkResponse (reqID : Z) (reqQues : question) (respHdr : header) (respQues : question) : bool :=
  if negb (h_response respHdr) then false
  else if negb (reqID =? h_id respHdr) then false
  else if negb (qtype reqQues =? qtype respQues) || negb (qclass reqQues =? qclass respQues)
          || negb (equalASCIIName (qname reqQues) (qname respQues)) then false
  else true.

(** [randU16]: two random bytes, the low one first; a failing source is a panic. *)
Definition randU16 (random : option (Z * Z)) : option Z :=
  '(lo, hi) ← random; Some (Z.lor lo (Z.shiftl hi 8)).

(** The two-byte length prefix, [byte(l >> 8)] and [byte(l)]. *)
Definition length_prefix (l : Z) : string :=
  String (of_byte (Z.land (Z.shiftr l 8) 255)) (chr (of_byte (Z.land l 255))).

(** [id] is the random id; the UDP and the TCP form of the query. *)
Definition newRequest (id : Z) (q : question) : option (string * string) :=
  (fun msg => (msg, (length_prefix (strlen msg) ++ msg)%string)) <$> build id q.

(** What [Read] gives, in order; [None] while it still waits. *)
Fixpoint packet_loop (id : Z) (query : question) (reads : list (result dns_err string))
  : option (result dns_err (parser * header)) :=
  match reads with
  | [] => None
  | Err e :: _ => Some (Err e)
  | Ok b :: reads' =>
      match start (str_take 512 b) with
      | None => packet_loop id query reads'
      | Some (p, h) =>
          match read_question p with
          | (Some q, p') => if checkResponse id query h q then Some (Ok (p', h))
                            else packet_loop id query reads'
          | (None, _) => packet_loop id query reads'
          end
      end
  end.

(** [written] is the error of the write. *)
Definition dnsPacketRoundTrip (id : Z) (query : question) (written : option dns_err) (reads : list (result dns_err string))
  : option (result dns_err (parser * header)) :=
  match written with Some e => Some (Err e) | None => packet_loop id query reads end.

(** [io.ReadFull] of [n] bytes from what the server sends before the connection
    fails, with [ended] or, for [None], at the end of the stream. *)
Definition read_full (n : nat) (stream : string) (ended : option dns_err) : result dns_err (string * string) :=
  if (n <=? String.length stream)%nat then Ok (str_take n stream, str_drop n stream)
  else Err (match ended with
            | Some e => e
            | None => if bool_decide (stream = EmptyString) then ErrEOF else ErrUnexpectedEOF
            end).

Definition byte_nth (i : nat) (s : string) : Z :=
  match String.get i s with Some c => byte_of c | None => 0 end.

Definition dnsStreamRoundTrip (id : Z) (query : question) (written : option dns_err) (stream : string)
    (ended : option dns_err) : result dns_err (parser * header) :=
  match written with
  | Some e => Err e
  | None =>
  match read_full 2 stream ended with
  | Err e => Err e
  | Ok (b, rest) =>
      let l := Z.lor (Z.shiftl (byte_nth 0 b) 8) (byte_nth 1 b) in
      match read_full (Z.to_nat l) rest ended with
      | Err e => Err e
      | Ok (msg, _) =>
          match start msg with
          | None => Err ErrCannotUnmarshal
          | Some (p, h) =>
              match read_question p with
              | (None, _) => Err ErrCannotUnmarshal
              | (Some q, p') => if checkResponse id query h q then Ok (p', h) else Err ErrInvalidResponse
              end
          end
      end
  end
  end.

(** What the network does during one exchange: the random id; for UDP and TCP the
    error of the connection (dial, deadline) and that of the write; the reads of
    datagrams; and the stream with the error that ends it, if any. *)
Record wire := {
  x_id : Z;
  x_udp_fails : option dns_err;
  x_udp_write : option dns_err;
  x_udp_reads : list (result dns_err string);
  x_tcp_fails : option dns_err;
  x_tcp_write : option dns_err;
  x_tcp_stream : string;
  x_tcp_end : option dns_err;
}.

(** The errors of a round trip that [exchange] replaces. *)
Definition context_error (e : dns_err) : dns_err :=
  match e with CtxCanceled => ErrCanceled | CtxDeadlineExceeded => ErrTimeout | _ => e end.

(** One of the two rounds; [Ok None] to go on with TCP, [None] while waiting. *)
Definition exchange_round (w : wire) (q : question) (useUDP : bool)
  : option (result dns_err (option (parser * header))) :=
  match (if useUDP then x_udp_fails w else x_tcp_fails w) with
  | Some e => Some (Err e)
  | None =>
      let got := if useUDP then dnsPacketRoundTrip (x_id w) q (x_udp_write w) (x_udp_reads w)
                 else Some (dnsStreamRoundTrip (x_id w) q (x_tcp_write w) (x_tcp_stream w) (x_tcp_end w)) in
      match got with
      | None => None
      | Some (Err e) => Some (Err (context_error e))
      | Some (Ok (p, h)) =>
          let '(section_done, p') := skip_question p in
          if negb section_done then Some (Err ErrInvalidResponse)
          else if h_truncated h then Some (Ok None)
          else Some (Ok (Some (p', h)))
      end
  end.

Definition exchange (w : wire) (q : question) : option (result dns_err (parser * header)) :=
  let q := {| qname := qname q; qtype := qtype q; qclass := ClassINET |} in
  match newRequest (x_id w) q with
  | None => Some (Err ErrCannotMarshal)
  | Some _ =>
      match exchange_round w q true with
      | None => None
      | Some (Err e) => Some (Err e)
      | Some (Ok (Some r)) => Some (Ok r)
      | Some (Ok None) =>
          match exchange_round w q false with
          | None => None
          | Some (Err e) => Some (Err e)
          | Some (Ok (Some r)) => Some (Ok r)
          | Some (Ok None) => Some (Err ErrNoAnswer)
          end
      end
  end.

(** The error, if any, and the parser, whose next header has been looked at. *)
Definition checkHeader (p : parser) (h : header) : option dns_err * parser :=
  if h_rcode h =? RCodeNameError then (Some ErrNoSuchHost, p)
  else
    let '(a, p') := answer_header p in
    match a with
    | AnswerError => (Some ErrCannotUnmarshal, p')
    | _ =>
        let done := match a with SectionDone => true | _ => false end in
        if (h_rcode h =? RCodeSuccess) && negb (h_authoritative h) && negb (h_recursion h) && done
        then (Some ErrLameReferral, p')
        else if negb (h_rcode h =? RCodeSuccess) && negb (h_rcode h =? RCodeNameError) then
          if h_rcode h =? RCodeServerFailure then (Some ErrServerTemporarilyMisbehaving, p')
          else (Some ErrServerMisbehaving, p')
        else (None, p')
    end.

(** [fuel] bounds the answers of one message; [None] when it runs out. *)
Fixpoint skip_loop (fuel : nat) (p : parser) (qt : Z) : option (option dns_err * parser) :=
  match fuel with
  | O => None
  | S f =>
      let '(a, p') := answer_header p in
      match a with
      | SectionDone => Some (Some ErrNoSuchHost, p')
      | AnswerError => Some (Some ErrCannotUnmarshal, p')
      | AnswerOf t =>
          if t =? qt then Some (None, p')
          else match skip_answer p' with
          | None => Some (Some ErrCannotUnmarshal, p')
          | Some p'' => skip_loop f p'' qt
          end
      end
  end.

Definition skipToAnswer (p : parser) (qt : Z) : option dns_err * parser :=
  default (None, p) (skip_loop (S (remaining p)) p qt).

(** ** Trying the servers *)

(** [net k server] is the network during attempt [k]. *)
Definition network : Type := nat -> addr -> wire.

Definition exchange_error (e : dns_err) (name : string) (server : addr) : DNSError :=
  let '(timeout, op) := match e with ErrNet t o => (t, o) | CtxDeadlineExceeded => (true, false) | _ => (false, false) end in
  {| Err_ := e; Name := name; Server := addr_string server;
     IsTimeout := timeout; IsTemporary := op; IsNotFound := false |}.

Definition header_error (e : dns_err) (name : string) (server : addr) : DNSError :=
  {| Err_ := e; Name := name; Server := addr_string server; IsTimeout := false;
     IsTemporary := bool_decide (e = ErrServerTemporarilyMisbehaving);
     IsNotFound := bool_decide (e = ErrNoSuchHost) |}.

(** The three results of [tryOneName]. *)
Definition lookup_result : Type := parser * string * option DNSError.

(** One server: [inl] ends the whole search, [inr] is a failure to remember. *)
Definition attempt (w : wire) (name : string) (q : question) (server : addr)
  : option (lookup_result + DNSError) :=
  match exchange w q with
  | None => None
  | Some (Err e) => Some (inr (exchange_error e name server))
  | Some (Ok (p, h)) =>
      match checkHeader p h with
      | (Some e, p') =>
          let err := header_error e name server in
          if bool_decide (e = ErrNoSuchHost) then Some (inl (p', addr_string server, Some err))
          else Some (inr err)
      | (None, p') =>
          match skipToAnswer p' (qtype q) with
          | (None, p'') => Some (inl (p'', addr_string server, None))
          | (Some e, p'') =>
              let err := {| Err_ := e; Name := name; Server := addr_string server; IsTimeout := false;
                            IsTemporary := false; IsNotFound := bool_decide (e = ErrNoSuchHost) |} in
              if bool_decide (e = ErrNoSuchHost) then Some (inl (p'', addr_string server, Some err))
              else Some (inr err)
          end
      end
  end.

Fixpoint try_servers (net : network) (k : nat) (name : string) (q : question)
    (servers : list addr) (lastErr : option DNSError) : option (lookup_result + option DNSError) :=
  match servers with
  | [] => Some (inr lastErr)
  | server :: rest =>
      match attempt (net k server) name q server with
      | None => None
      | Some (inl r) => Some (inl r)
      | Some (inr e) => try_servers net (S k) name q rest (Some e)
      end
  end.

(** [None] while an exchange still waits. *)
Definition tryOneName (net : network) (servers : list addr) (name : string) (qt : Z)
  : option (lookup_result + dns_err) :=
  match new_name name with
  | None => Some (inr ErrCannotMarshal)
  | Some n =>
      let q := {| qname := n; qtype := qt; qclass := ClassINET |} in
      match try_servers net 0 name q servers None with
      | None => None
      | Some (inl r) => Some (inl r)
      | Some (inr e1) =>
          match try_servers net (length servers) name q servers e1 with
          | None => None
          | Some (inl r) => Some (inl r)
          | Some (inr e2) => Some (inl (zero_parser, EmptyString, e2))
          end
      end
  end.

End resolver.

(** ** Specification of the search *)

Section search.
Context `{DnsLaws}.

(** The attempts in order: every server, then every server again. *)
Definition schedule (servers : list addr) : list (nat * addr) :=
  zip (seq 0 (length servers + length servers)) (servers ++ servers).

(** The header of a response that is looked at further: no error code, and not the
    empty answer of a server that neither knows nor asks others. [p'] is the parser
    once the next header was looked at. *)
Definition sound (p : parser) (h : header) (p' : parser) : Prop :=
  h_rcode h = RCodeSuccess
  /\ exists a, answer_header p = (a, p') /\ a <> AnswerError
     /\ ~ (a = SectionDone /\ h_authoritative h = false /\ h_recursion h = false).

(** What is found among the answers from [p] on, looking for the type [qt]: a record
    of the type, [None], at the parser given; or the end, or something unreadable. *)
Inductive scan (qt : Z) : parser -> option dns_err -> parser -> Prop :=
| scan_found p p' : answer_header p = (AnswerOf qt, p') -> scan qt p None p'
| scan_end p p' : answer_header p = (SectionDone, p') -> scan qt p (Some ErrNoSuchHost) p'
| scan_unreadable p p' : answer_header p = (AnswerError, p') -> scan qt p (Some ErrCannotUnmarshal) p'
| scan_stuck p p' t : answer_header p = (AnswerOf t, p') -> t <> qt -> skip_answer p' = None ->
    scan qt p (Some ErrCannotUnmarshal) p'
| scan_pass p p' t p'' e q : answer_header p = (AnswerOf t, p') -> t <> qt -> skip_answer p' = Some p'' ->
    scan qt p'' e q -> scan qt p e q.

(** What a server settles: it answers, [true], or denies the name, [false]: by the
    code for it, or by an answer section without a record of the type. *)
Inductive settles (w : wire) (q : question) : parser -> bool -> Prop :=
| settles_answer p h p1 p2 : exchange w q = Some (Ok (p, h)) -> sound p h p1 ->
    scan (qtype q) p1 None p2 -> settles w q p2 true
| settles_no_name p h : exchange w q = Some (Ok (p, h)) -> h_rcode h = RCodeNameError -> settles w q p false
| settles_no_record p h p1 p2 : exchange w q = Some (Ok (p, h)) -> sound p h p1 ->
    scan (qtype q) p1 (Some ErrNoSuchHost) p2 -> settles w q p2 false.

(** What fails without settling anything, with its error. *)
Inductive fails (w : wire) (q : question) : dns_err -> Prop :=
| fails_exchange e : exchange w q = Some (Err e) -> fails w q e
| fails_unreadable p h : exchange w q = Some (Ok (p, h)) -> h_rcode h <> RCodeNameError ->
    (answer_header p).1 = AnswerError -> fails w q ErrCannotUnmarshal
| fails_lame p h : exchange w q = Some (Ok (p, h)) -> h_rcode h = RCodeSuccess -> h_authoritative h = false ->
    h_recursion h = false -> (answer_header p).1 = SectionDone -> fails w q ErrLameReferral
| fails_server p h : exchange w q = Some (Ok (p, h)) -> h_rcode h = RCodeServerFailure ->
    (answer_header p).1 <> AnswerError -> fails w q ErrServerTemporarilyMisbehaving
| fails_code p h : exchange w q = Some (Ok (p, h)) ->
    h_rcode h <> RCodeSuccess -> h_rcode h <> RCodeNameError -> h_rcode h <> RCodeServerFailure ->
    (answer_header p).1 <> AnswerError -> fails w q ErrServerMisbehaving
| fails_records p h p1 p2 e : exchange w q = Some (Ok (p, h)) -> sound p h p1 ->
    scan (qtype q) p1 (Some e) p2 -> e <> ErrNoSuchHost -> fails w q e.

Definition denied (name : string) (server : addr) : DNSError :=
  {| Err_ := ErrNoSuchHost; Name := name; Server := addr_string server;
     IsTimeout := false; IsTemporary := false; IsNotFound := true |}.

(** A failure as it is reported: timeouts and errors of a connection that another
    try may avoid are marked, and never as the absence of the name. *)
Definition reports (name : string) (server : addr) (e : dns_err) (err : DNSError) : Prop :=
  Err_ err = e /\ Name err = name /\ Server err = addr_string server /\ IsNotFound err = false
  /\ (IsTimeout err = true -> e = CtxDeadlineExceeded \/ exists op, e = ErrNet true op).

Lemma header_cases p h :
  match checkHeader p h with
  | (None, p') => sound p h p'
  | (Some e, p') =>
      (e = ErrNoSuchHost /\ p' = p /\ h_rcode h = RCodeNameError)
      \/ (e <> ErrNoSuchHost /\ (forall w q, exchange w q = Some (Ok (p, h)) -> fails w q e))
  end.
Proof.
  unfold checkHeader, sound. destruct (Z.eqb_spec (h_rcode h) RCodeNameError) as [Hn|Hn]; [by left|].
  destruct (answer_header p) as [a p'] eqn:Ea. pose proof (f_equal fst Ea) as Ea1. cbn [fst] in Ea1.
  assert (a = AnswerError \/ a <> AnswerError) as [->|Hne] by (destruct a; auto).
  { right. split; [done|]. intros. by eapply fails_unreadable. }
  assert (h_rcode h = RCodeSuccess \/ h_rcode h <> RCodeSuccess) as [Hs|Hs] by lia.
  - rewrite Hs. cbn [Z.eqb RCodeSuccess negb andb].
    destruct a as [t| |]; [..|done]; destruct (h_authoritative h) eqn:Hau, (h_recursion h) eqn:Hre; cbn [negb andb];
      first [ right; split; [done|]; intros; by eapply fails_lame
            | split; [done|]; eexists; split_and!; [done|done|by intros (? & ? & ?)] ].
  - rewrite (proj2 (Z.eqb_neq _ _) Hs). cbn [negb andb].
    destruct (Z.eqb_spec (h_rcode h) RCodeServerFailure) as [Hf|Hf], a; try done;
      right; (split; [done|]); intros; first [eapply fails_server | eapply fails_code]; try done; congruence.
Qed.

Lemma skip_loop_scan fuel p qt e p' : skip_loop fuel p qt = Some (e, p') -> scan qt p e p'.
Proof.
  revert p. induction fuel as [|f IH]; intros p; cbn [skip_loop]; [done|].
  destruct (answer_header p) as [[t| |] p1] eqn:Ea; [|intros [= <- <-]; by econstructor..].
  destruct (Z.eqb_spec t qt) as [->|Ht]; [intros [= <- <-]; by constructor|].
  destruct (skip_answer p1) as [p2|] eqn:Es; [|intros [= <- <-]; by eapply scan_stuck].
  intros Hl. eapply scan_pass; eauto.
Qed.

Lemma skip_loop_enough fuel p qt : (remaining p < fuel)%nat -> is_Some (skip_loop fuel p qt).
Proof.
  revert p. induction fuel as [|f IH]; intros p Hf; [lia|]. cbn [skip_loop].
  pose proof (answer_header_remaining p) as Hr. destruct (answer_header p) as [[t| |] p1]; [|by eexists..].
  case_match; [by eexists|]. destruct (skip_answer p1) as [p2|] eqn:Es; [|by eexists].
  apply IH. apply skip_answer_remaining in Es. simpl in *. lia.
Qed.

Lemma skipToAnswer_scan p qt : scan qt p (skipToAnswer p qt).1 (skipToAnswer p qt).2.
Proof.
  unfold skipToAnswer. destruct (skip_loop_enough (S (remaining p)) p qt ltac:(lia)) as [[e p'] Hl].
  rewrite Hl. by eapply skip_loop_scan.
Qed.

(** An attempt, by what its server does. *)
Lemma attempt_cases w name q server :
  match attempt w name q server with
  | None => exchange w q = None
  | Some (inl (p, at_, err)) => exists ok, settles w q p ok /\ at_ = addr_string server
                               /\ err = if ok then None else Some (denied name server)
  | Some (inr err) => exists e, fails w q e /\ reports name server e err
  end.
Proof.
  unfold attempt. destruct (exchange w q) as [[[p h]|e]|] eqn:Ex; [| |done].
  2:{ exists e. split; [by constructor|]. unfold exchange_error, reports.
      destruct e; cbn; split_and!; try done; try by left. intros ->. right. by eexists. }
  pose proof (header_cases p h) as Hh. destruct (checkHeader p h) as [[e|] p1].
  - destruct Hh as [(-> & -> & Hr)|(Hne & Hf)].
    + rewrite bool_decide_true by done. exists false. split; [by eapply settles_no_name|done].
    + rewrite bool_decide_false by done. exists e. split; [by apply Hf|]. unfold reports, header_error. cbn.
      split_and!; try done. by rewrite bool_decide_false.
  - pose proof (skipToAnswer_scan p1 (qtype q)) as Es. destruct (skipToAnswer p1 (qtype q)) as [[e|] p2]; cbn in Es.
    + case_bool_decide as Hne; cbn.
      * subst e. exists false. split; [by eapply settles_no_record|done].
      * exists e. split; [by eapply fails_records|done].
    + exists true. split; [by eapply settles_answer|done].
Qed.

(** Where the search stands after these attempts, the last failure remembered. *)
Definition searched (net : network) (name : string) (q : question) (atts : list (nat * addr)) (lastErr : option DNSError)
    (r : lookup_result + option DNSError) : Prop :=
  match r with
  | inl (p, at_, err) => exists pre k server post ok, atts = pre ++ (k, server) :: post
      /\ Forall (fun a => exists e, fails (net a.1 a.2) q e) pre /\ settles (net k server) q p ok
      /\ at_ = addr_string server /\ err = if ok then None else Some (denied name server)
  | inr err => Forall (fun a => exists e, fails (net a.1 a.2) q e) atts
      /\ match last atts with
         | None => err = lastErr
         | Some (k, server) => exists e err', err = Some err' /\ fails (net k server) q e /\ reports name server e err'
         end
  end.

Lemma try_servers_searched net k name q servers lastErr :
  match try_servers net k name q servers lastErr with
  | None => Exists (fun a => exchange (net a.1 a.2) q = None) (zip (seq k (length servers)) servers)
  | Some r => searched net name q (zip (seq k (length servers)) servers) lastErr r
  end.
Proof.
  revert k lastErr. induction servers as [|s servers IH]; intros k lastErr; [by split|]. cbn [try_servers length seq zip zip_with].
  pose proof (attempt_cases (net k s) name q s) as Ha. destruct (attempt (net k s) name q s) as [[[[p at_] err]|err]|].
  - destruct Ha as (ok & Hs & -> & ->). exists [], k, s, (zip (seq (S k) (length servers)) servers), ok. by split_and!.
  - destruct Ha as (e & Hf & Hr). specialize (IH (S k) (Some err)). fold (zip (seq (S k) (length servers)) servers).
    destruct (try_servers net (S k) name q servers (Some err)) as [[[[p at_] err']|err']|]; [| |by right].
    + destruct IH as (pre & k' & s' & post & ok & -> & Hpre & Hs). exists ((k, s) :: pre), k', s', post, ok.
      split; [done|]. split; [|done]. constructor; [by exists e|done].
    + destruct IH as [Hall Hl]. split; [constructor; [by exists e|done]|]. rewrite last_cons.
      destruct (last (zip _ servers)) as [[k' s']|]; [done|]. subst err'. by exists e, err.
  - by left.
Qed.

Lemma schedule_split servers :
  schedule servers = zip (seq 0 (length servers)) servers
                     ++ zip (seq (length servers) (length servers)) servers.
Proof.
  unfold schedule. rewrite seq_app. rewrite zip_with_app by apply length_seq. done.
Qed.

(** [C35] A name is asked of every server in order and then once more of each,
    until a server answers or denies it. The search ends with the first of them
    that does: an answer, or a denial marked as such, by the code for it or by an
    answer section without a record of the type; every attempt before it failed,
    whatever way: in the connection, with another response code, with a lame
    referral or a message that cannot be read, and none of these ends the search.
    When all attempts fail, the error is the failure of the last one, never
    marked as a denial; and a search whose exchanges all end comes to an end. *)
Theorem tryOneName_spec (net : network) (servers : list addr) (name n : string) (qt : Z) :
  new_name name = Some n ->
  let q := {| qname := n; qtype := qt; qclass := ClassINET |} in
  let failed := fun a : nat * addr => exists e, fails (net a.1 a.2) q e in
  (forall r, tryOneName net servers name qt = Some r -> exists p at_ err, r = inl (p, at_, err)
     /\ ((exists pre k server post ok, schedule servers = pre ++ (k, server) :: post /\ Forall failed pre
            /\ settles (net k server) q p ok /\ at_ = addr_string server
            /\ err = if ok then None else Some (denied name server))
         \/ (Forall failed (schedule servers) /\ p = zero_parser /\ at_ = EmptyString
            /\ match last (schedule servers) with
               | None => err = None
               | Some (k, server) => exists e err', err = Some err' /\ fails (net k server) q e /\ reports name server e err'
               end)))
  /\ (tryOneName net servers name qt = None -> Exists (fun a => exchange (net a.1 a.2) q = None) (schedule servers)).
Proof.
  intros Hn q failed. unfold tryOneName. rewrite Hn. fold q. rewrite schedule_split.
  pose proof (try_servers_searched net 0 name q servers None) as H1.
  destruct (try_servers net 0 name q servers None) as [[[[p at_] err]|e1]|]; [| |split; [done|]; intros _; apply Exists_app; by left].
  { destruct H1 as (pre & k & s & post & ok & Hz & H1). split; [|done]. intros r [= <-]. exists p, at_, err. split; [done|].
    left. exists pre, k, s, (post ++ zip (seq (length servers) (length servers)) servers), ok. rewrite Hz, <- app_assoc. done. }
  destruct H1 as [Hall Hl1]. pose proof (try_servers_searched net (length servers) name q servers e1) as H2.
  destruct (try_servers net (length servers) name q servers e1) as [[[[p at_] err]|e2]|];
    [| |split; [done|]; intros _; apply Exists_app; by right].
  - destruct H2 as (pre & k & s & post & ok & Hz & Hpre & H2). split; [|done]. intros r [= <-]. exists p, at_, err. split; [done|].
    left. exists (zip (seq 0 (length servers)) servers ++ pre), k, s, post, ok. rewrite Hz, <- app_assoc. split; [done|].
    split; [by apply Forall_app|done].
  - destruct H2 as [Hall2 Hl2]. split; [|done]. intros r [= <-]. exists zero_parser, EmptyString, e2. split; [done|]. right.
    split; [by apply Forall_app|]. split; [done|]. split; [done|]. rewrite last_app.
    destruct (last (zip (seq (length servers) _) servers)) as [[k s]|] eqn:El; [done|]. subst e2.
    destruct servers; [done|]. cbn [length seq zip zip_with] in El. by rewrite last_cons in El; case_match.
Qed.

(** Every id of 16 bits comes from exactly one pair of bytes. *)
Lemma randU16_spec (id lo hi : Z) : 0 <= lo < 256 -> 0 <= hi < 256 ->
  (randU16 (Some (lo, hi)) = Some id <-> 0 <= id < 2 ^ 16 /\ lo = id mod 256 /\ hi = id / 256).
Proof.
  intros Hlo Hhi. unfold randU16. cbn. rewrite Z.lor_comm, lor_shiftl_add by lia. split.
  - intros [= <-]. split; [lia|]. change (2 ^ 8) with 256. split.
    + rewrite Z.add_comm, Z_mod_plus_full. symmetry. apply Z.mod_small. lia.
    + rewrite Z.div_add_l, Z.div_small by lia. lia.
  - intros (_ & -> & ->). f_equal. pose proof (Z.div_mod id 256). lia.
Qed.

(** *** Messages over a stream *)

Lemma length_prefix_bytes l :
  0 <= l < 2 ^ 16 ->
  Z.lor (Z.shiftl (byte_nth 0 (length_prefix l)) 8) (byte_nth 1 (length_prefix l)) = l.
Proof.
  intros Hl. unfold length_prefix. cbn [byte_nth String.get].
  change 255 with (Z.ones 8). rewrite !Z.land_ones, Z.shiftr_div_pow2 by lia.
  pose proof (Z.mod_pos_bound (l / 2 ^ 8) (2 ^ 8) ltac:(lia)).
  pose proof (Z.mod_pos_bound l (2 ^ 8) ltac:(lia)).
  unfold byte_nth, chr. cbn [String.get]. rewrite !byte_of_of_byte by lia.
  rewrite lor_shiftl_add by lia.
  assert (l / 2 ^ 8 < 2 ^ 8) by (apply Z.div_lt_upper_bound; lia).
  assert (0 <= l / 2 ^ 8) by (apply Z.div_pos; lia).
  rewrite (Z.mod_small (l / 2 ^ 8)) by lia. pose proof (Z.div_mod l (2 ^ 8)). lia.
Qed.

Lemma read_full_app (a b : string) ended : read_full (String.length a) (a ++ b) ended = Ok (a, b).
Proof.
  unfold read_full. rewrite length_append, str_take_append, str_drop_append.
  by destruct (Nat.leb_spec (String.length a) (String.length a + String.length b)); [|lia].
Qed.

(** The stream framing is lossless: a message written with the prefix that
    [newRequest] puts before a query is read back whole, however much follows
    it, and judged as that message; a stream that breaks off inside it gives the
    error it breaks off with, and [io.EOF] or [io.ErrUnexpectedEOF] if it just
    ends. *)
Theorem stream_framing (id : Z) (query : question) (msg rest : string) (k : nat) (ended : option dns_err) :
  strlen msg < 2 ^ 16 -> (k < 2 + String.length msg)%nat ->
  let framed := (length_prefix (strlen msg) ++ msg)%string in
  dnsStreamRoundTrip id query None (framed ++ rest) ended
  = match start msg with
    | None => Err ErrCannotUnmarshal
    | Some (p, h) =>
        match read_question p with
        | (None, _) => Err ErrCannotUnmarshal
        | (Some q, p') => if checkResponse id query h q then Ok (p', h) else Err ErrInvalidResponse
        end
    end
  /\ dnsStreamRoundTrip id query None (str_take k framed) ended
     = Err (match ended with Some e => e | None => if decide (k = 0%nat \/ k = 2%nat) then ErrEOF else ErrUnexpectedEOF end).
Proof.
  intros Hlen Hk. pose proof (strlen_nonneg msg). cbn zeta.
  pose proof (length_prefix_bytes (strlen msg) ltac:(lia)) as Hp.
  assert (Z.to_nat (strlen msg) = String.length msg) as Hn by (unfold strlen; lia).
  split.
  - unfold dnsStreamRoundTrip. rewrite append_assoc.
    change 2%nat with (String.length (length_prefix (strlen msg))). rewrite read_full_app, Hp, Hn, read_full_app.
    done.
  - set (pre := length_prefix (strlen msg)) in *.
    assert (exists a b, pre = String a (chr b)) as (a & b & Hpre) by by eexists _, _.
    unfold dnsStreamRoundTrip. rewrite Hpre in *. destruct k as [|[|k]]; [by destruct ended|by destruct ended|].
    cbn [String.append str_take chr]. unfold read_full at 1.
    cbn [String.length Nat.leb str_take str_drop].
    fold (chr b). rewrite Hp, Hn. unfold read_full.
    assert (String.length (str_take k msg) = k) as ->.
    { clear -Hk. revert msg Hk. induction k as [|k IH]; intros [|c msg] Hk; simpl in *; try lia.
      rewrite IH; lia. }
    destruct (Nat.leb_spec (String.length msg) k); [lia|]. destruct ended; [done|]. f_equal.
    destruct msg as [|c msg]; [simpl in *; lia|]. destruct k; [done|].
    rewrite bool_decide_false by done. by rewrite decide_False by lia.
Qed.

End search.
(** A small message format to evaluate the resolver with: the datagram ["ok"]
    answers the question for host.example with one IPv4 address. *)
Definition toy_dns : DnsMessage := {|
  parser := option (list (Z * list Z));
  zero_parser := None;
  start := fun s => if bool_decide (s = "ok"%string)
    then Some (Some [(TypeA, [192; 0; 2; 7])],
               {| h_response := true; h_id := 7; h_rcode := 0; h_authoritative := true;
                  h_recursion := true; h_truncated := false |})
    else None;
  read_question := fun p => (Some {| qname := "HOST.example."; qtype := TypeA; qclass := ClassINET |}, p);
  skip_question := fun p => (true, p);
  answer_header := fun p => (match p with None => AnswerError | Some [] => SectionDone
                                        | Some ((t, _) :: _) => AnswerOf t end, p);
  skip_answer := fun p => match p with Some (_ :: r) => Some (Some r) | _ => None end;
  a_resource := fun p => match p with Some ((_, ip) :: r) => Some (ip, Some r) | _ => None end;
  aaaa_resource := fun p => match p with Some ((_, ip) :: r) => Some (ip, Some r) | _ => None end;
  build := fun _ _ => Some "q"%string;
  new_name := Some;
  remaining := fun p => match p with Some l => length l | None => 0%nat end;
|}.

Lemma toy_dns_laws : @DnsLaws toy_dns.
Proof.
  split; try done.
  - intros [[|x r]|] p' [= <-]. simpl. lia.
  - intros [[|[t ip] r]|] a p' [= <- <-]. simpl. lia.
  - intros [[|[t ip] r]|] a p' [= <- <-]. simpl. lia.
Qed.

Definition toy_net : network := fun _ _ =>
  {| x_id := 7; x_udp_fails := None; x_udp_write := None; x_udp_reads := [Ok "noise"%string; Ok "ok"%string];
     x_tcp_fails := None; x_tcp_write := None; x_tcp_stream := EmptyString; x_tcp_end := None |}.

Definition toy_query : question := {| qname := "host.example."; qtype := TypeA; qclass := ClassINET |}.

(** The first of two servers is silent, the second answers. *)
Definition one_silent : network := fun k _ =>
  if (k =? 0)%nat then {| x_id := 7; x_udp_fails := None; x_udp_write := None; x_udp_reads := [Err (ErrNet true true)];
                          x_tcp_fails := None; x_tcp_write := None; x_tcp_stream := EmptyString; x_tcp_end := None |}
  else toy_net k AddrZero.

Lemma tryOneName_spec_witness :
  let servers := [Addr4 [192; 0; 2; 52]; Addr4 [192; 0; 2; 53]] in
  @tryOneName toy_dns one_silent servers "host.example." TypeA
  = Some (inl (Some [(TypeA, [192; 0; 2; 7])], "192.0.2.53"%string, None))
  /\ exists pre k server post ok, schedule servers = pre ++ (k, server) :: post
       /\ Forall (fun a => exists e, @fails toy_dns (one_silent a.1 a.2) toy_query e) pre
       /\ @settles toy_dns (one_silent k server) toy_query (Some [(TypeA, [192; 0; 2; 7])]) ok.
Proof.
  assert (@tryOneName toy_dns one_silent [Addr4 [192; 0; 2; 52]; Addr4 [192; 0; 2; 53]] "host.example." TypeA
    = Some (inl (Some [(TypeA, [192; 0; 2; 7])], "192.0.2.53"%string, None))) as Hr by by vm_compute.
  split; [exact Hr|].
  destruct (@tryOneName_spec toy_dns toy_dns_laws one_silent [Addr4 [192; 0; 2; 52]; Addr4 [192; 0; 2; 53]] "host.example." "host.example." TypeA
    eq_refl) as [Hs _].
  destruct (Hs _ Hr) as (p & at_ & err & Heq & Hcase). injection Heq as <- <- <-.
  destruct Hcase as [(pre & k & server & post & ok & Hsch & Hpre & Hset & _)|(_ & Hz & _)]; [|discriminate Hz].
  by exists pre, k, server, post, ok.
Defined.

Lemma stream_framing_witness :
  @dnsStreamRoundTrip toy_dns 7 toy_query None (str_take 3 (length_prefix 2 ++ "ok"))%string None = Err ErrUnexpectedEOF
  /\ @dnsStreamRoundTrip toy_dns 7 toy_query None (str_take 1 (length_prefix (strlen "ok") ++ "ok"))%string (Some (ErrNet true true))
     = Err (ErrNet true true).
Proof.
  split.
  - exact (proj2 (@stream_framing toy_dns 7 toy_query "ok" EmptyString 3 None ltac:(by vm_compute) ltac:(simpl; lia))).
  - exact (proj2 (@stream_framing toy_dns 7 toy_query "ok" EmptyString 1 (Some (ErrNet true true)) ltac:(by vm_compute) ltac:(simpl; lia))).
Defined.
End Dns.
