(* ===== verification/Dial.v ===== *)
(** Host lookup and dialling in the userspace network stack
    ([internal/tunnet/tun.go]): merging the answers of the two address families,
    sharing a deadline among the addresses left, and the dial loop. *)

From S2P Require Import Prelude Lists GoStrings GoNet GoTime Dns.
From Stdlib Require Import Ascii.
Open Scope Z_scope.

Import DnsName Dns.

Module Dial.

Record Net := { hasV4 : bool; hasV6 : bool; dnsServers : list addr }.

(** ** Lookup *)

(** A lookup fails with a [*net.DNSError] or, when the name cannot be encoded,
    with a bare error. *)
Inductive lookup_err : Type :=
| LookupDNS (e : DNSError)
| LookupPlain (e : dns_err).

Section lookup.
Context `{DnsMessage}.

Record collected := { addrsV4 : list addr; addrsV6 : list addr; lastErr : option lookup_err }.

Definition bad_answer (host server : string) : option lookup_err :=
  Some (LookupDNS {| Err_ := ErrCannotMarshal; Name := host; Server := server;
                     IsTimeout := false; IsTemporary := false; IsNotFound := false |}).

(** The inner loop over the answers of one message. *)
Fixpoint collect (fuel : nat) (host server : string) (p : parser) (c : collected) : collected :=
  let failed := {| addrsV4 := addrsV4 c; addrsV6 := addrsV6 c; lastErr := bad_answer host server |} in
  match fuel with
  | O => c
  | S f =>
      let '(a, p) := answer_header p in
      match a with
      | SectionDone => c
      | AnswerError => failed
      | AnswerOf t =>
          if t =? TypeA then
            match a_resource p with
            | None => failed
            | Some (ip, p) =>
                collect f host server p
                  {| addrsV4 := addrsV4 c ++ [Addr4 ip]; addrsV6 := addrsV6 c; lastErr := lastErr c |}
            end
          else if t =? TypeAAAA then
            match aaaa_resource p with
            | None => failed
            | Some (ip, p) =>
                collect f host server p
                  {| addrsV4 := addrsV4 c; addrsV6 := addrsV6 c ++ [Addr6 ip EmptyString]; lastErr := lastErr c |}
            end
          else match skip_answer p with
          | None => failed
          | Some p => collect f host server p c
          end
      end
  end.

(** One lane's result, as it arrives. *)
Definition on_lane (host : string) (c : collected) (r : lookup_result + dns_err) : collected :=
  let failed e := {| addrsV4 := addrsV4 c; addrsV6 := addrsV6 c;
                     lastErr := match lastErr c with None => Some e | Some e0 => Some e0 end |} in
  match r with
  | inr e => failed (LookupPlain e)
  | inl (_, _, Some e) => failed (LookupDNS e)
  | inl (p, server, None) => collect (S (remaining p)) host server p c
  end.

Definition not_found (host : string) : lookup_err :=
  LookupDNS {| Err_ := ErrNoSuchHost; Name := host; Server := EmptyString;
               IsTimeout := false; IsTemporary := false; IsNotFound := true |}.

(** [host[:zlen]]. *)
Definition without_zone (host : string) : string :=
  if has_byte ":" host then
    match last_index_byte "%" host with
    | Some i => str_take i host
    | None => host
    end
  else host.

(** [net4] and [net6] are the network of the two lanes, [v6_first] the order in
    which they finish; [None] while a lane still waits. *)
Definition LookupContextHost (n : Net) (net4 net6 : network) (v6_first : bool) (host : string)
  : option (result lookup_err (list string)) :=
  if bool_decide (host = EmptyString) || (negb (hasV6 n) && negb (hasV4 n)) then Some (Err (not_found host))
  else match parse_addr (without_zone host) with
  | Some ip => Some (Ok [addr_string ip])
  | None =>
      if negb (isDomainName host) then Some (Err (not_found host))
      else
        let fqdn := (host ++ ".")%string in
        let lane4 := if hasV4 n then [tryOneName net4 (dnsServers n) fqdn TypeA] else [] in
        let lane6 := if hasV6 n then [tryOneName net6 (dnsServers n) fqdn TypeAAAA] else [] in
        results ← mapM id (if v6_first then lane6 ++ lane4 else lane4 ++ lane6);
        let c := foldl (on_lane host) {| addrsV4 := []; addrsV6 := []; lastErr := None |} results in
        let addrs := if hasV6 n then addrsV6 c ++ addrsV4 c else addrsV4 c ++ addrsV6 c in
        match addrs, lastErr c with
        | [], Some e => Some (Err e)
        | _, _ => Some (Ok (addr_string <$> addrs))
        end
  end.

End lookup.

(** ** Deadlines *)

Definition saneMinimum : Z := 2 * Second.

(** Duration division truncates; [addrsRemaining] is positive at the call. *)
Definition partialDeadline (now deadline : time) (addrsRemaining : Z) : result dns_err time :=
  if is_zero deadline then Ok deadline
  else
    let timeRemaining := time_sub deadline now in
    if timeRemaining <=? 0 then Err ErrTimeout
    else
      let timeout := Z.quot timeRemaining addrsRemaining in
      let timeout :=
        if timeout <? saneMinimum then
          if timeRemaining <? saneMinimum then timeRemaining else saneMinimum
        else timeout in
      Ok (time_add now timeout).

(** ** Dialling *)

Inductive proto : Type := ProtoTCP | ProtoUDP | ProtoPing.

(** The submatches of [protoSplitter]: the protocol, then accept IPv4 and IPv6. *)
Definition split_network (network : string) : option (proto * bool * bool) :=
  if bool_decide (network = "tcp"%string) then Some (ProtoTCP, true, true)
  else if bool_decide (network = "tcp4"%string) then Some (ProtoTCP, true, false)
  else if bool_decide (network = "tcp6"%string) then Some (ProtoTCP, false, true)
  else if bool_decide (network = "udp"%string) then Some (ProtoUDP, true, true)
  else if bool_decide (network = "udp4"%string) then Some (ProtoUDP, true, false)
  else if bool_decide (network = "udp6"%string) then Some (ProtoUDP, false, true)
  else if bool_decide (network = "ping"%string) then Some (ProtoPing, true, true)
  else if bool_decide (network = "ping4"%string) then Some (ProtoPing, true, false)
  else if bool_decide (network = "ping6"%string) then Some (ProtoPing, false, true)
  else None.

Inductive dial_err : Type :=
| DialUnknownNetwork
| DialBadAddress
| DialNumericPort
| DialLookup (e : lookup_err)
| DialNoSuitableAddress
| DialCanceled
| DialTimeout
| DialFailed (e : string)
| DialMissingAddress.

(** The host and the port of the address. *)
Definition split_target (p : proto) (address : string) : result dial_err (string * Z) :=
  match p with
  | ProtoPing => Ok (address, 0)
  | _ =>
      match split_host_port address with
      | None => Err DialBadAddress
      | Some (host, sport) =>
          match atoi sport with
          | Some port => if (port <? 0) || (65535 <? port) then Err DialNumericPort else Ok (host, port)
          | None => Err DialNumericPort
          end
      end
  end.

(** What one iteration meets: the context, the clock, and the dial's error. *)
Record dial_turn := {
  d_ctx : option dial_err;   (* DialCanceled or DialTimeout once the context ended *)
  d_now : time;
  d_error : option string;
}.

(** The connection: which address, dialled with which deadline. *)
Record dialed := { c_addr : addr * Z; c_deadline : option time }.

(** The deadline of one attempt; the error is [partialDeadline]'s. *)
Definition attempt_deadline (deadline : option time) (now : time) (left : nat)
  : result dns_err (option time) :=
  match deadline with
  | None => Ok None
  | Some dl =>
      pd <-- partialDeadline now dl (Z.of_nat left);;
      Ok (Some (if before pd dl then pd else dl))
  end.

(** The loop over the addresses; [deadline] is the context's. Each iteration
    takes a turn; [None] while one is missing. *)
Fixpoint dial_loop (deadline : option time) (addrs : list (addr * Z)) (turns : list dial_turn)
    (firstErr : option dial_err) : option (result dial_err dialed) :=
  match addrs, turns with
  | [], _ => Some (Err (default DialMissingAddress firstErr))
  | _ :: _, [] => None
  | a :: addrs', tr :: turns' =>
      match d_ctx tr with
      | Some e => Some (Err e)
      | None =>
          match attempt_deadline deadline (d_now tr) (length addrs) with
          | Err _ => Some (Err (default DialTimeout firstErr))
          | Ok dl =>
              match d_error tr with
              | None => Some (Ok {| c_addr := a; c_deadline := dl |})
              | Some e =>
                  dial_loop deadline addrs' turns'
                    (match firstErr with None => Some (DialFailed e) | Some _ => firstErr end)
              end
          end
      end
  end.

(** The addresses of the lookup that the network accepts. *)
Definition suitable (acceptV4 acceptV6 : bool) (port : Z) (allAddr : list string) : list (addr * Z) :=
  omap (fun s => ip ← parse_addr s;
                 if (addr_is4 ip && acceptV4) || (addr_is6 ip && acceptV6) then Some (ip, port) else None)
    allAddr.

Section dial.
Context `{DnsMessage}.

(** [LookupHost] and [Dial] are the lookup and the dial without a deadline. *)
Definition LookupHost (n : Net) (net4 net6 : network) (v6_first : bool) (host : string)
  : option (result lookup_err (list string)) := LookupContextHost n net4 net6 v6_first host.

Definition DialContext (n : Net) (net4 net6 : network) (v6_first : bool) (deadline : option time)
    (network address : string) (turns : list dial_turn) : option (result dial_err dialed) :=
  match split_network network with
  | None => Some (Err DialUnknownNetwork)
  | Some (p, acceptV4, acceptV6) =>
      match split_target p address with
      | Err e => Some (Err e)
      | Ok (host, port) =>
          looked ← LookupContextHost n net4 net6 v6_first host;
          match looked with
          | Err e => Some (Err (DialLookup e))
          | Ok allAddr =>
              let addrs := suitable acceptV4 acceptV6 port allAddr in
              match addrs, allAddr with
              | [], _ :: _ => Some (Err DialNoSuitableAddress)
              | _, _ => dial_loop deadline addrs turns None
              end
          end
      end
  end.

Definition Dial (n : Net) (net4 net6 : network) (v6_first : bool) (network address : string) (turns : list dial_turn)
  : option (result dial_err dialed) := DialContext n net4 net6 v6_first None network address turns.

End dial.

(** ** Properties *)

Lemma time_sub_bounds t u : 0 < time_sub t u -> time_sub t u <= instant t - instant u.
Proof. unfold time_sub, int64_min, int64_max. lia. Qed.

Lemma Zquot_le a b : 0 <= a -> 0 < b -> 0 <= Z.quot a b <= a.
Proof.
  intros Ha Hb. rewrite Z.quot_div_nonneg by lia.
  split; [apply Z.div_pos; lia|]. apply Z.div_le_upper_bound; nia.
Qed.

Lemma partialDeadline_cases (now deadline : time) (n : Z) :
  0 < n -> is_zero deadline = false ->
  match partialDeadline now deadline n with
  | Ok d => instant now < instant d <= instant deadline
            /\ Z.min saneMinimum (instant deadline - instant now) <= instant d - instant now
  | Err e => e = ErrTimeout /\ instant deadline <= instant now
  end.
Proof.
  intros Hn Hz. unfold partialDeadline. rewrite Hz. set (r := time_sub deadline now).
  destruct (Z.leb_spec r 0) as [Hr|Hr].
  { split; [done|]. unfold r, time_sub, int64_min, int64_max in Hr. lia. }
  pose proof (time_sub_bounds deadline now Hr) as Hle. fold r in Hle.
  pose proof (Zquot_le r n ltac:(lia) Hn) as Hq.
  rewrite instant_add. unfold saneMinimum, Second in *.
  assert (r < 2 * 10 ^ 9 -> r = instant deadline - instant now) as Hsmall.
  { unfold r, time_sub, int64_min, int64_max in *. lia. }
  destruct (Z.ltb_spec (Z.quot r n) (2 * 10 ^ 9)); [destruct (Z.ltb_spec r (2 * 10 ^ 9))|]; lia.
Qed.

(** An attempt's share of the deadline is real and within it: with time
    left, the attempt may run until later than now and never past the overall
    deadline, for at least two seconds when that much is left; without time
    left it is refused. *)
Theorem partialDeadline_bounds (now deadline : time) (addrsRemaining : Z) :
  0 < addrsRemaining -> is_zero deadline = false ->
  match partialDeadline now deadline addrsRemaining with
  | Ok d => instant now < instant d <= instant deadline
            /\ Z.min saneMinimum (instant deadline - instant now) <= instant d - instant now
  | Err e => e = ErrTimeout /\ instant deadline <= instant now
  end.
Proof.
  apply partialDeadline_cases.
Qed.

Lemma partialDeadline_bounds_witness :
  instant (time_unix 100) < instant (time_add (time_unix 100) (3 * Second)) <= instant (time_unix 109)
  /\ Z.min saneMinimum (instant (time_unix 109) - instant (time_unix 100))
     <= instant (time_add (time_unix 100) (3 * Second)) - instant (time_unix 100).
Proof. exact (partialDeadline_bounds (time_unix 100) (time_unix 109) 3 ltac:(lia) ltac:(by vm_compute)). Defined.

(** A turn whose dial failed, with its error. *)
Definition failed_with (tr : dial_turn) (e : string) : Prop := d_ctx tr = None /\ d_error tr = Some e.

(** The error reported after the failures [es]: the first. *)
Definition reported (otherwise : dial_err) (firstErr : option dial_err) (es : list string) : dial_err :=
  default otherwise (match firstErr with Some e => Some e | None => DialFailed <$> head es end).

Lemma dial_loop_spec deadline addrs turns firstErr r :
  dial_loop deadline addrs turns firstErr = Some r ->
  exists es, Forall2 failed_with (take (length es) turns) es /\ (length es <= length addrs)%nat
    /\ match r with
       | Ok d => exists tr, turns !! length es = Some tr /\ d_ctx tr = None /\ d_error tr = None
                 /\ addrs !! length es = Some (c_addr d)
                 /\ attempt_deadline deadline (d_now tr) (length addrs - length es) = Ok (c_deadline d)
       | Err e =>
           (length es = length addrs /\ e = reported DialMissingAddress firstErr es)
           \/ (length es < length addrs)%nat /\ exists tr, turns !! length es = Some tr /\
                (d_ctx tr = Some e
                 \/ d_ctx tr = None /\ e = reported DialTimeout firstErr es
                    /\ exists e', attempt_deadline deadline (d_now tr) (length addrs - length es) = Err e')
       end.
Proof.
  revert turns firstErr. induction addrs as [|a addrs IH]; intros turns firstErr; cbn [dial_loop].
  { intros [= <-]. exists []. split; [constructor|]. split; [simpl; lia|]. left. split; [done|].
    by destruct firstErr. }
  destruct turns as [|tr turns]; [done|]. destruct (d_ctx tr) as [e|] eqn:Ec.
  { intros [= <-]. exists []. split; [constructor|]. split; [simpl; lia|]. right.
    split; [simpl; lia|]. exists tr. auto. }
  destruct (attempt_deadline deadline (d_now tr) (length (a :: addrs))) as [dl|e'] eqn:Ed.
  2:{ intros [= <-]. exists []. split; [constructor|]. split; [simpl; lia|]. right. split; [simpl; lia|].
      exists tr. split; [done|]. right. split; [done|]. split; [by destruct firstErr|]. by exists e'. }
  destruct (d_error tr) as [e|] eqn:Ee.
  2:{ intros [= <-]. exists []. split; [constructor|]. split; [simpl; lia|]. by exists tr. }
  intros (es & Hes & Hlen & Hr)%IH. exists (e :: es).
  split; [by constructor|]. split; [simpl; lia|]. cbn [length lookup list_lookup Nat.sub].
  assert (forall o, reported o (match firstErr with None => Some (DialFailed e) | Some _ => firstErr end) es
    = reported o firstErr (e :: es)) as Hrep by (intros o; by destruct firstErr).
  destruct r as [d|e0]; [done|]. rewrite !Hrep in Hr. destruct Hr as [[Hl ->]|[? Hr]]; [left; split; [simpl; lia|done]|].
  right. split; [simpl; lia|done].
Qed.

(** A share of the deadline [dl] for an attempt at [now]: until later, not past it,
    and for two seconds when that much is left. *)
Definition shares (dl now share : time) : Prop :=
  instant now < instant share <= instant dl
  /\ Z.min saneMinimum (instant dl - instant now) <= instant share - instant now.

Lemma attempt_deadline_cases (deadline : option time) now (left : nat) :
  (0 < left)%nat -> match deadline with Some dl => normal dl /\ is_zero dl = false | None => True end ->
  match attempt_deadline deadline now left with
  | Ok share => option_Forall2 (fun dl d => shares dl now d) deadline share
  | Err _ => exists dl, deadline = Some dl /\ instant dl <= instant now
  end.
Proof.
  intros Hl Hdl. destruct deadline as [dl|]; [|constructor]. destruct Hdl as [Hn Hz]. cbn [attempt_deadline].
  pose proof (partialDeadline_cases now dl (Z.of_nat left) ltac:(lia) Hz) as Hp.
  destruct (partialDeadline now dl (Z.of_nat left)) as [pd|e]; cbn; [|exists dl; naive_solver].
  constructor. unfold shares. case_match; [done|]. lia.
Qed.

Lemma dial_loop_ends deadline addrs turns firstErr :
  (length addrs <= length turns)%nat -> is_Some (dial_loop deadline addrs turns firstErr).
Proof.
  revert turns firstErr. induction addrs as [|a addrs IH]; intros [|tr turns] firstErr Hl; cbn in *; try lia; try by eexists.
  case_match; [by eexists|]. case_match; [|by eexists]. case_match; [apply IH; lia|by eexists].
Qed.

(** [C36] Dialling tries the addresses in their order, and only a failure moves on
    to the next; with a turn for every address it ends. A connection is to the first
    address whose dial succeeded, every earlier one having been dialled and failed,
    under a share of the context's deadline: not past it, and of at least two
    seconds when that much is left. It gives up early only when the context has
    ended, with its error, or the deadline has passed; otherwise every address was
    dialled and failed. The error is then that of the first dial that failed. *)
Theorem dial_spec (deadline : option time) (addrs : list (addr * Z)) (turns : list dial_turn) :
  match deadline with Some dl => normal dl /\ is_zero dl = false | None => True end ->
  ((length addrs <= length turns)%nat -> is_Some (dial_loop deadline addrs turns None))
  /\ forall r, dial_loop deadline addrs turns None = Some r ->
     exists es, Forall2 failed_with (take (length es) turns) es /\ (length es <= length addrs)%nat
       /\ match r with
          | Ok d => exists tr, turns !! length es = Some tr /\ d_ctx tr = None /\ d_error tr = None
                    /\ addrs !! length es = Some (c_addr d)
                    /\ option_Forall2 (fun dl share => shares dl (d_now tr) share) deadline (c_deadline d)
          | Err e =>
              (length es = length addrs /\ e = reported DialMissingAddress None es)
              \/ (length es < length addrs)%nat /\ exists tr, turns !! length es = Some tr
                 /\ (d_ctx tr = Some e
                     \/ d_ctx tr = None /\ e = reported DialTimeout None es
                        /\ exists dl, deadline = Some dl /\ instant dl <= instant (d_now tr))
          end.
Proof.
  intros Hdl. split; [apply dial_loop_ends|]. intros r (es & Hes & Hlen & Hr)%dial_loop_spec. exists es. split_and!; [done..|].
  destruct r as [d|e].
  - destruct Hr as (tr & Htr & Hc & He & Ha & Hd). exists tr. split_and!; [done..|]. apply lookup_lt_Some in Ha.
    pose proof (attempt_deadline_cases deadline (d_now tr) (length addrs - length es) ltac:(lia) Hdl) as Hs. by rewrite Hd in Hs.
  - destruct Hr as [[? ->]|(Hlt & tr & Htr & Hr)]; [by left|]. right. split; [done|]. exists tr. split; [done|].
    destruct Hr as [Hc|(Hc & -> & e' & Hd)]; [by left|]. right. split_and!; [done..|].
    pose proof (attempt_deadline_cases deadline (d_now tr) (length addrs - length es) ltac:(lia) Hdl) as Hs. by rewrite Hd in Hs.
Qed.
Definition turn_at (s : Z) (e : option string) : dial_turn :=
  {| d_ctx := None; d_now := time_unix s; d_error := e |}.

(** The first address refuses; the second connects with what is left. *)
Lemma dial_spec_witness :
  let addrs := [(Addr4 [192; 0; 2; 1], 80); (Addr4 [192; 0; 2; 2], 80)] in
  let turns := [turn_at 100 (Some "refused"%string); turn_at 101 None] in
  is_Some (dial_loop (Some (time_unix 110)) addrs turns None)
  /\ exists es, Forall2 failed_with (take (length es) turns) es /\ addrs !! length es = Some (Addr4 [192; 0; 2; 2], 80).
Proof.
  destruct (dial_spec (Some (time_unix 110)) [(Addr4 [192; 0; 2; 1], 80); (Addr4 [192; 0; 2; 2], 80)]
    [turn_at 100 (Some "refused"%string); turn_at 101 None] ltac:(split; [split; vm_compute; congruence|done])) as [Hends Hspec].
  split; [apply Hends; simpl; lia|].
  destruct (Hspec (Ok {| c_addr := (Addr4 [192; 0; 2; 2], 80); c_deadline := Some (time_unix 110) |}) ltac:(by vm_compute))
    as (es & Hes & _ & tr & _ & _ & _ & Ha & _).
  by exists es.
Defined.

(** ** A lookup that succeeds has an address *)

Section nonempty.
Context `{DnsLaws}.

Lemma scan_answer qt p e p' : scan qt p e p' -> e = None -> (answer_header p').1 = AnswerOf qt.
Proof.
  induction 1 as [p p' Ha|?|?|?|?]; auto; try done. intros _. pose proof (answer_header_again p) as Hag. by rewrite Ha in Hag.
Qed.

Lemma skipToAnswer_answer p qt p' :
  skipToAnswer p qt = (None, p') -> (answer_header p').1 = AnswerOf qt.
Proof.
  intros Hs. pose proof (skipToAnswer_scan p qt) as Hsc. rewrite Hs in Hsc. by eapply scan_answer.
Qed.

(** What a lane may deliver without an error. *)
Definition deliverable (qt : Z) (r : lookup_result + dns_err) : Prop :=
  forall p server, r = inl (p, server, None) ->
    (answer_header p).1 = AnswerOf qt \/ (answer_header p).1 = AnswerError.

Lemma attempt_deliverable w name q server r :
  attempt w name q server = Some (inl r) -> deliverable (qtype q) (inl r).
Proof.
  unfold attempt. destruct (exchange w q) as [[[p h]|e]|]; [|done|done].
  destruct (checkHeader p h) as [[e|] p'].
  { case_bool_decide; intros [= <-]. by intros p0 s0 [=]. }
  destruct (skipToAnswer p' (qtype q)) as [[e|] p''] eqn:Es.
  - case_bool_decide; intros [= <-]. by intros p0 s0 [=].
  - intros [= <-] p0 s0 [= <- _]. left. by eapply skipToAnswer_answer.
Qed.

Lemma try_servers_deliverable net k name q servers e r :
  try_servers net k name q servers e = Some (inl r) -> deliverable (qtype q) (inl r).
Proof.
  revert k e. induction servers as [|s servers IH]; intros k e; cbn [try_servers]; [done|].
  destruct (attempt (net k s) name q s) as [[r'|e']|] eqn:Ea; [|apply IH|done].
  intros [= <-]. by eapply attempt_deliverable.
Qed.

Lemma tryOneName_deliverable net servers name qt r :
  tryOneName net servers name qt = Some r -> deliverable qt r.
Proof.
  unfold tryOneName. destruct (new_name name) as [n|]; [|by intros [= <-] p s [=]].
  cbn zeta. set (q := {| qname := n |}).
  destruct (try_servers net 0 name q servers None) as [[r1|e1]|] eqn:E1; [|..|done].
  { intros [= <-]. by apply try_servers_deliverable in E1. }
  destruct (try_servers net (length servers) name q servers e1) as [[r2|e2]|] eqn:E2; [|..|done].
  { intros [= <-]. by apply try_servers_deliverable in E2. }
  intros [= <-] p s [= <- _ _]. right. apply zero_parser_empty.
Qed.

(** An address or an error has been recorded. *)
Definition productive (c : collected) : Prop :=
  addrsV4 c <> [] \/ addrsV6 c <> [] \/ lastErr c <> None.

Lemma collect_productive fuel host server p c :
  productive c -> productive (collect fuel host server p c).
Proof.
  revert p c. induction fuel as [|f IH]; intros p c Hc; cbn [collect]; [done|].
  assert (productive {| addrsV4 := addrsV4 c; addrsV6 := addrsV6 c; lastErr := bad_answer host server |})
    as Hbad by (by right; right).
  destruct (answer_header p) as [[t| |] q]; [|done|done].
  destruct (t =? TypeA); [destruct (a_resource q) as [[ip q']|]|
    destruct (t =? TypeAAAA); [destruct (aaaa_resource q) as [[ip q']|]|destruct (skip_answer q)]];
    try done; apply IH; try done.
  - left. cbn. by destruct (addrsV4 c).
  - right; left. cbn. by destruct (addrsV6 c).
Qed.

Lemma on_lane_productive host c qt r :
  (qt = TypeA \/ qt = TypeAAAA) -> deliverable qt r -> productive (on_lane host c r).
Proof.
  intros Hqt Hd. destruct r as [[[p server] [e|]]|e]; cbn [on_lane].
  - right; right. cbn. by destruct (lastErr c).
  - destruct (Hd p server eq_refl) as [Ha|Ha]; cbn [collect];
      destruct (answer_header p) as [a q]; cbn [fst] in Ha; subst a; [|by right; right].
    destruct Hqt as [->| ->]; cbn.
    + destruct (a_resource q) as [[ip q']|]; [|by right; right].
      apply collect_productive. left. cbn. by destruct (addrsV4 c).
    + destruct (aaaa_resource q) as [[ip q']|]; [|by right; right].
      apply collect_productive. right; left. cbn. by destruct (addrsV6 c).
  - right; right. cbn. by destruct (lastErr c).
Qed.

Lemma on_lane_keeps host c r : productive c -> productive (on_lane host c r).
Proof.
  intros Hc. destruct r as [[[p server] [e|]]|e]; cbn [on_lane].
  - right; right. cbn. by destruct (lastErr c).
  - by apply collect_productive.
  - right; right. cbn. by destruct (lastErr c).
Qed.

Lemma on_lanes_productive host c rs :
  Exists (fun r => exists qt, (qt = TypeA \/ qt = TypeAAAA) /\ deliverable qt r) rs ->
  productive (foldl (on_lane host) c rs).
Proof.
  intros He. revert c. induction He as [r rs (qt & Hqt & Hd)|r rs _ IH]; intros c; cbn [foldl]; [|apply IH].
  assert (productive (on_lane host c r)) as Hp by by eapply on_lane_productive.
  revert Hp. generalize (on_lane host c r). induction rs as [|r' rs IH]; intros c' Hp; [done|].
  cbn [foldl]. apply IH. by apply on_lane_keeps.
Qed.

Lemma lanes_deliverable (n : Net) (net4 net6 : network) (v6_first : bool) fqdn rs :
  hasV6 n || hasV4 n = true ->
  (let lane4 := if hasV4 n then [tryOneName net4 (dnsServers n) fqdn TypeA] else [] in
   let lane6 := if hasV6 n then [tryOneName net6 (dnsServers n) fqdn TypeAAAA] else [] in
   mapM id (if v6_first then lane6 ++ lane4 else lane4 ++ lane6)) = Some rs ->
  Exists (fun r => exists qt, (qt = TypeA \/ qt = TypeAAAA) /\ deliverable qt r) rs.
Proof.
  intros Hv Hm. cbn zeta in Hm. apply mapM_Some_1 in Hm.
  destruct (hasV4 n), (hasV6 n), v6_first; try done; cbn [app] in Hm;
    inversion Hm as [|r0 r rs0 rs1 Hr Hrest]; subst; constructor; cbn in Hr;
    (eexists; split; [|by eapply tryOneName_deliverable]); auto.
Qed.

(** A lookup that succeeds has at least one address: an empty host, a stack
    without addresses, no servers, a name that is none, and servers that are
    silent, wrong or deny the name all give an error. A literal address is its
    own answer without a query. *)
Theorem lookup_nonempty (n : Net) (net4 net6 : network) (v6_first : bool) (host : string)
    (addrs : list string) :
  LookupContextHost n net4 net6 v6_first host = Some (Ok addrs) ->
  addrs <> [] /\ (forall ip, parse_addr (without_zone host) = Some ip -> addrs = [addr_string ip]).
Proof.
  unfold LookupContextHost.
  destruct (bool_decide (host = EmptyString) || (negb (hasV6 n) && negb (hasV4 n))) eqn:E; [done|].
  apply orb_false_iff in E as [_ Hv].
  assert (hasV6 n || hasV4 n = true) as Hv' by (by destruct (hasV6 n), (hasV4 n)).
  destruct (parse_addr (without_zone host)) as [ip|]; [intros [= <-]; split; [done|]; by intros ? [= ->]|].
  destruct (isDomainName host); cbn [negb]; [|done]. cbn zeta. intros (rs & Hrs & Hout)%bind_Some.
  split; [|done]. pose proof (lanes_deliverable n net4 net6 v6_first _ rs Hv' Hrs) as Hex.
  pose proof (on_lanes_productive host {| addrsV4 := []; addrsV6 := []; lastErr := None |} rs Hex) as Hp.
  set (c := foldl _ _ rs) in *. revert Hout.
  destruct (if hasV6 n then addrsV6 c ++ addrsV4 c else addrsV4 c ++ addrsV6 c) as [|a l] eqn:Ea;
    destruct (lastErr c) eqn:El; intros Hout; try done.
  - exfalso. unfold productive in Hp. rewrite El in Hp.
    destruct (hasV6 n); apply app_eq_nil in Ea as [H1 H2]; destruct Hp as [?|[?|?]]; done.
  - by injection Hout as <-.
  - by injection Hout as <-.
Qed.

End nonempty.

Lemma lookup_nonempty_witness :
  @LookupContextHost toy_dns {| hasV4 := true; hasV6 := false; dnsServers := [Addr4 [192; 0; 2; 53]] |}
    toy_net toy_net false "host.example" = Some (Ok ["192.0.2.7"%string])
  /\ ["192.0.2.7"%string] <> [].
Proof.
  split; [by vm_compute|].
  exact (proj1 (@lookup_nonempty toy_dns toy_dns_laws
    {| hasV4 := true; hasV6 := false; dnsServers := [Addr4 [192; 0; 2; 53]] |}
    toy_net toy_net false "host.example" ["192.0.2.7"%string] ltac:(by vm_compute))).
Defined.
End Dial.
