(* ===== verification/Socks.v ===== *)
(** The SOCKS5 front of the tunnel ([socks5.go]): which addresses it may listen
    on, when it warns, how it resolves names and what it refuses to dial. *)

From S2P Require Import Prelude Lists GoStrings GoNet GoTime Dns Dial.
From Stdlib Require Import Ascii.
Open Scope Z_scope.

Import DnsName Dns Dial.

Module Socks.

Record socks5Auth := { user : string; pass : string }.

Definition enabled (a : socks5Auth) : bool := negb (bool_decide (user a = EmptyString)).

(** The authenticators: one pair of credentials, or none at all. *)
Inductive authenticator : Type :=
| UserPass (user pass : string)
| NoAuth.

Definition socks5AuthMethods (auth : socks5Auth) : list authenticator :=
  if enabled auth then [UserPass (user auth) (pass auth)] else [NoAuth].

Definition authLogMode (auth : socks5Auth) : string := if enabled auth then "userpass" else "none".

(** ** Listen addresses *)

Inductive addr_err : Type :=
| NotHostPort
| EmptyHost
| BadPort.

Definition validatePort (value : string) : bool :=
  match atoi value with
  | Some port => (1 <=? port) && (port <=? 65535)
  | None => false
  end.

Definition validateSocks5Addr (addr : string) : result addr_err unit :=
  match split_host_port addr with
  | None => Err NotHostPort
  | Some (host, port) =>
      if bool_decide (host = EmptyString) then Err EmptyHost
      else if negb (validatePort port) then Err BadPort
      else Ok tt
  end.

Definition isLoopbackBindHost (host : string) : bool :=
  if equal_fold_ascii (trim_suffix_byte "." host) "localhost" then true
  else
    let host := match index_byte "%" host with Some i => str_take i host | None => host end in
    match parse_ip host with
    | Some ip => is_loopback ip
    | None => false
    end.

(** The warning of [startSocks5Proxy]. *)
Definition warns_open (auth : socks5Auth) (addr : string) : bool :=
  negb (enabled auth)
  && match split_host_port addr with
     | Some (host, _) => negb (isLoopbackBindHost host)
     | None => false
     end.

Inductive start_err : Type :=
| NoNetstack
| BadAddress (e : addr_err)
| ListenFailed (e : string).

Record proxy := { p_methods : list authenticator; p_warned : bool }.

(** [listens] is the error of [net.Listen]. *)
Definition startSocks5Proxy (addr : string) (auth : socks5Auth) (netstack : bool) (listens : option string)
  : result start_err proxy :=
  if negb netstack then Err NoNetstack
  else match validateSocks5Addr addr with
  | Err e => Err (BadAddress e)
  | Ok _ =>
      match listens with
      | Some e => Err (ListenFailed e)
      | None => Ok {| p_methods := socks5AuthMethods auth; p_warned := warns_open auth addr |}
      end
  end.

(** ** Closing

    A running proxy: the error closing its listener gives, [None] without a
    listener, and whether there is a channel its server closes when it returns. *)
Record socks5Proxy := { listener : option (option string); done_ : bool }.

Inductive close_action : Type :=
| CloseListener
| AwaitServer.

(** What [Close] does, [None] for a nil proxy, and its error. *)
Definition Close (p : option socks5Proxy) : list close_action * option string :=
  match p with
  | None => ([], None)
  | Some p =>
      match listener p with
      | None => ([], None)
      | Some err => (CloseListener :: (if done_ p then [AwaitServer] else []), err)
      end
  end.

(** The proxy [startSocks5Proxy] returns. *)
Definition serving (closes : option string) : socks5Proxy := {| listener := Some closes; done_ := true |}.

(** A connection through the proxy, with what closing it gives. *)
Record loggedSocksConn := { network_ : string; target_ : string; conn_closes : option string }.

Definition conn_Close (c : loggedSocksConn) : option string := conn_closes c.

(** ** Names *)

Inductive resolve_err : Type :=
| LookupFailed (e : lookup_err)
| NoIPv4.

(** The first address of the lookup that is IPv4, mapped ones included. *)
Definition usable_ip (a : string) : option (list Z) :=
  ip ← parse_ip a; if is_v4 ip then Some ip else None.

Section resolve.
Context `{DnsMessage}.

Definition pick (addrs : list string) : option (list Z) := head (omap usable_ip addrs).

Definition Resolve (n : Net) (net4 net6 : network) (v6_first : bool) (name : string)
  : option (result resolve_err (list Z)) :=
  looked ← LookupContextHost n net4 net6 v6_first name;
  match looked with
  | Err e => Some (Err (LookupFailed e))
  | Ok addrs =>
      match pick addrs with
      | Some ip => Some (Ok ip)
      | None => Some (Err NoIPv4)
      end
  end.

(** ** Dialling *)

Inductive hook_err : Type :=
| IPv6Refused
| HookDial (e : dial_err).

Definition refuses (target : string) : bool :=
  match split_host_port target with
  | Some (host, _) => match parse_ip host with Some ip => negb (is_v4 ip) | None => false end
  | None => false
  end.

(** The [WithDial] function. *)
Definition socks_dial (n : Net) (net4 net6 : network) (v6_first : bool) (deadline : option time)
    (network target : string) (turns : list dial_turn) : option (result hook_err dialed) :=
  if refuses target then Some (Err IPv6Refused)
  else
    r ← DialContext n net4 net6 v6_first deadline network target turns;
    Some (match r with Ok c => Ok c | Err e => Err (HookDial e) end).

End resolve.

(** ** Properties *)

(** What a listen address must be. *)
Definition listenable (addr : string) : Prop :=
  exists host port n, split_host_port addr = Some (host, port) /\ host <> EmptyString
    /\ atoi port = Some n /\ 1 <= n <= 65535.

Lemma validate_iff addr : validateSocks5Addr addr = Ok tt <-> listenable addr.
Proof.
  unfold validateSocks5Addr, listenable, validatePort. destruct (split_host_port addr) as [[host port]|].
  2:{ split; [done|]. by intros (? & ? & ? & ? & _). }
  case_bool_decide as Hh; [split; [done|]; by intros (? & ? & ? & [= <- <-] & ? & _)|].
  destruct (atoi port) as [n|] eqn:E.
  - destruct (Z.leb_spec 1 n), (Z.leb_spec n 65535); cbn [andb negb]; split; try done;
      try (by intros _; eexists _, _, _); intros (? & ? & m & [= <- <-] & _ & Hm & ?); rewrite E in Hm; injection Hm as ->; lia.
  - split; [done|]. intros (? & ? & m & [= <- <-] & _ & Hm & _). congruence.
Qed.

(** The proxy never opens the tunnel unnoticed. It starts exactly on a
    HOST:PORT with a host and a port from 1 to 65535, with a network stack; with
    credentials it offers nothing but their check; and without them it warns
    unless it listens on localhost or a loopback address. *)
Theorem proxy_start_spec (addr : string) (auth : socks5Auth) (netstack : bool) (listens : option string) :
  ((exists p, startSocks5Proxy addr auth netstack listens = Ok p)
     <-> netstack = true /\ listenable addr /\ listens = None)
  /\ (forall p, startSocks5Proxy addr auth netstack listens = Ok p ->
      (NoAuth ∈ p_methods p <-> user auth = EmptyString)
      /\ (user auth <> EmptyString -> p_methods p = [UserPass (user auth) (pass auth)])
      /\ (p_warned p = false -> user auth <> EmptyString
          \/ exists host port, split_host_port addr = Some (host, port) /\ isLoopbackBindHost host = true)).
Proof.
  unfold startSocks5Proxy. destruct netstack; cbn [negb].
  2:{ split; [split; [by intros [? ?]|by intros [? _]]|done]. }
  destruct (validateSocks5Addr addr) as [[]|e] eqn:E.
  2:{ split; [split; [by intros [? ?]|]|done]. intros (_ & Hl & _). apply validate_iff in Hl. congruence. }
  apply validate_iff in E. destruct listens as [l|].
  { split; [split; [by intros [? ?]|by intros (_ & _ & ?)]|done]. }
  split; [split; [done|intros _; by eexists]|]. intros p [= <-]. cbn [p_methods p_warned].
  unfold socks5AuthMethods, warns_open, enabled. case_bool_decide as Hu; cbn [negb andb].
  - split; [|split; [done|]]; [rewrite list_elem_of_singleton; tauto|]. intros Hw. right.
    destruct E as (host & port & n & Hs & _). rewrite Hs in *. exists host, port. split; [done|].
    by apply negb_false_iff in Hw.
  - split; [|split; [done|by left]]. rewrite list_elem_of_singleton. split; [done|congruence].
Qed.

Section names.
Context `{DnsMessage}.

(** Names are resolved inside the tunnel, to IPv4 only. Whatever the tunnel's
    resolver answers, the result is the first of its addresses that is IPv4, an
    error of its own when there is none, and the resolver's error when it
    failed; there is no other source of addresses. *)
Theorem resolve_spec (n : Net) (net4 net6 : network) (v6_first : bool) (name : string)
    (r : result resolve_err (list Z)) :
  Resolve n net4 net6 v6_first name = Some r ->
  exists looked, LookupContextHost n net4 net6 v6_first name = Some looked
    /\ match looked, r with
       | Err e, Err (LookupFailed e') => e' = e
       | Ok addrs, Ok ip => is_v4 ip = true /\ exists pre a post, addrs = pre ++ a :: post
            /\ Forall (fun a => usable_ip a = None) pre /\ parse_ip a = Some ip
       | Ok addrs, Err NoIPv4 => Forall (fun a => usable_ip a = None) addrs
       | _, _ => False
       end.
Proof.
  unfold Resolve. intros (looked & Hl & Hr)%bind_Some. exists looked. split; [done|].
  destruct looked as [addrs|e]; [|by injection Hr as <-].
  destruct (pick addrs) as [ip|] eqn:Ep; injection Hr as <-; [|by apply head_omap_None].
  apply head_omap_Some in Ep as (pre & a & post & -> & Hpre & Ha). unfold usable_ip in Ha.
  apply bind_Some in Ha as (ip' & Hip & Hv). destruct (is_v4 ip') eqn:Ev; [|done]. injection Hv as <-.
  split; [done|]. by exists pre, a, post.
Qed.

(** The target [ip:port] of an IPv4 address is split into what it was made of. *)
Lemma split_v4_target b port :
  split_host_port (join_host_port (v4_string b) (itoa port)) = Some (v4_string b, itoa port).
Proof. apply split_join; first [by apply v4_string_no_byte|by apply itoa_no_byte]. Qed.

Lemma is_v4_mapped b : length b = 4%nat -> is_v4 (v4_mapped_prefix ++ b) = true.
Proof.
  destruct b as [|? [|? [|? [|? [|? ?]]]]]; done.
Qed.

(** A connection asked for by IPv4 address goes to that address and port and
    nowhere else: nothing is looked up, and the outcome is that of dialling it
    alone. *)
Theorem socks_dial_v4 (n : Net) (net4 net6 : network) (v6_first : bool) (deadline : option time)
    (b : list Z) (port : Z) (turns : list dial_turn) :
  hasV4 n || hasV6 n = true -> length b = 4%nat -> Forall is_byte b -> 0 <= port <= 65535 ->
  socks_dial n net4 net6 v6_first deadline "tcp" (join_host_port (v4_string b) (itoa port)) turns
  = (fun r => match r with Ok c => Ok c | Err e => Err (HookDial e) end)
      <$> dial_loop deadline [(Addr4 b, port)] turns None.
Proof.
  intros Hn Hl Hb Hp. unfold socks_dial, refuses. rewrite split_v4_target, parse_ip_v4_string by done.
  rewrite is_v4_mapped by done. cbn [negb]. unfold DialContext. change (split_network "tcp") with (Some (ProtoTCP, true, true)).
  unfold split_target. rewrite split_v4_target, atoi_itoa by (unfold in_int64, int64_min, int64_max; lia).
  destruct (Z.ltb_spec port 0), (Z.ltb_spec 65535 port); [lia..|]. cbn [orb].
  assert (v4_string b <> EmptyString) as Hne.
  { destruct b as [|a b]; [done|]. apply Forall_cons in Hb as [Ha _].
    destruct b as [|c b]; [done|]. unfold v4_string. rewrite !fmap_cons. cbn [String.concat]. by apply itoa_nonempty. }
  unfold LookupContextHost. rewrite bool_decide_false by done.
  assert (negb (hasV6 n) && negb (hasV4 n) = false) as -> by (destruct (hasV4 n), (hasV6 n); done). cbn [orb].
  unfold without_zone. rewrite v4_string_no_colon, parse_addr_v4_string by done. cbn [mbind option_bind].
  unfold suitable. cbn [addr_string omap list_omap]. rewrite parse_addr_v4_string by done.
  cbn [mbind option_bind addr_is4 andb orb]. by destruct (dial_loop _ _ _ _).
Qed.

End names.

(** *** Concrete runs *)

Definition toy_stack : Net := {| hasV4 := true; hasV6 := true; dnsServers := [Addr4 [10; 0; 0; 1]] |}.

Lemma socks_dial_v4_witness :
  @socks_dial toy_dns toy_stack (toy_net) (toy_net) false None "tcp" "192.0.2.1:443" [turn_at 5 None]
  = Some (Ok {| c_addr := (Addr4 [192; 0; 2; 1], 443); c_deadline := None |}).
Proof.
  change "192.0.2.1:443"%string with (join_host_port (v4_string [192; 0; 2; 1]) (itoa 443)).
  rewrite (@socks_dial_v4 toy_dns toy_stack toy_net toy_net false None [192; 0; 2; 1] 443);
    [done|done|done|repeat constructor; unfold is_byte; lia|lia].
Defined.

(** A literal is resolved without a query. *)
Lemma resolve_spec_witness :
  @Resolve toy_dns toy_stack toy_net toy_net false "192.0.2.1" = Some (Ok (v4_mapped_prefix ++ [192; 0; 2; 1]))
  /\ exists looked, @LookupContextHost toy_dns toy_stack toy_net toy_net false "192.0.2.1" = Some looked.
Proof.
  assert (@Resolve toy_dns toy_stack toy_net toy_net false "192.0.2.1" = Some (Ok (v4_mapped_prefix ++ [192; 0; 2; 1])))
    as Hr by by vm_compute.
  split; [exact Hr|].
  destruct (@resolve_spec toy_dns toy_stack toy_net toy_net false "192.0.2.1"%string _ Hr) as (looked & Hl & _).
  by exists looked.
Defined.

End Socks.
