(* ===== verification/Cli.v ===== *)
(** The command line ([main.go]): the checks of [parseFlags] on what package
    [flag] has read, the environment and the session file, and the exit status
    of [main]. *)

From S2P Require Import Prelude GoStrings GoNet GoUrl TunnelMTU Candidates Client Socks Invite.
From Stdlib Require Import Ascii.
Open Scope Z_scope.

Import MTU Candidates Socks.

Module Cli.

(** What [flag.Parse] leaves: the options and the other arguments. *)
Record arguments := {
  o_invite : string;
  o_name : string;
  o_endpoint : string;
  o_turn : bool;
  o_print_config : bool;
  o_socks5 : string;
  o_socks5_user : string;
  o_socks5_pass : string;
  o_4 : bool;
  o_6 : bool;
  o_debug : bool;
  o_session_file : string;
  o_mtu : Z;
  o_args : list string;
}.

(** [os.Stat] of the session file. *)
Inductive file_stat : Type :=
| StatFailed (e : string)
| IsDirectory
| IsFile.

Record environment := {
  TELEPORT_SOCKS5_PASS : string;
  TELEPORT_MTU : string;
  TELEPORT_TCP_CONGESTION_CONTROL : string;
  stat : file_stat;
}.

(** [cliFlags], all of it; [Client.cliFlags] has the part a connection uses. *)
Record cliFlags := {
  c_invite : string;
  c_name : string;
  c_endpointOverride : string;
  c_forceTurn : bool;
  c_printConfig : bool;
  c_socks5Addr : string;
  c_socks5User : string;
  c_socks5Pass : string;
  c_family : networkFamily;
  c_debug : bool;
  c_sessionFile : string;
  c_mtu : Z;
  c_tcpCongestionControl : string;
}.

Definition connection_flags (f : cliFlags) : Client.Client.cliFlags :=
  {| Client.Client.invite := c_invite f; Client.Client.endpointOverride := c_endpointOverride f;
     Client.Client.forceTurn := c_forceTurn f; Client.Client.printConfig := c_printConfig f;
     Client.Client.family := c_family f; Client.Client.sessionFile := c_sessionFile f |}.

Inductive usage_err : Type :=
| PositionalArguments
| EmptyName
| LongName
| BadSocksAddr (e : addr_err)
| OneCredential
| BlankUser
| LongUser
| LongPassword (source : string)
| BothFamilies
| BadEndpoint
| BadEndpointPort
| TurnWithEndpoint
| BadInvite (e : Invite.Invite.invite_err)
| NoInviteNoFile
| NoSessionFile (e : string)
| SessionFileIsDirectory
| BadMTU (e : config_error)
| BadCongestionControl (e : config_error).

Definition defaultClientName (hostname : result string string) : string :=
  match hostname with
  | Ok h => if bool_decide (h = EmptyString) then "Device" else h
  | Err _ => "Device"
  end.

(** The password that counts, and its source for the messages. *)
Definition socks5_password (a : arguments) (e : environment) : string * string :=
  if bool_decide (o_socks5_pass a = EmptyString) && negb (bool_decide (o_socks5_user a = EmptyString))
     && negb (bool_decide (TELEPORT_SOCKS5_PASS e = EmptyString))
  then (TELEPORT_SOCKS5_PASS e, "TELEPORT_SOCKS5_PASS"%string)
  else (o_socks5_pass a, "--socks5-pass"%string).

(** The warning that the password of the environment is ignored. *)
Definition warns_ignored (a : arguments) (e : environment) : bool :=
  negb (bool_decide (TELEPORT_SOCKS5_PASS e = EmptyString)) && bool_decide (o_socks5_user a = EmptyString)
  && bool_decide (o_socks5_pass a = EmptyString).

(** A check: [failUsage] does not return. *)
Definition fail_if (b : bool) (e : usage_err) : result usage_err unit := if b then Err e else Ok tt.

Definition is_empty (s : string) : bool := bool_decide (s = EmptyString).

Definition check_endpoint (endpoint : string) : result usage_err unit :=
  if is_empty endpoint then Ok tt
  else match split_host_port endpoint with
  | None => Err BadEndpoint
  | Some (host, port) =>
      if is_empty host then Err BadEndpoint
      else fail_if (negb (validatePort port)) BadEndpointPort
  end.

(** The invite, normalised, or the check that there is a session file. *)
Definition check_session (a : arguments) (e : environment) : result usage_err string :=
  if negb (is_empty (o_invite a)) then
    match Invite.Invite.normalizeInviteSecret (o_invite a) with
    | Err err => Err (BadInvite err)
    | Ok parsed => Ok parsed
    end
  else if is_empty (o_session_file a) then Err NoInviteNoFile
  else match stat e with
  | StatFailed err => Err (NoSessionFile err)
  | IsDirectory => Err SessionFileIsDirectory
  | IsFile => Ok (o_invite a)
  end.

Definition chosen_family (a : arguments) : networkFamily :=
  if o_6 a then familyIPv6 else if o_4 a then familyIPv4 else familyDual.

Definition with_error {E E' A} (f : E -> E') (r : result E A) : result E' A :=
  match r with Ok a => Ok a | Err e => Err (f e) end.

Section tables.
Context `{UnicodeTables}.

Definition parseFlags (a : arguments) (e : environment) : result usage_err cliFlags :=
  _ <-- fail_if (negb (length (o_args a) =? 0)%nat) PositionalArguments;;
  _ <-- fail_if (is_empty (trim_space (o_name a))) EmptyName;;
  _ <-- fail_if (128 <? strlen (o_name a)) LongName;;
  _ <-- with_error BadSocksAddr (validateSocks5Addr (o_socks5 a));;
  let '(pass, source) := socks5_password a e in
  _ <-- fail_if (xorb (is_empty (o_socks5_user a)) (is_empty pass)) OneCredential;;
  _ <-- fail_if (negb (is_empty (o_socks5_user a)) && is_empty (trim_space (o_socks5_user a))) BlankUser;;
  _ <-- fail_if (255 <? strlen (o_socks5_user a)) LongUser;;
  _ <-- fail_if (255 <? strlen pass) (LongPassword source);;
  _ <-- fail_if (o_4 a && o_6 a) BothFamilies;;
  _ <-- check_endpoint (o_endpoint a);;
  _ <-- fail_if (o_turn a && negb (is_empty (o_endpoint a))) TurnWithEndpoint;;
  invite <-- check_session a e;;
  configuredMTU <-- with_error BadMTU (resolveConfiguredMTU (o_mtu a) (TELEPORT_MTU e));;
  tcpCC <-- with_error BadCongestionControl (resolveTCPCongestionControl (TELEPORT_TCP_CONGESTION_CONTROL e));;
  Ok {| c_invite := invite; c_name := o_name a; c_endpointOverride := o_endpoint a; c_forceTurn := o_turn a;
        c_printConfig := o_print_config a; c_socks5Addr := o_socks5 a; c_socks5User := o_socks5_user a;
        c_socks5Pass := pass; c_family := chosen_family a; c_debug := o_debug a; c_sessionFile := o_session_file a;
        c_mtu := configuredMTU; c_tcpCongestionControl := tcpCC |}.

(** ** main

    The exit status: [profile] is the error of starting the CPU profile, when one
    is asked for. *)
Definition main (parsed : result usage_err cliFlags) (profile : option string)
    (run : cliFlags -> option Client.Client.client_err) : Z :=
  match parsed with
  | Err _ => 2
  | Ok flags =>
      match profile with
      | Some _ => 1
      | None =>
          match run flags with
          | Some err => if Client.Client.is_canceled (Some err) then 0 else 1
          | None => 0
          end
      end
  end.

End tables.

(** ** Properties *)

Lemma fail_if_ok b e : fail_if b e = Ok tt <-> b = false.
Proof. by destruct b. Qed.

Lemma bind_ok {E A B} (r : result E A) (k : A -> result E B) b :
  result_bind r k = Ok b <-> exists a, r = Ok a /\ k a = Ok b.
Proof.
  destruct r as [a|e]; cbn; [split; [intros; by exists a|by intros (? & [= <-] & ?)]|split; [done|by intros (? & ? & _)]].
Qed.

Lemma with_error_ok {E E' A} (f : E -> E') (r : result E A) a : with_error f r = Ok a <-> r = Ok a.
Proof. destruct r; cbn; split; by intros [= ->]. Qed.

(** What every configuration the client runs with satisfies. *)
Record well_formed (f : cliFlags) : Prop := {
  wf_name : trim_space (c_name f) <> EmptyString /\ strlen (c_name f) <= 128;
  wf_socks : listenable (c_socks5Addr f);
  wf_credentials : (c_socks5User f = EmptyString <-> c_socks5Pass f = EmptyString)
    /\ (c_socks5User f <> EmptyString -> trim_space (c_socks5User f) <> EmptyString)
    /\ strlen (c_socks5User f) <= 255 /\ strlen (c_socks5Pass f) <= 255;
  wf_endpoint : c_endpointOverride f = EmptyString \/ listenable (c_endpointOverride f) /\ c_forceTurn f = false;
  wf_session : (Invite.Invite.uuid_text GoCodec.is_lower_hex (c_invite f))
    \/ c_invite f = EmptyString /\ c_sessionFile f <> EmptyString;
  wf_mtu : c_mtu f = 0 \/ 1280 <= c_mtu f <= 1500;
  wf_congestion : c_tcpCongestionControl f ∈ [""; "reno"; "cubic"]%string;
}.
Lemma check_endpoint_ok endpoint : check_endpoint endpoint = Ok tt <-> endpoint = EmptyString \/ listenable endpoint.
Proof.
  unfold check_endpoint, is_empty. case_bool_decide as He; [split; [by left|done]|].
  rewrite <- validate_iff. unfold validateSocks5Addr. destruct (split_host_port endpoint) as [[host port]|]; [|by split; [|intros [?|?]]].
  case_bool_decide; [by split; [|intros [?|?]]|]. destruct (validatePort port); cbn; [split; [by right|done]|].
  by split; [|intros [?|?]].
Qed.

Lemma check_session_ok a e s : check_session a e = Ok s ->
  Invite.Invite.uuid_text GoCodec.is_lower_hex s \/ s = EmptyString /\ o_session_file a <> EmptyString.
Proof.
  unfold check_session, is_empty. case_bool_decide as Hi; cbn [negb].
  - case_bool_decide; [done|]. destruct (stat e); [done..|]. intros [= <-]. by right.
  - destruct (Invite.Invite.normalizeInviteSecret (o_invite a)) as [p|] eqn:E; [|done]. intros [= <-].
    left. by destruct (Invite.Invite.invite_normal _ _ E).
Qed.

Lemma congestion_ok `{UnicodeTables} v s : resolveTCPCongestionControl v = Ok s -> s ∈ [""; "reno"; "cubic"]%string.
Proof.
  unfold resolveTCPCongestionControl. case_bool_decide; [intros [= <-]; by left|].
  destruct (bool_decide (_ = "reno"%string)) eqn:E1; [|destruct (bool_decide (_ = "cubic"%string)) eqn:E2]; cbn [orb]; [| |done];
    intros [= <-]; [apply bool_decide_eq_true in E1 as ->|apply bool_decide_eq_true in E2 as ->]; set_solver.
Qed.

Lemma configured_mtu_ok cli env v : resolveConfiguredMTU cli env = Ok v -> v = 0 \/ 1280 <= v <= 1500.
Proof.
  unfold resolveConfiguredMTU, minConfiguredMTU, maxConfiguredMTU. intros Hv. repeat case_match; simplify_eq; try (by left).
  all: right; lia.
Qed.

Lemma same_empty s t : xorb (bool_decide (s = EmptyString)) (bool_decide (t = EmptyString)) = false
  <-> (s = EmptyString <-> t = EmptyString).
Proof.
  destruct (bool_decide_reflect (s = EmptyString)), (bool_decide_reflect (t = EmptyString)); cbn; split; try done; tauto.
Qed.

Section parsed.
Context `{UnicodeTables}.

(** Which password is used. *)
Lemma password_cases a e :
  (socks5_password a e).1 = (if decide (o_socks5_pass a = EmptyString /\ o_socks5_user a <> EmptyString)
                             then TELEPORT_SOCKS5_PASS e else o_socks5_pass a).
Proof.
  unfold socks5_password. case_decide as Hd.
  - destruct Hd as [Hp Hu]. rewrite bool_decide_true, (bool_decide_false (o_socks5_user a = EmptyString)) by done. cbn [andb negb].
    case_bool_decide as He; cbn [negb fst]; congruence.
  - destruct (bool_decide _ && _ && _) eqn:E; [|done]. exfalso. apply Hd.
    apply andb_true_iff in E as [E _]. apply andb_true_iff in E as [?%bool_decide_eq_true E].
    by apply negb_true_iff, bool_decide_eq_false in E.
Qed.

(** What the arguments must be: a check of its own for each complaint. *)
Record acceptable (a : arguments) (e : environment) : Prop := {
  ac_args : o_args a = [];
  ac_name : trim_space (o_name a) <> EmptyString /\ strlen (o_name a) <= 128;
  ac_socks : listenable (o_socks5 a);
  ac_pair : o_socks5_user a = EmptyString <-> (socks5_password a e).1 = EmptyString;
  ac_user : o_socks5_user a = EmptyString \/ trim_space (o_socks5_user a) <> EmptyString;
  ac_lengths : strlen (o_socks5_user a) <= 255 /\ strlen (socks5_password a e).1 <= 255;
  ac_family : o_4 a = false \/ o_6 a = false;
  ac_endpoint : o_endpoint a = EmptyString \/ listenable (o_endpoint a) /\ o_turn a = false;
  ac_session : exists s, check_session a e = Ok s;
  ac_mtu : exists v, resolveConfiguredMTU (o_mtu a) (TELEPORT_MTU e) = Ok v;
  ac_congestion : exists s, resolveTCPCongestionControl (TELEPORT_TCP_CONGESTION_CONTROL e) = Ok s;
}.

(** What is accepted, and as which configuration. *)
Lemma parsed a e f : parseFlags a e = Ok f ->
  acceptable a e
  /\ exists inv mtu cc, check_session a e = Ok inv /\ resolveConfiguredMTU (o_mtu a) (TELEPORT_MTU e) = Ok mtu
       /\ resolveTCPCongestionControl (TELEPORT_TCP_CONGESTION_CONTROL e) = Ok cc
       /\ f = {| c_invite := inv; c_name := o_name a; c_endpointOverride := o_endpoint a; c_forceTurn := o_turn a;
                 c_printConfig := o_print_config a; c_socks5Addr := o_socks5 a; c_socks5User := o_socks5_user a;
                 c_socks5Pass := (socks5_password a e).1; c_family := chosen_family a; c_debug := o_debug a;
                 c_sessionFile := o_session_file a; c_mtu := mtu; c_tcpCongestionControl := cc |}.
Proof.
  unfold parseFlags. intros ([] & Hargs%fail_if_ok & Hf)%bind_ok.
  apply bind_ok in Hf as ([] & Hname%fail_if_ok & Hf). apply bind_ok in Hf as ([] & Hlong%fail_if_ok & Hf).
  apply bind_ok in Hf as ([] & Hsocks%with_error_ok%validate_iff & Hf).
  destruct (socks5_password a e) as [pass source] eqn:Ep.
  apply bind_ok in Hf as ([] & Hone%fail_if_ok & Hf). apply bind_ok in Hf as ([] & Hblank%fail_if_ok & Hf).
  apply bind_ok in Hf as ([] & Huser%fail_if_ok & Hf). apply bind_ok in Hf as ([] & Hpass%fail_if_ok & Hf).
  apply bind_ok in Hf as ([] & Hfam%fail_if_ok & Hf). apply bind_ok in Hf as ([] & Hend%check_endpoint_ok & Hf).
  apply bind_ok in Hf as ([] & Hturn%fail_if_ok & Hf). apply bind_ok in Hf as (inv & Hinv & Hf).
  apply bind_ok in Hf as (mtu & Hmtu%with_error_ok & Hf). apply bind_ok in Hf as (cc & Hcc%with_error_ok & Hf).
  injection Hf as <-. unfold is_empty in *. apply bool_decide_eq_false in Hname. split.
  2:{ exists inv, mtu, cc. by split_and!. }
  constructor; rewrite ?Ep; cbn [fst]; eauto.
  - by apply negb_false_iff, Nat.eqb_eq, length_zero_iff_nil in Hargs.
  - split; [done|lia].
  - by apply same_empty.
  - destruct (decide (o_socks5_user a = EmptyString)) as [|Hne]; [by left|right].
    rewrite bool_decide_false in Hblank by done. by apply bool_decide_eq_false in Hblank.
  - lia.
  - destruct (o_4 a), (o_6 a); auto.
  - destruct Hend as [?|Hl]; [by left|]. right. split; [done|]. destruct (o_turn a); [|done].
    cbn [andb] in Hturn. apply negb_false_iff, bool_decide_eq_true in Hturn as Ht.
    rewrite Ht in Hl; destruct Hl as (? & ? & ? & Hs & _); by vm_compute in Hs.
Qed.

(** [C33] No ill-formed configuration gets past the command line. Whatever the
    arguments and the environment, a configuration that is accepted has a name
    that is not blank and of at most 128 bytes, a SOCKS5 address one can listen
    on, a user and a password together or neither, of at most 255 bytes and the
    user not blank, an endpoint of host and port or none and none in TURN-only
    mode, an invite in normal form or a session file, an MTU that is automatic or
    from 1280 to 1500, and a known congestion control. *)
Theorem flags_well_formed (a : arguments) (e : environment) (f : cliFlags) :
  parseFlags a e = Ok f -> well_formed f.
Proof.
  intros ([Hargs Hname Hsocks Hpair Huser Hlen Hfam Hend _ _ _] & inv & mtu & cc & Hinv & Hmtu & Hcc & ->)%parsed.
  constructor; cbn; try done.
  - split_and!; [done| |apply Hlen..]. intros Hne. by destruct Huser.
  - by eapply check_session_ok.
  - by eapply configured_mtu_ok.
  - by eapply congestion_ok.
Qed.

(** The command line is accepted exactly when each of its checks passes, and
    then every option goes into the configuration as given, with the invite
    normalised, the family from -4 and -6, and the password of the environment in
    place of a missing one when there is a user; a password in the environment
    alone never enables or breaks anything. *)
Theorem parse_flags_spec (a : arguments) (e : environment) :
  (is_ok (parseFlags a e) = true <-> acceptable a e)
  /\ (forall f, parseFlags a e = Ok f ->
        c_name f = o_name a /\ c_endpointOverride f = o_endpoint a /\ c_forceTurn f = o_turn a
        /\ c_printConfig f = o_print_config a /\ c_socks5Addr f = o_socks5 a /\ c_socks5User f = o_socks5_user a
        /\ c_debug f = o_debug a /\ c_sessionFile f = o_session_file a
        /\ (c_family f = familyIPv4 <-> o_4 a = true) /\ (c_family f = familyIPv6 <-> o_6 a = true)
        /\ c_socks5Pass f = (if decide (o_socks5_pass a = EmptyString /\ o_socks5_user a <> EmptyString)
                             then TELEPORT_SOCKS5_PASS e else o_socks5_pass a)
        /\ check_session a e = Ok (c_invite f)
        /\ resolveConfiguredMTU (o_mtu a) (TELEPORT_MTU e) = Ok (c_mtu f)).
Proof.
  pose proof (password_cases a e) as Hpass. split.
  - split.
    + destruct (parseFlags a e) as [f|] eqn:Hf; [intros _|done]. by apply parsed in Hf as [? _].
    + intros [Hargs [Hn1 Hn2] Hsocks Hpair Huser [Hl1 Hl2] Hfam Hend [s Hs] [v Hv] [cc Hcc]].
      unfold parseFlags. destruct (socks5_password a e) as [pass source]. cbn in *.
      apply length_zero_iff_nil in Hargs. rewrite Hargs. cbn [Nat.eqb negb fail_if result_bind].
      unfold is_empty. rewrite (bool_decide_false (trim_space _ = _)) by done. cbn [fail_if result_bind].
      rewrite (proj2 (Z.ltb_ge 128 _)) by lia. cbn [fail_if result_bind].
      apply validate_iff in Hsocks. rewrite Hsocks. cbn [with_error result_bind].
      apply same_empty in Hpair. rewrite Hpair. cbn [fail_if result_bind].
      assert (negb (bool_decide (o_socks5_user a = EmptyString)) && bool_decide (trim_space (o_socks5_user a) = EmptyString) = false)
        as -> by (destruct Huser; [by rewrite bool_decide_true|by rewrite (bool_decide_false (trim_space _ = _)), andb_false_r by done]).
      cbn [fail_if result_bind]. rewrite (proj2 (Z.ltb_ge 255 (strlen (o_socks5_user a)))) by lia. cbn [fail_if result_bind].
      rewrite (proj2 (Z.ltb_ge 255 (strlen pass))) by lia. cbn [fail_if result_bind].
      assert (o_4 a && o_6 a = false) as -> by (destruct Hfam as [-> | ->]; by rewrite ?andb_false_r). cbn [fail_if result_bind].
      assert (check_endpoint (o_endpoint a) = Ok tt) as -> by (apply check_endpoint_ok; tauto). cbn [result_bind].
      assert (o_turn a && negb (bool_decide (o_endpoint a = EmptyString)) = false) as ->
        by (destruct Hend as [? |[_ ->]]; [by rewrite bool_decide_true, andb_false_r|done]).
      cbn [fail_if result_bind]. by rewrite Hs, Hv, Hcc.
  - intros f ([_ _ _ _ _ _ Hfam _ _ _ _] & inv & mtu & cc & Hinv & Hmtu & _ & ->)%parsed. cbn. split_and!; try done.
    + unfold chosen_family. by destruct (o_4 a), (o_6 a), Hfam.
    + unfold chosen_family. by destruct (o_4 a), (o_6 a), Hfam.
Qed.

End parsed.

(** *** Concrete runs *)

#[local] Instance ascii_only : UnicodeTables := {| lower_table := id |}.

Definition sample_arguments : arguments := {|
  o_invite := "https://teleport.ui.link/01234567-89AB-4def-8012-3456789abcde"; o_name := "laptop"; o_endpoint := "";
  o_turn := true; o_print_config := false; o_socks5 := "127.0.0.1:1080"; o_socks5_user := "alice"; o_socks5_pass := "";
  o_4 := true; o_6 := false; o_debug := false; o_session_file := "s.json"; o_mtu := 0; o_args := [] |}.

Definition sample_environment : environment := {|
  TELEPORT_SOCKS5_PASS := "pw"; TELEPORT_MTU := " 1400 "; TELEPORT_TCP_CONGESTION_CONTROL := "Cubic"; stat := StatFailed "" |}.

Lemma flags_well_formed_witness :
  exists f, parseFlags sample_arguments sample_environment = Ok f /\ well_formed f
    /\ c_socks5Pass f = "pw"%string /\ c_mtu f = 1400 /\ c_family f = familyIPv4.
Proof.
  destruct (parseFlags sample_arguments sample_environment) as [f|] eqn:Hf; [|by vm_compute in Hf].
  exists f. split; [done|]. split; [by apply (flags_well_formed sample_arguments sample_environment)|].
  vm_compute in Hf. by injection Hf as <-.
Defined.

(** A relative order of the checks: an argument is reported before a bad name. *)
Example first_complaint :
  parseFlags {| o_invite := ""; o_name := ""; o_endpoint := ""; o_turn := false; o_print_config := false; o_socks5 := "";
    o_socks5_user := ""; o_socks5_pass := ""; o_4 := true; o_6 := true; o_debug := false; o_session_file := ""; o_mtu := 7;
    o_args := ["x"%string] |} sample_environment = Err PositionalArguments.
Proof. by vm_compute. Qed.

End Cli.
