(* ===== verification/CommandLine.v ===== *)
(** The command line as text ([parseFlags] of [main.go]): the flags it defines,
    what they are set to by the arguments of the process, and whether the program
    starts, refuses or only shows its usage. *)

From S2P Require Import Prelude GoStrings GoFlag GoUrl Cli.
From Stdlib Require Import Ascii.
Open Scope Z_scope.

Import Cli.

Module CommandLine.

(** ** The flags *)

Definition text_flag (name : string) (put : string -> arguments -> arguments) : flag arguments :=
  {| flag_name := name; is_bool := false; set := fun v a => Some (put v a) |}.

Definition bool_flag (name : string) (put : bool -> arguments -> arguments) : flag arguments :=
  {| flag_name := name; is_bool := true; set := fun v a => b ← ParseBool v; Some (put b a) |}.

Definition int_flag (name : string) (put : Z -> arguments -> arguments) : flag arguments :=
  {| flag_name := name; is_bool := false; set := fun v a => n ← ParseInt v; Some (put n a) |}.

Definition formal : list (flag arguments) := [
  text_flag "invite" (fun v '(Build_arguments _ nm ep tu pc so us pa f4 f6 de se mt ar) => Build_arguments v nm ep tu pc so us pa f4 f6 de se mt ar);
  text_flag "name" (fun v '(Build_arguments iv _ ep tu pc so us pa f4 f6 de se mt ar) => Build_arguments iv v ep tu pc so us pa f4 f6 de se mt ar);
  text_flag "endpoint" (fun v '(Build_arguments iv nm _ tu pc so us pa f4 f6 de se mt ar) => Build_arguments iv nm v tu pc so us pa f4 f6 de se mt ar);
  bool_flag "turn" (fun v '(Build_arguments iv nm ep _ pc so us pa f4 f6 de se mt ar) => Build_arguments iv nm ep v pc so us pa f4 f6 de se mt ar);
  bool_flag "print-config" (fun v '(Build_arguments iv nm ep tu _ so us pa f4 f6 de se mt ar) => Build_arguments iv nm ep tu v so us pa f4 f6 de se mt ar);
  text_flag "socks5" (fun v '(Build_arguments iv nm ep tu pc _ us pa f4 f6 de se mt ar) => Build_arguments iv nm ep tu pc v us pa f4 f6 de se mt ar);
  text_flag "socks5-user" (fun v '(Build_arguments iv nm ep tu pc so _ pa f4 f6 de se mt ar) => Build_arguments iv nm ep tu pc so v pa f4 f6 de se mt ar);
  text_flag "socks5-pass" (fun v '(Build_arguments iv nm ep tu pc so us _ f4 f6 de se mt ar) => Build_arguments iv nm ep tu pc so us v f4 f6 de se mt ar);
  bool_flag "4" (fun v '(Build_arguments iv nm ep tu pc so us pa _ f6 de se mt ar) => Build_arguments iv nm ep tu pc so us pa v f6 de se mt ar);
  bool_flag "6" (fun v '(Build_arguments iv nm ep tu pc so us pa f4 _ de se mt ar) => Build_arguments iv nm ep tu pc so us pa f4 v de se mt ar);
  bool_flag "debug" (fun v '(Build_arguments iv nm ep tu pc so us pa f4 f6 _ se mt ar) => Build_arguments iv nm ep tu pc so us pa f4 f6 v se mt ar);
  text_flag "session-file" (fun v '(Build_arguments iv nm ep tu pc so us pa f4 f6 de _ mt ar) => Build_arguments iv nm ep tu pc so us pa f4 f6 de v mt ar);
  int_flag "mtu" (fun v '(Build_arguments iv nm ep tu pc so us pa f4 f6 de se _ ar) => Build_arguments iv nm ep tu pc so us pa f4 f6 de se v ar)
]%string.

(** The values before [flag.Parse]. *)
Definition defaults (hostname : result string string) : arguments := {|
  o_invite := ""; o_name := defaultClientName hostname; o_endpoint := ""; o_turn := false; o_print_config := false;
  o_socks5 := "127.0.0.1:1080"; o_socks5_user := ""; o_socks5_pass := ""; o_4 := false; o_6 := false; o_debug := false;
  o_session_file := "sessions/teleport-session.json"; o_mtu := 0; o_args := [] |}%string.

(** The other arguments, [flag.Args()]. *)
Definition with_args (a : arguments) (rest : list string) : arguments :=
  let '(Build_arguments iv nm ep tu pc so us pa f4 f6 de se mt _) := a in
  Build_arguments iv nm ep tu pc so us pa f4 f6 de se mt rest.

(** What [flag.Parse] reads of the arguments of the process, without its name. *)
Definition read_arguments (hostname : result string string) (argv : list string) : result flag_err arguments :=
  match parse formal (defaults hostname) argv with
  | Err e => Err e
  | Ok (a, rest) => Ok (with_args a rest)
  end.

(** How [parseFlags] ends: package [flag] exits with 0 after the usage it was asked
    for and with 2 after any other error, as [failUsage] does. *)
Inductive start : Type :=
| ShowUsage
| Refuse
| Start (flags : cliFlags).

Definition start_of `{UnicodeTables} (hostname : result string string) (argv : list string) (env : environment) : start :=
  match read_arguments hostname argv with
  | Err ErrHelp => ShowUsage
  | Err _ => Refuse
  | Ok a => match parseFlags a env with Ok flags => Start flags | Err _ => Refuse end
  end.

(** ** Specification: the command lines and their meaning

    By the names and defaults that the usage gives. *)
Inductive kind : Type := Text | Switch | Number.

#[global] Instance kind_eq_dec : EqDecision kind.
Proof. solve_decision. Defined.

Definition options : list (string * kind) :=
  [("invite", Text); ("name", Text); ("endpoint", Text); ("turn", Switch); ("print-config", Switch); ("socks5", Text);
   ("socks5-user", Text); ("socks5-pass", Text); ("4", Switch); ("6", Switch); ("debug", Switch); ("session-file", Text);
   ("mtu", Number)]%string.

(** The arguments give these options these values, in this order, and leave [rest]. *)
Inductive written : list string -> list (string * string) -> list string -> Prop :=
| written_end args rest : ends args rest -> written args [] rest
| written_joined d n k v args sets rest : dashes d -> (n, k) ∈ options -> written args sets rest ->
    written ((d ++ n ++ "=" ++ v)%string :: args) ((n, v) :: sets) rest
| written_switch d n args sets rest : dashes d -> (n, Switch) ∈ options -> written args sets rest ->
    written ((d ++ n)%string :: args) ((n, "true"%string) :: sets) rest
| written_separate d n k v args sets rest : dashes d -> (n, k) ∈ options -> k <> Switch -> written args sets rest ->
    written ((d ++ n)%string :: v :: args) ((n, v) :: sets) rest.

Definition acceptable (k : kind) (v : string) : Prop :=
  match k with Text => True | Switch => is_Some (ParseBool v) | Number => is_Some (ParseInt v) end.

(** The values given for a name, and the last of them or the default. *)
Definition given (n : string) (sets : list (string * string)) : list string :=
  omap (fun nv => if String.eqb nv.1 n then Some nv.2 else None) sets.
Definition last_or {A} (none : A) (vs : list A) : A := default none (last vs).

Definition meaning (hostname : result string string) (sets : list (string * string)) (rest : list string) : arguments := {|
  o_invite := last_or "" (given "invite" sets);
  o_name := last_or (defaultClientName hostname) (given "name" sets);
  o_endpoint := last_or "" (given "endpoint" sets);
  o_turn := last_or false (omap ParseBool (given "turn" sets));
  o_print_config := last_or false (omap ParseBool (given "print-config" sets));
  o_socks5 := last_or "127.0.0.1:1080" (given "socks5" sets);
  o_socks5_user := last_or "" (given "socks5-user" sets);
  o_socks5_pass := last_or "" (given "socks5-pass" sets);
  o_4 := last_or false (omap ParseBool (given "4" sets));
  o_6 := last_or false (omap ParseBool (given "6" sets));
  o_debug := last_or false (omap ParseBool (given "debug" sets));
  o_session_file := last_or "sessions/teleport-session.json" (given "session-file" sets);
  o_mtu := last_or 0 (omap ParseInt (given "mtu" sets));
  o_args := rest |}%string.

(** ** Properties *)

Lemma formal_well_defined : well_defined formal.
Proof.
  split.
  - repeat (apply Forall_cons; split; [by do 2 eexists; split; [reflexivity|]|]). by apply Forall_nil.
  - by apply (bool_decide_unpack _); vm_compute.
Qed.

(** What has been read and checked when the program starts. *)
Lemma start_parts `{UnicodeTables} hostname argv env flags : start_of hostname argv env = Start flags ->
  exists a, read_arguments hostname argv = Ok a /\ parseFlags a env = Ok flags /\ c_forceTurn flags = o_turn a.
Proof.
  unfold start_of. destruct (read_arguments hostname argv) as [a|[]] eqn:Ea; try done.
  destruct (parseFlags a env) as [f|] eqn:Ef; [|done]. intros [= ->]. exists a. split_and!; [done|done|].
  by destruct (parsed a env flags Ef) as (_ & inv & mtu & cc & _ & _ & _ & ->).
Qed.

(** The flags as they are defined are those options. *)
Definition defines (f : flag arguments) (o : string * kind) : Prop :=
  flag_name f = o.1 /\ is_bool f = bool_decide (o.2 = Switch).

Lemma formal_options : Forall2 defines formal options.
Proof. by repeat (constructor; [done|]). Qed.

Lemma option_of f : f ∈ formal -> exists k, (flag_name f, k) ∈ options /\ is_bool f = bool_decide (k = Switch).
Proof.
  intros (i & Hi)%list_elem_of_lookup. destruct (Forall2_lookup_l _ _ _ _ _ formal_options Hi) as ([n k] & Ho & Hn & Hb).
  cbn in Hn, Hb. exists k. rewrite Hn. split; [by eapply list_elem_of_lookup_2|done].
Qed.

Lemma flag_of n k : (n, k) ∈ options -> exists f, f ∈ formal /\ flag_name f = n /\ is_bool f = bool_decide (k = Switch).
Proof.
  intros (i & Hi)%list_elem_of_lookup. destruct (Forall2_lookup_r _ _ _ _ _ formal_options Hi) as (f & Hf & Hn & Hb).
  exists f. split_and!; [by eapply list_elem_of_lookup_2|done|done].
Qed.

Definition named_set (fv : flag arguments * string) : string * string := (flag_name fv.1, fv.2).

Lemma spells_written args sets rest : spells formal args sets rest -> written args (named_set <$> sets) rest.
Proof.
  induction 1 as [args rest He|d f v args sets rest Hd Hf _ IH|d f args sets rest Hd Hf Hb _ IH|d f v args sets rest Hd Hf Hb _ IH];
    [by constructor|..]; destruct (option_of f Hf) as (k & Hk & Hkb); rewrite fmap_cons.
  - by eapply written_joined.
  - rewrite Hb in Hkb. symmetry in Hkb. apply bool_decide_eq_true in Hkb as ->. by apply written_switch.
  - rewrite Hb in Hkb. symmetry in Hkb. apply bool_decide_eq_false in Hkb. by eapply written_separate.
Qed.

Lemma written_spells args nsets rest : written args nsets rest -> exists sets, spells formal args sets rest /\ named_set <$> sets = nsets.
Proof.
  induction 1 as [args rest He|d n k v args nsets rest Hd Hn _ IH|d n args nsets rest Hd Hn _ IH|d n k v args nsets rest Hd Hn Hk _ IH];
    [exists []; split; [by constructor|done]|..]; destruct IH as (sets & Hsp & <-);
    destruct (flag_of _ _ Hn) as (f & Hf & <- & Hb).
  - exists ((f, v) :: sets). split; [by constructor|done].
  - exists ((f, "true"%string) :: sets). split; [by constructor|done].
  - exists ((f, v) :: sets). rewrite bool_decide_false in Hb by done. split; [by constructor|done].
Qed.

Lemma spells_formal args sets rest : spells formal args sets rest -> Forall (fun fv => fv.1 ∈ formal) sets.
Proof. induction 1; by constructor. Qed.

(** What settings make of the values before them. *)
Definition settled (d : arguments) (sets : list (string * string)) : arguments := {|
  o_invite := last_or (o_invite d) (given "invite" sets); o_name := last_or (o_name d) (given "name" sets);
  o_endpoint := last_or (o_endpoint d) (given "endpoint" sets); o_turn := last_or (o_turn d) (omap ParseBool (given "turn" sets));
  o_print_config := last_or (o_print_config d) (omap ParseBool (given "print-config" sets));
  o_socks5 := last_or (o_socks5 d) (given "socks5" sets); o_socks5_user := last_or (o_socks5_user d) (given "socks5-user" sets);
  o_socks5_pass := last_or (o_socks5_pass d) (given "socks5-pass" sets); o_4 := last_or (o_4 d) (omap ParseBool (given "4" sets));
  o_6 := last_or (o_6 d) (omap ParseBool (given "6" sets)); o_debug := last_or (o_debug d) (omap ParseBool (given "debug" sets));
  o_session_file := last_or (o_session_file d) (given "session-file" sets);
  o_mtu := last_or (o_mtu d) (omap ParseInt (given "mtu" sets)); o_args := o_args d |}.

Lemma last_or_cons {A} (d v : A) vs : last_or d (v :: vs) = last_or v vs.
Proof. unfold last_or. rewrite last_cons. by destruct (last vs). Qed.

Definition accepted (nv : string * string) : Prop := forall k, (nv.1, k) ∈ options -> acceptable k nv.2.

Lemma options_unique n k k' : (n, k) ∈ options -> (n, k') ∈ options -> k' = k.
Proof.
  assert (NoDup options.*1) as Hnd by (apply (bool_decide_unpack _); by vm_compute).
  intros (i & Hi)%list_elem_of_lookup (j & Hj)%list_elem_of_lookup.
  assert (i = j) as <- by (eapply NoDup_lookup; [exact Hnd|rewrite list_lookup_fmap, Hi; done|rewrite list_lookup_fmap, Hj; done]).
  congruence.
Qed.

Lemma accepted_kind n k v : (n, k) ∈ options -> accepted (n, v) <-> acceptable k v.
Proof. intros Hn. split; [by intros Ha; apply Ha|]. intros Ha k' Hk'. by rewrite (options_unique n k k'). Qed.

(** One flag: it takes the acceptable values, and its field is the one it sets. *)
Lemma set_settled f v d sets : f ∈ formal ->
  match set f v d with
  | Some d' => accepted (flag_name f, v) /\ settled d' sets = settled d ((flag_name f, v) :: sets)
  | None => ~ accepted (flag_name f, v)
  end.
Proof.
  intros Hf. unfold formal in Hf.
  assert (forall n k, (n, k) ∈ options -> accepted (n, v) <-> acceptable k v) as Hacc by (intros; by apply accepted_kind).
  repeat (apply elem_of_cons in Hf as [->|Hf]); [..|by apply not_elem_of_nil in Hf];
    cbn [set text_flag bool_flag int_flag flag_name];
    match goal with
    | |- context [ParseBool v] => destruct (ParseBool v) as [b|] eqn:E; cbn [mbind option_bind];
        rewrite (Hacc _ Switch) by (apply (bool_decide_unpack _); by vm_compute); cbn [acceptable]; rewrite E
    | |- context [ParseInt v] => destruct (ParseInt v) as [n|] eqn:E; cbn [mbind option_bind];
        rewrite (Hacc _ Number) by (apply (bool_decide_unpack _); by vm_compute); cbn [acceptable]; rewrite E
    | |- _ => rewrite (Hacc _ Text) by (apply (bool_decide_unpack _); by vm_compute)
    end;
    first [by intros [] | split; [by cbn|]; destruct d; unfold settled, given; cbn -[ParseBool ParseInt last_or];
                          rewrite ?E; by rewrite last_or_cons].
Qed.

Lemma set_all_settled sets d : Forall (fun fv => fv.1 ∈ formal) sets ->
  match set_all sets d with
  | Some d' => Forall accepted (named_set <$> sets) /\ d' = settled d (named_set <$> sets)
  | None => ~ Forall accepted (named_set <$> sets)
  end.
Proof.
  intros Hf. revert d. induction Hf as [|[f v] sets Hf _ IH]; intros d; cbn [set_all]; [by destruct d|]. rewrite fmap_cons.
  pose proof (set_settled f v d (named_set <$> sets) Hf) as Hs. destruct (set f v d) as [d1|]; cbn [mbind option_bind].
  - specialize (IH d1). destruct (set_all sets d1) as [d'|]; rewrite Forall_cons; [|tauto].
    destruct Hs as [Ha Hs], IH as [IH ->]. split; [by split|exact Hs].
  - rewrite Forall_cons. tauto.
Qed.

(** [C17] What a command line means. The arguments of the process are accepted
    exactly when they are written by the grammar of flags: any of the thirteen
    options with one dash or two, the value after an equals sign or, unless the
    option is a switch, as the next argument, a switch alone for true, up to the
    first argument that is no flag or [--]; with every value of a switch a boolean
    and every value of --mtu a 64-bit integer, as [strconv] reads them. Then each
    option has the value it was given last, or its default: the empty text, no,
    zero, the host's name for --name, 127.0.0.1:1080 for --socks5 and the file
    sessions/teleport-session.json; and the rest are the other arguments. *)
Theorem command_line_spec (hostname : result string string) (argv : list string) (a : arguments) :
  read_arguments hostname argv = Ok a
  <-> exists sets rest, written argv sets rest
      /\ Forall (fun nv => forall k, (nv.1, k) ∈ options -> acceptable k nv.2) sets /\ a = meaning hostname sets rest.
Proof.
  assert (forall sets rest, with_args (settled (defaults hostname) sets) rest = meaning hostname sets rest) as Hm by done.
  unfold read_arguments. split.
  - destruct (parse formal _ argv) as [[a' rest]|e] eqn:E; [|done]. intros [= <-].
    apply (parse_sound formal (length argv)) in E as (sets & Hsp & Hs); [|exact formal_well_defined|done].
    pose proof (set_all_settled sets (defaults hostname) (spells_formal _ _ _ Hsp)) as Hset. rewrite Hs in Hset.
    destruct Hset as [Ha ->]. exists (named_set <$> sets), rest. split_and!; [by apply spells_written|done|apply Hm].
  - intros (nsets & rest & (sets & Hsp & <-)%written_spells & Ha & ->).
    pose proof (set_all_settled sets (defaults hostname) (spells_formal _ _ _ Hsp)) as Hset.
    destruct (set_all sets (defaults hostname)) as [a'|] eqn:Hs; [|done]. destruct Hset as [_ ->].
    by rewrite (parse_complete formal _ _ _ _ _ formal_well_defined Hsp Hs), Hm.
Qed.

(** A command line for any options: the text of each value. *)
Definition bool_text (b : bool) : string := if b then "true" else "false".

Definition texts (a : arguments) : list string :=
  [o_invite a; o_name a; o_endpoint a; bool_text (o_turn a); bool_text (o_print_config a); o_socks5 a; o_socks5_user a;
   o_socks5_pass a; bool_text (o_4 a); bool_text (o_6 a); bool_text (o_debug a); o_session_file a; itoa (o_mtu a)].

Definition spelled (a : arguments) : list string :=
  zip_with (fun f v => "--" ++ flag_name f ++ "=" ++ v)%string formal (texts a) ++ "--"%string :: o_args a.

Lemma spells_zip (fs : list (flag arguments)) vs rest : (forall f, f ∈ fs -> f ∈ formal) ->
  spells formal (zip_with (fun f v => "--" ++ flag_name f ++ "=" ++ v)%string fs vs ++ "--"%string :: rest) (zip fs vs) rest.
Proof.
  revert vs. induction fs as [|f fs IH]; intros vs Hfs; [constructor; by right; left|].
  destruct vs as [|v vs]; [constructor; by right; left|]. cbn [zip_with app].
  constructor; [by right|by apply Hfs; left|]. apply IH. intros g Hg. apply Hfs. by right.
Qed.

Lemma ParseBool_text b : ParseBool (bool_text b) = Some b.
Proof. by destruct b. Qed.

Lemma set_texts a d : in_int64 (o_mtu a) -> exists a', set_all (zip formal (texts a)) d = Some a' /\ with_args a' (o_args a) = a.
Proof.
  intros Hm. destruct a, d. unfold formal, texts. cbn [zip zip_with set_all set text_flag bool_flag int_flag].
  cbn [o_invite o_name o_endpoint o_turn o_print_config o_socks5 o_socks5_user o_socks5_pass o_4 o_6 o_debug o_session_file o_mtu o_args] in *.
  rewrite !ParseBool_text, ParseInt_itoa by done. cbn. by eexists.
Qed.

(** [C18] Every configuration can be asked for. Whatever texts, switches, MTU and
    other arguments are wanted, dashes and equals signs in them included, the
    command line that spells them is read back as exactly that, on any host. *)
Theorem command_line_round_trip (hostname : result string string) (a : arguments) :
  in_int64 (o_mtu a) -> read_arguments hostname (spelled a) = Ok a.
Proof.
  intros Hm. destruct (set_texts a (defaults hostname) Hm) as (a' & Hs & Ha).
  unfold read_arguments, spelled.
  by rewrite (parse_complete formal _ _ _ _ _ formal_well_defined (spells_zip formal _ (o_args a) (fun f Hf => Hf)) Hs), Ha.
Qed.

(** *** Concrete command lines *)

Definition asked : list string :=
  ["-turn"; "--invite"; "01234567-89AB-4def-8012-3456789abcde"; "-socks5-user=a=b"; "--mtu=0x5_14"; "-4=T"; "--name"; "--debug"; "--"; "-x"]%string.

Example asked_reads :
  read_arguments (Err "no name"%string) asked
  = Ok {| o_invite := "01234567-89AB-4def-8012-3456789abcde"; o_name := "--debug"; o_endpoint := ""; o_turn := true;
          o_print_config := false; o_socks5 := "127.0.0.1:1080"; o_socks5_user := "a=b"; o_socks5_pass := ""; o_4 := true;
          o_6 := false; o_debug := false; o_session_file := "sessions/teleport-session.json"; o_mtu := 1300; o_args := ["-x"] |}%string
  /\ read_arguments (Ok "h"%string) ["-debug"; "--help"]%string = Err ErrHelp
  /\ read_arguments (Ok "h"%string) ["--6=no"]%string = Err (BadBoolean "no" "6")
  /\ read_arguments (Ok "h"%string) ["--debug"; "no"; "--mtu=x"]%string
     = read_arguments (Ok "h"%string) ["--debug"; "--"; "no"; "--mtu=x"]%string
  /\ read_arguments (Ok "h"%string) ["--mtu"]%string = Err (NeedsArgument "mtu").
Proof. by vm_compute. Qed.

Lemma command_line_round_trip_witness :
  read_arguments (Ok "h"%string) (spelled Cli.sample_arguments) = Ok Cli.sample_arguments
  /\ "--name=laptop"%string ∈ spelled Cli.sample_arguments.
Proof.
  split; [apply (command_line_round_trip (Ok "h"%string) Cli.sample_arguments); by vm_compute|].
  apply (bool_decide_unpack _). by vm_compute.
Defined.

End CommandLine.
