(* ===== verification/Conns.v ===== *)
(** Sockets in the network stack ([internal/tunnet/tun.go]): the functions that
    take Go's address types and dial or listen through those of [Device], and the
    ping connection with its deadline. *)

From S2P Require Import Prelude GoStrings GoNet GoTime Device.
Open Scope Z_scope.

Import Device.

Module Conns.

(** ** TCP and UDP *)

(** [netip.AddrFromSlice]: 4 bytes are an IPv4 address, 16 an IPv6 one, also when
    they stand for an IPv4 address; anything else is the zero address. *)
Definition addr_from_slice (ip : list Z) : addr :=
  if (length ip =? 4)%nat then Addr4 ip
  else if (length ip =? 16)%nat then Addr6 ip EmptyString
  else AddrZero.

(** A [*net.TCPAddr] or [*net.UDPAddr], nil or its bytes and port, as an
    [AddrPort]; the port is cut to 16 bits. *)
Definition addr_port (a : option (list Z * Z)) : addr * Z :=
  match a with
  | None => (AddrZero, 0)
  | Some (ip, port) => (addr_from_slice ip, port mod 2 ^ 16)
  end.

(** What gVisor is asked to dial, or to listen on. *)
Definition DialContextTCPAddrPort (a : addr * Z) : FullAddress * protocol := convertToFullAddr a.
Definition DialContextTCP (a : option (list Z * Z)) : FullAddress * protocol := DialContextTCPAddrPort (addr_port a).
Definition DialTCPAddrPort (a : addr * Z) : FullAddress * protocol := convertToFullAddr a.
Definition DialTCP (a : option (list Z * Z)) : FullAddress * protocol := DialTCPAddrPort (addr_port a).
Definition ListenTCPAddrPort (a : addr * Z) : FullAddress * protocol := convertToFullAddr a.
Definition ListenTCP (a : option (list Z * Z)) : FullAddress * protocol := ListenTCPAddrPort (addr_port a).

Definition ListenUDPAddrPort (laddr : addr * Z) : option FullAddress * option FullAddress * protocol :=
  DialUDPAddrPort laddr (AddrZero, 0).

Definition DialUDP (laddr raddr : option (list Z * Z)) : option FullAddress * option FullAddress * protocol :=
  DialUDPAddrPort (addr_port laddr) (addr_port raddr).

Definition ListenUDP (laddr : option (list Z * Z)) : option FullAddress * option FullAddress * protocol :=
  DialUDP laddr None.

(** ** The device's small methods *)

Definition Name (d : netTun) : string * option string := ("go"%string, None).

(** There is no file: [None]. *)
Definition File (d : netTun) : option Z := None.

Definition Events (d : netTun) : list tun_event := events d.

(** [Net.SetMTU], on the same object as the device's. *)
Definition net_SetMTU (d : netTun) (m : Z) (nic : option string) : option (netTun * option string) := SetMTU d m nic.

(** ** Ping *)

(** [PingAddr.Network]. *)
Definition Network (ia : addr) : string :=
  if addr_is4 ia then "ping4" else if addr_is6 ia then "ping6" else "ping".

(** [PingAddr] is its address. *)
Definition PingAddrFromAddr (a : addr) : addr := a.
Definition ping_addr_String (ia : addr) : string := addr_string ia.

Definition ListenPingAddr (fails : ping_call -> option string) (laddr : addr) : result ping_err PingConn :=
  DialPingAddr fails laddr AddrZero.

(** A nil [*PingAddr] is the zero address. *)
Definition DialPing (fails : ping_call -> option string) (laddr raddr : option addr) : result ping_err PingConn :=
  DialPingAddr fails (default AddrZero laddr) (default AddrZero raddr).

Definition ListenPing (fails : ping_call -> option string) (laddr : option addr) : result ping_err PingConn :=
  ListenPingAddr fails (default AddrZero laddr).

(** A connection with its timer, [None] while it is stopped, else the time left
    when it was set, and whether the endpoint is closed. *)
Record open_ping := { conn : PingConn; deadline : option Z; ep_closed : bool }.

(** [DialPingAddr] stops the timer it makes. *)
Definition opened (pc : PingConn) : open_ping := {| conn := pc; deadline := None; ep_closed := false |}.

Definition SetReadDeadline (now t : time) (c : open_ping) : open_ping :=
  {| conn := conn c; deadline := Some (time_sub t now); ep_closed := ep_closed c |}.

Definition SetWriteDeadline (c : open_ping) : open_ping * option string := (c, Some "not implemented"%string).

(** Only the read deadline is set. *)
Definition SetDeadline (now t : time) (c : open_ping) : open_ping := SetReadDeadline now t c.

Definition Close (c : open_ping) : open_ping :=
  {| conn := conn c; deadline := Some 0; ep_closed := true |}.

Definition LocalAddr (c : open_ping) : addr := ping_laddr (conn c).
Definition RemoteAddr (c : open_ping) : addr := ping_raddr (conn c).

(** [Write] goes to the remote address of the connection. *)
Definition PingWrite (c : open_ping) (p : string) (writes : FullAddress -> result string Z) : result ping_err Z :=
  WriteTo (conn c) p (Some (ping_raddr (conn c))) writes.

(** What ends the wait of [ReadFrom]; the timer can fire only when it is set. *)
Inductive ping_wakeup : Type :=
| TimerFires
| Notified.

Definition can_wake (c : open_ping) (wake : ping_wakeup) : bool :=
  match wake with TimerFires => bool_decide (is_Some (deadline c)) | Notified => true end.

Inductive read_err : Type :=
| DeadlineExceeded
| PingReadFailed (e : string).

(** [ep_read] is the read of the endpoint, into so many bytes: the data, with no
    more bytes than that, and the sender's. *)
Definition ReadFrom (wake : ping_wakeup) (ep_read : nat -> result string (string * list Z)) (buflen : nat)
  : result read_err (nat * addr) :=
  match wake with
  | TimerFires => Err DeadlineExceeded
  | Notified =>
      match ep_read buflen with
      | Err e => Err (PingReadFailed e)
      | Ok (data, remote) => Ok (String.length data, addr_from_slice remote)
      end
  end.

Definition PingRead (wake : ping_wakeup) (ep_read : nat -> result string (string * list Z)) (buflen : nat)
  : result read_err nat :=
  match ReadFrom wake ep_read buflen with Ok (n, _) => Ok n | Err e => Err e end.

(** ** Properties *)

(** Every way of dialling and listening asks gVisor for what the address given
    says. The bytes and the port go through unchanged, for a port within 16 bits;
    the protocol is that of the form of the bytes, so IPv6 for an IPv4 address in
    16 bytes, as [net.ParseIP] returns it; dialling UDP gives gVisor no local
    address, listening no remote one; nothing at all is given for a nil address. *)
Theorem wrappers_spec (ip : list Z) (port : Z) :
  length ip = 4%nat \/ length ip = 16%nat -> 0 <= port < 2 ^ 16 ->
  let fa := {| NIC := 1; Addr := addr_from_slice ip; Port := port |} in
  let pn := if (length ip =? 4)%nat then IPv4 else IPv6 in
  Forall (fun f => f (Some (ip, port)) = (fa, pn)) [DialTCP; DialContextTCP; ListenTCP]
  /\ DialUDP None (Some (ip, port)) = (None, Some fa, pn)
  /\ ListenUDP (Some (ip, port)) = (Some fa, None, pn)
  /\ DialUDP None None = (None, None, NoProtocol).
Proof.
  intros Hl Hp fa pn.
  assert (addr_port (Some (ip, port)) = (addr_from_slice ip, port)) as Ha by (cbn; by rewrite Z.mod_small).
  assert (convertToFullAddr (addr_from_slice ip, port) = (fa, pn)) as Hc
    by (unfold convertToFullAddr, fa, pn, addr_from_slice; destruct Hl as [-> | ->]; done).
  assert (is_valid (addr_from_slice ip) = true) as Hv by (unfold addr_from_slice; destruct Hl as [-> | ->]; done).
  split_and!; [|unfold ListenUDP, DialUDP, DialUDPAddrPort; rewrite Ha; cbn [fst snd addr_port]; by rewrite Hv, Hc..|done].
  repeat constructor; unfold DialTCP, DialContextTCP, ListenTCP, DialTCPAddrPort, DialContextTCPAddrPort, ListenTCPAddrPort;
    by rewrite Ha.
Qed.

(** A ping connection keeps to its peer and to its deadline. One that was dialled
    writes to the address it was dialled to; a listening one, which has no remote
    address, writes nowhere with [Write]; a read without a deadline ends only
    with a packet, and then reports its length and its sender; and closing wakes a
    read that waits. *)
Theorem ping_conn_spec (fails : ping_call -> option string) (ra la : addr) (c l : PingConn) :
  ra <> AddrZero ->
  DialPing fails None (Some ra) = Ok c -> ListenPing fails (Some la) = Ok l ->
  (forall p writes n, PingWrite (opened c) p writes = Ok n <-> writes {| NIC := 1; Addr := ra; Port := 0 |} = Ok n)
  /\ (forall p writes, PingWrite (opened l) p writes = Err PingMismatched)
  /\ (forall wake, can_wake (opened c) wake = true -> wake = Notified)
  /\ (forall ep_read buflen n from, ReadFrom Notified ep_read buflen = Ok (n, from) <->
        exists data remote, ep_read buflen = Ok (data, remote) /\ n = String.length data /\ from = addr_from_slice remote)
  /\ (forall wake, can_wake (Close (opened c)) wake = true)
  /\ forall ep_read buflen, PingRead TimerFires ep_read buflen = Err DeadlineExceeded.
Proof.
  intros Hra Hd Hl.
  assert (c = {| ping_laddr := if addr_is6 ra then Addr6 (replicate 16 0) EmptyString else Addr4 [0; 0; 0; 0]; ping_raddr := ra |}) as ->.
  { unfold DialPing, DialPingAddr in Hd. destruct ra as [|b|b z]; [done|..]; cbn -[ping_perform] in Hd;
      (destruct (ping_perform _ _) as [[? ?]|]; [done|by injection Hd as <-]). }
  assert (ping_raddr l = AddrZero) as Hz.
  { unfold ListenPing, ListenPingAddr, DialPingAddr in Hl. destruct (negb _ && _); [done|].
    destruct (ping_perform _ _) as [[? ?]|]; [done|]. by injection Hl as <-. }
  split_and!.
  - intros p writes n. unfold PingWrite, WriteTo. cbn [opened conn ping_raddr ping_laddr].
    destruct ra as [|b|b z]; [done| |]; cbn [addr_is4 addr_is6 andb orb negb convertToFullAddr fst snd];
      destruct (writes _); split; by intros [= ->].
  - intros p writes. unfold PingWrite, WriteTo. cbn [opened conn]. by rewrite Hz.
  - by intros [].
  - intros ep_read buflen n from. unfold ReadFrom. destruct (ep_read buflen) as [[data remote]|e]; split.
    + intros [= <- <-]. by exists data, remote.
    + by intros (d & r & [= -> ->] & -> & ->).
    + done.
    + by intros (d & r & ? & _).
  - by intros [].
  - done.
Qed.

(** *** Concrete runs *)

(** The echo server's address as [net.ParseIP] gives it: an IPv6 socket for an
    IPv4 address. *)
Lemma wrappers_spec_witness :
  DialUDP None (Some (v4_16 10 0 0 1, 7))
  = (None, Some {| NIC := 1; Addr := Addr6 (v4_16 10 0 0 1) EmptyString; Port := 7 |}, IPv6).
Proof. destruct (wrappers_spec (v4_16 10 0 0 1) 7) as (_ & H & _); [by right|lia|exact H]. Defined.

Lemma ping_conn_spec_witness :
  PingWrite (opened {| ping_laddr := Addr4 [0; 0; 0; 0]; ping_raddr := Addr4 [10; 0; 0; 1] |}) "x" (fun _ => Ok 1) = Ok 1.
Proof.
  destruct (ping_conn_spec (fun _ => None) (Addr4 [10; 0; 0; 1]) (Addr4 [10; 0; 0; 2])
    {| ping_laddr := Addr4 [0; 0; 0; 0]; ping_raddr := Addr4 [10; 0; 0; 1] |}
    {| ping_laddr := Addr4 [10; 0; 0; 2]; ping_raddr := AddrZero |}) as (H & _); [done..|].
  by apply H.
Defined.

End Conns.
