(* ===== verification/Tunnel.v ===== *)
(** Bringing up a tunnel and taking it down ([runTunnel] of [tunnel.go]): keys,
    addresses and MTU, the stack, the device and its configuration, the workers
    and the proxy around the supervision, and the deferred calls. *)

From S2P Require Import Prelude Lists GoStrings GoNet GoTime GoCodec PeerMTU TunnelMTU Keys Endpoints Supervisor Device.
From S2P Require Import Dns Dial Socks.
From Stdlib Require Import Ascii.
Open Scope Z_scope.

Import Prober MTU Keys Stats Supervisor Device Socks.

Module Tunnel.

(** ** Parameters and environment *)

Record tunnelParams := {
  priv : string;
  port : Z;
  endpoint : string;
  info : serverInfo;
  clientIP : string;
  dnsAddrs : list string;
  socks5Addr : string;
  auth : socks5Auth;
  candidateQueue : list string;
  configured_mtu : Z;
  tcpCongestionControl : string;
}.

(** What the calls give: resolving the endpoint, the host's routes and interfaces,
    the stack, [IpcSet], [Up] and [Listen] with their errors, the device's
    statistics when supervision starts and what happens from then on. *)
Record tunnel_env := {
  t_resolve : string -> result string UDPAddr;
  t_host : host_env;
  t_stack : stack_call -> option string;
  t_ipc : string -> option string;
  t_up : option string;
  t_listen : option string;
  t_stats : wireGuardPeerStats;
  t_events : list sup_event;
}.

Inductive action : Type :=
| Stack (c : stack_call)
| NewDevice (d : netTun)
| IpcSet (text : string)
| Up
| StartRetry (from : string) (queue : list string)
| StartPinger (p : peerMTUProber)
| StartProxy (p : proxy)
| Supervision (a : sup_action) (known : list string)
| CloseProxy
| StopWorkers
| CloseDevice.

Inductive tunnel_err : Type :=
| BadPrivateKey (e : key_err)
| BadPeerKey (e : key_err)
| BadEndpoint (e : string)
| NoNetwork (e : stack_call * string)
| IpcFailed (e : string)
| UpFailed (e : string)
| NoProxy (e : start_err)
| Ended (v : verdict).

(** ** Set-up *)

Definition device_addresses (p : tunnelParams) : list addr :=
  omap (fun s => if bool_decide (s = EmptyString) then None else parse_addr s) [TunnelAddr (info p); clientIP p].

Definition dns_servers (p : tunnelParams) : list addr := omap parse_addr (dnsAddrs p).

(** The MTU the stack starts with, and the ceiling of the search. *)
Definition tunnel_mtus (p : tunnelParams) (e : tunnel_env) (ep : UDPAddr) : Z * Z :=
  if configured_mtu p =? 0 then (baseTunnelMTU, discoverPathMTU (t_host e) (Some ep))
  else (configured_mtu p, configured_mtu p).

Definition udp_text (a : UDPAddr) : string := udp_addr_string (IP a) (Zone a) (GoNet.Port a).

Definition ipc_text (privHex : string) (listen_port : Z) (peerPubHex epStr : string) : string :=
  ("private_key=" ++ privHex ++ line_break ++ "listen_port=" ++ itoa listen_port ++ line_break
   ++ "public_key=" ++ peerPubHex ++ line_break ++ "endpoint=" ++ epStr ++ line_break
   ++ "persistent_keepalive_interval=25" ++ line_break ++ "allowed_ip=0.0.0.0/0" ++ line_break
   ++ "allowed_ip=::/0" ++ line_break)%string.

(** ** Teardown: the deferred calls, the last deferred first *)

Definition close_device (acts : list action) : list action := acts ++ [StopWorkers; CloseDevice].

(** The supervision, between the start of the proxy and its close. *)
Definition supervised (p : tunnelParams) (e : tunnel_env) : list action * option tunnel_err :=
  let known := endpoint p :: candidateQueue p in
  let '(r, acts) := supervise (t_stats e) (t_events e) in
  let acts := (fun a => Supervision a known) <$> acts in
  match r with
  | Return v => (close_device (acts ++ [CloseProxy]), Some (Ended v))
  | Continue _ => (acts, None)
  end.

(** With the workers running. *)
Definition with_workers (p : tunnelParams) (e : tunnel_env) : list action * option tunnel_err :=
  match startSocks5Proxy (socks5Addr p) (auth p) true (t_listen e) with
  | Err err => (close_device [], Some (NoProxy err))
  | Ok proxy => let '(acts, r) := supervised p e in (StartProxy proxy :: acts, r)
  end.

(** With the device created. *)
Definition with_device (p : tunnelParams) (e : tunnel_env) (privHex peerPubHex : string) (ep : UDPAddr)
  : list action * option tunnel_err :=
  let ipc := ipc_text privHex (port p) peerPubHex (udp_text ep) in
  match t_ipc e ipc with
  | Some err => (close_device [IpcSet ipc], Some (IpcFailed err))
  | None =>
      match t_up e with
      | Some err => (close_device [IpcSet ipc; Up], Some (UpFailed err))
      | None =>
          let '(initialMTU, maxTargetMTU) := tunnel_mtus p e ep in
          let '(acts, r) := with_workers p e in
          ([IpcSet ipc; Up; StartRetry (endpoint p) (candidateQueue p);
            StartPinger (newPeerMTUProber initialMTU maxTargetMTU (configured_mtu p))] ++ acts, r)
      end
  end.

Section gvisor.
Context `{Gvisor}.

(** The result is [None] while the tunnel is up. *)
Definition runTunnel (p : tunnelParams) (e : tunnel_env) : list action * option tunnel_err :=
  match b64KeyToHex (priv p) with
  | Err err => ([], Some (BadPrivateKey err))
  | Ok privHex =>
      match b64KeyToHex (WGPubKey (info p)) with
      | Err err => ([], Some (BadPeerKey err))
      | Ok peerPubHex =>
          match t_resolve e (endpoint p) with
          | Err err => ([], Some (BadEndpoint err))
          | Ok ep =>
              let initialMTU := (tunnel_mtus p e ep).1 in
              let tunOpts := if bool_decide (tcpCongestionControl p = EmptyString) then []
                             else [Some (WithCongestionControl (tcpCongestionControl p))] in
              let '(calls, r) := CreateNetTUN (t_stack e) (device_addresses p) (dns_servers p) initialMTU tunOpts in
              match r with
              | Err err => (Stack <$> calls, Some (NoNetwork err))
              | Ok d =>
                  let '(acts, res) := with_device p e privHex peerPubHex ep in
                  ((Stack <$> calls) ++ NewDevice d :: acts, res)
              end
          end
      end
  end.

End gvisor.

(** ** Resources

    How far the tunnel is up, and which actions are in order at each stage. *)
Inductive stage : Type :=
| NoDevice
| Created        (* the device is there *)
| Configured     (* it was given its configuration *)
| Live           (* it was brought up *)
| Retrying       (* the endpoint retries run *)
| Working        (* and so does the pinger *)
| Serving        (* and the proxy listens *)
| Stopped.       (* the workers are gone, the device not yet *)

#[global] Instance stage_eq_dec : EqDecision stage.
Proof. solve_decision. Defined.

Definition none : stage := NoDevice.
Definition running : stage := Serving.

Definition account1 (st : stage) (a : action) : option stage :=
  match a, st with
  | Stack _, NoDevice => Some NoDevice
  | NewDevice _, NoDevice => Some Created
  | IpcSet _, Created => Some Configured
  | Up, Configured => Some Live
  | StartRetry _ _, Live => Some Retrying
  | StartPinger _, Retrying => Some Working
  | StartProxy _, Working => Some Serving
  | Supervision _ _, Serving => Some Serving
  | CloseProxy, Serving => Some Working
  | StopWorkers, (Created | Configured | Live | Retrying | Working) => Some Stopped
  | CloseDevice, Stopped => Some NoDevice
  | _, _ => None
  end.

Fixpoint account (st : stage) (acts : list action) : option stage :=
  match acts with
  | [] => Some st
  | a :: acts' => st' ← account1 st a; account st' acts'
  end.

Lemma account_app st l1 l2 : account st (l1 ++ l2) = account st l1 ≫= fun st' => account st' l2.
Proof.
  revert st. induction l1 as [|a l1 IH]; intros st; [done|]. cbn [app account].
  destruct (account1 st a); cbn [mbind option_bind]; [apply IH|done].
Qed.

Lemma account_stack calls : account none (Stack <$> calls) = Some none.
Proof. induction calls as [|c calls IH]; [done|]. rewrite fmap_cons. cbn [account account1 none mbind option_bind]. apply IH. Qed.

Lemma account_supervision acts known : account Serving ((fun a => Supervision a known) <$> acts) = Some Serving.
Proof. induction acts as [|a acts IH]; [done|]. rewrite fmap_cons. cbn [account account1]. apply IH. Qed.

(** What is left: everything while the tunnel is up, nothing after. *)
Definition left_by (r : option tunnel_err) : stage := match r with None => running | Some _ => none end.

Lemma account_supervised p e :
  let '(acts, r) := supervised p e in account running acts = Some (left_by r).
Proof.
  unfold supervised. destruct (supervise (t_stats e) (t_events e)) as [[st|v] acts]; cbn [left_by].
  - by apply account_supervision.
  - unfold close_device. by rewrite <- app_assoc, account_app, account_supervision.
Qed.

Lemma account_workers p e : let '(acts, r) := with_workers p e in account Working acts = Some (left_by r).
Proof.
  unfold with_workers. destruct (startSocks5Proxy _ _ _ _) as [proxy|err]; [|done].
  pose proof (account_supervised p e) as Hs. by destruct (supervised p e).
Qed.

Lemma account_device p e privHex peerPubHex ep :
  let '(acts, r) := with_device p e privHex peerPubHex ep in account Created acts = Some (left_by r).
Proof.
  unfold with_device. destruct (t_ipc e _); [done|]. destruct (t_up e); [done|].
  destruct (tunnel_mtus p e ep) as [init ceil]. pose proof (account_workers p e) as Hw. by destruct (with_workers p e).
Qed.

(** Which actions start something that works on the device. *)
Definition starts (a : action) : Prop :=
  (exists from queue, a = StartRetry from queue) \/ (exists q, a = StartPinger q) \/ (exists x, a = StartProxy x).

Lemma supervised_teardown p e a : a ∈ (supervised p e).1 ->
  (exists s k, a = Supervision s k) \/ a ∈ [CloseProxy; StopWorkers; CloseDevice].
Proof.
  unfold supervised. destruct (supervise _ _) as [[st|v] sacts]; cbn [fst]; unfold close_device;
    rewrite ?elem_of_app, list_elem_of_fmap; set_solver.
Qed.

Lemma workers_kinds p e a : a ∈ (with_workers p e).1 ->
  (exists s k, a = Supervision s k) \/ (exists x, a = StartProxy x) \/ a ∈ [CloseProxy; StopWorkers; CloseDevice].
Proof.
  unfold with_workers. destruct (startSocks5Proxy _ _ _ _); [|cbn; set_solver].
  pose proof (supervised_teardown p e a) as Hs. destruct (supervised p e) as [sacts r']. cbn [fst] in *.
  intros [->|Hin]%elem_of_cons; [right; left; by eexists|]. destruct (Hs Hin) as [?|?]; auto.
Qed.

Lemma device_workers p e privHex peerPubHex ep :
  let '(acts, _) := with_device p e privHex peerPubHex ep in
  forall a, a ∈ acts -> starts a -> t_up e = None /\ forall text, IpcSet text ∈ acts -> t_ipc e text = None.
Proof.
  unfold with_device, starts. destruct (t_ipc e _) eqn:Ei.
  { unfold close_device. set_solver. }
  destruct (t_up e).
  { unfold close_device. set_solver. }
  destruct (tunnel_mtus p e ep) as [i c]. pose proof (workers_kinds p e) as Hw. destruct (with_workers p e) as [wacts r].
  cbn [fst] in Hw. intros a _ _. split; [done|]. intros text Ht. rewrite elem_of_app in Ht.
  destruct Ht as [Ht|Ht]; [set_solver|]. destruct (Hw _ Ht) as [(? & ? & ?)|[[? ?]|?]]; set_solver.
Qed.

Section properties.
Context `{Gvisor}.

Lemma account_run p e : let '(acts, r) := runTunnel p e in account none acts = Some (left_by r).
Proof.
  unfold runTunnel. destruct (b64KeyToHex (priv p)) as [privHex|]; [|done].
  destruct (b64KeyToHex (WGPubKey (info p))) as [peerPubHex|]; [|done].
  destruct (t_resolve e (endpoint p)) as [ep|]; [|done].
  destruct (CreateNetTUN _ _ _ _ _) as [calls [d|err]]; [|by rewrite account_stack].
  pose proof (account_device p e privHex peerPubHex ep) as Hd.
  destruct (with_device p e privHex peerPubHex ep) as [acts r].
  rewrite account_app, account_stack. cbn [mbind option_bind account account1 none]. exact Hd.
Qed.

(** [C20] A tunnel is brought up in order and taken down completely, whichever way
    it ends. The device is created once the stack is, configured, brought up; only
    then are the endpoint retries started, then the pinger, and then the proxy: no
    worker starts on a device that was not configured or is not up, nor after
    either of the two failed. A device that was created is closed once, after the
    proxy is closed and the workers have stopped; while the tunnel is up everything
    is there; and when it has ended, for whatever reason, nothing is. *)
Theorem tunnel_lifecycle (p : tunnelParams) (e : tunnel_env) :
  let '(acts, r) := runTunnel p e in
  account none acts = Some (match r with None => running | Some _ => none end)
  /\ (r = None -> exists d, NewDevice d ∈ acts)
  /\ (forall a, a ∈ acts -> starts a ->
       t_up e = None /\ forall text, IpcSet text ∈ acts -> t_ipc e text = None).
Proof.
  pose proof (account_run p e) as Ha. destruct (runTunnel p e) as [acts r] eqn:E. split; [exact Ha|]. revert E.
  unfold runTunnel. destruct (b64KeyToHex (priv p)) as [privHex|]; [|intros [= <- <-]; split; [done|set_solver]].
  destruct (b64KeyToHex (WGPubKey (info p))) as [peerPubHex|]; [|intros [= <- <-]; split; [done|set_solver]].
  destruct (t_resolve e (endpoint p)) as [ep|]; [|intros [= <- <-]; split; [done|set_solver]].
  destruct (CreateNetTUN _ _ _ _ _) as [calls [d|err]].
  2:{ intros [= <- <-]. split; [done|]. intros a (c & -> & _)%list_elem_of_fmap [(? & ? & ?)|[[? ?]|[? ?]]]; done. }
  pose proof (device_workers p e privHex peerPubHex ep) as Hw. destruct (with_device p e _ _ _) as [dacts res]. intros [= <- ->].
  split; [intros ->; exists d; rewrite elem_of_app; right; by left|].
  assert (forall x, x ∈ (Stack <$> calls) ++ NewDevice d :: dacts -> (exists c, x = Stack c) \/ x = NewDevice d \/ x ∈ dacts) as Hall.
  { intros x. rewrite elem_of_app, elem_of_cons, list_elem_of_fmap. naive_solver. }
  intros x [(c & ->)|[->|Hx]]%Hall Hk; [by destruct Hk as [(? & ? & ?)|[[? ?]|[? ?]]]..|]. destruct (Hw x Hx Hk) as [Hup Hipc]. split; [done|].
  intros text [(c & ?)|[?|Ht]]%Hall; [done..|]. by apply Hipc.
Qed.

(** The device and the workers of a run, and what they were made from. *)
Lemma run_parts p e acts r : runTunnel p e = (acts, r) ->
  (forall d, NewDevice d ∈ acts -> exists ep calls opts, t_resolve e (endpoint p) = Ok ep
     /\ CreateNetTUN (t_stack e) (device_addresses p) (dns_servers p) (tunnel_mtus p e ep).1 opts = (calls, Ok d))
  /\ (forall q, StartPinger q ∈ acts -> exists ep, t_resolve e (endpoint p) = Ok ep
     /\ q = newPeerMTUProber (tunnel_mtus p e ep).1 (tunnel_mtus p e ep).2 (configured_mtu p))
  /\ (forall text, IpcSet text ∈ acts -> exists ep privHex peerPubHex, t_resolve e (endpoint p) = Ok ep
     /\ b64KeyToHex (priv p) = Ok privHex /\ b64KeyToHex (WGPubKey (info p)) = Ok peerPubHex
     /\ text = ipc_text privHex (port p) peerPubHex (udp_text ep)).
Proof.
  unfold runTunnel. destruct (b64KeyToHex (priv p)) as [privHex|]; [|intros [= <- <-]; set_solver].
  destruct (b64KeyToHex (WGPubKey (info p))) as [peerPubHex|]; [|intros [= <- <-]; set_solver].
  destruct (t_resolve e (endpoint p)) as [ep|]; [|intros [= <- <-]; set_solver].
  destruct (CreateNetTUN _ _ _ _ _) as [calls [d|err]] eqn:Ec.
  2:{ intros [= <- <-]. split_and!; intros x (c & ? & _)%list_elem_of_fmap; done. }
  pose proof (workers_kinds p e) as Hw.
  destruct (with_device p e privHex peerPubHex ep) as [dacts res] eqn:Ed. intros [= <- <-].
  assert (forall a, a ∈ dacts -> a = IpcSet (ipc_text privHex (port p) peerPubHex (udp_text ep)) \/ a = Up
    \/ (exists f q, a = StartRetry f q)
    \/ a = StartPinger (newPeerMTUProber (tunnel_mtus p e ep).1 (tunnel_mtus p e ep).2 (configured_mtu p))
    \/ (exists s k, a = Supervision s k) \/ (exists x, a = StartProxy x) \/ a ∈ [CloseProxy; StopWorkers; CloseDevice]) as Hd.
  { intros a Hin. unfold with_device in Ed. destruct (t_ipc e _); [injection Ed as <- _; unfold close_device in Hin; set_solver|].
    destruct (t_up e); [injection Ed as <- _; unfold close_device in Hin; set_solver|].
    destruct (tunnel_mtus p e ep) as [i c]. destruct (with_workers p e) as [wacts r']. injection Ed as <- _.
    cbn [fst snd] in *. do 4 (apply elem_of_cons in Hin as [-> |Hin]; [eauto 10|]). destruct (Hw a Hin) as [?|[?|?]]; auto 10. }
  assert (forall a, a ∈ (Stack <$> calls) ++ NewDevice d :: dacts ->
    (exists c, a = Stack c) \/ a = NewDevice d \/ a ∈ dacts) as Hall.
  { intros a. rewrite elem_of_app, elem_of_cons, list_elem_of_fmap. naive_solver. }
  split_and!.
  - intros d' [(c & ?)|[[= ->]|Hin]]%Hall; [done|by eexists _, _, _|]. apply Hd in Hin. set_solver.
  - intros q [(c & ?)|[?|Hin]]%Hall; [done..|]. apply Hd in Hin. exists ep. split; [done|]. set_solver.
  - intros text [(c & ?)|[?|Hin]]%Hall; [done..|]. apply Hd in Hin. exists ep, privHex, peerPubHex. set_solver.
Qed.

(** [C21] Stack, prober and wire agree on the MTU. In every run the stack starts
    with the MTU the prober holds confirmed, within 1280 and 1500; a configured
    MTU is used as it is and never probed; and otherwise no probe the prober can
    ever ask for, with WireGuard's encapsulation, exceeds 1500 bytes or the wire
    MTU the host knows of for the endpoint. *)
Theorem tunnel_mtu_agrees (p : tunnelParams) (e : tunnel_env) (d : netTun) (q : peerMTUProber) :
  configured_mtu p = 0 \/ 1280 <= configured_mtu p <= 1500 -> sane_ifaces (t_host e) ->
  NewDevice d ∈ (runTunnel p e).1 -> StartPinger q ∈ (runTunnel p e).1 ->
  Device.MTU d = ConfirmedMTU q /\ 1280 <= Device.MTU d <= 1500
  /\ (configured_mtu p <> 0 -> ConfirmedMTU q = configured_mtu p /\ NextProbeMTU q = None)
  /\ (configured_mtu p = 0 -> exists ep, t_resolve e (endpoint p) = Ok ep
      /\ forall q' t, rtc step q q' -> NextProbeMTU q' = Some t ->
           t + wireGuardOverhead (Some ep) <= 1500
           /\ forall w, known_wire (t_host e) ep = Some w -> t + wireGuardOverhead (Some ep) <= w).
Proof.
  intros Hcfg Hs. destruct (runTunnel p e) as [acts r] eqn:E. cbn [fst].
  destruct (run_parts p e acts r E) as (Hdev & Hping & _). intros Hd Hq.
  destruct (Hdev d Hd) as (ep & calls & opts & Hep & Hc). destruct (Hping q Hq) as (ep' & Hep' & ->).
  rewrite Hep in Hep'. injection Hep' as <-.
  assert (1280 <= (tunnel_mtus p e ep).1 <= 1500) as Hinit.
  { unfold tunnel_mtus, baseTunnelMTU. destruct (Z.eqb_spec (configured_mtu p) 0); cbn [fst]; lia. }
  assert (mtu d = (tunnel_mtus p e ep).1) as Hm.
  { unfold CreateNetTUN in Hc. destruct (perform _ _) as [made [err|]]; [done|]. injection Hc as _ <-. cbn [mtu].
    unfold to_int32. rewrite Z.mod_small by lia. lia. }
  unfold Device.MTU. rewrite Hm. unfold tunnel_mtus in *. destruct (Z.eqb_spec (configured_mtu p) 0) as [H0|H0]; cbn [fst snd] in *.
  - rewrite H0. split_and!; try done.
    intros _. exists ep. split; [done|]. intros q' t Hr Hn.
    apply (probe_within_wire (t_host e) ep q' t Hs); [|done].
    refine (rtc_ind_r (fun x => reachable baseTunnelMTU (discoverPathMTU (t_host e) (Some ep)) 0 x) _ _ _ q' Hr).
    + apply reach_new.
    + intros x y _ Hst Hx. by eapply reach_step.
  - assert (1280 <= configured_mtu p <= 1500) as Hr by lia. unfold newPeerMTUProber.
    rewrite (proj2 (Z.ltb_lt 0 (configured_mtu p))) by lia. split_and!; try done; try lia.
Qed.

(** ** The device's configuration *)

(** What wireguard-go reads of the text. *)
Definition settings (own peer : list Z) (listen_port : Z) (ep : UDPAddr) : list (string * string) :=
  [("private_key", hex_encode own); ("listen_port", itoa listen_port); ("public_key", hex_encode peer);
   ("endpoint", udp_text ep); ("persistent_keepalive_interval", "25"); ("allowed_ip", "0.0.0.0/0");
   ("allowed_ip", "::/0")]%string.

(** A line break in the text of an address can only come from its zone. *)
Lemma hex_digit_no_newline d : 0 <= d < 16 -> GoNet.hex_digit d <> newline.
Proof.
  intros Hd He. pose proof (f_equal byte_of He) as Hb. change (byte_of newline) with 10 in Hb. unfold GoNet.hex_digit in Hb.
  destruct (Z.ltb_spec d 10); rewrite byte_of_of_byte in Hb; lia.
Qed.

Lemma hex16_no_newline x : no_newline_in (hex16 x).
Proof.
  assert (forall k, no_newline_in (chr (GoNet.hex_digit ((x / k) mod 16)))) as Hd.
  { intros k. apply has_byte_false. intros Hin. apply list_elem_of_singleton in Hin.
    by apply (hex_digit_no_newline ((x / k) mod 16)); [apply Z.mod_pos_bound; lia|]. }
  unfold hex16. repeat case_match; repeat apply no_newline_app; apply Hd.
Qed.

Lemma colon_hex_no_newline g : no_newline_in (colon_hex g).
Proof.
  apply not_true_iff_false. intros [?|(x & (y & -> & _)%list_elem_of_fmap & Hx)]%has_byte_concat; [done|].
  by rewrite hex16_no_newline in Hx.
Qed.

Lemma ip_string_no_newline ip : no_newline_in (ip_string ip).
Proof.
  unfold ip_string. destruct (to4 ip) as [b|]; [by apply v4_string_no_byte|].
  unfold v6_string. destruct (longest_zeros _ _ _) as [st l]. case_match; [apply colon_hex_no_newline|].
  repeat apply no_newline_app; first [done|apply colon_hex_no_newline].
Qed.

Lemma udp_text_newline a : no_newline_in (Zone a) -> no_newline_in (udp_text a).
Proof.
  intros Hz. assert (no_newline_in (match IP a with [] => EmptyString | _ => ip_string (IP a) end)) as Hip.
  { destruct (IP a); [done|]. apply ip_string_no_newline. }
  unfold udp_text, udp_addr_string. set (host := match IP a with [] => _ | _ => _ end) in *.
  assert (forall h, no_newline_in h -> no_newline_in (join_host_port h (itoa (GoNet.Port a)))) as Hj.
  { intros h Hh. unfold join_host_port. pose proof (itoa_no_newline (GoNet.Port a)).
    case_match; repeat apply no_newline_app; done. }
  destruct (Zone a); apply Hj; [done|]. by repeat apply no_newline_app.
Qed.

Lemma ipc_reads own peer listen_port ep :
  Forall is_byte own -> Forall is_byte peer -> no_newline_in (Zone ep) ->
  uapi_read (ipc_text (hex_encode own) listen_port (hex_encode peer) (udp_text ep)) = settings own peer listen_port ep.
Proof.
  intros Hob Hpb Hep%udp_text_newline. unfold uapi_read, ipc_text.
  assert (forall k v rest, no_newline_in k -> no_newline_in v ->
    split_byte newline (k ++ v ++ line_break ++ rest) = (k ++ v)%string :: split_byte newline rest) as Hline.
  { intros k v rest Hk Hv. rewrite <- append_assoc. apply (split_byte_mid newline (k ++ v) rest). by apply no_newline_app. }
  rewrite Hline by (done || by apply hex_no_newline). rewrite Hline by (done || apply itoa_no_newline).
  rewrite Hline by (done || by apply hex_no_newline). rewrite Hline by (done || exact Hep).
  change (split_byte newline ("persistent_keepalive_interval=25" ++ line_break ++ "allowed_ip=0.0.0.0/0" ++ line_break ++ "allowed_ip=::/0" ++ line_break))
    with ["persistent_keepalive_interval=25"; "allowed_ip=0.0.0.0/0"; "allowed_ip=::/0"; ""]%string.
  done.
Qed.

(** The device is configured with what was negotiated. In every run the text
    handed to the device has, in this order, the private key and the peer's key, as
    the bytes of their base64 texts, between them the port, and then the resolved
    endpoint, the keep-alive and the two default routes; no text of a key, whoever
    supplied it, can add a line. It sets just these, once each, unless the zone of
    the resolved endpoint has a line break. *)
Theorem device_configuration (p : tunnelParams) (e : tunnel_env) (text : string) :
  IpcSet text ∈ (runTunnel p e).1 ->
  exists ep own peer, t_resolve e (endpoint p) = Ok ep
    /\ b64_decode StdEncoding (priv p) = Some own /\ b64_decode StdEncoding (WGPubKey (info p)) = Some peer
    /\ length own = 32%nat /\ length peer = 32%nat
    /\ text = ipc_text (hex_encode own) (port p) (hex_encode peer) (udp_text ep)
    /\ (no_newline_in (Zone ep) -> uapi_read text = settings own peer (port p) ep).
Proof.
  intros Hin. destruct (runTunnel p e) as [acts r] eqn:E. destruct (run_parts p e acts r E) as (_ & _ & Hipc).
  destruct (Hipc text Hin) as (ep & privHex & peerHex & Hr & H1 & H2 & ->).
  apply b64KeyToHex_ok in H1 as (own & Ho & -> & Hol & Hob), H2 as (peer & Hp & -> & Hpl & Hpb).
  exists ep, own, peer. split_and!; try done. intros. by apply ipc_reads.
Qed.

End properties.

(** *** Concrete runs *)

#[local] Instance toy_gvisor : Gvisor :=
  {| MinBufferSize := 4096; DefaultSendBufferSize := 1048576; DefaultReceiveBufferSize := 1048576 |}.

Definition sample_key : string := b64_encode StdEncoding (replicate 32 7).

Definition sample_params : tunnelParams := {|
  priv := sample_key; port := 51820; endpoint := "203.0.113.5:5000";
  info := {| WGPubKey := sample_key; UDPEchoPort := 0; UDPEchoAddr := ""; TunnelMask := 0; TunnelAddr := "10.0.0.2" |};
  clientIP := ""; dnsAddrs := ["10.0.0.1"; "junk"]%string; socks5Addr := "127.0.0.1:1080";
  auth := {| user := ""; pass := "" |}; candidateQueue := []; configured_mtu := 0; tcpCongestionControl := "" |}.

Definition sample_env (evs : list sup_event) : tunnel_env := {|
  t_resolve := fun _ => Ok {| IP := [203; 0; 113; 5]; GoNet.Port := 5000; Zone := EmptyString |};
  t_host := example_env; t_stack := fun _ => None; t_ipc := fun _ => None; t_up := None; t_listen := None;
  t_stats := no_stats; t_events := evs |}.

(** The actions of a run that ends with the context, without the stack's calls. *)
Example sample_trace :
  let '(acts, r) := runTunnel sample_params (sample_env [LifecycleDone]) in
  r = Some (Ended Cancelled)
  /\ List.filter (fun a => match a with Stack _ | NewDevice _ | IpcSet _ | StartPinger _ | StartProxy _ => false | _ => true end) acts
     = [Up; StartRetry "203.0.113.5:5000" []; CloseProxy; StopWorkers; CloseDevice].
Proof. split; by vm_compute. Qed.

(** Actions of a run, picked out of it. *)
Definition pick_device (a : action) : option netTun := match a with NewDevice d => Some d | _ => None end.
Definition pick_prober (a : action) : option peerMTUProber := match a with StartPinger q => Some q | _ => None end.
Definition pick_text (a : action) : option string := match a with IpcSet t => Some t | _ => None end.

Definition sample_device : netTun :=
  {| mtu := 1280; ep_mtu := 1280; nic_mtu := 1280; events := [EventUp]; closed := false; dnsServers := [Addr4 [10; 0; 0; 1]];
     hasV4 := true; hasV6 := false |}.

Lemma tunnel_mtu_agrees_witness :
  Device.MTU sample_device = 1280
  /\ NewDevice sample_device ∈ (runTunnel sample_params (sample_env [])).1
  /\ ConfirmedMTU (newPeerMTUProber 1280 (discoverPathMTU example_env (Some {| IP := [203; 0; 113; 5]; GoNet.Port := 5000; Zone := EmptyString |})) 0) = 1280.
Proof.
  assert (NewDevice sample_device ∈ (runTunnel sample_params (sample_env [])).1) as Hd
    by (apply (picked pick_device NewDevice); [by intros [] ? [= ->]|by vm_compute]).
  assert (StartPinger (newPeerMTUProber 1280 (discoverPathMTU example_env (Some {| IP := [203; 0; 113; 5]; GoNet.Port := 5000; Zone := EmptyString |})) 0)
    ∈ (runTunnel sample_params (sample_env [])).1) as Hq
    by (apply (picked pick_prober StartPinger); [by intros [] ? [= ->]|by vm_compute]).
  destruct (tunnel_mtu_agrees sample_params (sample_env []) sample_device _ (or_introl eq_refl) example_env_sane Hd Hq) as (Hm & _).
  split; [by vm_compute|]. split; [exact Hd|]. rewrite <- Hm. by vm_compute.
Defined.

(** An endpoint whose zone has a line break puts a line of its own into the text
    given to the device. *)
Lemma zone_adds_a_line :
  let zone := ("eth0" ++ line_break ++ "private_key=00")%string in
  exists text, IpcSet text ∈ (runTunnel sample_params
      {| t_resolve := fun _ => Ok {| IP := replicate 16 1; GoNet.Port := 5000; Zone := zone |};
         t_host := example_env; t_stack := fun _ => None; t_ipc := fun _ => None; t_up := None; t_listen := None;
         t_stats := no_stats; t_events := [] |}).1
    /\ uapi_read text !! 4%nat = Some ("private_key", "00]:5000")%string.
Proof.
  eexists. split; [apply (picked pick_text IpcSet); [by intros [] ? [= ->]|by vm_compute]|by vm_compute].
Qed.

Lemma device_configuration_witness :
  exists text, IpcSet text ∈ (runTunnel sample_params (sample_env [])).1
    /\ uapi_read text !! 3%nat = Some ("endpoint", "203.0.113.5:5000")%string.
Proof.
  exists (ipc_text (hex_encode (replicate 32 7)) 51820 (hex_encode (replicate 32 7)) "203.0.113.5:5000").
  assert (IpcSet (ipc_text (hex_encode (replicate 32 7)) 51820 (hex_encode (replicate 32 7)) "203.0.113.5:5000")
    ∈ (runTunnel sample_params (sample_env [])).1) as Hin
    by (apply (picked pick_text IpcSet); [by intros [] ? [= ->]|by vm_compute]).
  split; [exact Hin|].
  destruct (device_configuration sample_params (sample_env []) _ Hin) as (ep & own & peer & Hr & _ & _ & _ & _ & _ & Hread).
  injection Hr as <-. rewrite Hread by by vm_compute. by vm_compute.
Defined.

End Tunnel.

