(* ===== verification/Attempt.v ===== *)
(** One connection attempt, whole ([runConnectionAttempt] of [main.go]): the
    protocol of [Client], with every call it makes answered by the component that
    models it, from the command line to the device of the tunnel. *)

From S2P Require Import Prelude Lists GoStrings GoNet GoTime GoJson GoUrl GoCodec Candidates Sockets Nomination Stun Ice.
From S2P Require Import Negotiate Client PeerMTU TunnelMTU Supervisor Keys Device Socks Tunnel Invite Cli.
From Stdlib Require Import Ascii.
Open Scope Z_scope.

Import Candidates Nomination Stun Ice Negotiate Client Keys.

Module Attempt.

(** ** What an attempt meets *)

(** What the client reads of a CONNECT_RESPONSE. *)
Record connectResponse := {
  r_candidates : list candidate;
  r_info : serverInfo;
  r_clientIP : string;
  r_dns : list string;
}.

(** The world of an attempt: random bytes, the outcomes of the two exchanges with
    the API, the host's sockets and interfaces, what the STUN server answers, the
    packets read before the nomination is activated and until it is decided, the
    order in which [activate] visits the pairs, how the wait and the probe go,
    and what the tunnel meets. *)
Record world := {
  w_key : option (list Z);
  w_ice_posted : result client_err string;
  w_ice_polled : result client_err (option (list iceServer));
  w_port : Z * Z;
  w_listen4 : result string Z;
  w_listen6 : result string Z;
  w_ifaces : list net_interface;
  w_reflex4 : reflex_env;
  w_reflex6 : reflex_env;
  w_secret : option (list Z);
  w_posted : result client_err string;
  w_polled : result client_err (option connectResponse);
  w_before : list (UDPAddr * string);
  w_order : list (string * nominationPair);
  w_during : list (UDPAddr * string);
  w_selection : selection_outcome;
  w_live : bool;
  w_probe : list probe_event;
  w_live_after_probe : bool;
  w_tunnel : Tunnel.Tunnel.tunnel_env;
  w_duration : Z;
}.

(** Messages are left out: the client looks only for [context.Canceled]. *)
Definition some_failure : client_err := Failed EmptyString.

Definition exchanged {A} (r : result (exchange_err client_err) A) : result client_err A :=
  match r with Ok a => Ok a | Err (ApiError e) => Err e | Err (TimedOut _) => Err some_failure end.

Definition tunnel_failure (e : Tunnel.Tunnel.tunnel_err) : client_err :=
  match e with
  | Tunnel.Tunnel.Ended Supervisor.Supervisor.Cancelled => Canceled
  | _ => some_failure
  end.

Section attempt.
Context `{PionStun} `{Curve} `{Device.Device.Gvisor}.
Context (flags : Cli.Cli.cliFlags) (w : world).

(** ** The calls *)

Definition keys : option (string * string) := wgKeypair (w_key w).

Definition ice_servers : result client_err (list iceServer) :=
  exchanged (fetchICEConfiguration (w_ice_posted w) (w_ice_polled w)).2.

Definition port : Z := Sockets.Sockets.listenPort (w_port w).

Definition opening : list Sockets.Sockets.os_action * result Sockets.Sockets.open_err udpSockets :=
  Sockets.Sockets.openUDPSockets port (Cli.Cli.c_family flags) (w_listen4 w) (w_listen6 w).

(** Nothing is gathered when the attempt does not come to it; [None] while an
    answer of the STUN server is waited for. *)
Definition local_candidates : option (list candidate) :=
  match ice_servers, opening.2 with
  | Ok ice, Ok sockets =>
      gatherLocalCandidates sockets (w_ifaces w) port (Cli.Cli.c_family flags) ice (w_reflex4 w) (w_reflex6 w)
  | _, _ => Some []
  end.

Definition turn_ready (local : list candidate) : option client_err :=
  match ice_servers with
  | Ok ice => match validateTurnPrerequisites ice local with Ok _ => None | Err _ => Some some_failure end
  | Err _ => None
  end.

Definition connected : result client_err connectResponse :=
  exchanged (connectAndAwaitResponse (w_posted w) (w_polled w)).2.

Definition response : connectResponse :=
  match connected with
  | Ok r => r
  | Err _ => {| r_candidates := []; r_clientIP := EmptyString; r_dns := [];
                r_info := {| WGPubKey := EmptyString; UDPEchoPort := 0; UDPEchoAddr := EmptyString;
                             TunnelMask := 0; TunnelAddr := EmptyString |} |}
  end.

(** The relays TURN-only mode is confined to. *)
Definition relays (local : list candidate) : list candidate :=
  compatibleCandidates (to_option opening.2) (candidatesOfType (r_candidates response) "turn") local.

Definition listener (secret : string) (local : list candidate) : earlyNominationListener :=
  let l := newEarlyNominationListener secret newNominationTracker in
  if Cli.Cli.c_forceTurn flags then restrictToCandidates l (Addr <$> relays local) else l.

(** The listener reads packets before [activate] and, beside the wait, after it. *)
Definition negotiation (l : earlyNominationListener) : option (nominationTracker * resolve_env) :=
  '(l1, _) ← read_packets l (w_before w);
  t1 ← activate (nomination l1) (w_order w);
  '(l2, _) ← read_packets (set_nomination l1 t1) (w_during w);
  Some (nomination l1,
        {| v_order := w_order w; v_selection := w_selection w; v_listener := l2; v_live := w_live w;
           v_probe := w_probe w; v_live_after_probe := w_live_after_probe w |}).

Definition tunnel_params (ep : string) (queue : list string) : Tunnel.Tunnel.tunnelParams :=
  {| Tunnel.Tunnel.priv := default EmptyString (fst <$> keys);
     Tunnel.Tunnel.port := port;
     Tunnel.Tunnel.endpoint := ep;
     Tunnel.Tunnel.info := r_info response;
     Tunnel.Tunnel.clientIP := r_clientIP response;
     Tunnel.Tunnel.dnsAddrs := r_dns response;
     Tunnel.Tunnel.socks5Addr := Cli.Cli.c_socks5Addr flags;
     Tunnel.Tunnel.auth := {| Socks.Socks.user := Cli.Cli.c_socks5User flags; Socks.Socks.pass := Cli.Cli.c_socks5Pass flags |};
     Tunnel.Tunnel.candidateQueue := queue;
     Tunnel.Tunnel.configured_mtu := Cli.Cli.c_mtu flags;
     Tunnel.Tunnel.tcpCongestionControl := Cli.Cli.c_tcpCongestionControl flags |}.

Definition tunnel (ep : string) (queue : list string)
  : list Tunnel.Tunnel.action * option Tunnel.Tunnel.tunnel_err :=
  Tunnel.Tunnel.runTunnel (tunnel_params ep queue) (w_tunnel w).

(** The configuration --print-config prints. *)
Definition printed (ep : string) : string :=
  let effectiveMTU :=
    if Cli.Cli.c_mtu flags =? 0 then
      match Tunnel.Tunnel.t_resolve (w_tunnel w) ep with
      | Ok addr => MTU.discoverPathMTU (Tunnel.Tunnel.t_host (w_tunnel w)) (Some addr)
      | Err _ => MTU.fallbackMTU
      end
    else Cli.Cli.c_mtu flags in
  buildConfig (default EmptyString (fst <$> keys)) port ep (r_info response) (r_dns response)
    (r_clientIP response) effectiveMTU.

(** ** The attempt *)

(** What [Client] asks of the calls. A failing random source for the secret is a
    panic. *)
Definition calls : option attempt_env :=
  local ← local_candidates;
  secret ← randomB64 (w_secret w);
  '(t, env) ← negotiation (listener secret local);
  Some {| a_keys := match keys with Some _ => None | None => Some some_failure end;
          a_ice := match ice_servers with Ok _ => None | Err e => Some e end;
          a_sockets := match opening.2 with Ok s => Ok s | Err _ => Err some_failure end;
          a_local := local;
          a_turn_ready := turn_ready local;
          a_secret := secret;
          a_connect := match connected with Ok r => Ok (r_candidates r) | Err e => Err e end;
          a_nomination := t;
          a_resolve := env;
          a_tunnel := fun ep queue => err ← (tunnel ep queue).2; Some (Some (tunnel_failure err));
          a_duration := w_duration w |}.

Inductive event : Type :=
| Os (a : Sockets.Sockets.os_action)
| Listen (restricted : option (gset string))
| Unlisten
| Told (pub secret : string) (local : list candidate)
| DeleteRequest (requestID : string)
| Printed (ep text : string)
| Tunnelled (ep : string) (queue : list string)
| InTunnel (a : Tunnel.Tunnel.action).

Definition expand (e : attempt_env) (act : attempt_action) : list event :=
  match act with
  | OpenSockets => Os <$> opening.1
  | CloseSockets => Os <$> Sockets.Sockets.Close (to_option opening.2)
  | StartListener restricted => [Listen restricted]
  | StopListener => [Unlisten]
  | SendConnect => [Told (default EmptyString (snd <$> keys)) (a_secret e) (a_local e)]
  | DeleteAccess id => [DeleteRequest id]
  | PrintConfig ep => [Printed ep (printed ep)]
  | RunTunnel ep queue => Tunnelled ep queue :: (InTunnel <$> (tunnel ep queue).1)
  end.

(** The calls that open the sockets when that fails: the attempt ends with them. *)
Definition failed_opening (e : attempt_env) : list event :=
  match a_keys e, a_ice e, opening.2 with
  | None, None, Err _ => Os <$> opening.1
  | _, _, _ => []
  end.

(** [None] while something is waited for or the tunnel is up. *)
Definition attempt (session : sessionResult)
  : option (list event * sessionResult * connectionAttemptResult * option client_err) :=
  e ← calls;
  '(acts, session', r, err) ← runConnectionAttempt (Cli.Cli.connection_flags flags) session e;
  Some (failed_opening e ++ concat (expand e <$> acts), session', r, err).

(** ** Lemmas *)

Lemma attempt_parts session evs s r err : attempt session = Some (evs, s, r, err) ->
  exists e acts, calls = Some e
    /\ runConnectionAttempt (Cli.Cli.connection_flags flags) session e = Some (acts, s, r, err)
    /\ evs = failed_opening e ++ concat (expand e <$> acts).
Proof.
  unfold attempt. intros (e & He & Ha)%bind_Some. apply bind_Some in Ha as ([[[acts s'] r'] err'] & Hrun & Ha).
  injection Ha as <- <- <- <-. by exists e, acts.
Qed.

(** The fields of [calls]. *)
Lemma calls_parts e : calls = Some e ->
  exists local secret t env, local_candidates = Some local /\ randomB64 (w_secret w) = Some secret
    /\ negotiation (listener secret local) = Some (t, env)
    /\ a_local e = local /\ a_secret e = secret /\ a_nomination e = t /\ a_resolve e = env
    /\ a_turn_ready e = turn_ready local
    /\ (forall s, a_sockets e = Ok s <-> opening.2 = Ok s)
    /\ (forall c, a_connect e = Ok c -> connected = Ok response /\ c = r_candidates response)
    /\ (a_keys e = None <-> is_Some keys) /\ (a_ice e = None <-> is_ok ice_servers = true)
    /\ (forall ep q, is_Some (a_tunnel e ep q) -> is_Some (tunnel ep q).2).
Proof.
  unfold calls. intros (local & Hl & He)%bind_Some. apply bind_Some in He as (secret & Hs & He).
  apply bind_Some in He as ([t env] & Hn & He). injection He as <-. exists local, secret, t, env. cbn. split_and!; try done.
  - intros s. destruct opening as [? [?|?]]; cbn; [|done]. split; by intros [= ->].
  - unfold response. destruct connected; [|done]. by intros c [= <-].
  - by destruct keys; split.
  - by destruct ice_servers.
  - intros ep q. destruct (tunnel ep q).2; [by eexists|by intros []].
Qed.

(** The events of the actions between opening and closing the sockets. *)
Definition inner (e : attempt_env) (acts : list attempt_action) : list event := concat (expand e <$> acts).

Lemma attempt_events session evs s r err : attempt session = Some (evs, s, r, err) ->
  exists e, calls = Some e
  /\ ((evs = [] \/ evs = (Os <$> opening.1) /\ is_ok opening.2 = false)
      \/ exists sockets mid connected, opening.2 = Ok sockets
           /\ evs = (Os <$> opening.1) ++ inner e mid ++ (Os <$> Sockets.Sockets.Close (Some sockets))
           /\ Forall (justified (Cli.Cli.connection_flags flags) e) mid
           /\ follow (Cli.Cli.c_forceTurn flags) (quiet_phase false) mid = Some (quiet_phase connected)).
Proof.
  intros (e & acts & He & Hrun & ->)%attempt_parts. exists e. split; [done|].
  destruct (calls_parts e He) as (_ & _ & _ & _ & _ & _ & _ & _ & _ & _ & _ & _ & Hs & _).
  apply attempt_shape in Hrun as [[(er & Hf) Hno]|([[[mid s1] r1] err1] & connected & Hb & [Hm _] & Hj & Hk & Hi & Hok)].
  - injection Hf as -> _ _ _. left. cbn. rewrite app_nil_r. unfold failed_opening.
    destruct (a_keys e); [by left|]. destruct (a_ice e); [by left|].
    destruct opening.2 as [sockets|er'] eqn:E; [by left|by right].
  - injection Hb as -> _ _ _. right. assert (exists sockets, a_sockets e = Ok sockets) as (sockets & Ho%Hs) by (destruct (a_sockets e); [by eexists|done]).
    exists sockets, mid, connected. split_and!; try done. unfold failed_opening. rewrite Hk, Hi, Ho. cbn [app].
    rewrite fmap_cons, fmap_app. cbn [concat expand fmap list_fmap]. rewrite concat_app. cbn [concat]. rewrite Ho, app_nil_r. done.
Qed.

(** An event that is not a call to the system is of one of these actions. *)
Lemma event_action session evs s r err ev :
  attempt session = Some (evs, s, r, err) -> ev ∈ evs -> (forall a, ev <> Os a) ->
  exists e act, calls = Some e /\ justified (Cli.Cli.connection_flags flags) e act /\ ev ∈ expand e act.
Proof.
  intros (e & He & Hevs)%attempt_events Hin Hos. exists e.
  assert (forall l, ev ∉ Os <$> l) as Hno by (intros l (a & -> & _)%list_elem_of_fmap; by destruct (Hos a)).
  destruct Hevs as [[->|[-> _]]|(sockets & mid & connected & _ & -> & Hj & _)];
    [by apply not_elem_of_nil in Hin|by apply Hno in Hin|].
  apply elem_of_app in Hin as [?%Hno|Hin]; [done|]. apply elem_of_app in Hin as [Hin|?%Hno]; [|done].
  apply list_elem_of_In, in_concat in Hin as (evs' & Hl & Hin). apply list_elem_of_In, list_elem_of_fmap in Hl as (act & -> & Hact).
  exists act. split; [done|]. split; [|by apply list_elem_of_In]. rewrite Forall_forall in Hj. by apply Hj.
Qed.

(** ** Resources *)

Definition os_events (evs : list event) : list Sockets.Sockets.os_action :=
  omap (fun ev => match ev with Os a => Some a | _ => None end) evs.
Definition tunnel_events (evs : list event) : list Tunnel.Tunnel.action :=
  omap (fun ev => match ev with InTunnel a => Some a | _ => None end) evs.

(** Whether the listener reads the sockets after the events, [None] when it is
    started twice or stopped without being there, or when the configuration is
    printed or the tunnel does anything beside it. *)
Fixpoint hears (on : bool) (evs : list event) : option bool :=
  match evs with
  | [] => Some on
  | Listen _ :: evs' => if on then None else hears true evs'
  | Unlisten :: evs' => if on then hears false evs' else None
  | (Printed _ _ | Tunnelled _ _ | InTunnel _) :: evs' => if on then None else hears on evs'
  | _ :: evs' => hears on evs'
  end.

Lemma hears_app on l1 l2 : hears on (l1 ++ l2) = hears on l1 ≫= fun on' => hears on' l2.
Proof.
  revert on. induction l1 as [|ev l1 IH]; intros on; [done|]. cbn [app hears].
  destruct ev; try apply IH; destruct on; done || apply IH.
Qed.

Lemma os_events_os acts : os_events (Os <$> acts) = acts.
Proof. unfold os_events. induction acts as [|a acts IH]; [done|]. rewrite fmap_cons. cbn. by f_equal. Qed.

Lemma os_events_app l1 l2 : os_events (l1 ++ l2) = os_events l1 ++ os_events l2.
Proof. apply omap_app. Qed.

Lemma in_tunnel acts :
  tunnel_events (InTunnel <$> acts) = acts /\ os_events (InTunnel <$> acts) = []
  /\ hears false (InTunnel <$> acts) = Some false.
Proof.
  unfold tunnel_events, os_events. induction acts as [|a acts (IH1 & IH2 & IH3)]; [done|].
  rewrite fmap_cons. cbn. by rewrite IH1, IH2, IH3.
Qed.

(** One action between opening and closing the sockets. *)
Lemma inner_action turn ph ph' e act :
  calls = Some e -> justified (Cli.Cli.connection_flags flags) e act -> legal turn ph act = Some ph' ->
  os_events (expand e act) = []
  /\ Tunnel.Tunnel.account Tunnel.Tunnel.none (tunnel_events (expand e act)) = Some Tunnel.Tunnel.none
  /\ hears (is_listening ph) (expand e act) = Some (is_listening ph').
Proof.
  intros He Hj. destruct ph as [o l c]. destruct act as [| |restricted| | |id|ep|ep queue]; cbn [legal Client.is_open is_listening is_connected]; try done.
  - destruct o, l, c, turn, restricted; cbn; try done; by intros [= <-].
  - destruct l; [by intros [= <-]|done].
  - destruct o, l, c, turn; cbn; try done; by intros [= <-].
  - destruct o, l, c; cbn; try done; by intros [= <-].
  - destruct o, l, c; cbn; try done; by intros [= <-].
  - destruct Hj as (n & _ & _ & _ & Ht). destruct (calls_parts e He) as (_ & _ & _ & _ & _ & _ & _ & _ & _ & _ & _ & _ & _ & _ & _ & _ & Hup).
    apply Hup in Ht. destruct o, c, l; cbn [andb negb]; try done. intros [= <-]. cbn [expand is_listening].
    destruct (in_tunnel (tunnel ep queue).1) as (Ht1 & Ho1 & Hh1).
    change (os_events (?x :: ?l)) with (os_events l). change (tunnel_events (?x :: ?l)) with (tunnel_events l).
    cbn [hears]. rewrite Ht1, Ho1, Hh1. split_and!; try done. unfold tunnel in *.
    pose proof (Tunnel.Tunnel.account_run (tunnel_params ep queue) (w_tunnel w)) as Hacc.
    destruct (Tunnel.Tunnel.runTunnel _ _) as [tacts res]. cbn in *. rewrite Hacc. by destruct Ht as [er ->].
Qed.

Lemma inner_actions turn ph ph' e acts :
  calls = Some e -> Forall (justified (Cli.Cli.connection_flags flags) e) acts -> follow turn ph acts = Some ph' ->
  os_events (inner e acts) = []
  /\ Tunnel.Tunnel.account Tunnel.Tunnel.none (tunnel_events (inner e acts)) = Some Tunnel.Tunnel.none
  /\ hears (is_listening ph) (inner e acts) = Some (is_listening ph').
Proof.
  intros He Hj. revert ph. induction Hj as [|act acts Ha _ IH]; intros ph; [by intros [= <-]|].
  cbn [follow]. intros (ph1 & Hl & Hf)%bind_Some. destruct (inner_action _ _ _ _ _ He Ha Hl) as (Ho & Ht & Hh).
  destruct (IH ph1 Hf) as (Ho' & Ht' & Hh'). unfold inner in *. rewrite fmap_cons. cbn [concat].
  rewrite os_events_app, hears_app, Hh, Ho, Ho'. unfold tunnel_events in *. rewrite omap_app, Tunnel.Tunnel.account_app, Ht.
  by split_and!.
Qed.

(** What is assumed of the packets: their sources are addresses the sockets can
    receive from, and [activate] visits each pair of its map once. *)
Definition plausible : Prop :=
  Forall (fun p => socket_source p.1) (w_before w ++ w_during w)
  /\ forall local secret l1 sent, local_candidates = Some local ->
       read_packets (listener secret local) (w_before w) = Some (l1, sent) ->
       w_order w ≡ₚ map_to_list (pairs (nomination l1)).

Definition advertised_relays : list string := Addr <$> candidatesOfType (r_candidates response) "turn".

(** The endpoint chosen under [--turn]. *)
Lemma chosen_relay e n :
  plausible -> Cli.Cli.c_forceTurn flags = true -> Cli.Cli.c_endpointOverride flags = EmptyString ->
  calls = Some e -> chosen (Cli.Cli.connection_flags flags) e n ->
  n_endpoint n ∈ advertised_relays /\ forall a, a ∈ n_queue n -> a ∈ advertised_relays.
Proof.
  intros [Hsrc Hord] Hturn Hover He (sockets & advertised & Hs & Hc & Hn).
  destruct (calls_parts e He) as (local & secret & t & env & Hl & _ & Hneg & El & _ & Et & Ee & _ & Hso & Hco & _).
  apply Hso in Hs. apply Hco in Hc as [_ ->]. unfold negotiation in Hneg.
  apply bind_Some in Hneg as ([l1 sent1] & Hr1 & Hneg). apply bind_Some in Hneg as (t1 & Ha & Hneg).
  apply bind_Some in Hneg as ([l2 sent2] & Hr2 & Hneg). injection Hneg as Ht Hv.
  pose proof (Hord _ _ _ _ Hl Hr1) as Hperm. unfold listener, relays in Hr1. rewrite Hturn, Hs in Hr1. cbn [to_option] in Hr1.
  cbn in Hn. rewrite Hturn, Hover, Et, Ee, El in Hn. rewrite <- Ht in Hn.
  destruct (turn_only (Some sockets) (r_candidates response) local secret (w_before w) (w_during w) l1 l2 sent1 sent2 t1 env n)
    as (Hep & Hq & _); try done; try (by rewrite <- Hv).
  assert (forall a, a ∈ Addr <$> compatibleCandidates (Some sockets) (candidatesOfType (r_candidates response) "turn") local ->
    a ∈ advertised_relays) as Hsub.
  { intros a (c & -> & Hin%compatibleCandidates_subset)%list_elem_of_fmap. apply list_elem_of_fmap. by exists c. }
  split; [by apply Hsub|]. intros a Ha'. by apply Hsub, Hq.
Qed.

(** Which action an event is of. *)
Ltac of_action Hx :=
  match type of Hx with
  | _ ∈ expand _ ?act =>
      destruct act; cbn [expand] in Hx;
      repeat match type of Hx with
      | _ ∈ _ :: _ => apply elem_of_cons in Hx as [Hx|Hx]; [simplify_eq|]
      | _ ∈ _ <$> _ => apply list_elem_of_fmap in Hx as (? & Hx & ?); simplify_eq
      | _ ∈ [] => by apply not_elem_of_nil in Hx
      end
  end.

(** A CONNECT tells what was gathered, made and drawn. *)
Lemma told_parts session evs s r err pub secret local : attempt session = Some (evs, s, r, err) ->
  Told pub secret local ∈ evs ->
  local_candidates = Some local /\ randomB64 (w_secret w) = Some secret /\ pub = default EmptyString (snd <$> keys).
Proof.
  intros Ha Hin. destruct (event_action _ _ _ _ _ _ Ha Hin ltac:(done)) as (e & act & He & _ & Hx). of_action Hx.
  destruct (calls_parts e He) as (local & secret & t & v & Hl & Hs & _ & El & Es & _). by rewrite El, Es.
Qed.

(** A tunnel is only started after a CONNECT_RESPONSE. *)
Lemma tunnelled_response session evs s r err ep queue : attempt session = Some (evs, s, r, err) ->
  Tunnelled ep queue ∈ evs -> connected = Ok response.
Proof.
  intros Ha Hin. destruct (event_action _ _ _ _ _ _ Ha Hin ltac:(done)) as (e & act & He & Hj & Hx). of_action Hx.
  destruct Hj as (n & (sockets & adv & _ & Hco & _) & _).
  destruct (calls_parts e He) as (? & ? & ? & ? & _ & _ & _ & _ & _ & _ & _ & _ & _ & Hc & _). by apply Hc in Hco as [Hco _].
Qed.

(** ** Properties *)

(** Under --turn nothing but relays is ever chosen, from the command line to the
    start of the tunnel. Whatever the host, the API, the STUN server and the packets do,
    in every attempt made with an accepted command line that asks for TURN: the
    console is only told candidates with a reflexive one among them, from an ICE
    configuration that has a STUN server and a TURN server over UDP; the
    listener hears nobody but the relays the console advertised; and the endpoint
    the tunnel is started with, or the configuration is printed with, and every
    endpoint queued for retries, is one of those relays. (Once it is up, the bind
    listens to every tuple: [late_direct_nomination] of [StunBind].) *)
Theorem attempt_turn_only `{UnicodeTables} (a : Cli.Cli.arguments) (env : Cli.Cli.environment)
    (session session' : sessionResult) (evs : list event) (r : connectionAttemptResult) (err : option client_err) :
  Cli.Cli.parseFlags a env = Ok flags -> Cli.Cli.o_turn a = true -> plausible ->
  attempt session = Some (evs, session', r, err) ->
  (forall pub secret local, Told pub secret local ∈ evs -> exists ice, ice_servers = Ok ice
     /\ is_Some (stunServerFromIce ice) /\ is_Some (turnServerFromIce ice)
     /\ exists c, c ∈ local /\ Type_ c = "reflex"%string)
  /\ (forall restricted, Listen restricted ∈ evs -> exists allowed, restricted = Some allowed
       /\ forall x, x ∈ allowed -> x ∈ advertised_relays)
  /\ (forall ep queue, Tunnelled ep queue ∈ evs ->
       ep ∈ advertised_relays /\ forall x, x ∈ queue -> x ∈ advertised_relays)
  /\ (forall ep text, Printed ep text ∈ evs -> ep ∈ advertised_relays).
Proof.
  intros ([_ _ _ _ _ _ _ Hend _ _ _] & inv & mtu & cc & _ & _ & _ & Hf)%Cli.Cli.parsed Ho Hp Ha.
  assert (Cli.Cli.c_forceTurn flags = true) as Hturn by by rewrite Hf.
  assert (Cli.Cli.c_endpointOverride flags = EmptyString) as Hover by (rewrite Hf; destruct Hend as [?|[_ ?]]; [done|congruence]).
  split_and!.
  - intros pub secret local Hin. destruct (event_action _ _ _ _ _ _ Ha Hin ltac:(done)) as (e & act & He & Hj & Hx).
    of_action Hx. destruct Hj as (_ & Hice & _ & Hj). cbn in Hj. specialize (Hj Hturn).
    destruct (calls_parts e He) as (local & secret & t & v & _ & _ & _ & El & _ & _ & _ & Etr & _ & _ & _ & Ei & _).
    rewrite Etr in Hj. rewrite El. apply Ei in Hice. unfold turn_ready in Hj.
    destruct ice_servers as [ice|]; [|done]. exists ice. split; [done|]. apply turn_prerequisites_spec.
    by destruct (validateTurnPrerequisites ice local) as [[]|].
  - intros restricted Hin. destruct (event_action _ _ _ _ _ _ Ha Hin ltac:(done)) as (e & act & He & Hj & Hx).
    of_action Hx. destruct Hj as [[_ Hj]|(sockets & advertised & Hs & Hc & ->)]; [cbn in Hj; congruence|].
    eexists. split; [done|]. intros x Hx%elem_of_list_to_set.
    destruct (calls_parts e He) as (local & secret & t & v & _ & _ & _ & El & _ & _ & _ & _ & Eso & Eco & _).
    apply Eco in Hc as [_ ->]. apply list_elem_of_fmap in Hx as (c & -> & Hx%compatibleCandidates_subset).
    apply list_elem_of_fmap. by exists c.
  - intros ep queue Hin. destruct (event_action _ _ _ _ _ _ Ha Hin ltac:(done)) as (e & act & He & Hj & Hx).
    of_action Hx. destruct Hj as (n & Hn & -> & -> & _). by apply (chosen_relay e).
  - intros ep text Hin. destruct (event_action _ _ _ _ _ _ Ha Hin ltac:(done)) as (e & act & He & Hj & Hx).
    of_action Hx. destruct Hj as (n & Hn & ->). by apply (chosen_relay e).
Qed.

(** An attempt leaves nothing behind, however it ends. No socket stays open,
    not even when only one could be opened; everything else happens while all the
    sockets that were opened are open; the listener is stopped, and never reads
    them beside the tunnel; and a tunnel is over, with its device, its workers and
    its proxy gone, before the sockets are closed. *)
Theorem attempt_leaves_nothing (session session' : sessionResult) (evs : list event) (r : connectionAttemptResult)
    (err : option client_err) :
  attempt session = Some (evs, session', r, err) ->
  Sockets.Sockets.left_open (w_listen4 w) (w_listen6 w) (os_events evs) = []
  /\ exists opened mid closed, evs = (Os <$> opened) ++ mid ++ (Os <$> closed)
     /\ os_events mid = []
     /\ (mid <> [] -> exists sockets, opening.2 = Ok sockets
          /\ Sockets.Sockets.left_open (w_listen4 w) (w_listen6 w) opened = option_list (V4 sockets) ++ option_list (V6 sockets))
     /\ Tunnel.Tunnel.account Tunnel.Tunnel.none (tunnel_events mid) = Some Tunnel.Tunnel.none
     /\ hears false mid = Some false.
Proof.
  pose proof (Sockets.Sockets.open_sockets_spec port (Cli.Cli.c_family flags) (w_listen4 w) (w_listen6 w)) as Hspec.
  fold opening in Hspec. intros (e & He & [[->|[-> Hno]]|(sockets & mid & connected & Ho & -> & Hj & Hf)])%attempt_events.
  - split; [done|]. exists [], [], []. by split_and!.
  - destruct opening as [acts [s|er]]; [done|]. cbn [fst snd] in *. destruct Hspec as [Hl _]. rewrite os_events_os. split; [done|].
    exists acts, [], []. rewrite !app_nil_r. by split_and!.
  - destruct (inner_actions _ _ _ _ _ He Hj Hf) as (Hos & Ht & Hh).
    destruct opening as [acts res] eqn:Eo. cbn [fst snd] in *. subst res. destruct Hspec as (_ & _ & _ & Hl & _). split.
    + rewrite !os_events_app, !os_events_os, Hos. by apply Sockets.Sockets.close_leaves_none.
    + eexists acts, (inner e mid), _. split; [done|]. split_and!; try done. intros _. by exists sockets.
Qed.

(** The endpoint is the outcome of one negotiation. *)
Lemma chosen_unique f e n n' : chosen f e n -> chosen f e n' -> n = n'.
Proof. intros (s & c & Hs & Hc & Hn) (s' & c' & Hs' & Hc' & Hn'). congruence. Qed.

Lemma told_local e c : calls = Some e -> c ∈ a_local e ->
  Type_ c = "reflex"%string \/ exists ip, c = iface_candidate port ip.
Proof.
  intros He Hc. destruct (calls_parts e He) as (local & _ & _ & _ & Hl & _ & _ & El & _). rewrite El in Hc.
  unfold local_candidates in Hl. destruct ice_servers as [ice|], opening.2 as [sockets|];
    try (injection Hl as <-; by apply not_elem_of_nil in Hc).
  destruct (gather_spec _ _ _ _ _ _ _ _ Hl) as [_ Hg]. destruct (Hg c Hc) as [Hin|?]; [right|by left].
  destruct (localCandidates_spec (w_ifaces w) port (Cli.Cli.c_family flags)) as [_ Hls].
  apply Hls in Hin as (a & _ & _ & _ & ->). by eexists.
Qed.

Lemma opening_ports a : a ∈ opening.1 ->
  forall p, a = Sockets.Sockets.Listen4 p \/ a = Sockets.Sockets.Listen6 p -> p = port.
Proof.
  unfold opening, Sockets.Sockets.openUDPSockets, Sockets.Sockets.listen_v4, Sockets.Sockets.listen_v6.
  destruct (Cli.Cli.c_family flags), (w_listen4 w), (w_listen6 w); cbn; set_solver.
Qed.

(** Sockets are only ever bound to the port. *)
Lemma bound_port session evs s r err q : attempt session = Some (evs, s, r, err) ->
  Os (Sockets.Sockets.Listen4 q) ∈ evs \/ Os (Sockets.Sockets.Listen6 q) ∈ evs -> q = port.
Proof.
  intros Ha Hin.
  assert (exists a, (a = Sockets.Sockets.Listen4 q \/ a = Sockets.Sockets.Listen6 q) /\ a ∈ os_events evs) as (a & Hq & Hos).
  { destruct Hin as [Hin|Hin]; [exists (Sockets.Sockets.Listen4 q)|exists (Sockets.Sockets.Listen6 q)];
      (split; [by auto|]); apply list_elem_of_omap; by eexists. }
  apply attempt_events in Ha as (e & He & [[->|[-> _]]|(sockets & mid & connected & Ho & -> & Hj & Hf)]).
  - by apply not_elem_of_nil in Hos.
  - rewrite os_events_os in Hos. by eapply opening_ports.
  - destruct (inner_actions _ _ _ _ _ He Hj Hf) as [Hnone _]. rewrite !os_events_app, !os_events_os, Hnone in Hos.
    apply elem_of_app in Hos as [Hos|Hos]; [by eapply opening_ports|].
    destruct sockets as [[?|] [?|]]; cbn in Hos; destruct Hq as [-> | ->]; set_solver.
Qed.

(** What the console is told is what the tunnel runs with. In every attempt
    that sends CONNECT and configures the device of a tunnel, the device is given
    the private key whose public key the console was told, the peer's key of its
    response, the port that the outer sockets are bound to and that every
    interface candidate told has, and the address the chosen endpoint resolves to;
    and nothing else, unless the zone of that address has a line break. *)
Theorem attempt_agreement `{!CurveLaws} (random : list Z) (session session' : sessionResult) (evs : list event)
    (r : connectionAttemptResult) (err : option client_err) (pub secret text ep : string) (local : list candidate)
    (queue : list string) :
  w_key w = Some random -> length random = 32%nat -> Forall is_byte random ->
  attempt session = Some (evs, session', r, err) ->
  Told pub secret local ∈ evs -> Tunnelled ep queue ∈ evs -> InTunnel (Tunnel.Tunnel.IpcSet text) ∈ evs ->
  exists k p peer addr,
    x25519_base k = Some p /\ pub = b64_encode StdEncoding p
    /\ b64_decode StdEncoding (WGPubKey (r_info response)) = Some peer
    /\ Tunnel.Tunnel.t_resolve (w_tunnel w) ep = Ok addr
    /\ text = Tunnel.Tunnel.ipc_text (GoCodec.hex_encode k) port (GoCodec.hex_encode peer) (Tunnel.Tunnel.udp_text addr)
    /\ (no_newline_in (Zone addr) -> Keys.Keys.uapi_read text = Tunnel.Tunnel.settings k peer port addr)
    /\ (forall c, c ∈ local -> Type_ c = "reflex"%string \/ exists ip, c = iface_candidate port ip)
    /\ (forall q, Os (Sockets.Sockets.Listen4 q) ∈ evs \/ Os (Sockets.Sockets.Listen6 q) ∈ evs -> q = port).
Proof.
  intros Hkey Hlen Hbytes Ha Htold Htun Hipc.
  destruct (event_action _ _ _ _ _ _ Ha Htold ltac:(done)) as (e & act & He & Hj & Hx).
  of_action Hx. destruct Hj as (Hk & _).
  destruct (event_action _ _ _ _ _ _ Ha Htun ltac:(done)) as (e2 & act & He2 & Hj & Hx).
  rewrite He in He2. injection He2 as <-. of_action Hx. destruct Hj as (n & Hn & -> & -> & _).
  destruct (event_action _ _ _ _ _ _ Ha Hipc ltac:(done)) as (e2 & act & He2 & Hj & Hx).
  rewrite He in He2. injection He2 as <-. of_action Hx. destruct Hj as (n2 & Hn2 & -> & -> & _).
  rewrite (chosen_unique _ _ _ _ Hn2 Hn) in *. clear n2 Hn2.
  destruct (calls_parts e He) as (_ & _ & _ & _ & _ & _ & _ & _ & _ & _ & _ & _ & _ & _ & Hks & _).
  apply Hks in Hk as [[priv pub] Hpair]. rewrite Hpair. unfold keys in Hpair. rewrite Hkey in Hpair.
  destruct (keypair_reads random priv pub Hlen Hbytes Hpair) as (p & Hp & _ & _ & Hpriv & Hpub & Hhex).
  destruct (tunnel (n_endpoint n) (n_queue n)) as [acts res] eqn:Et.
  match goal with Hin : Tunnel.Tunnel.IpcSet text ∈ _ |- _ => rename Hin into Htext end.
  destruct (Tunnel.Tunnel.run_parts _ _ _ _ Et) as (_ & _ & Hall). cbn [fst] in Htext.
  destruct (Hall _ Htext) as (addr & privHex & peerHex & Hres & H1' & H2' & ->). cbn in Hres, H1', H2'.
  unfold keys in H1'. rewrite Hkey, Hpair in H1'. cbn in H1'. rewrite Hhex in H1'. injection H1' as <-.
  apply b64KeyToHex_ok in H2' as (peer & Hpeer & -> & _ & Hpb).
  exists (clamp random), p, peer, addr. split_and!; try done.
  - intros. apply Tunnel.Tunnel.ipc_reads; [by apply clamp_bytes|done|done].
  - intros c. by apply told_local.
  - intros q. by eapply bound_port.
Qed.

End attempt.

(** *** Concrete runs *)

#[local] Existing Instance Keys.Keys.toy_curve.
#[local] Existing Instance Keys.Keys.toy_curve_laws.
#[local] Existing Instance Tunnel.Tunnel.toy_gvisor.
#[local] Existing Instance Cli.Cli.ascii_only.

(** The codec of the listener, with an address in every message. *)
#[local] Instance both_stun : PionStun := {|
  message := string * string;
  decode := @decode toy_stun;
  is_binding_request := @is_binding_request toy_stun;
  type_string := @type_string toy_stun;
  transaction_id := @transaction_id toy_stun;
  data_attr := @data_attr toy_stun;
  check := @check toy_stun;
  build_success := @build_success toy_stun;
  build_probe := @build_probe toy_stun;
  xor_mapped := @xor_mapped mapping_stun;
|}.

Definition sample_flags : Cli.Cli.cliFlags :=
  match Cli.Cli.parseFlags Cli.Cli.sample_arguments Cli.Cli.sample_environment with
  | Ok f => f
  | Err _ => {| Cli.Cli.c_invite := ""; Cli.Cli.c_name := ""; Cli.Cli.c_endpointOverride := ""; Cli.Cli.c_forceTurn := false;
      Cli.Cli.c_printConfig := false; Cli.Cli.c_socks5Addr := ""; Cli.Cli.c_socks5User := ""; Cli.Cli.c_socks5Pass := "";
      Cli.Cli.c_family := familyDual; Cli.Cli.c_debug := false; Cli.Cli.c_sessionFile := ""; Cli.Cli.c_mtu := 0;
      Cli.Cli.c_tcpCongestionControl := "" |}
  end.

(** The console counts down on its relay; another tuple asks in vain. *)
Definition sample_secret : string := b64_encode StdEncoding [1; 2; 3].
Definition sample_request (a : UDPAddr) (w : Z) : UDPAddr * string :=
  (a, ("R" ++ sample_secret ++ ";" ++ json_object [("wait", itoa w)])%string).
Definition stranger : UDPAddr := {| IP := [198; 51; 100; 9]; Port := 6000; Zone := EmptyString |}.

Definition sample_world : world := {|
  w_key := Some (replicate 32 255);
  w_ice_posted := Ok "ice-1"%string;
  w_ice_polled := Ok (Some sample_ice);
  w_port := (200, 7);
  w_listen4 := Ok 3;
  w_listen6 := Err "no IPv6"%string;
  w_ifaces := [];
  w_reflex4 := answering;
  w_reflex6 := silent;
  w_secret := Some [1; 2; 3];
  w_posted := Ok "connect-1"%string;
  w_polled := Ok (Some {| r_candidates := toy_advertised; r_info := Tunnel.Tunnel.info Tunnel.Tunnel.sample_params;
                          r_clientIP := EmptyString; r_dns := ["10.0.0.1"%string] |});
  w_before := [sample_request stranger 2000];
  w_order := [];
  w_during := (sample_request stranger <$> nominationWaitSequence) ++ (sample_request toy_peer <$> nominationWaitSequence);
  w_selection := SelectionArrived;
  w_live := true;
  w_probe := [TimerFired];
  w_live_after_probe := true;
  w_tunnel := Tunnel.Tunnel.sample_env [Supervisor.Supervisor.LifecycleDone];
  w_duration := 60;
|}.

Definition after_session : sessionResult :=
  {| Token := "t"; Secret := "s"; DeviceToken := "d"; Access := None |}.
Definition after_result : connectionAttemptResult :=
  {| printedConfig := false; tunnelStarted := true; tunnelDuration := 60 |}.
Definition sample_events : list event :=
  match attempt sample_flags sample_world toy_session with Some (evs, _, _, _) => evs | None => [] end.

Lemma sample_attempt :
  attempt sample_flags sample_world toy_session = Some (sample_events, after_session, after_result, Some Canceled).
Proof. by vm_compute. Qed.

Definition pick_tunnelled (ev : event) : option (string * list string) :=
  match ev with Tunnelled ep q => Some (ep, q) | _ => None end.
Definition pick_told (ev : event) : option (string * string * list candidate) :=
  match ev with Told pub secret local => Some (pub, secret, local) | _ => None end.
Definition pick_ipc (ev : event) : option string :=
  match ev with InTunnel (Tunnel.Tunnel.IpcSet text) => Some text | _ => None end.

Lemma sample_tunnelled : Tunnelled "203.0.113.5:5000" [] ∈ sample_events.
Proof.
  apply (picked pick_tunnelled (fun x => Tunnelled x.1 x.2) _ ("203.0.113.5:5000"%string, []));
    [by intros [] ? [= <-]|by vm_compute].
Qed.

Lemma sample_told : Told "+P///////////////////////////////////////38=" "AQID" [reflexed] ∈ sample_events.
Proof.
  apply (picked pick_told (fun x => Told x.1.1 x.1.2 x.2) _
    ("+P///////////////////////////////////////38=", "AQID", [reflexed])%string); [by intros [] ? [= <-]|by vm_compute].
Qed.

Definition sample_text : string := default EmptyString (head (omap pick_ipc sample_events)).

Lemma sample_ipc : InTunnel (Tunnel.Tunnel.IpcSet sample_text) ∈ sample_events.
Proof.
  apply (picked pick_ipc (fun x => InTunnel (Tunnel.Tunnel.IpcSet x))); [by intros [| | | | | | |[]] ? [= ->]|by vm_compute].
Qed.

Lemma sample_plausible : plausible sample_flags sample_world.
Proof.
  split.
  - apply Forall_forall. intros p Hp.
    assert (p.1 = stranger \/ p.1 = toy_peer) as [-> | ->]; [|split; [cbn; lia|by left]..].
    cbn [w_before w_during sample_world] in Hp. apply elem_of_app in Hp as [Hp|Hp];
      [apply list_elem_of_singleton in Hp as ->; by left|].
    apply elem_of_app in Hp as [Hp|Hp]; apply list_elem_of_fmap in Hp as (n & -> & _); [by left|by right].
  - intros local secret l1 sent Hl Hr. vm_compute in Hl. injection Hl as <-. vm_compute in Hr. injection Hr as <- _. by vm_compute.
Qed.

Lemma attempt_turn_only_witness :
  Tunnelled "203.0.113.5:5000" [] ∈ sample_events
  /\ "203.0.113.5:5000"%string ∈ advertised_relays sample_world.
Proof.
  split; [exact sample_tunnelled|].
  destruct (attempt_turn_only sample_flags sample_world Cli.Cli.sample_arguments Cli.Cli.sample_environment toy_session
    after_session sample_events after_result (Some Canceled)) as (_ & _ & Ht & _).
  - by vm_compute.
  - done.
  - exact sample_plausible.
  - exact sample_attempt.
  - by destruct (Ht _ _ sample_tunnelled).
Defined.

Lemma attempt_leaves_nothing_witness :
  attempt sample_flags sample_world toy_session = Some (sample_events, after_session, after_result, Some Canceled)
  /\ Sockets.Sockets.left_open (Ok 3) (Err "no IPv6"%string) (os_events sample_events) = [].
Proof.
  split; [exact sample_attempt|].
  destruct (attempt_leaves_nothing sample_flags sample_world toy_session after_session sample_events after_result
    (Some Canceled) sample_attempt) as [Hl _]. exact Hl.
Defined.

Lemma attempt_agreement_witness :
  exists k p peer addr, x25519_base k = Some p
    /\ b64_encode StdEncoding p = "+P///////////////////////////////////////38="%string
    /\ Keys.Keys.uapi_read sample_text = Tunnel.Tunnel.settings k peer 51207 addr.
Proof.
  destruct (attempt_agreement sample_flags sample_world (replicate 32 255) toy_session after_session sample_events after_result
    (Some Canceled) "+P///////////////////////////////////////38=" "AQID" sample_text "203.0.113.5:5000" [reflexed] [])
    as (k & p & peer & addr & Hk & Hpub & _ & Hres & _ & Hread & _).
  - done.
  - done.
  - apply Forall_replicate. unfold is_byte. lia.
  - exact sample_attempt.
  - exact sample_told.
  - exact sample_tunnelled.
  - exact sample_ipc.
  - exists k, p, peer, addr. split; [exact Hk|]. split; [symmetry; exact Hpub|].
    assert (port sample_world = 51207) as <- by by vm_compute. apply Hread. injection Hres as <-. by vm_compute.
Defined.

End Attempt.
