(* ===== verification/Program.v ===== *)
(** The program, whole ([main], [runClient], [establishSession] of [main.go]): from
    the command line and the bytes the API answers with, through one connection
    attempt after another, to the exit status. *)

From S2P Require Import Prelude Lists GoStrings GoNet GoTime GoJson JsonPrint GoDecode GoCodec Api Candidates Stun Ice Session Invite Negotiate Client.
From S2P Require Import Responses Requests Sockets Keys Device Tunnel Cli CommandLine Attempt.
Open Scope Z_scope.

Import Api Candidates Responses Requests CommandLine.

Module Program.

Notation world := Attempt.Attempt.world.
Notation client_err := Client.Client.client_err.
Notation sessionResult := Client.Client.sessionResult.
Notation attempt_result := Client.Client.connectionAttemptResult.

(** ** One turn

    The context's error before the attempt, the host's part of what the attempt
    meets, the two exchanges with the API as they go over the wire, and the
    context's error when it ends the wait. *)
Record turn := {
  t_ctx : option client_err;
  t_host : world;
  t_ice : exchange;
  t_connect : exchange;
  t_wait : option client_err;
}.

(** The host's part with the outcomes of the exchanges. *)
Definition set_ice (w : world) (posted : result client_err string)
    (polled : result client_err (option (list Ice.Ice.iceServer))) : world :=
  let '(Attempt.Attempt.Build_world k _ _ p l4 l6 i r4 r6 s q r b o d sel lv pr lp t du) := w in
  Attempt.Attempt.Build_world k posted polled p l4 l6 i r4 r6 s q r b o d sel lv pr lp t du.

Definition set_connect (w : world) (posted : result client_err string)
    (polled : result client_err (option Attempt.Attempt.connectResponse)) : world :=
  let '(Attempt.Attempt.Build_world k iq ir p l4 l6 i r4 r6 s _ _ b o d sel lv pr lp t du) := w in
  Attempt.Attempt.Build_world k iq ir p l4 l6 i r4 r6 s posted polled b o d sel lv pr lp t du.

(** What the client reads of a CONNECT_RESPONSE. *)
Definition connect_response (r : apiResponse) : Attempt.Attempt.connectResponse :=
  {| Attempt.Attempt.r_candidates := peer_candidates r; Attempt.Attempt.r_info := info_of (ServerInfo_ r);
     Attempt.Attempt.r_clientIP := ClientIP r; Attempt.Attempt.r_dns := elements (DNSAddrs r) |}.

Section program.
Context `{PionStun} `{Keys.Keys.Curve} `{Device.Device.Gvisor} `{Floats}.
Context (url_error json_error : string -> string) (flags : Cli.Cli.cliFlags).

Definition polled_ice (session : sessionResult) (tr : turn) : option (result client_err (option apiResponse)) :=
  polled url_error json_error (ice_body (Client.Client.Token session) (Client.Client.Secret session))
    (Client.Client.Token session) "ICE_CONFIGURATION" 100 (t_ice tr).

(** The ICE servers of the exchange, as they were decoded. *)
Definition ice_of_poll (polled : result client_err (option apiResponse)) : list iceServer :=
  match polled with Ok (Some r) => elements (IceConfiguration r) | _ => [] end.

(** The attempt's world once the ICE configuration is there. *)
Definition with_ice (session : sessionResult) (tr : turn) (polled : result client_err (option apiResponse)) : world :=
  set_ice (t_host tr)
    (posted url_error json_error (ice_body (Client.Client.Token session) (Client.Client.Secret session)) (t_ice tr))
    (with_failure id (fmap (fun r => ice_of <$> elements (IceConfiguration r))) polled).

(** The body of the attempt's CONNECT. *)
Definition connect_text (session : sessionResult) (w : world) (ice : list iceServer) : option json :=
  local ← Attempt.Attempt.local_candidates flags w;
  secret ← Keys.Keys.randomB64 (Attempt.Attempt.w_secret w);
  Some (connect_body session (Cli.Cli.c_name flags) (default EmptyString (snd <$> Attempt.Attempt.keys w)) secret local
          (slice_of ice)).

Definition is_told (ev : Attempt.Attempt.event) : bool :=
  match ev with Attempt.Attempt.Told _ _ _ => true | _ => false end.

Definition unsent : client_err := Client.Client.Failed EmptyString.

(** One attempt: the body of its CONNECT, the world the API completes, and the
    outcome. An attempt that ends before its CONNECT does not look at that exchange.
    [None] while something is waited for. *)
Definition attempt_on (session : sessionResult) (tr : turn)
  : option (json * world * (list Attempt.Attempt.event * sessionResult * attempt_result * option client_err)) :=
  polled_i ← polled_ice session tr;
  let w := with_ice session tr polled_i in
  body ← connect_text session w (ice_of_poll polled_i);
  match polled url_error json_error body (Client.Client.Token session) "CONNECT_RESPONSE" 200 (t_connect tr) with
  | Some polled_c =>
      let w := set_connect w (posted url_error json_error body (t_connect tr))
                 (with_failure id (fmap connect_response) polled_c) in
      o ← Attempt.Attempt.attempt flags w session; Some (body, w, o)
  | None =>
      let w := set_connect w (Err unsent) (Ok None) in
      o ← Attempt.Attempt.attempt flags w session;
      if existsb is_told o.1.1.1 then None else Some (body, w, o)
  end.

(** ** runClient *)

Inductive action : Type :=
| Attempted (tr : turn) (session : sessionResult) (body : json) (w : world) (evs : list Attempt.Attempt.event)
| Waited (backoff : Z).

(** The loop from the top of an iteration: what is done, and what the function
    returns, [None] when more turns are to come. *)
Fixpoint reconnect (session : sessionResult) (backoff : Z) (turns : list turn) : list action * option (option client_err) :=
  match turns with
  | [] => ([], None)
  | tr :: turns' =>
      match t_ctx tr with
      | Some err => ([], Some (Some err))
      | None =>
          match attempt_on session tr with
          | None => ([], None)
          | Some (body, w, (evs, session', result, err)) =>
              let did := Attempted tr session body w evs in
              if Client.Client.printedConfig result then ([did], Some None)
              else if Client.Client.is_canceled err then ([did], Some err)
              else if negb (Client.Client.tunnelStarted result) then ([did], Some err)
              else
                let backoff := if 5 * Minute <=? Client.Client.tunnelDuration result then 2 * Second else backoff in
                match t_wait tr with
                | Some err => ([did; Waited backoff], Some (Some err))
                | None =>
                    let doubled := backoff *i 2 in
                    let next := if Client.Client.maxReconnectBackoff <? doubled then Client.Client.maxReconnectBackoff else doubled in
                    let '(rest, r) := reconnect session' next turns' in
                    (did :: Waited backoff :: rest, r)
                end
          end
      end
  end.

(** [None]: a panic in the pairing, or the pairing still waits. *)
Definition runClient `{Invite.Invite.Kdf} `{Session.Session.TimeText} (p : pairing) (turns : list turn)
  : option (list Client.Client.pairing_action * (list action * option (option client_err))) :=
  '(acts, session) ← establishSession url_error json_error (Cli.Cli.connection_flags flags) (Cli.Cli.c_name flags) p;
  match session with
  | Err err => Some (acts, ([], Some (Some err)))
  | Ok session => Some (acts, reconnect session (2 * Second) turns)
  end.

(** ** Lemmas *)

(** What an attempt of a turn is made of. *)
Lemma attempt_on_parts session tr body w o : attempt_on session tr = Some (body, w, o) ->
  Attempt.Attempt.attempt flags w session = Some o
  /\ exists polled_i, polled_ice session tr = Some polled_i
     /\ connect_text session (with_ice session tr polled_i) (ice_of_poll polled_i) = Some body
     /\ ((exists polled_c,
            polled url_error json_error body (Client.Client.Token session) "CONNECT_RESPONSE" 200 (t_connect tr) = Some polled_c
            /\ w = set_connect (with_ice session tr polled_i) (posted url_error json_error body (t_connect tr))
                     (with_failure id (fmap connect_response) polled_c))
         \/ w = set_connect (with_ice session tr polled_i) (Err unsent) (Ok None) /\ existsb is_told o.1.1.1 = false).
Proof.
  unfold attempt_on. intros (polled_i & Hi & Ho)%bind_Some. apply bind_Some in Ho as (body' & Hb & Ho).
  destruct (polled url_error json_error body' _ _ _ _) as [polled_c|] eqn:Hc; apply bind_Some in Ho as (o' & Ha & Ho).
  - injection Ho as <- <- <-. split; [done|]. exists polled_i. split_and!; [done|done|]. left. by exists polled_c.
  - destruct (existsb is_told o'.1.1.1) eqn:Ht; [done|]. injection Ho as <- <- <-. split; [done|].
    exists polled_i. split_and!; [done|done|]. by right.
Qed.

(** Only [Access] of the session ever changes. *)
Definition same_login (s s' : sessionResult) : Prop :=
  Client.Client.Token s = Client.Client.Token s' /\ Client.Client.Secret s = Client.Client.Secret s'.

Lemma attempt_login w session evs session' r err :
  Attempt.Attempt.attempt flags w session = Some (evs, session', r, err) -> same_login session session'.
Proof.
  intros (e & acts & _ & Hrun & _)%Attempt.Attempt.attempt_parts.
  apply Client.Client.attempt_comes_to in Hrun as (pre & [[[acts0 s0] r0] err0] & post & Heq & _ & _ & Ho).
  cbn in Heq. injection Heq as _ -> _ _. destruct Ho as [(er & Ho)|(n & ended & Ho)]; [by injection Ho as _ -> _ _|].
  unfold Client.Client.use_endpoint in Ho.
  destruct (Client.Client.Access session), (Client.Client.printConfig _); by injection Ho as _ -> _ _.
Qed.

(** The attempts of a run are attempts on its turns. *)
Lemma reconnect_attempts session b turns tr s body w evs :
  Attempted tr s body w evs ∈ (reconnect session b turns).1 ->
  tr ∈ turns /\ same_login session s /\ exists s' r err, attempt_on s tr = Some (body, w, (evs, s', r, err)).
Proof.
  revert session b. induction turns as [|tr0 turns IH]; intros session b; [by intros ?%not_elem_of_nil|]. cbn [reconnect].
  destruct (t_ctx tr0); [by intros ?%not_elem_of_nil|].
  destruct (attempt_on session tr0) as [[[body0 w0] [[[evs0 s0] r0] err0]]|] eqn:Ea; [|by intros ?%not_elem_of_nil].
  set (did := Attempted tr0 session body0 w0 evs0).
  assert (Attempted tr s body w evs = did -> tr ∈ tr0 :: turns /\ same_login session s
    /\ exists s' r err, attempt_on s tr = Some (body, w, (evs, s', r, err))) as Hdid.
  { intros [= -> -> -> -> ->]. split; [by left|]. split; [done|]. by eexists _, _, _. }
  assert (same_login session s0) as Hl by (by apply attempt_on_parts in Ea as [Ea%attempt_login _]).
  destruct (Client.Client.printedConfig r0); [intros Hin%list_elem_of_singleton; by apply Hdid|].
  destruct (Client.Client.is_canceled err0); [intros Hin%list_elem_of_singleton; by apply Hdid|].
  destruct (negb _); [intros Hin%list_elem_of_singleton; by apply Hdid|]. cbv zeta.
  destruct (t_wait tr0).
  - intros [?|[?|?%not_elem_of_nil]%elem_of_cons]%elem_of_cons; [by apply Hdid|done|done].
  - match goal with |- context [reconnect s0 ?b' turns] => specialize (IH s0 b') end.
    destruct (reconnect s0 _ turns) as [rest v]. cbn [fst] in *.
    intros [?|[?|Hin]%elem_of_cons]%elem_of_cons; [by apply Hdid|done|].
    destruct (IH Hin) as (Ht & [Hl1 Hl2] & Ha). split; [by right|]. split; [|done]. destruct Hl. split; congruence.
Qed.

(** *** The answer to CONNECT *)

(** [r] is what the body of an answer of the turn's poll decodes to, an answer of
    the type waited for. *)
Definition answered (tr : turn) (r : apiResponse) : Prop :=
  exists status text data, Answers (Responded status text data) ∈ x_steps (t_connect tr)
    /\ status < 400 /\ unmarshal data = Some r /\ ResponseType r = "CONNECT_RESPONSE"%string.

Lemma connected_answer session tr body w o c : attempt_on session tr = Some (body, w, o) ->
  Attempt.Attempt.connected w = Ok c -> exists r, answered tr r /\ c = connect_response r.
Proof.
  intros (_ & polled_i & _ & _ & Hw)%attempt_on_parts. destruct Hw as [(polled_c & Hp & ->)|[-> _]]; intros Hc.
  2:{ revert Hc. unfold Attempt.Attempt.connected, with_ice. by destruct (t_host tr). }
  assert (exists r, polled_c = Ok (Some r) /\ c = connect_response r) as (r & -> & ->).
  { revert Hc. unfold Attempt.Attempt.connected, with_ice. destruct (t_host tr). cbn.
    destruct (posted _ _ body (t_connect tr)); [|done]. destruct polled_c as [[r|]|e]; [|done|done].
    intros [= <-]. by exists r. }
  exists r. split; [|done]. apply polled_provenance in Hp as
    (a & st0 & t0 & d0 & _ & _ & _ & _ & st & t & d & Hin & Hst & _ & Hu & Hty & _); [|done].
  by exists st, t, d.
Qed.

(** An address that the console's answer lists as a relay. *)
Definition relay_of (tr : turn) (x : string) : Prop :=
  exists r c, answered tr r /\ c ∈ peer_candidates r /\ Type_ c = "turn"%string /\ Addr c = x.

Lemma advertised_relay session tr body w o x : attempt_on session tr = Some (body, w, o) ->
  x ∈ Attempt.Attempt.advertised_relays w -> relay_of tr x.
Proof.
  intros Ha. unfold Attempt.Attempt.advertised_relays, Attempt.Attempt.response.
  destruct (Attempt.Attempt.connected w) as [c|e] eqn:Hc.
  2:{ cbn. by intros ?%not_elem_of_nil. }
  intros (k & -> & Hk)%list_elem_of_fmap. apply list_elem_of_filter in Hk as [Hty Hk].
  destruct (connected_answer _ _ _ _ _ _ Ha Hc) as (r & Hr & ->). by exists r, k.
Qed.

End program.

(** ** main

    The exit status of a run; [None] while it has not ended. *)
Definition main `{PionStun} `{Keys.Keys.Curve} `{Device.Device.Gvisor} `{Floats} `{Invite.Invite.Kdf} `{Session.Session.TimeText}
    `{UnicodeTables} (url_error json_error : string -> string) (hostname : result string string) (argv : list string)
    (env : Cli.Cli.environment) (profile : option string) (p : pairing) (turns : list turn) : option Z :=
  match start_of hostname argv env with
  | ShowUsage => Some 0
  | Refuse => Some 2
  | Start flags =>
      match profile with
      | Some _ => Some (Cli.Cli.main (Ok flags) profile (fun _ => None))
      | None =>
          '(_, (_, ended)) ← runClient url_error json_error flags p turns;
          err ← ended;
          Some (Cli.Cli.main (Ok flags) profile (fun _ => err))
      end
  end.

Section properties.
Context `{PionStun} `{Keys.Keys.Curve} `{Device.Device.Gvisor} `{Floats}.
Context (url_error json_error : string -> string) (flags : Cli.Cli.cliFlags).

(** What the runs of the program are made of. *)
Lemma run_attempts `{Invite.Invite.Kdf} `{Session.Session.TimeText} p turns pacts acts ended tr s body w evs :
  runClient url_error json_error flags p turns = Some (pacts, (acts, ended)) ->
  Attempted tr s body w evs ∈ acts ->
  tr ∈ turns /\ exists s' r err, attempt_on url_error json_error flags s tr = Some (body, w, (evs, s', r, err)).
Proof.
  unfold runClient. intros ([pa [session|e]] & _ & Hr)%bind_Some; cbn beta iota in Hr; apply (inj Some) in Hr.
  - injection Hr as _ Hr. intros Hin.
    assert (Attempted tr s body w evs ∈ (reconnect url_error json_error flags session (2 * Second) turns).1) as Hin'
      by by rewrite Hr. apply reconnect_attempts in Hin' as (Ht & _ & Ha). done.
  - injection Hr as _ <- _. by intros ?%not_elem_of_nil.
Qed.

(** [C1] Under --turn the program never uses anything but a relay that the console
    named. Whatever the host, the API, the STUN server and the packets do, over
    all the attempts of a run with an accepted command line that asks for TURN:
    the endpoint of every tunnel, every endpoint queued for its retries, the
    endpoint of a printed configuration, and every peer the listener hears, is
    the address of a candidate of type turn in what the body of an answer to that
    attempt's own CONNECT decodes to, an answer with a status below 400 and of
    type CONNECT_RESPONSE; and the console is only told candidates with a
    reflexive one among them. (Once a tunnel is up, the bind listens to every
    tuple: [late_direct_nomination] of [StunBind].) *)
Theorem program_turn_only `{Invite.Invite.Kdf} `{Session.Session.TimeText} `{UnicodeTables}
    (hostname : result string string) (argv : list string) (env : Cli.Cli.environment) (p : pairing) (turns : list turn)
    (pacts : list Client.Client.pairing_action) (acts : list action) (ended : option (option client_err)) :
  start_of hostname argv env = Start flags -> Cli.Cli.c_forceTurn flags = true ->
  runClient url_error json_error flags p turns = Some (pacts, (acts, ended)) ->
  (forall tr s body w evs, Attempted tr s body w evs ∈ acts -> Attempt.Attempt.plausible flags w) ->
  forall tr s body w evs, Attempted tr s body w evs ∈ acts ->
    tr ∈ turns
    /\ (forall ep queue x, Attempt.Attempt.Tunnelled ep queue ∈ evs -> x ∈ ep :: queue -> relay_of tr x)
    /\ (forall ep text, Attempt.Attempt.Printed ep text ∈ evs -> relay_of tr ep)
    /\ (forall restricted, Attempt.Attempt.Listen restricted ∈ evs -> exists allowed, restricted = Some allowed
          /\ forall x, x ∈ allowed -> relay_of tr x)
    /\ (forall pub secret local, Attempt.Attempt.Told pub secret local ∈ evs -> exists c, c ∈ local /\ Type_ c = "reflex"%string).
Proof.
  intros Hst Hforce Hrun Hpl tr s body w evs Hin. destruct (start_parts _ _ _ _ Hst) as (a & _ & Hf & Ht). rewrite Hforce in Ht. symmetry in Ht.
  destruct (run_attempts _ _ _ _ _ _ _ _ _ _ Hrun Hin) as (Htr & s' & r & err & Ha).
  split; [done|]. pose proof (attempt_on_parts _ _ _ _ _ _ _ _ Ha) as [Hatt _].
  destruct (Attempt.Attempt.attempt_turn_only flags w a env s s' evs r err Hf Ht (Hpl _ _ _ _ _ Hin) Hatt) as (Htold & Hl & Htun & Hpr).
  split_and!.
  - intros ep queue x He Hx. destruct (Htun ep queue He) as [H1' H2']. eapply advertised_relay; [exact Ha|].
    apply elem_of_cons in Hx as [->|Hx]; [done|by apply H2'].
  - intros ep text He. eapply advertised_relay; [exact Ha|]. by eapply Hpr.
  - intros restricted He. destruct (Hl restricted He) as (allowed & -> & Hall). exists allowed. split; [done|].
    intros x Hx. eapply advertised_relay; [exact Ha|]. by apply Hall.
  - intros pub secret local He. by destruct (Htold pub secret local He) as (_ & _ & _ & _ & Hc).
Qed.

(** [C5] The program leaves nothing behind. In a whole run, however many attempts it
    makes and however each ends, the sockets opened are all closed again by the
    end of the attempt that opened them, so that none is open while the program
    waits or when it returns; the listener is stopped and never reads the sockets
    beside a tunnel; and every tunnel is over, with its device, workers and proxy
    gone, before the sockets under it are closed. *)
Theorem program_leaves_nothing `{Invite.Invite.Kdf} `{Session.Session.TimeText} (p : pairing) (turns : list turn)
    (pacts : list Client.Client.pairing_action) (acts : list action) (ended : option (option client_err)) :
  runClient url_error json_error flags p turns = Some (pacts, (acts, ended)) ->
  forall tr s body w evs, Attempted tr s body w evs ∈ acts ->
    Sockets.Sockets.left_open (Attempt.Attempt.w_listen4 w) (Attempt.Attempt.w_listen6 w) (Attempt.Attempt.os_events evs) = []
    /\ exists opened mid closed, evs = (Attempt.Attempt.Os <$> opened) ++ mid ++ (Attempt.Attempt.Os <$> closed)
       /\ Attempt.Attempt.os_events mid = []
       /\ (mid <> [] -> exists sockets, (Attempt.Attempt.opening flags w).2 = Ok sockets
            /\ Sockets.Sockets.left_open (Attempt.Attempt.w_listen4 w) (Attempt.Attempt.w_listen6 w) opened
               = option_list (V4 sockets) ++ option_list (V6 sockets))
       /\ Tunnel.Tunnel.account Tunnel.Tunnel.none (Attempt.Attempt.tunnel_events mid) = Some Tunnel.Tunnel.none
       /\ Attempt.Attempt.hears false mid = Some false.
Proof.
  intros Hrun tr s body w evs Hin. destruct (run_attempts _ _ _ _ _ _ _ _ _ _ Hrun Hin) as (_ & s' & r & err & Ha).
  pose proof (attempt_on_parts _ _ _ _ _ _ _ _ Ha) as [Hatt _]. by eapply Attempt.Attempt.attempt_leaves_nothing.
Qed.

(** The text of bytes in base64 is UTF-8. *)
Lemma b64_utf8 bs : Forall is_byte bs -> utf8 (b64_encode StdEncoding bs).
Proof.
  intros Hbs. apply utf8_ascii. unfold all_ascii. apply forallb_forall. intros c Hc%list_elem_of_In.
  pose proof (b64_encode_text StdEncoding bs Hbs) as Ht. rewrite Forall_forall in Ht. destruct (Ht c Hc) as [-> |(v & Hv & ->)]; [done|].
  assert (forallb (fun v => byte_of (b64_char StdEncoding v) <? 128) (seqZ 0 64) = true) as Hall by by vm_compute.
  rewrite forallb_forall in Hall. apply Hall, list_elem_of_In, elem_of_seqZ. lia.
Qed.

(** The body of an attempt's CONNECT is made of what the attempt tells. *)
Lemma told_body s tr body w evs s' r err pub secret local :
  attempt_on url_error json_error flags s tr = Some (body, w, (evs, s', r, err)) ->
  Attempt.Attempt.Told pub secret local ∈ evs ->
  exists polled_i, polled_ice url_error json_error s tr = Some polled_i
    /\ body = connect_body s (Cli.Cli.c_name flags) pub secret local (slice_of (ice_of_poll polled_i))
    /\ Keys.Keys.randomB64 (Attempt.Attempt.w_secret w) = Some secret
    /\ pub = default EmptyString (snd <$> Attempt.Attempt.keys w).
Proof.
  intros Ha Hin. apply attempt_on_parts in Ha as (Hatt & polled_i & Hi & Hb & Hw).
  destruct (Attempt.Attempt.told_parts _ _ _ _ _ _ _ _ _ _ Hatt Hin) as (Hl & Hs & ->). exists polled_i.
  assert (Attempt.Attempt.local_candidates flags w = Attempt.Attempt.local_candidates flags (with_ice url_error json_error s tr polled_i)
    /\ Attempt.Attempt.w_secret w = Attempt.Attempt.w_secret (with_ice url_error json_error s tr polled_i)
    /\ Attempt.Attempt.keys w = Attempt.Attempt.keys (with_ice url_error json_error s tr polled_i)) as (Hlw & Hsw & Hkw).
  { destruct Hw as [(polled_c & _ & ->)|[-> _]]; unfold with_ice; by destruct (t_host tr). }
  unfold connect_text in Hb. rewrite <- Hlw, <- Hsw, <- Hkw, Hl, Hs in Hb. cbn in Hb. injection Hb as <-. by split_and!.
Qed.

(** [C2] What the console is told is what the tunnel runs with, from the bytes sent
    to the bytes the device is given. In every attempt of a run that sends
    CONNECT and configures the device of a tunnel: the body sent parses as JSON,
    and the key in it is the public half of the private key the device is given;
    the description in it decodes to the very candidates gathered and ICE servers
    fetched, in their order (with U+FFFD for bytes that are not UTF-8), all the
    candidates reflexive or at the port the sockets are bound to; and the text the
    device is given has just that private key, that port, the key of the peer that
    an answer to this CONNECT decodes to, the address the endpoint chosen resolves
    to, the keep-alive and the default routes. The device reads these settings from
    it, once each, and nothing else, unless the zone of that address has a line
    break. *)
Theorem program_agreement `{Invite.Invite.Kdf} `{Session.Session.TimeText} `{!Keys.Keys.CurveLaws}
    (p : pairing) (turns : list turn) (pacts : list Client.Client.pairing_action) (acts : list action)
    (ended : option (option client_err)) (tr : turn) (s : sessionResult) (body : json) (w : world)
    (evs : list Attempt.Attempt.event) (pub secret text ep : string) (local : list candidate) (queue : list string)
    (random random' : list Z) :
  runClient url_error json_error flags p turns = Some (pacts, (acts, ended)) ->
  Attempted tr s body w evs ∈ acts ->
  Attempt.Attempt.w_key w = Some random -> length random = 32%nat -> Forall is_byte random ->
  Attempt.Attempt.w_secret w = Some random' -> Forall is_byte random' ->
  Attempt.Attempt.Told pub secret local ∈ evs -> Attempt.Attempt.Tunnelled ep queue ∈ evs ->
  Attempt.Attempt.InTunnel (Tunnel.Tunnel.IpcSet text) ∈ evs ->
  exists v d polled_i k pk peer addr r,
    polled_ice url_error json_error s tr = Some polled_i
    /\ parse_json (json_print body) = Some v
    /\ at_path ["payload"; "client_info"; "wg_pub_key"] v = Some (JStr (b64_encode StdEncoding pk))
    /\ at_path ["payload"; "client_info"; "stun_session_secret"] v = Some (JStr secret)
    /\ at_path ["payload"; "client_info"; "peer_desc"] v = Some (wire_peer d) /\ store zero (wire_peer d) = Some d
    /\ (fun c => (Type_ c, Addr c)) <$> elements (Candidates_ d) = (fun c => (sanitize (Type_ c), sanitize (Addr c))) <$> local
    /\ elements (IceConfig d) = sent_ice <$> ice_of_poll polled_i
    /\ Keys.Keys.x25519_base k = Some pk
    /\ answered tr r /\ b64_decode StdEncoding (WGPubKey (ServerInfo_ r)) = Some peer
    /\ Tunnel.Tunnel.t_resolve (Attempt.Attempt.w_tunnel w) ep = Ok addr
    /\ text = Tunnel.Tunnel.ipc_text (GoCodec.hex_encode k) (Attempt.Attempt.port w) (GoCodec.hex_encode peer)
                (Tunnel.Tunnel.udp_text addr)
    /\ (Keys.Keys.no_newline_in (Zone addr) ->
        Keys.Keys.uapi_read text = Tunnel.Tunnel.settings k peer (Attempt.Attempt.port w) addr)
    /\ (forall c, c ∈ local -> Type_ c = "reflex"%string \/ exists ip, c = iface_candidate (Attempt.Attempt.port w) ip)
    /\ (forall q, Attempt.Attempt.Os (Sockets.Sockets.Listen4 q) ∈ evs \/ Attempt.Attempt.Os (Sockets.Sockets.Listen6 q) ∈ evs ->
          q = Attempt.Attempt.port w).
Proof.
  intros Hrun Hin Hkey Hlen Hbytes Hsec Hsb Htold Htun Hipc.
  destruct (run_attempts _ _ _ _ _ _ _ _ _ _ Hrun Hin) as (_ & s' & r & err & Ha).
  destruct (told_body _ _ _ _ _ _ _ _ _ _ _ Ha Htold) as (polled_i & Hi & -> & Hrs & Hpub).
  pose proof (attempt_on_parts _ _ _ _ _ _ _ _ Ha) as [Hatt _].
  rewrite Hsec in Hrs. cbn in Hrs. injection Hrs as Hrs.
  assert (utf8 secret) as Hus by (rewrite <- Hrs; by apply b64_utf8).
  assert (utf8 pub) as Hu.
  { rewrite Hpub. unfold Attempt.Attempt.keys. rewrite Hkey.
    destruct (Keys.Keys.wgKeypair (Some random)) as [[priv pub']|] eqn:Hp; [|done].
    destruct (Keys.Keys.keypair_reads random priv pub' Hlen Hbytes Hp) as (pk & _ & _ & Hb & _ & Hpb & _).
    cbn. rewrite Hpb. by apply b64_utf8. }
  destruct (Attempt.Attempt.attempt_agreement flags w random s s' evs r err pub secret text ep local queue
              Hkey Hlen Hbytes Hatt Htold Htun Hipc) as (k & pk & peer & addr & Hk & Hpk & Hpeer & Hres & Htext & Hread & Hc & Hq).
  assert (exists ans, answered tr ans /\ Attempt.Attempt.response w = connect_response ans) as (ans & Hans & Hresp).
  { pose proof (Attempt.Attempt.tunnelled_response _ _ _ _ _ _ _ _ _ Hatt Htun) as Hco.
    destruct (connected_answer _ _ _ _ _ _ _ _ _ Ha Hco) as (ans & Hans & Heq). by exists ans. }
  set (d := described local (ice_of_poll polled_i)).
  exists (connect_value s (Cli.Cli.c_name flags) pub secret (wire_peer d)), d, polled_i, k, pk, peer, addr, ans.
  split; [done|]. split; [apply connect_parsed|].
  split; [rewrite <- Hpk; cbn; by rewrite Hu|]. split; [cbn; by rewrite Hus|]. split; [reflexivity|].
  split; [rewrite <- wire_peer_encode; apply round_trip, described_regular|].
  split; [cbn [d described Candidates_]; by rewrite elements_slice_of, <- list_fmap_compose|].
  split; [cbn [d described IceConfig]; destruct (ice_of_poll polled_i); [done|]; by rewrite elements_slice_of|].
  rewrite Hresp in Hpeer. by split_and!.
Qed.

(** *** The program as a run of the abstract client *)

Definition waited (acts : list action) : list Z :=
  omap (fun a => match a with Waited b => Some b | Attempted _ _ _ _ _ => None end) acts.

Definition deleted_in (evs : list Attempt.Attempt.event) : list string :=
  omap (fun ev => match ev with Attempt.Attempt.DeleteRequest id => Some id | _ => None end) evs.

Definition deleted (acts : list action) : list string :=
  concat ((fun a => match a with Attempted _ _ _ _ evs => deleted_in evs | Waited _ => [] end) <$> acts).

Lemma deleted_in_app l1 l2 : deleted_in (l1 ++ l2) = deleted_in l1 ++ deleted_in l2.
Proof. apply omap_app. Qed.

Lemma deleted_os acts : deleted_in (Attempt.Attempt.Os <$> acts) = [].
Proof. unfold deleted_in. induction acts as [|a acts IH]; [done|]. by rewrite fmap_cons. Qed.

Lemma deleted_tunnel acts : deleted_in (Attempt.Attempt.InTunnel <$> acts) = [].
Proof. unfold deleted_in. induction acts as [|a acts IH]; [done|]. by rewrite fmap_cons. Qed.

(** The events of an attempt delete what its actions do. *)
Lemma deleted_expand w e acts :
  deleted_in (Attempt.Attempt.failed_opening flags w e ++ concat (Attempt.Attempt.expand flags w e <$> acts))
  = Client.Client.deletes (Client.Client.Did <$> acts).
Proof.
  rewrite deleted_in_app.
  assert (deleted_in (Attempt.Attempt.failed_opening flags w e) = []) as ->.
  { unfold Attempt.Attempt.failed_opening. destruct (Client.Client.a_keys e), (Client.Client.a_ice e); try done.
    destruct (Attempt.Attempt.opening flags w).2; [done|apply deleted_os]. }
  cbn [app]. induction acts as [|act acts IH]; [done|]. rewrite !fmap_cons. cbn [concat]. rewrite deleted_in_app, IH.
  unfold Client.Client.deletes. cbn [omap list_omap]. destruct act; cbn [Attempt.Attempt.expand];
    rewrite ?deleted_os; try done.
  change (deleted_in (?x :: ?l)) with (deleted_in l). by rewrite deleted_tunnel.
Qed.

Definition no_world : Client.Client.attempt_env :=
  {| Client.Client.a_keys := None; Client.Client.a_ice := None; Client.Client.a_sockets := Err unsent;
     Client.Client.a_local := []; Client.Client.a_turn_ready := None; Client.Client.a_secret := EmptyString;
     Client.Client.a_connect := Err unsent; Client.Client.a_nomination := Nomination.Nomination.newNominationTracker;
     Client.Client.a_resolve := {| Negotiate.Negotiate.v_order := []; Negotiate.Negotiate.v_selection := Negotiate.Negotiate.SelectionArrived;
       Negotiate.Negotiate.v_listener := Stun.Stun.newEarlyNominationListener EmptyString Nomination.Nomination.newNominationTracker;
       Negotiate.Negotiate.v_live := true; Negotiate.Negotiate.v_probe := []; Negotiate.Negotiate.v_live_after_probe := true |};
     Client.Client.a_tunnel := fun _ _ => None; Client.Client.a_duration := 0 |}.

(** The attempts of a run, each with its turn and its world. *)
Definition attempts_of (acts : list action) : list (turn * world) :=
  omap (fun a => match a with Attempted tr _ _ w _ => Some (tr, w) | Waited _ => None end) acts.

(** A wait after each attempt but perhaps the last, and none elsewhere. *)
Fixpoint alternates (acts : list action) : bool :=
  match acts with
  | [] | [Attempted _ _ _ _ _] => true
  | Attempted _ _ _ _ _ :: Waited _ :: acts' => alternates acts'
  | _ => false
  end.

(** The abstract turn of an attempt: the same context and wait, and what the
    attempt meets is what [Attempt] makes of its world. *)
Definition pictured (a : turn * world) (ct : Client.Client.client_turn) : Prop :=
  Client.Client.ct_ctx ct = t_ctx a.1 /\ Client.Client.ct_wait ct = t_wait a.1
  /\ Attempt.Attempt.calls flags a.2 = Some (Client.Client.ct_env ct).

(** The abstract turns of a run: one for each attempt, and one more if the context
    had ended before the next. *)
Definition abstract_turns (turns : list turn) (acts : list action) (cts : list Client.Client.client_turn) : Prop :=
  exists pics last, cts = pics ++ last /\ Forall2 pictured (attempts_of acts) pics
    /\ (last = [] \/ exists tr ct, last = [ct] /\ turns !! length pics = Some tr
          /\ Client.Client.ct_ctx ct = t_ctx tr /\ t_ctx tr <> None).

Definition durations (acts : list action) : list Z :=
  (fun a => Attempt.Attempt.w_duration a.2) <$> attempts_of acts.

Lemma calls_duration w e : Attempt.Attempt.calls flags w = Some e -> Client.Client.a_duration e = Attempt.Attempt.w_duration w.
Proof.
  unfold Attempt.Attempt.calls. intros (local & _ & He)%bind_Some. apply bind_Some in He as (secret & _ & He).
  apply bind_Some in He as ([t env] & _ & He). by injection He as <-.
Qed.

(** What the loop does with an attempt of these abstract actions. *)
Lemma waits_did cacts l :
  Client.Client.waits ((Client.Client.Did <$> cacts) ++ l) = Client.Client.waits l.
Proof.
  unfold Client.Client.waits. rewrite omap_app. assert (omap (fun a => match a with Client.Client.Waited b => Some b
    | Client.Client.Did _ => None end) (Client.Client.Did <$> cacts) = []) as ->; [|done].
  induction cacts as [|x acts IHa]; [done|]. exact IHa.
Qed.

Lemma deletes_did cacts l :
  Client.Client.deletes ((Client.Client.Did <$> cacts) ++ l)
  = Client.Client.deletes (Client.Client.Did <$> cacts) ++ Client.Client.deletes l.
Proof. apply omap_app. Qed.

(** The run of a loop refines that of the abstract client on these turns. *)
Definition refined (session : sessionResult) (past : list Z) (turns : list turn) (acts : list action)
    (ended : option (option client_err)) (cts : list Client.Client.client_turn) : Prop :=
  let '(cacts, cended) := Client.Client.client_loop (Cli.Cli.connection_flags flags) session (Client.Client.step_backoff past) cts in
  ended = cended /\ waited acts = Client.Client.waits cacts /\ deleted acts = Client.Client.deletes cacts
  /\ abstract_turns turns acts cts /\ (attempts_of acts).*1 `prefix_of` turns
  /\ waited acts `prefix_of` Client.Client.backoffs past (durations acts) /\ alternates acts = true.

(** An attempt that is the last thing the loop does. *)
Lemma refined_last session past tr turns body w evs e cacts v :
  t_ctx tr = None -> Attempt.Attempt.calls flags w = Some e ->
  deleted_in evs = Client.Client.deletes (Client.Client.Did <$> cacts) ->
  Client.Client.client_loop (Cli.Cli.connection_flags flags) session (Client.Client.step_backoff past)
    [{| Client.Client.ct_ctx := None; Client.Client.ct_env := e; Client.Client.ct_wait := t_wait tr |}]
  = (Client.Client.Did <$> cacts, v) ->
  refined session past (tr :: turns) [Attempted tr session body w evs] v
    [{| Client.Client.ct_ctx := None; Client.Client.ct_env := e; Client.Client.ct_wait := t_wait tr |}].
Proof.
  intros Hc He Hdel Hl. unfold refined. rewrite Hl. split; [done|].
  pose proof (waits_did cacts []) as Hw. rewrite app_nil_r in Hw. split; [by rewrite Hw|].
  split; [unfold deleted; cbn; by rewrite app_nil_r|]. split; [|split; [apply prefix_cons, prefix_nil|split; [apply prefix_nil|done]]].
  eexists [_], []. split; [reflexivity|]. split; [|by left]. by repeat constructor.
Qed.

(** An attempt and a wait, and a run that goes on from there. *)
Lemma refined_step session s' past tr turns body w evs e cacts acts v cts r err d :
  t_ctx tr = None -> t_wait tr = None -> Attempt.Attempt.calls flags w = Some e -> Attempt.Attempt.w_duration w = d ->
  deleted_in evs = Client.Client.deletes (Client.Client.Did <$> cacts) ->
  Client.Client.runConnectionAttempt (Cli.Cli.connection_flags flags) session e = Some (cacts, s', r, err) ->
  Client.Client.printedConfig r = false -> Client.Client.is_canceled err = false -> Client.Client.tunnelStarted r = true ->
  Client.Client.tunnelDuration r = d ->
  refined s' (d :: past) turns acts v cts ->
  refined session past (tr :: turns)
    (Attempted tr session body w evs :: Waited (Client.Client.backoff_of (Client.Client.streak (d :: past))) :: acts) v
    ({| Client.Client.ct_ctx := None; Client.Client.ct_env := e; Client.Client.ct_wait := None |} :: cts).
Proof.
  intros Hc Hwt He Hd Hdel Hrun Hp Hx Hs Htd. unfold refined.
  cbn [Client.Client.client_loop Client.Client.ct_ctx Client.Client.ct_env Client.Client.ct_wait].
  rewrite Hrun, Hp, Hx, Hs, Htd, Client.Client.step_backoff_streak. cbn [negb]. rewrite Client.Client.backoff_of_next.
  change (Client.Client.backoff_of (S (Client.Client.streak (d :: past)))) with (Client.Client.step_backoff (d :: past)).
  destruct (Client.Client.client_loop _ s' _ cts) as [rest cv].
  intros (-> & Hw & Hdl & (pics & last & -> & Hpics & Hlast) & Hpre & Hplan & Halt). split; [done|].
  rewrite waits_did, deletes_did. split; [unfold waited in *; cbn; by rewrite Hw|].
  split; [unfold deleted in *; cbn; by rewrite Hdl, Hdel|]. split; [|split; [by apply prefix_cons|split; [|done]]].
  - eexists (_ :: pics), last. split; [reflexivity|]. split; [constructor; [unfold pictured; cbn; by rewrite Hc, Hwt|done]|].
    destruct Hlast as [->|(tr' & ct & -> & Ht & Hct)]; [by left|]. right. by exists tr', ct.
  - unfold waited, durations in *. cbn [omap list_omap attempts_of fmap list_fmap snd]. rewrite Hd.
    cbn [Client.Client.backoffs]. by apply prefix_cons.
Qed.

Lemma reconnect_refines session past turns : exists cts,
  let '(acts, ended) := reconnect url_error json_error flags session (Client.Client.step_backoff past) turns in
  refined session past turns acts ended cts.
Proof.
  assert (forall session past turns, refined session past turns [] None []) as Hnil.
  { intros. split_and!; try done; [|apply prefix_nil..]. exists [], []. split_and!; [done|constructor|by left]. }
  revert session past. induction turns as [|tr turns IH]; intros session past; [exists []; apply Hnil|]. cbn [reconnect].
  destruct (t_ctx tr) as [er|] eqn:Ec.
  { set (ct := {| Client.Client.ct_ctx := Some er; Client.Client.ct_env := no_world; Client.Client.ct_wait := None |}).
    exists [ct]. split_and!; try done; [|apply prefix_nil..]. exists [], [ct]. split_and!; [done|constructor|].
    right. exists tr, ct. do 2 (split; [done|]). rewrite Ec. by split. }
  destruct (attempt_on url_error json_error flags session tr) as [[[body w] [[[evs s'] r] err]]|] eqn:Ea; [|exists []; apply Hnil].
  apply attempt_on_parts in Ea as [(e & cacts & He & Hrun & Hevs)%Attempt.Attempt.attempt_parts _].
  pose proof (deleted_expand w e cacts) as Hdel. rewrite <- Hevs in Hdel. clear Hevs.
  pose proof (calls_duration w e He) as Hd.
  pose proof (proj1 (Client.Client.attempt_facts _ _ _ _ _ _ _ Hrun)) as Htd. rewrite Hd in Htd.
  assert (forall v, Client.Client.client_loop (Cli.Cli.connection_flags flags) session (Client.Client.step_backoff past)
      [{| Client.Client.ct_ctx := None; Client.Client.ct_env := e; Client.Client.ct_wait := t_wait tr |}]
    = (Client.Client.Did <$> cacts, v) -> exists cts, refined session past (tr :: turns) [Attempted tr session body w evs] v cts) as Hlast.
  { intros v Hv. eexists. by eapply refined_last. }
  cbn [Client.Client.client_loop Client.Client.ct_ctx Client.Client.ct_env Client.Client.ct_wait] in Hlast. rewrite Hrun in Hlast.
  destruct (Client.Client.printedConfig r) eqn:E1; [by apply Hlast|].
  destruct (Client.Client.is_canceled err) eqn:E2; [by apply Hlast|].
  destruct (Client.Client.tunnelStarted r) eqn:E3; cbn [negb] in *; [|by apply Hlast]. clear Hlast.
  rewrite (Htd eq_refl), Client.Client.step_backoff_streak, Client.Client.backoff_of_next.
  set (d := Attempt.Attempt.w_duration w) in *.
  destruct (t_wait tr) as [ew|] eqn:Ew.
  - exists [{| Client.Client.ct_ctx := None; Client.Client.ct_env := e; Client.Client.ct_wait := Some ew |}]. unfold refined.
    cbn [Client.Client.client_loop Client.Client.ct_ctx Client.Client.ct_env Client.Client.ct_wait].
    rewrite Hrun, E1, E2, E3, (Htd eq_refl), Client.Client.step_backoff_streak. split; [done|]. rewrite waits_did, deletes_did.
    split; [done|]. split; [unfold deleted; cbn; by rewrite !app_nil_r, Hdel|]. split; [|split; [apply prefix_cons, prefix_nil|done]].
    eexists [_], []. split; [reflexivity|]. split; [|by left]. constructor; [unfold pictured; cbn; by rewrite Ec, Ew|constructor].
  - destruct (IH s' (d :: past)) as [cts Hcts]. cbn [Client.Client.step_backoff] in Hcts.
    destruct (reconnect _ _ _ s' _ turns) as [rest v]. eexists (_ :: cts). by eapply (refined_step session s' past tr); eauto.
Qed.

(** [C6] The program, from bytes to sockets, is the abstract client. Every run of its
    reconnect loop has the waits, the deletions and the end of the run of
    [Client.runClient] on the turns pictured from it: for each attempt, its own
    context and wait, and what [Attempt.calls] makes of its world, the duration of
    its tunnel included. The attempts are made on the turns in their order, with one
    wait after each but perhaps the last; the waits are, one by one, those that the
    durations of the tunnels call for, two seconds after the first and after one of
    five minutes or more, twice the last wait after any other, never more than
    thirty seconds; and the pairing request is deleted at most once and nothing else
    ever is. *)
Theorem program_refines_client (session : sessionResult) (turns : list turn) :
  let '(acts, ended) := reconnect url_error json_error flags session (2 * Second) turns in
  exists cts, abstract_turns turns acts cts
    /\ (let '(cacts, cended) := Client.Client.runClient (Cli.Cli.connection_flags flags) (Ok session) cts in
        ended = cended /\ waited acts = Client.Client.waits cacts /\ deleted acts = Client.Client.deletes cacts)
    /\ (attempts_of acts).*1 `prefix_of` turns /\ alternates acts = true
    /\ waited acts `prefix_of` Client.Client.backoffs [] (durations acts)
    /\ Forall (fun b => 2 * Second <= b <= 30 * Second) (waited acts)
    /\ deleted acts `prefix_of` option_list (Client.Client.Access session).
Proof.
  destruct (reconnect_refines session [] turns) as [cts Hc]. cbn [Client.Client.step_backoff] in Hc.
  destruct (reconnect url_error json_error flags session (2 * Second) turns) as [acts ended].
  exists cts. unfold refined in Hc. unfold Client.Client.runClient.
  pose proof (Client.Client.loop_waits (Cli.Cli.connection_flags flags) session cts) as Hw.
  pose proof (Client.Client.access_deleted_once (Cli.Cli.connection_flags flags) session cts) as Hd. unfold Client.Client.runClient in Hw, Hd.
  cbn [Client.Client.step_backoff] in Hc.
  destruct (Client.Client.client_loop _ _ _ cts) as [cacts cended]. destruct Hc as (-> & Hwt & Hdl & Habs & Hpre & Hplan & Halt).
  cbn [fst] in *. rewrite <- Hwt in Hw. rewrite <- Hdl in Hd. by split_and!.
Qed.

(** *** The end of a run *)

Definition tunnelled (evs : list Attempt.Attempt.event) : Prop := exists ep q, Attempt.Attempt.Tunnelled ep q ∈ evs.
Definition printed_in (evs : list Attempt.Attempt.event) : Prop := exists ep text, Attempt.Attempt.Printed ep text ∈ evs.

(** The actions behind these events. *)
Lemma expand_tunnelled w e act ep queue :
  Attempt.Attempt.Tunnelled ep queue ∈ Attempt.Attempt.expand flags w e act -> act = Client.Client.RunTunnel ep queue.
Proof.
  destruct act as [| | | | | |ep'|ep' queue']; cbn; try (by intros (? & ? & _)%list_elem_of_fmap);
    rewrite ?elem_of_cons, ?list_elem_of_fmap, ?elem_of_nil; naive_solver.
Qed.

Lemma expand_printed w e act ep text :
  Attempt.Attempt.Printed ep text ∈ Attempt.Attempt.expand flags w e act -> act = Client.Client.PrintConfig ep.
Proof.
  destruct act as [| | | | | |ep'|ep' queue']; cbn; try (by intros (? & ? & _)%list_elem_of_fmap);
    rewrite ?elem_of_cons, ?list_elem_of_fmap, ?elem_of_nil; naive_solver.
Qed.

(** What the result of an attempt says of its events. *)
Lemma attempt_reported s tr body w evs s' r err :
  attempt_on url_error json_error flags s tr = Some (body, w, (evs, s', r, err)) ->
  (Client.Client.tunnelStarted r = true <-> tunnelled evs) /\ (Client.Client.printedConfig r = true <-> printed_in evs)
  /\ (err = None -> Client.Client.tunnelStarted r = true \/ Client.Client.printedConfig r = true)
  /\ (Client.Client.printedConfig r = true -> err = None /\ Client.Client.tunnelStarted r = false).
Proof.
  intros [(e & acts & _ & Hrun & ->)%Attempt.Attempt.attempt_parts _]%attempt_on_parts.
  apply Client.Client.attempt_moves in Hrun as [_ (Ht & Hp & Hrest)]. cbn in Ht, Hp, Hrest.
  assert (forall ev, (forall a, ev <> Attempt.Attempt.Os a) ->
    ev ∈ Attempt.Attempt.failed_opening flags w e ++ concat (Attempt.Attempt.expand flags w e <$> acts)
    <-> exists act, act ∈ acts /\ ev ∈ Attempt.Attempt.expand flags w e act) as Hev.
  { intros ev Hos. rewrite elem_of_app, list_elem_of_In, (list_elem_of_In (concat _)), in_concat. split.
    - intros [Hf|(l & Hl & Hin)].
      + unfold Attempt.Attempt.failed_opening in Hf. destruct (Client.Client.a_keys e), (Client.Client.a_ice e); try done.
        destruct (Attempt.Attempt.opening flags w).2; [done|].
        apply list_elem_of_In, list_elem_of_fmap in Hf as (a & -> & _). by destruct (Hos a).
      + apply list_elem_of_In, list_elem_of_fmap in Hl as (act & -> & Hact). exists act. split; [done|by apply list_elem_of_In].
    - intros (act & Hact & Hin). right. exists (Attempt.Attempt.expand flags w e act). rewrite <- !list_elem_of_In. split; [|done].
      apply list_elem_of_fmap. by exists act. }
  split_and!; [rewrite Ht|rewrite Hp|apply Hrest..].
  - unfold tunnelled. split.
    + intros (ep & q & Hin). exists ep, q. apply Hev; [done|]. exists (Client.Client.RunTunnel ep q). split; [done|by left].
    + intros (ep & q & (act & Hact & Hin)%Hev); [|done]. exists ep, q.
      by apply expand_tunnelled in Hin as ->.
  - unfold printed_in. split.
    + intros (ep & Hin). eexists ep, _. apply Hev; [done|]. exists (Client.Client.PrintConfig ep). split; [done|by left].
    + intros (ep & text & (act & Hact & Hin)%Hev); [|done]. exists ep.
      by apply expand_printed in Hin as ->.
Qed.

(** How a run can end: by its context, or by its last attempt. *)
Definition end_reason (turns : list turn) (acts : list action) (v : option client_err) : Prop :=
  (exists tr, tr ∈ turns /\ v <> None /\ (t_ctx tr = v \/ t_wait tr = v))
  \/ exists before tr s body w evs, acts = before ++ [Attempted tr s body w evs]
       /\ match v with
          | None => printed_in evs
          | Some Client.Client.Canceled => True
          | Some (Client.Client.Failed _) => ~ tunnelled evs /\ ~ printed_in evs
          end.

Lemma reconnect_ends session b turns v :
  (reconnect url_error json_error flags session b turns).2 = Some v ->
  end_reason turns (reconnect url_error json_error flags session b turns).1 v.
Proof.
  revert session b. induction turns as [|tr turns IH]; intros session b; [done|]. cbn [reconnect].
  destruct (t_ctx tr) as [e|] eqn:Ec.
  { cbn. intros [= <-]. left. exists tr. split_and!; [by left|done|by left]. }
  destruct (attempt_on url_error json_error flags session tr) as [[[body w] [[[evs s'] r] err]]|] eqn:Ea; [|done].
  destruct (attempt_reported _ _ _ _ _ _ _ _ Ea) as (Ht & Hp & Hne & Hex).
  assert (forall v, match v with
      | None => printed_in evs
      | Some Client.Client.Canceled => True
      | Some (Client.Client.Failed _) => ~ tunnelled evs /\ ~ printed_in evs
      end -> end_reason (tr :: turns) [Attempted tr session body w evs] v) as Hlast.
  { intros v' Hv. right. exists [], tr, session, body, w, evs. by split. }
  destruct (Client.Client.printedConfig r) eqn:E1; [cbn; intros [= <-]; apply Hlast; by apply Hp|].
  destruct (Client.Client.is_canceled err) eqn:E2.
  { cbn. intros [= <-]. apply Hlast. by destruct err as [[]|]. }
  destruct (Client.Client.tunnelStarted r) eqn:E3; cbn [negb].
  2:{ cbn. intros [= <-]. apply Hlast. destruct err as [[|m]|]; [done| |].
      - rewrite <- Ht, <- Hp. by split.
      - by destruct (Hne eq_refl). }
  cbv zeta. destruct (t_wait tr) as [ew|] eqn:Ew.
  { cbn. intros [= <-]. left. exists tr. split_and!; [by left|done|by right]. }
  match goal with |- context [reconnect url_error json_error flags s' ?b' turns] => specialize (IH s' b') end.
  destruct (reconnect url_error json_error flags s' _ turns) as [rest v']. cbn [fst snd] in *. intros Hv. destruct (IH Hv)
    as [(tr' & Hin & Hr)|(before & tr' & s2 & body' & w' & evs' & -> & Hr)].
  - left. exists tr'. by split; [right|].
  - right. eexists (_ :: _ :: before), tr', s2, body', w', evs'. by split.
Qed.

End properties.

Section status.
Context `{PionStun} `{Keys.Keys.Curve} `{Device.Device.Gvisor} `{Floats} (url_error json_error : string -> string).

(** [C16] The exit status. The program exits with 2 exactly for a refused command
    line, and with 0 at once when it was asked for its usage. Otherwise it exits
    with 0 only when it was interrupted or its last attempt printed the
    configuration; and with 1 only when the profile cannot be started, the pairing
    fails, the context ends in another way, or its last attempt had neither a
    tunnel nor a configuration to print: a tunnel that goes down does not end the
    program. *)
Theorem exit_status `{Invite.Invite.Kdf} `{Session.Session.TimeText} `{UnicodeTables}
    (hostname : result string string) (argv : list string) (env : Cli.Cli.environment) (profile : option string)
    (p : pairing) (turns : list turn) (code : Z) :
  main url_error json_error hostname argv env profile p turns = Some code ->
  (code = 2 <-> start_of hostname argv env = Refuse)
  /\ (start_of hostname argv env = ShowUsage -> code = 0)
  /\ (forall flags, start_of hostname argv env = Start flags -> profile <> None -> code = 1)
  /\ (forall flags, start_of hostname argv env = Start flags -> profile = None -> exists pacts acts v,
        runClient url_error json_error flags p turns = Some (pacts, (acts, Some v))
        /\ (code = 0 <-> v = None \/ v = Some Client.Client.Canceled)
        /\ (code = 1 <-> exists e, v = Some (Client.Client.Failed e))
        /\ ((acts = [] /\ exists e, v = Some e
             /\ establishSession url_error json_error (Cli.Cli.connection_flags flags) (Cli.Cli.c_name flags) p = Some (pacts, Err e))
            \/ end_reason turns acts v)).
Proof.
  unfold main. destruct (start_of hostname argv env) as [| |flags'].
  1, 2: by (intros [= <-]; split_and!; try done; by split).
  destruct profile as [e|]; [intros [= <-]; split_and!; try done; by split|].
  intros ([pacts [acts ended]] & Hr & Hm)%bind_Some. apply bind_Some in Hm as (v & -> & Hm). apply (inj Some) in Hm. cbn in Hm.
  split; [destruct v as [[|]|]; cbn in Hm; subst code; by split|]. split_and!; [done|done|].
  intros flags [= <-] _. exists pacts, acts, v. split; [done|].
  split; [destruct v as [[|e]|]; cbn in Hm; subst code; naive_solver|].
  split; [destruct v as [[|e]|]; cbn in Hm; subst code; naive_solver|].
  unfold runClient in Hr. apply bind_Some in Hr as ([pa [session|e]] & Hs & Hr); cbn beta iota in Hr; apply (inj Some) in Hr.
  - right. injection Hr as _ Hr. pose proof (reconnect_ends url_error json_error flags' session (2 * Second) turns v) as He.
    rewrite Hr in He. by apply He.
  - left. injection Hr as <- <- <-. split; [done|]. by exists e.
Qed.

End status.

(** ** A concrete run

    A pairing that the console grants, and one attempt under [--turn] that the
    user interrupts once its tunnel is up. *)

#[local] Existing Instance Keys.Keys.toy_curve.
#[local] Existing Instance Keys.Keys.toy_curve_laws.
#[local] Existing Instance Tunnel.Tunnel.toy_gvisor.
#[local] Existing Instance Cli.Cli.ascii_only.
#[local] Existing Instance Attempt.Attempt.both_stun.
#[local] Existing Instance Invite.Invite.toy_kdf.
#[local] Existing Instance Session.Session.text_times.
#[local] Existing Instance every_float.

Definition accepted (id : string) : exchange_end :=
  Responded 200 "200 OK" (json_print (JObj [("teleportRequestId", JStr id)]))%string.
Definition answers (ty : string) (rest : list (string * json)) : exchange_end :=
  Responded 200 "200 OK" (json_print (JObj (("Response_Type"%string, JStr ty) :: rest))).

Definition sample_pairing : pairing := {|
  p_random := Some (replicate 16 255);
  p_file := None;
  p_exchange := {| x_posted := accepted "req-1"; x_steps :=
    [Answers (Responded 202 "202 Accepted" EmptyString);
     Answers (answers "ACCESS_GRANTED" [("token", JStr "t"); ("secret", JStr "s")])] |};
  p_ctx := None;
|}%string.

Definition sample_turn : turn := {|
  t_ctx := None;
  t_host := Attempt.Attempt.sample_world;
  t_ice := {| x_posted := accepted "ice-1"; x_steps := [Answers (DoFailed "reset" None);
    Answers (answers "ICE_CONFIGURATION" [("ice_configuration", JArr [
      JObj [("urls", JArr [JStr "stun:[2001:db8::1]"; JStr "turn:relay.example?transport=udp"]);
            ("username", JStr "u"); ("credential", JStr "c")]])])] |};
  t_connect := {| x_posted := accepted "connect-1"; x_steps := [
    Answers (answers "CONNECT_RESPONSE" [("server_info", JObj [
      ("peer_desc", JObj [("candidates", JArr [
         JObj [("type", JStr "reflex"); ("addr", JStr "198.51.100.9:6000")];
         JObj [("type", JStr "turn"); ("addr", JStr "203.0.113.5:5000")]])]);
      ("wg_pub_key", JStr Tunnel.Tunnel.sample_key); ("tunnel_addr", JStr "10.0.0.2")]);
      ("dns_addrs", JArr [JStr "10.0.0.1"])])] |};
  t_wait := None;
|}%string.

Definition sample_end : list Client.Client.pairing_action * (list action * option (option client_err)) :=
  default ([], ([], None)) (runClient id id Attempt.Attempt.sample_flags sample_pairing [sample_turn]).

Definition sample_body : json := match sample_end.2.1 with Attempted _ _ body _ _ :: _ => body | _ => JNull end.
Definition sample_world : world :=
  match sample_end.2.1 with Attempted _ _ _ w _ :: _ => w | _ => Attempt.Attempt.sample_world end.
Definition sample_events : list Attempt.Attempt.event :=
  match sample_end.2.1 with Attempted _ _ _ _ evs :: _ => evs | _ => [] end.

Lemma sample_runs : runClient id id Attempt.Attempt.sample_flags sample_pairing [sample_turn] =
  Some ([Client.Client.RequestAccess; Client.Client.PollAccess "req-1"; Client.Client.SaveSession "t" "s"],
        (sample_end.2.1, Some (Some Client.Client.Canceled))).
Proof. by vm_compute. Qed.

Definition sample_login : sessionResult := {|
  Client.Client.Token := "t"; Client.Client.Secret := "s";
  Client.Client.DeviceToken := default EmptyString (Invite.Invite.secretToToken (Cli.Cli.c_invite Attempt.Attempt.sample_flags));
  Client.Client.Access := Some "req-1" |}%string.

Lemma sample_acts : sample_end.2.1 = [Attempted sample_turn sample_login sample_body sample_world sample_events].
Proof. by vm_compute. Qed.

Lemma sample_attempted : Attempted sample_turn sample_login sample_body sample_world sample_events ∈ sample_end.2.1.
Proof. rewrite sample_acts. by left. Qed.

Definition world_of (a : action) : world := match a with Attempted _ _ _ w _ => w | Waited _ => sample_world end.

Lemma sample_only tr s body w evs : Attempted tr s body w evs ∈ sample_end.2.1 -> w = sample_world.
Proof.
  intros Hin. apply (list_elem_of_fmap_2 world_of) in Hin. revert Hin.
  replace (world_of <$> sample_end.2.1) with [sample_world] by (by rewrite sample_acts).
  intros Hw%list_elem_of_singleton. exact Hw.
Qed.

Lemma run_tunnelled : Attempt.Attempt.Tunnelled "203.0.113.5:5000" [] ∈ sample_events.
Proof.
  apply (picked Attempt.Attempt.pick_tunnelled (fun x => Attempt.Attempt.Tunnelled x.1 x.2) _ ("203.0.113.5:5000"%string, []));
    [by intros [] ? [= <-]|by vm_compute].
Qed.

Lemma run_told : Attempt.Attempt.Told "+P///////////////////////////////////////38=" "AQID" [Ice.Ice.reflexed] ∈ sample_events.
Proof.
  apply (picked Attempt.Attempt.pick_told (fun x => Attempt.Attempt.Told x.1.1 x.1.2 x.2) _
    ("+P///////////////////////////////////////38=", "AQID", [Ice.Ice.reflexed])%string); [by intros [] ? [= <-]|by vm_compute].
Qed.

Lemma run_ipc : Attempt.Attempt.InTunnel (Tunnel.Tunnel.IpcSet Attempt.Attempt.sample_text) ∈ sample_events.
Proof.
  apply (picked Attempt.Attempt.pick_ipc (fun x => Attempt.Attempt.InTunnel (Tunnel.Tunnel.IpcSet x)));
    [by intros [| | | | | | |[]] ? [= ->]|by vm_compute].
Qed.

Definition sample_argv : list string := spelled Cli.Cli.sample_arguments.

Lemma sample_starts : start_of (Ok "h"%string) sample_argv Cli.Cli.sample_environment = Start Attempt.Attempt.sample_flags.
Proof. by vm_compute. Qed.

Lemma run_plausible : Attempt.Attempt.plausible Attempt.Attempt.sample_flags sample_world.
Proof.
  assert (Attempt.Attempt.w_before sample_world = Attempt.Attempt.w_before Attempt.Attempt.sample_world
    /\ Attempt.Attempt.w_during sample_world = Attempt.Attempt.w_during Attempt.Attempt.sample_world) as [Hb Hd] by by vm_compute.
  split.
  - rewrite Hb, Hd. apply Attempt.Attempt.sample_plausible.
  - intros local secret l1 sent Hl Hr. vm_compute in Hl. injection Hl as <-. vm_compute in Hr. injection Hr as <- _. by vm_compute.
Qed.

Lemma program_turn_only_witness :
  Attempt.Attempt.Tunnelled "203.0.113.5:5000" [] ∈ sample_events /\ relay_of sample_turn "203.0.113.5:5000".
Proof.
  split; [exact run_tunnelled|].
  assert (forall tr s body w evs, Attempted tr s body w evs ∈ sample_end.2.1 ->
    Attempt.Attempt.plausible Attempt.Attempt.sample_flags w) as Hpl.
  { intros tr s body w evs Hin. rewrite (sample_only _ _ _ _ _ Hin). exact run_plausible. }
  destruct (program_turn_only id id Attempt.Attempt.sample_flags (Ok "h"%string) sample_argv Cli.Cli.sample_environment
    sample_pairing [sample_turn] _ _ _ sample_starts eq_refl sample_runs Hpl _ _ _ _ _ sample_attempted) as (_ & Ht & _).
  apply (Ht _ _ _ run_tunnelled). by left.
Defined.

Lemma program_leaves_nothing_witness :
  Attempted sample_turn sample_login sample_body sample_world sample_events ∈ sample_end.2.1
  /\ Sockets.Sockets.left_open (Ok 3) (Err "no IPv6"%string) (Attempt.Attempt.os_events sample_events) = [].
Proof.
  split; [exact sample_attempted|].
  destruct (program_leaves_nothing id id Attempt.Attempt.sample_flags sample_pairing [sample_turn] _ _ _ sample_runs
    _ _ _ _ _ sample_attempted) as [Hl _]. exact Hl.
Defined.

Lemma program_agreement_witness :
  exists v d k pk peer addr,
    parse_json (json_print sample_body) = Some v
    /\ at_path ["payload"; "client_info"; "wg_pub_key"]%string v = Some (JStr (b64_encode StdEncoding pk))
    /\ at_path ["payload"; "client_info"; "peer_desc"]%string v = Some (wire_peer d)
    /\ Keys.Keys.x25519_base k = Some pk
    /\ Keys.Keys.uapi_read Attempt.Attempt.sample_text = Tunnel.Tunnel.settings k peer 51207 addr.
Proof.
  destruct (program_agreement id id Attempt.Attempt.sample_flags sample_pairing [sample_turn]
    sample_end.1 sample_end.2.1 (Some (Some Client.Client.Canceled)) sample_turn sample_login
    sample_body sample_world sample_events "+P///////////////////////////////////////38=" "AQID" Attempt.Attempt.sample_text
    "203.0.113.5:5000" [Ice.Ice.reflexed] [] (replicate 32 255) [1; 2; 3])
    as (v & d & polled_i & k & pk & peer & addr & r & _ & Hp & Hk & _ & Hd & _ & _ & _ & Hx & _ & _ & Hres & _ & Hread & _).
  - exact sample_runs.
  - exact sample_attempted.
  - by vm_compute.
  - done.
  - apply Forall_replicate. unfold is_byte. lia.
  - by vm_compute.
  - repeat constructor; unfold is_byte; lia.
  - exact run_told.
  - exact run_tunnelled.
  - exact run_ipc.
  - exists v, d, k, pk, peer, addr. split_and!; [exact Hp|exact Hk|exact Hd|exact Hx|].
    assert (Attempt.Attempt.port sample_world = 51207) as <- by by vm_compute. apply Hread.
    vm_compute in Hres. injection Hres as <-. by vm_compute.
Defined.

Lemma exit_status_witness :
  main id id (Ok "h"%string) sample_argv Cli.Cli.sample_environment None sample_pairing [sample_turn] = Some 0
  /\ start_of (Ok "h"%string) sample_argv Cli.Cli.sample_environment <> Refuse.
Proof.
  assert (main id id (Ok "h"%string) sample_argv Cli.Cli.sample_environment None sample_pairing [sample_turn] = Some 0) as Hm
    by by vm_compute.
  split; [exact Hm|]. destruct (exit_status id id (Ok "h"%string) sample_argv Cli.Cli.sample_environment None sample_pairing
    [sample_turn] 0 Hm) as [[_ H] _].
  intros Hr. by specialize (H Hr).
Defined.

End Program.
